(* ===== verification/_CoqProject ===== *)
-Q . S2P
Prelude.v
Floats.v
Codec.v
Toml.v
Uuid.v
Types.v
Admission.v
AdmissionProofs.v
Jobs.v
JobsProofs.v
ReportProofs.v
NodeSystem.v
Guard.v
Handshake.v
HandshakeProofs.v
IPPool.v
Keyed.v
WireGuard.v
WireGuardAPI.v
UuidTables.v
Hysteria.v
Wire.v
XRay.v
V2Ray.v
Management.v
OpenVPN.v
StaticKey.v
Egress.v
EgressProofs.v
EgressPolicy.v
Runtime.v
Lifecycle.v
OpenVPNLife.v
Settings.v
TunnelLife.v
ProxyLife.v
Pki.v
Lite.v
LiteProofs.v
Grants.v
LiteExample.v
FirewallExample.v
Amnezia.v
AmneziaProofs.v
AmneziaService.v
AmneziaLaws.v
AmneziaExample.v
WireGuardInit.v
NodeConfig.v
GeoIP.v
Bandwidth.v
BandwidthProofs.v
Speedtest.v
SpeedtestProofs.v
ProxyConfig.v
ProxyInit.v
OpenVPNInit.v
ConfigFiles.v
ConfigExample.v
Commands.v
Keys.v
Api.v
WebServer.v
Start.v
LiteClient.v
Context.v
StartProofs.v
Tickers.v
StartExample.v
Services.v
Instances.v
Examples.v
