(* ===== verification/Prelude.v ===== *)
(** * A verified model of the dvpnd node

dvpnd (src/) is the node daemon of a decentralised VPN: clients who bought a
session on a blockchain connect to it, present a signed handshake, and are
served over one of six VPN protocols.  This library models the daemon's own
logic as executable definitions and proves what makes it correct.

** The program and how its parts meet

A request to the node's HTTP API passes a guard (TLS, a rate limit), is parsed
and its signature checked, and becomes an admission: the chain is asked whether
the account may use the session, and under one lock the node checks its
capacity, computes the byte budget, evicts the account's earlier peers, adds
the peer to the VPN service and writes a row to the session table.  The reply
carries the protocol's settings and is signed.  Beside the requests two jobs run:
one copies the service's counters into the rows and takes out peers that are
unknown or over their budget, the other asks the chain about each session,
retires the ended ones and reports usage.  At start the rows of an earlier run
are reported and cleared.  Each protocol keeps its own table of peers and drives
an external tool or daemon; the tunnels take addresses from pools and put up a
firewall, the proxies run as an account of their own behind another.  The start
command settles the configuration, the account and its grants, the location and
the bandwidth to advertise, the egress policy and the runtime directory, in that
order, before it starts the service.

** Files

- Prelude: bytes, 64-bit integers, the state-and-error monad [M] with the
  inversion tactic [minv], loops, lists.
- Floats: float64 as IEEE values, with Go's comparisons.
- Codec, Uuid: base64, hexadecimal, big-endian, string helpers;
  services/common/uuid.go.
- Types: types/session.go, types/service.go; the interfaces [Service],
  [SessionStore] and [Chain] with their laws.
- Toml: the quoting of utils/file.go and the lines of a configuration file.
- Admission, AdmissionProofs: api/session/admit.go, context/service.go.
- Jobs, JobsProofs, ReportProofs: node/jobs.go, node/reconcile.go, context/tx.go.
- NodeSystem: the node as a transition system, handshakes and jobs interleaved.
- Guard: api/session/guard.go, types/rest.go.
- Handshake, HandshakeProofs: api/session/handshake.go, reply.go, handlers.go,
  requests.go.
- IPPool: services/wireguard/types/ip.go, ip_pool.go.
- Keyed, UuidTables: services/common/peers.go and the tables the proxies share.
- WireGuard, WireGuardAPI, WireGuardInit: services/wireguard/.
- Hysteria; Wire, XRay; V2Ray; Management, OpenVPN, StaticKey: the packages of
  these names under services/.
- Egress, EgressProofs, EgressPolicy: services/common/egress.go, nat.go.
- Runtime: services/common/runtime.go, the account and the files of a daemon;
  Settings: the policy, the runtime and the verbosity that package common keeps.
- Lifecycle, OpenVPNLife, TunnelLife, ProxyLife: starting and stopping around the
  firewall (OpenVPN, and its nat table and server process; WireGuard and AmneziaWG;
  services/common/process.go, StartProxy and the proxies).
- Pki, OpenVPNInit: services/openvpn/pki.go, services/common/pki.go, and Init with
  config.go.
- Lite, LiteProofs: lite/query.go, tx.go and authz.go, the chain client behind
  the interface [Chain]; LiteClient: lite/client.go, its setters; Grants:
  lite/grants.go, the grants of a hot key.
- Amnezia, AmneziaProofs: services/amneziawg/types/; AmneziaService,
  AmneziaLaws: services/amneziawg/amneziawg.go.
- NodeConfig: types/config.go, types/nodetype.go, services/registry.go, and the
  configurations of OpenVPN and Hysteria2.
- GeoIP: libs/geoip/; Bandwidth, BandwidthProofs: libs/bandwidth/; Speedtest,
  SpeedtestProofs: its ookla.go, the prober behind the interface [prober].
- ProxyConfig, ProxyInit: xray/types/config.go, common/tlspin.go, the documents the
  three proxies are given, and their Init.
- ConfigFiles: the templates of every types/config.go, services/common/configcli.go
  and cmd/config.go; Keys: cmd/keys.go, cmd/authz.go; Commands: main.go, the trees
  of commands, and the defaults and the reading of every configuration.
- Api: api/ (middlewares, routes), api/status/; WebServer: utils/http.go, logger.go.
- Start, StartProofs: cmd/start.go and node/node.go; Context: context/context.go;
  Tickers: the loops of node/jobs.go around their tickers, and of the resolver.
- Services: WireGuard and the proxies behind the node's interface.
- Instances, Examples, FirewallExample, LiteExample, AmneziaExample, ConfigExample,
  StartExample: concrete collaborators that satisfy the laws the theorems assume, and the theorems run on them.

A Go struct is a record, an operation on shared state is a computation in [M S E A]
(state changes made before an early return stay), an error is a value of a sum,
a Go panic is the error side of the jobs' monad.  Names are the source's, with a
prefix where several packages use one name ([wg_AddPeer], [ov_AddPeer]); the Go
[admit] is [sessionAdmit].

** Interfaces and what is assumed

What is not in src/ is a parameter.  [ServiceLaws] is what the node relies on from
a VPN protocol and is discharged by each protocol's file (not by AmneziaWG, whose
contract, [awg_one_tier], holds for a node that adds no peer that is there).
[pki_PKI] is the authority behind the interface [PKI] of the OpenVPN service.
[SessionStoreLaws] states gorm's behaviour for the statements used, including that a zero
field of a condition matches every row.  Of the chain client nothing is assumed in the
node's theorems; its own assume that the clock does not run backwards, that
retry.Do runs its function as often as it says, and, for the bound of C18, how long
a poll takes and how late a sleep ends.
Signatures, hashes, JSON, the protowire primitives, certificates, address
parsing and the random source are parameters, with the laws of their
documentation where a theorem needs one.  [IPTablesLaws], [NatLaws] and [NetfilterLaws] are
what iptables(8) says of the commands and matches used; [DiskLaws], [ProcsLaws] and
[X509Laws] what package os, os/exec and crypto/x509 document.  The commands on
configuration files are proved against [ConfigType], which every type of
configuration instantiates, as the code does with [ConfigSpec].

Where a theorem speaks of what a run asked of a collaborator, the code runs on an
instance that keeps a log and is otherwise the collaborator it is given
([logged_chain], [logged_prober], [watched_Host]): the definitions are parametric in
their collaborators, so the log only observes.

** What is proved

- Admission (C1-C3): what a success and a refusal leave behind, the byte budget as
  the least of the caps that follow from the chain's answers.
- Jobs (C5-C9): metering (of peers whose upload moved), repair, retirement, the
  course of a report through its retries and what became of each session, the start.
- The running node (C10, C11): in every interleaving the peer limit holds and
  the table is well formed; without failures every served peer has a row.
- The jobs' loops (C13): two status updates that follow each other are never
  further apart than the chain allows; no loop drifts or bunches ([job_punctual]).
- Requests (C12, C14-C17): the rate limit and its promise ([refused_retry]), what a
  signature and the signed reply pin down, the handshake end to end: what is granted,
  served and rendered, and what each kind of refusal leaves behind.
- The chain client (C4, C18, C21, C32, C34): a query tells what a remote answered,
  waiting for a transaction ends soon after its timeout, what is queried with and what is signed with
  agree, a transaction reported as sent is in a block and carries the node's
  messages, the verdict on a hot key's grants is exact.
- Addresses and WireGuard (C22, C23): exclusive addresses, pools that suffice.
- The protocols (C24-C28, C36): who may authenticate, xray's messages and
  statistics, OpenVPN's management protocol under interleaving and failed writes,
  and the contract for WireGuard and all four proxies.  Beside these, that a client's connection to a proxy is routed
  by the policy alone ([core_routes_exact]), that a prepared proxy serves the
  certificate whose pin clients are given and keeps its files to itself
  ([hysteria_prepared], [xray_prepared], [v2ray_prepared], [openvpn_prepared]), and
  that its start and stop leave no chain behind ([proxy_lifecycle]).
- OpenVPN's authority ([authority_made], [authority_kept], [issueClient_issues]): it
  is made once, kept, and issues for one purpose.
- The firewall (C33, C37-C39): the exact verdict on a client's packets, and that a
  start however far it got followed by a stop leaves the host's tables as they
  were, for the firewall alone and, with the nat tables, for OpenVPN's whole start
  and stop, during which the server runs only behind the firewall.
- AmneziaWG (C19, C20, C35): tiers whose networks never meet and whose pools are
  sound (but for an IPv4 network written as an IPv4-mapped IPv6 one), one tier per
  peer, generated settings that are accepted.
- The configuration (C30, C40): what an accepted one promises the rest of the
  node, and that a file that was changed is read back as it was meant.
- The start (C31, C29): a service starts only when all was settled, and is
  stopped again but for one path; the bandwidth advertised is the lowest of the run's results that count, and every
  candidate is answered under any schedule of the pings ([ookla_Refine_answers]).
  The client and the context the start command makes are the ones the other
  theorems are about ([startClient_refines], [startContext_serves]), and a node
  whose configuration was accepted can be announced ([announcements_total]).
- The command line ([commands_unambiguous], [config_files_apart], [set_is_read]): no
  word names two commands, no two commands share a file, and a value that was set
  is the one that is read.
- The API ([api_answers], [api_body_bounded]) and what is logged ([api_private],
  [web_private], [logging_agrees]): every request is answered, and below the debug
  level no client address is kept, nor by the daemons; the keys
  ([keysAdd_safe], [authz_commands_suffice]): no key is overwritten, and the grants
  the operator is told to make are the ones the node asks for.

** Bounds and fuel

Integers are [Z] with their wrap-around written out where the code can reach it
([wrap64], [uint16], [uint32], bytes by type).  The loop over edge addresses runs with fuel 3,
which [skipEdges_terminates] shows is enough; the statistics parser takes the
length of its input as fuel and C26 shows it always decides; loops that draw
random numbers take fuel and return with the first value that will do
([until_returns]); polling for a transaction runs with fuel for its timeout (C18);
dialling OpenVPN's socket has fuel for its deadline ([dialManagement_decides]);
the walk over the pages of a plan has as much as there are pages; the pings of the
speed test run as many batches as the limit allows ([refine_loop_fuel]), and each
goroutine of a batch ends within its three steps ([waited_done]).  The loops that do
not end are run for any number of turns.

** Not modelled, and why

What is left of src/ has no logic of the node to state: the text of the comments in
the templates, one-line accessors, and the registration of message types with the
SDK's codecs (lite/encoding.go).  cobra's and viper's reading of a command line and
a file, the encoding and signing of transactions, zerolog, net/http, cmux, gorm and
the speed-test library are parameters, to the extent the code calls them.  The
proxies' documents are modelled as the JSON or YAML value they denote, OpenVPN's and
WireGuard's files as text.  Goroutines are steps of a transition system
([NodeSystem], the management client, the pings of the speed test), or the messages
that reach a channel ([node_Start]).  tools/ holds programs that test a node from
outside. *)
From stdpp Require Export base tactics list gmap strings.
From Stdlib Require Export ZArith Lia Strings.Byte.
From Stdlib Require Export (notations) Ascii.
#[global] Open Scope Z_scope.
#[global] Open Scope list_scope.
#[global] Set Default Goal Selector "!".

(** * Bytes

Go's [byte] is [Init.Byte.byte] (256 constructors), so a byte is in range by
its type; Go's [[]byte] is a list of them and Go's [string] is [String.string]. *)
Abbreviation bytes := (list byte).
Abbreviation ascii := Ascii.ascii.
Abbreviation N_of_ascii := Ascii.N_of_ascii.

#[export] Instance byte_eq_dec : EqDecision byte := Byte.byte_eq_dec.
#[export] Program Instance byte_countable : Countable byte :=
  inj_countable Byte.to_N Byte.of_N _.
Next Obligation. intros b; apply Byte.of_to_N. Qed.

Definition byte_to_Z (b : byte) : Z := Z.of_N (Byte.to_N b).
(** Conversion [byte(z)]: reduction modulo 256. *)
Definition byte_of_Z (z : Z) : byte :=
  default x00 (Byte.of_N (Z.to_N (z mod 256))).

Lemma byte_to_Z_range b : 0 <= byte_to_Z b < 256.
Proof. unfold byte_to_Z; pose proof (Byte.to_N_bounded b); lia. Qed.

Lemma byte_to_of_Z z : byte_to_Z (byte_of_Z z) = z mod 256.
Proof.
  unfold byte_to_Z, byte_of_Z.
  pose proof (Z.mod_pos_bound z 256 ltac:(lia)) as Hb.
  destruct (Byte.of_N (Z.to_N (z mod 256))) as [b|] eqn:Hof; simpl.
  - apply Byte.to_of_N in Hof; rewrite Hof; lia.
  - apply Byte.of_N_None_iff in Hof; lia.
Qed.

Lemma byte_of_to_Z b : byte_of_Z (byte_to_Z b) = b.
Proof.
  unfold byte_of_Z; rewrite Z.mod_small by apply byte_to_Z_range.
  unfold byte_to_Z; rewrite N2Z.id, Byte.of_to_N; done.
Qed.

#[export] Instance byte_to_Z_inj : Inj (=) (=) byte_to_Z.
Proof. intros x y Hxy; by rewrite <- (byte_of_to_Z x), Hxy, byte_of_to_Z. Qed.

(** * Machine integers

An [int64] is a [Z] in [min_int64 .. max_int64]; arithmetic wraps around. *)
Definition max_int64 : Z := 2 ^ 63 - 1.
Definition min_int64 : Z := - 2 ^ 63.
Definition is_int64 (z : Z) : Prop := min_int64 <= z <= max_int64.
Definition wrap64 (z : Z) : Z := (z + 2 ^ 63) mod 2 ^ 64 - 2 ^ 63.
Definition is_uint64 (z : Z) : Prop := 0 <= z < 2 ^ 64.

#[export] Instance is_int64_dec z : Decision (is_int64 z).
Proof. unfold is_int64; apply _. Defined.

Lemma wrap64_range z : is_int64 (wrap64 z).
Proof.
  unfold is_int64, wrap64, min_int64, max_int64.
  pose proof (Z.mod_pos_bound (z + 2 ^ 63) (2 ^ 64) ltac:(lia)); lia.
Qed.

Lemma wrap64_id z : is_int64 z -> wrap64 z = z.
Proof.
  unfold is_int64, wrap64, min_int64, max_int64; intros H.
  rewrite Z.mod_small; lia.
Qed.

(** [time.Time.Sub]: the difference of two instants in nanoseconds, saturated. *)
Definition time_Sub (t u : Z) : Z := Z.max min_int64 (Z.min max_int64 (t - u)).

(** * Results and effects

A Go function returning [(T, error)] returns [result T]; the error is kept as
data.  [M S E A] is a computation over a state [S] that may stop early with an
error [E]: the state changes made before an early return stay, as they do in Go. *)
Abbreviation gerror := string.
Abbreviation result A := (gerror + A)%type.
Definition M (S E A : Type) : Type := S -> (E + A) * S.

Section Monad.
Context {S E : Type}.

#[export] Instance M_ret : MRet (M S E) := fun A a s => (inr a, s).
#[export] Instance M_bind : MBind (M S E) := fun A B f m s =>
  match m s with
  | (inl e, s') => (inl e, s')
  | (inr a, s') => f a s'
  end.

Definition throw {A} (e : E) : M S E A := fun s => (inl e, s).
Definition gets {A} (f : S -> A) : M S E A := fun s => (inr (f s), s).
(** Run a computation for its outcome: an error becomes a value. *)
Definition attempt {E' A} (m : M S E' A) : M S E (E' + A) := fun s =>
  let '(r, s') := m s in (inr r, s').
(** Run a computation and, on an error, stop with another one. *)
Definition or_throw {E' A} (m : M S E' A) (h : E' -> E) : M S E A := fun s =>
  match m s with
  | (inl e, s') => (inl (h e), s')
  | (inr a, s') => (inr a, s')
  end.
(** An early return when a condition holds. *)
Definition throw_if (b : bool) (e : E) : M S E unit := if b then throw e else mret tt.

(** A loop that stops at the first error. *)
Fixpoint each {A} (l : list A) (f : A -> M S E unit) : M S E unit :=
  match l with
  | [] => mret tt
  | x :: l => f x ≫= fun _ => each l f
  end.

(** ** Inversion of a finished computation

    Each lemma takes a run apart into the runs of its parts; [minv] applies them. *)
Lemma bind_inv {A B} (m : M S E A) (f : A -> M S E B) s r s' :
  (m ≫= f) s = (r, s') ->
  (∃ e, m s = (inl e, s') ∧ r = inl e) ∨ (∃ a s1, m s = (inr a, s1) ∧ f a s1 = (r, s')).
Proof.
  unfold mbind, M_bind; destruct (m s) as [[e|a] s1]; intros H; simplify_eq; eauto 6.
Qed.

Lemma ret_inv {A} (a : A) s (r : E + A) s' : mret (M := M S E) a s = (r, s') -> r = inr a ∧ s' = s.
Proof. unfold mret, M_ret; naive_solver. Qed.

Lemma throw_inv {A} (e : E) s (r : E + A) s' : throw e s = (r, s') -> r = inl e ∧ s' = s.
Proof. unfold throw; naive_solver. Qed.

Lemma gets_inv {A} (f : S -> A) s (r : E + A) s' : gets f s = (r, s') -> r = inr (f s) ∧ s' = s.
Proof. unfold gets; naive_solver. Qed.

Lemma throw_if_inv b (e : E) s r s' : throw_if b e s = (r, s') ->
  s' = s ∧ (b = true ∧ r = inl e ∨ b = false ∧ r = inr tt).
Proof. unfold throw_if; destruct b; unfold throw, mret, M_ret; naive_solver. Qed.

Lemma or_throw_inv {E' A} (m : M S E' A) (h : E' -> E) s r s' : or_throw m h s = (r, s') ->
  (∃ e, m s = (inl e, s') ∧ r = inl (h e)) ∨ (∃ a, m s = (inr a, s') ∧ r = inr a).
Proof. unfold or_throw; destruct (m s) as [[]]; naive_solver. Qed.

Lemma attempt_inv {E' A} (m : M S E' A) s (r : E + (E' + A)) s' : attempt m s = (r, s') ->
  ∃ x, m s = (x, s') ∧ r = inr x.
Proof. unfold attempt; destruct (m s); naive_solver. Qed.

(** A loop that went through relates its ends by the fold of what its body does. *)
Lemma each_fold {A T} (view : S -> T) (step : A -> T -> T -> Prop) (l : list A) (f : A -> M S E unit) s s' :
  (forall x t t', f x t = (inr tt, t') -> step x (view t) (view t')) -> each l f s = (inr tt, s') ->
  match l with [] => view s' = view s | x :: l => ∃ t, step x (view s) (view t) ∧ each l f t = (inr tt, s') end.
Proof.
  intros Hf; destruct l as [|x l]; cbn; [by intros [= ->]|].
  unfold mbind, M_bind; destruct (f x s) as [[e|[]] t] eqn:Hx; [done|]; intros H; exists t; split; [by apply Hf|done].
Qed.

(** What every turn keeps, the loop keeps, whether or not it stops early. *)
Lemma each_keeps {A} (I : S -> Prop) (l : list A) (f : A -> M S E unit) s r s' :
  (forall x t r t', x ∈ l -> I t -> f x t = (r, t') -> I t') -> I s -> each l f s = (r, s') -> I s'.
Proof.
  revert s; induction l as [|x l IH]; intros s Hf Hs; cbn; [by intros [= _ <-]|].
  unfold mbind, M_bind; destruct (f x s) as [[e|[]] t] eqn:Hx.
  - intros [= _ <-]; eapply Hf; [left|done|exact Hx].
  - intros H; eapply (IH t); [|eapply Hf; [left|done|exact Hx]|exact H].
    intros y t1 r1 t2 Hy; apply Hf; by right.
Qed.
End Monad.

(** [minv H] takes apart a hypothesis [H : m s = (r, s')], giving one goal per
    way the computation can go; impossible ways are closed. *)
Ltac minv H :=
  lazymatch type of H with
  | (_ ≫= _) _ = _ =>
      let e := fresh "e" in let a := fresh "a" in let s := fresh "s" in
      let Hm := fresh "Hm" in let Hr := fresh "Hr" in
      apply bind_inv in H as [(e & H & Hr)|(a & s & Hm & H)];
      [simplify_eq; minv H | minv Hm; simplify_eq; minv H]
  | mret _ _ = _ =>
      let Hr := fresh "Hr" in let Hs := fresh "Hs" in
      apply ret_inv in H as [Hr Hs]; simplify_eq
  | throw _ _ = _ =>
      let Hr := fresh "Hr" in let Hs := fresh "Hs" in
      apply throw_inv in H as [Hr Hs]; simplify_eq
  | gets _ _ = _ =>
      let Hr := fresh "Hr" in let Hs := fresh "Hs" in
      apply gets_inv in H as [Hr Hs]; simplify_eq
  | throw_if _ _ _ = _ =>
      let Hb := fresh "Hb" in let Hr := fresh "Hr" in let Hs := fresh "Hs" in
      apply throw_if_inv in H as [Hs [[Hb Hr]|[Hb Hr]]]; simplify_eq
  | or_throw _ _ _ = _ =>
      let e := fresh "e" in let a := fresh "a" in let Hr := fresh "Hr" in
      apply or_throw_inv in H as [(e & H & Hr)|(a & H & Hr)]; simplify_eq; minv H
  | attempt _ _ = _ =>
      let x := fresh "x" in let Hr := fresh "Hr" in
      apply attempt_inv in H as (x & H & Hr); simplify_eq; minv H
  | match ?x with _ => _ end _ = _ =>
      let Hx := fresh "Hx" in destruct x eqn:Hx; simplify_eq; minv H
  | _ => idtac
  end.

(** ** Validation *)

(** A chain of checks stops at the first that fails. *)
#[export] Instance result_bind : MBind (sum gerror) := fun A B f r => match r with inl e => inl e | inr a => f a end.
Definition check (bad : bool) (e : gerror) : result unit := if bad then inl e else inr tt.

(** [%q] of a plain text. *)
Definition quoted (s : string) : string := String "034"%char (s +:+ String "034"%char "")%string.

(** [errors.Wrap]. *)
Definition Wrap {A} (msg : string) (r : result A) : result A :=
  match r with inl e => inl (msg +:+ ": " +:+ e)%string | inr a => inr a end.

Lemma check_inr bad e : check bad e = inr tt <-> bad = false.
Proof. by destruct bad. Qed.
Lemma bind_inr {A} (r : result A) (k : result unit) : (r ;; k) = inr tt <-> (∃ a, r = inr a) ∧ k = inr tt.
Proof. destruct r; cbn; naive_solver. Qed.
Lemma then_inr (r k : result unit) : (r ;; k) = inr tt <-> r = inr tt ∧ k = inr tt.
Proof. destruct r as [|[]]; cbn; naive_solver. Qed.
Lemma Wrap_inr {A} msg (r : result A) a : Wrap msg r = inr a <-> r = inr a.
Proof. by destruct r. Qed.

(** A run whose outcome is known. *)
Lemma run_outcome {A B} (p : A * B) a : p.1 = a -> p = (a, p.2).
Proof. by destruct p; intros <-. Qed.

(** * Lists *)
Lemma fmap_filter_incl {A B} (f : A -> B) (p : A -> bool) (l : list A) b :
  b ∈ (f <$> List.filter p l) -> b ∈ (f <$> l).
Proof.
  rewrite !list_elem_of_fmap; intros (x & -> & Hx); exists x; split; [done|].
  rewrite list_elem_of_In in *; by apply filter_In in Hx as [? _].
Qed.

Lemma NoDup_fmap_filter {A B} (f : A -> B) (p : A -> bool) (l : list A) :
  NoDup (f <$> l) -> NoDup (f <$> List.filter p l).
Proof.
  induction l as [|x l IH]; simpl; [done|]; intros [Hx Hl]%NoDup_cons.
  destruct (p x); simpl; [|by apply IH]; constructor; [|by apply IH].
  intros H; apply Hx; by apply fmap_filter_incl in H.
Qed.

Lemma NoDup_snoc {A} (l : list A) x : NoDup l -> x ∉ l -> NoDup (l ++ [x]).
Proof.
  intros Hl Hx; apply NoDup_app; repeat split; [done| |apply NoDup_singleton].
  intros y Hy ->%list_elem_of_singleton; done.
Qed.

Lemma NoDup_fmap_elem {A B} (f : A -> B) (l : list A) x y :
  NoDup (f <$> l) -> x ∈ l -> y ∈ l -> f x = f y -> x = y.
Proof.
  induction l as [|z l IH]; simpl; [set_solver|]; intros [Hz Hl]%NoDup_cons.
  rewrite !elem_of_cons; intros [->|Hx] [->|Hy] Hf; auto.
  - destruct Hz; rewrite Hf; by apply list_elem_of_fmap_2.
  - destruct Hz; rewrite <- Hf; by apply list_elem_of_fmap_2.
Qed.

Lemma Forall2_compose {A B C} (P : A -> B -> Prop) (Q : B -> C -> Prop) (R : A -> C -> Prop) l k m :
  (forall x y z, P x y -> Q y z -> R x z) -> Forall2 P l k -> Forall2 Q k m -> Forall2 R l m.
Proof.
  intros HR H; revert m; induction H as [|x y l k Hxy _ IH]; intros m Hm; inversion Hm; subst;
    constructor; eauto.
Qed.
