(* ===== verification/Floats.v ===== *)
(** float64 values as [spec_float] of the IEEE format: constants, Go's comparisons
    with their behaviour on NaN, and conversion to int64. *)
From Stdlib Require Export SpecFloat.
From S2P Require Import Prelude.

(** An integer constant as a float64. *)
Definition float64 (z : Z) : spec_float := binary_normalize 53 1024 z 0 false.
Definition isNaN (f : spec_float) : bool := if f is S754_nan then true else false.
Definition isInf (f : spec_float) : bool := if f is S754_infinity _ then true else false.
Definition fdiv : spec_float -> spec_float -> spec_float := SFdiv 53 1024.
Definition fmul : spec_float -> spec_float -> spec_float := SFmul 53 1024.

(** Towards zero; [None] for what is no number. *)
Definition truncate (f : spec_float) : option Z :=
  match f with
  | S754_zero _ => Some 0
  | S754_finite s m e =>
      let v := if 0 <=? e then Z.pos m * 2 ^ e else Z.pos m / 2 ^ (- e) in
      Some (if s then - v else v)
  | _ => None
  end.
(** [int64(f)].  Out of range the language leaves the value open; amd64 gives the
    least int64. *)
Definition int64_of (f : spec_float) : Z :=
  match truncate f with
  | Some z => if (min_int64 <=? z) && (z <=? max_int64) then z else min_int64
  | None => min_int64
  end.

(** Where a number is in the order: sign and class, then exponent and mantissa. *)
Definition rank (f : spec_float) : Z * Z * Z :=
  match f with
  | S754_nan => (0, 0, 0)
  | S754_zero _ => (0, 0, 0)
  | S754_infinity s => ((if s then -2 else 2), 0, 0)
  | S754_finite true m e => (-1, - e, - Z.pos m)
  | S754_finite false m e => (1, e, Z.pos m)
  end.
Definition rank_lt (a b : Z * Z * Z) : Prop :=
  a.1.1 < b.1.1 ∨ a.1.1 = b.1.1 ∧ (a.1.2 < b.1.2 ∨ a.1.2 = b.1.2 ∧ a.2 < b.2).

Lemma SFltb_rank a b : SFltb a b = true <-> isNaN a = false ∧ isNaN b = false ∧ rank_lt (rank a) (rank b).
Proof.
  unfold SFltb, SFcompare, rank_lt; destruct a as [[]|[]| |[] m e], b as [[]|[]| |[] m' e']; cbn; try (naive_solver lia);
    destruct (Z.compare_spec e e'); subst; cbn; try (naive_solver lia);
    change (Pos.compare_cont Eq m m') with (Pos.compare m m'); destruct (Pos.compare_spec m m'); subst; cbn; naive_solver lia.
Qed.

(** What is not below [m] is not below anything less than [m]. *)
Lemma SFltb_mono s v m : SFltb s m = false -> SFltb v m = true -> SFltb s v = false.
Proof.
  intros Hs Hv; destruct (SFltb s v) eqn:E; [|done].
  apply SFltb_rank in Hv as (_ & Hm & Hv), E as (Hns & _ & E).
  assert (SFltb s m = true); [|congruence].
  apply SFltb_rank; split_and!; [done..|]; unfold rank_lt in *; lia.
Qed.
Lemma SFltb_irrefl f : SFltb f f = false.
Proof. destruct (SFltb f f) eqn:E; [|done]; apply SFltb_rank in E as (_ & _ & E); unfold rank_lt in E; lia. Qed.
