(* ===== verification/Codec.v ===== *)
(** Text and binary encodings of Go's standard library that the node relies
    on: [encoding/base64] (StdEncoding), [encoding/hex], big-endian integers
    ([encoding/binary], [sdk.Uint64ToBigEndian]) and the string helpers
    [strings.Split], [strings.Join], [strings.HasPrefix], [strings.Cut]. *)
From S2P Require Import Prelude.

(** * base64.StdEncoding *)
Module Base64.

Definition alphabet : string :=
  "ABCDEFGHIJKLMNOPQRSTUVWXYZabcdefghijklmnopqrstuvwxyz0123456789+/".

(** The character of a sextet; the table is total on 0..63. *)
Definition enc_char (i : Z) : ascii :=
  default "A"%char (String.get (Z.to_nat i) alphabet).

(** The decode map, by ranges of the alphabet. *)
Definition dec_char (c : ascii) : option Z :=
  let n := Z.of_N (N_of_ascii c) in
  if (65 <=? n) && (n <=? 90) then Some (n - 65)
  else if (97 <=? n) && (n <=? 122) then Some (n - 71)
  else if (48 <=? n) && (n <=? 57) then Some (n + 4)
  else if n =? 43 then Some 62
  else if n =? 47 then Some 63
  else None.

Definition pad : ascii := "="%char.

Definition group (a b c : byte) : Z :=
  byte_to_Z a * 65536 + byte_to_Z b * 256 + byte_to_Z c.

(** [EncodeToString]: three bytes become four characters, a last short group
    is padded. *)
Fixpoint encode_chars (d : bytes) : list ascii :=
  match d with
  | [] => []
  | [a] =>
      let n := group a x00 x00 in
      [enc_char (n / 262144); enc_char (n / 4096 mod 64); pad; pad]
  | [a; b] =>
      let n := group a b x00 in
      [enc_char (n / 262144); enc_char (n / 4096 mod 64); enc_char (n / 64 mod 64); pad]
  | a :: b :: c :: rest =>
      let n := group a b c in
      enc_char (n / 262144) :: enc_char (n / 4096 mod 64)
      :: enc_char (n / 64 mod 64) :: enc_char (n mod 64) :: encode_chars rest
  end.

Definition EncodeToString (d : bytes) : string := String.string_of_list_ascii (encode_chars d).

(** The decoder ignores carriage returns and newlines wherever they are. *)
Definition skipped (c : ascii) : bool :=
  let n := N_of_ascii c in (n =? 10)%N || (n =? 13)%N.

Definition bytes3 (n : Z) : bytes :=
  [byte_of_Z (n / 65536); byte_of_Z (n / 256); byte_of_Z n].

(** Quanta of four characters; padding only in the last one and nothing after
    it; the bits the padding leaves over are not checked (the encoding is not
    strict). *)
Fixpoint decode_chars (s : list ascii) : option bytes :=
  match s with
  | [] => Some []
  | c1 :: c2 :: c3 :: c4 :: rest =>
      v1 ← dec_char c1;
      v2 ← dec_char c2;
      match dec_char c3, dec_char c4 with
      | Some v3, Some v4 =>
          d ← decode_chars rest;
          Some (bytes3 (v1 * 262144 + v2 * 4096 + v3 * 64 + v4) ++ d)
      | Some v3, None =>
          if decide (c4 = pad ∧ rest = []) then
            Some (take 2 (bytes3 (v1 * 262144 + v2 * 4096 + v3 * 64)))
          else None
      | None, _ =>
          if decide (c3 = pad ∧ c4 = pad ∧ rest = []) then
            Some (take 1 (bytes3 (v1 * 262144 + v2 * 4096)))
          else None
      end
  | _ => None
  end.

Definition DecodeString (s : string) : option bytes :=
  decode_chars (List.filter (fun c => negb (skipped c)) (String.list_ascii_of_string s)).

(** ** The encoder and the decoder agree *)

Lemma sextet_ok i : 0 <= i < 64 ->
  dec_char (enc_char i) = Some i ∧ skipped (enc_char i) = false.
Proof.
  intros H; rewrite <- (Z2Nat.id i) by lia.
  assert (Hn : (Z.to_nat i < 64)%nat) by lia; revert Hn.
  generalize (Z.to_nat i) as n; clear i H; intros n Hn.
  do 64 (destruct n as [|n]; [by split|]); lia.
Qed.

Lemma dec_enc_char i : 0 <= i < 64 -> dec_char (enc_char i) = Some i.
Proof. apply sextet_ok. Qed.
Lemma enc_char_kept i : 0 <= i < 64 -> skipped (enc_char i) = false.
Proof. apply sextet_ok. Qed.

Lemma group_range a b c : 0 <= group a b c < 16777216.
Proof.
  unfold group; pose proof (byte_to_Z_range a); pose proof (byte_to_Z_range b);
    pose proof (byte_to_Z_range c); lia.
Qed.

Lemma group_sextets n : 0 <= n < 16777216 ->
  n = (n / 262144) * 262144 + (n / 4096 mod 64) * 4096 + (n / 64 mod 64) * 64 + n mod 64
  ∧ 0 <= n / 262144 < 64 ∧ 0 <= n / 4096 mod 64 < 64 ∧ 0 <= n / 64 mod 64 < 64
  ∧ 0 <= n mod 64 < 64.
Proof. intros H; Z.to_euclidean_division_equations; lia. Qed.

Lemma bytes3_group a b c : bytes3 (group a b c) = [a; b; c].
Proof.
  pose proof (byte_to_Z_range a); pose proof (byte_to_Z_range b); pose proof (byte_to_Z_range c).
  unfold bytes3, group; f_equal; [|f_equal; [|f_equal]];
    apply (inj byte_to_Z); rewrite byte_to_of_Z;
    Z.to_euclidean_division_equations; lia.
Qed.

Lemma group_two a b : let n := group a b x00 in
  n = (n / 262144) * 262144 + (n / 4096 mod 64) * 4096 + (n / 64 mod 64) * 64.
Proof.
  cbv zeta; pose proof (group_range a b x00).
  unfold group in *; change (byte_to_Z x00) with 0 in *.
  pose proof (byte_to_Z_range a); pose proof (byte_to_Z_range b).
  Z.to_euclidean_division_equations; lia.
Qed.

Lemma group_one a : let n := group a x00 x00 in
  n = (n / 262144) * 262144 + (n / 4096 mod 64) * 4096.
Proof.
  cbv zeta; unfold group; change (byte_to_Z x00) with 0.
  pose proof (byte_to_Z_range a); Z.to_euclidean_division_equations; lia.
Qed.

Lemma triple_ind (P : bytes -> Prop) :
  P [] -> (forall a, P [a]) -> (forall a b, P [a; b]) ->
  (forall a b c d, P d -> P (a :: b :: c :: d)) -> forall d, P d.
Proof.
  intros H0 H1 H2 H3 d.
  enough (P d ∧ (forall a, P (a :: d)) ∧ (forall a b, P (a :: b :: d))) by tauto.
  induction d as [|x d (IH & IH1 & IH2)]; repeat split; auto.
Qed.

Lemma dec_pad : dec_char pad = None.
Proof. done. Qed.

Lemma decode_encode_chars d : decode_chars (encode_chars d) = Some d.
Proof.
  induction d as [|a|a b|a b c d IH] using triple_ind; [done|..]; cbn [encode_chars].
  - pose proof (group_sextets _ (group_range a x00 x00)) as (_ & H1 & H2 & _).
    cbn [decode_chars]; rewrite !dec_enc_char, dec_pad by done; cbn [mbind option_bind].
    rewrite decide_True by done; rewrite <- (group_one a), bytes3_group; done.
  - pose proof (group_sextets _ (group_range a b x00)) as (_ & H1 & H2 & H3 & _).
    cbn [decode_chars]; rewrite !dec_enc_char, dec_pad by done; cbn [mbind option_bind].
    rewrite decide_True by done; rewrite <- (group_two a b), bytes3_group; done.
  - pose proof (group_sextets _ (group_range a b c)) as (Hn & H1 & H2 & H3 & H4).
    cbn [decode_chars]; rewrite !dec_enc_char by done; cbn [mbind option_bind].
    rewrite IH; cbn [mbind option_bind]; rewrite <- Hn, bytes3_group; done.
Qed.

Lemma filter_encode_chars d :
  List.filter (fun c => negb (skipped c)) (encode_chars d) = encode_chars d.
Proof.
  induction d as [|a|a b|a b c d IH] using triple_ind; [done|..]; cbn [encode_chars].
  - pose proof (group_sextets _ (group_range a x00 x00)) as (_ & H1 & H2 & _).
    cbn [List.filter]; rewrite !enc_char_kept by done; done.
  - pose proof (group_sextets _ (group_range a b x00)) as (_ & H1 & H2 & H3 & _).
    cbn [List.filter]; rewrite !enc_char_kept by done; done.
  - pose proof (group_sextets _ (group_range a b c)) as (_ & H1 & H2 & H3 & H4).
    cbn [List.filter]; rewrite !enc_char_kept by done; cbn [negb]; by rewrite IH.
Qed.

(** Decoding an encoding gives the bytes back. *)
Lemma decode_encode d : DecodeString (EncodeToString d) = Some d.
Proof.
  unfold DecodeString, EncodeToString.
  rewrite String.list_ascii_of_string_of_list_ascii, filter_encode_chars.
  apply decode_encode_chars.
Qed.

#[global] Instance EncodeToString_inj : Inj (=) (=) EncodeToString.
Proof.
  intros x y Hxy; apply (f_equal DecodeString) in Hxy.
  rewrite !decode_encode in Hxy; congruence.
Qed.

Lemma encode_empty d : EncodeToString d = ""%string <-> d = [].
Proof.
  split; [|by intros ->].
  intros H; apply (inj EncodeToString); by rewrite H.
Qed.

(** The decoder is not injective: bits under the padding are ignored. *)
Example decode_loose :
  DecodeString "QQ==" = DecodeString "QR==" ∧ DecodeString "QQ==" = Some [x41].
Proof. by vm_compute. Qed.
End Base64.

(** * Strings as lists of characters *)
Module Str.

Abbreviation chars := (list ascii).
Definition of_string : string -> chars := String.list_ascii_of_string.
Definition to_string : chars -> string := String.string_of_list_ascii.

Lemma of_to_string l : of_string (to_string l) = l.
Proof. apply String.list_ascii_of_string_of_list_ascii. Qed.
Lemma to_of_string s : to_string (of_string s) = s.
Proof. apply String.string_of_list_ascii_of_string. Qed.

(** [strings.Split] with a one-character separator. *)
Fixpoint split (sep : ascii) (s : chars) : list chars :=
  match s with
  | [] => [[]]
  | c :: s' =>
      if decide (c = sep) then [] :: split sep s'
      else match split sep s' with
           | [] => [[c]]
           | w :: ws => (c :: w) :: ws
           end
  end.

(** [strings.Join] with a one-character separator. *)
Fixpoint join (sep : ascii) (ws : list chars) : chars :=
  match ws with
  | [] => []
  | [w] => w
  | w :: ws' => w ++ sep :: join sep ws'
  end.

(** [strings.Cut] with a one-character separator: before, after, found. *)
Fixpoint cut (sep : ascii) (s : chars) : chars * chars * bool :=
  match s with
  | [] => ([], [], false)
  | c :: s' =>
      if decide (c = sep) then ([], s', true)
      else let '(b, a, f) := cut sep s' in (c :: b, a, f)
  end.

Fixpoint has_prefix (p s : chars) : bool :=
  match p, s with
  | [], _ => true
  | c :: p', d :: s' => bool_decide (c = d) && has_prefix p' s'
  | _ :: _, [] => false
  end.

(** [strings.TrimPrefix]. *)
Lemma of_string_app s s' : of_string (s +:+ s')%string = of_string s ++ of_string s'.
Proof. unfold of_string; induction s as [|c s IH]; [done|]; simpl; f_equal; exact IH. Qed.
Lemma of_string_inj s s' : of_string s = of_string s' -> s = s'.
Proof. intros H; by rewrite <- (to_of_string s), H, to_of_string. Qed.
Lemma string_app_inv_tail s s' t : (s +:+ t = s' +:+ t)%string -> s = s'.
Proof. intros H%(f_equal of_string); rewrite !of_string_app in H; by apply app_inv_tail, of_string_inj in H. Qed.

(** [strings.Contains]. *)
Fixpoint contains (sub s : chars) : bool :=
  has_prefix sub s || match s with [] => false | _ :: s' => contains sub s' end.

Definition trim_prefix (p s : chars) : chars :=
  if has_prefix p s then drop (length p) s else s.

Lemma has_prefix_app p s : has_prefix p (p ++ s) = true.
Proof. induction p as [|c p IH]; simpl; [done|]; by rewrite bool_decide_true, IH. Qed.

Lemma has_prefix_spec p s : has_prefix p s = true <-> exists r, s = p ++ r.
Proof.
  split; [|intros [r ->]; apply has_prefix_app].
  revert s; induction p as [|c p IH]; intros s; [by exists s|].
  destruct s as [|d s]; simpl; [done|].
  rewrite andb_true_iff, bool_decide_eq_true; intros [-> Hp].
  by destruct (IH _ Hp) as [r ->]; exists r.
Qed.

Lemma trim_prefix_app p s : trim_prefix p (p ++ s) = s.
Proof. unfold trim_prefix; rewrite has_prefix_app; apply drop_app_length. Qed.

Lemma split_not_nil sep s : split sep s ≠ [].
Proof. destruct s as [|c s]; simpl; [done|]; case_decide; [done|]; by destruct (split sep s). Qed.

Lemma split_plain sep w : sep ∉ w -> split sep w = [w].
Proof.
  induction w as [|c w IH]; simpl; [done|]; intros Hw.
  rewrite decide_False by (intros ->; apply Hw; left).
  rewrite IH; [done|]; intros ?; apply Hw; by right.
Qed.

Lemma split_cons sep w s : sep ∉ w -> split sep (w ++ sep :: s) = w :: split sep s.
Proof.
  induction w as [|c w IH]; simpl; intros Hw.
  - by rewrite decide_True.
  - rewrite decide_False by (intros ->; apply Hw; left).
    rewrite IH; [done|]; intros ?; apply Hw; by right.
Qed.

Lemma cut_app sep a b : sep ∉ a -> cut sep (a ++ sep :: b) = (a, b, true).
Proof.
  induction a as [|c a IH]; cbn; [by rewrite decide_True|].
  intros [Hc Ha]%not_elem_of_cons; rewrite decide_False by congruence; by rewrite IH.
Qed.

(** Splitting a joined list gives it back when no piece has the separator. *)
Lemma split_join sep ws : ws ≠ [] -> Forall (fun w => sep ∉ w) ws -> split sep (join sep ws) = ws.
Proof.
  induction ws as [|w ws IH]; [done|]; intros _ Hws; inversion Hws; subst.
  destruct ws as [|w' ws]; cbn [join]; [by apply split_plain|].
  rewrite split_cons by done; f_equal; by apply IH.
Qed.

Lemma join_split sep s : join sep (split sep s) = s.
Proof.
  induction s as [|c s IH]; simpl; [done|].
  pose proof (split_not_nil sep s); case_decide as Hc.
  - subst; destruct (split sep s) as [|w ws]; [done|]. by rewrite <- IH.
  - destruct (split sep s) as [|w ws]; [done|].
    rewrite <- IH; by destruct ws.
Qed.
End Str.

(** * encoding/hex *)
Module Hex.

Definition digit (n : Z) : ascii :=
  default "0"%char (String.get (Z.to_nat n) "0123456789abcdef").

(** [hex.EncodeToString]. *)
Definition encode (d : bytes) : Str.chars :=
  d ≫= fun b => [digit (byte_to_Z b / 16); digit (byte_to_Z b mod 16)].

Definition value (c : ascii) : option Z :=
  let n := Z.of_N (N_of_ascii c) in
  if (48 <=? n) && (n <=? 57) then Some (n - 48)
  else if (97 <=? n) && (n <=? 102) then Some (n - 87)
  else if (65 <=? n) && (n <=? 70) then Some (n - 55)
  else None.

(** [hex.DecodeString]: either case, an odd length is an error. *)
Fixpoint decode (s : Str.chars) : option bytes :=
  match s with
  | [] => Some []
  | h :: l :: rest =>
      hv ← value h;
      lv ← value l;
      d ← decode rest;
      Some (byte_of_Z (hv * 16 + lv) :: d)
  | [_] => None
  end.

Lemma digit_ok n : 0 <= n < 16 -> value (digit n) = Some n ∧ digit n ≠ "-"%char.
Proof.
  intros H; rewrite <- (Z2Nat.id n) by lia.
  assert (Hn : (Z.to_nat n < 16)%nat) by lia; revert Hn.
  generalize (Z.to_nat n) as k; clear n H; intros k Hk.
  do 16 (destruct k as [|k]; [by split|]); lia.
Qed.

Lemma nibbles b :
  0 <= byte_to_Z b / 16 < 16 ∧ 0 <= byte_to_Z b mod 16 < 16
  ∧ byte_to_Z b / 16 * 16 + byte_to_Z b mod 16 = byte_to_Z b.
Proof. pose proof (byte_to_Z_range b); Z.to_euclidean_division_equations; lia. Qed.

Lemma encode_cons b d :
  encode (b :: d) = digit (byte_to_Z b / 16) :: digit (byte_to_Z b mod 16) :: encode d.
Proof. done. Qed.

Lemma encode_length d : length (encode d) = (2 * length d)%nat.
Proof. induction d as [|b d IH]; [done|]. rewrite encode_cons; simpl; lia. Qed.

Lemma hex_decode_encode d : decode (encode d) = Some d.
Proof.
  induction d as [|b d IH]; [done|]; rewrite encode_cons.
  destruct (nibbles b) as (H1 & H2 & H3); cbn [decode].
  rewrite (proj1 (digit_ok _ H1)), (proj1 (digit_ok _ H2)); cbn [mbind option_bind].
  by rewrite IH, H3, byte_of_to_Z.
Qed.

Lemma encode_no_dash d : "-"%char ∉ encode d.
Proof.
  induction d as [|b d IH]; [apply not_elem_of_nil|]; rewrite encode_cons.
  destruct (nibbles b) as (H1 & H2 & _).
  rewrite !not_elem_of_cons; repeat split; [..|done]; apply not_eq_sym;
    [apply (digit_ok _ H1)|apply (digit_ok _ H2)].
Qed.
End Hex.

(** * Big-endian integers *)
Module BE.

(** The [n] low bytes of [z], most significant first. *)
Fixpoint put (n : nat) (z : Z) : bytes :=
  match n with
  | O => []
  | S n' => byte_of_Z (z / 256 ^ Z.of_nat n') :: put n' z
  end.

Definition get (d : bytes) : Z := foldl (fun acc b => acc * 256 + byte_to_Z b) 0 d.

Lemma put_length n z : length (put n z) = n.
Proof. induction n as [|n IH]; simpl; [done|]; by rewrite IH. Qed.

Lemma foldl_shift d acc :
  foldl (fun acc b => acc * 256 + byte_to_Z b) acc d = acc * 256 ^ Z.of_nat (length d) + get d.
Proof.
  unfold get; revert acc; induction d as [|b d IH]; intros acc; cbn [foldl length].
  - simpl; lia.
  - rewrite IH, (IH (0 * 256 + byte_to_Z b)), Nat2Z.inj_succ, Z.pow_succ_r by lia; ring.
Qed.

Lemma get_cons b d : get (b :: d) = byte_to_Z b * 256 ^ Z.of_nat (length d) + get d.
Proof. unfold get at 1; cbn [foldl]; rewrite foldl_shift; f_equal; lia. Qed.

Lemma get_range d : 0 <= get d < 256 ^ Z.of_nat (length d).
Proof.
  induction d as [|b d IH]; [done|]; rewrite get_cons; cbn [length].
  rewrite Nat2Z.inj_succ, Z.pow_succ_r by lia; pose proof (byte_to_Z_range b); nia.
Qed.

Lemma get_put n z : get (put n z) = z mod 256 ^ Z.of_nat n.
Proof.
  induction n as [|n IH]; [by rewrite Z.mod_1_r|].
  cbn [put]; rewrite get_cons, put_length, byte_to_of_Z, IH.
  rewrite Nat2Z.inj_succ, Z.pow_succ_r by lia.
  pose proof (Z.pow_pos_nonneg 256 (Z.of_nat n) ltac:(lia) ltac:(lia)).
  rewrite (Z.mul_comm 256), Z.rem_mul_r by lia; ring.
Qed.

Lemma get_inj d d' : length d = length d' -> get d = get d' -> d = d'.
Proof.
  revert d'; induction d as [|b d IH]; intros [|b' d'] Hl; try done.
  rewrite !get_cons; injection Hl as Hl; rewrite Hl; intros Hg.
  pose proof (get_range d); pose proof (get_range d'); rewrite Hl in *.
  assert (byte_to_Z b = byte_to_Z b') as ->%(inj byte_to_Z) by nia.
  f_equal; apply IH; [done|lia].
Qed.

Lemma put_inj n z z' :
  0 <= z < 256 ^ Z.of_nat n -> 0 <= z' < 256 ^ Z.of_nat n -> put n z = put n z' -> z = z'.
Proof. intros H H' E; apply (f_equal get) in E; by rewrite !get_put, !Z.mod_small in E. Qed.

Lemma put_get d : put (length d) (get d) = d.
Proof.
  apply get_inj; [apply put_length|]; rewrite get_put, Z.mod_small; [done|apply get_range].
Qed.

(** [sdk.Uint64ToBigEndian], [binary.BigEndian.PutUint16/32]. *)
Definition uint64 (z : Z) : bytes := put 8 z.
Definition uint32 (z : Z) : bytes := put 4 z.
Definition uint16 (z : Z) : bytes := put 2 z.

(** A fixed-width prefix leaves no ambiguity about where the rest starts. *)
Lemma uint64_app_inj i i' d d' :
  is_uint64 i -> is_uint64 i' -> uint64 i ++ d = uint64 i' ++ d' -> i = i' ∧ d = d'.
Proof.
  unfold is_uint64; intros Hi Hi' E; apply app_inj_1 in E as [E ->]; [|by unfold uint64; rewrite !put_length].
  split; [|done]; by apply (put_inj 8).
Qed.
End BE.
