(* ===== verification/Toml.v ===== *)
(** Values in the configuration files: [TOMLString] of src/utils/file.go, which is
    the string encoder of encoding/json, and the lines the templates render.

    What a TOML reader makes of a line is the reference here ([basicString] follows
    the basic strings of TOML 1.0, [readLine] the lines the templates write); the
    theorems say that a value comes back whole, whatever the operator put in it. *)
From S2P Require Import Prelude Codec.
Set Default Proof Using "Type*".

Definition ord (c : ascii) : Z := Z.of_N (N_of_ascii c).
Definition quote : ascii := "034".
Definition backslash : ascii := "092".
Definition newLine : ascii := "010".
Definition DEL : ascii := "127".

(** * UTF-8, as [utf8.DecodeRuneInString] accepts it *)
Definition between (a b : Z) (c : ascii) : bool := (a <=? ord c) && (ord c <=? b).
Definition cont : ascii -> bool := between 128 191.
Definition two (c0 c1 : ascii) : bool := between 194 223 c0 && cont c1.
Definition second3 (c0 c1 : ascii) : bool :=
  between 225 236 c0 && cont c1 || between 238 239 c0 && cont c1 || (ord c0 =? 224) && between 160 191 c1 || (ord c0 =? 237) && between 128 159 c1.
Definition three (c0 c1 c2 : ascii) : bool := second3 c0 c1 && cont c2.
Definition second4 (c0 c1 : ascii) : bool :=
  between 241 243 c0 && cont c1 || (ord c0 =? 240) && between 144 191 c1 || (ord c0 =? 244) && between 128 143 c1.
Definition four (c0 c1 c2 c3 : ascii) : bool := second4 c0 c1 && cont c2 && cont c3.

Inductive utf8 : Str.chars -> Prop :=
  | utf8_nil : utf8 []
  | utf8_1 c s : ord c < 128 -> utf8 s -> utf8 (c :: s)
  | utf8_2 c0 c1 s : two c0 c1 = true -> utf8 s -> utf8 (c0 :: c1 :: s)
  | utf8_3 c0 c1 c2 s : three c0 c1 c2 = true -> utf8 s -> utf8 (c0 :: c1 :: c2 :: s)
  | utf8_4 c0 c1 c2 c3 s : four c0 c1 c2 c3 = true -> utf8 s -> utf8 (c0 :: c1 :: c2 :: c3 :: s).

(** * [TOMLString]: encoding/json's string, HTML left alone *)
Definition escaped (c : ascii) : Str.chars :=
  if decide (c = quote ∨ c = backslash) then [backslash; c] else
  match ord c with
  | 8 => [backslash; "b"%char] | 12 => [backslash; "f"%char] | 10 => [backslash; "n"%char] | 13 => [backslash; "r"%char]
  | 9 => [backslash; "t"%char]
  | n => if n <? 32 then [backslash; "u"%char; "0"%char; "0"%char; Hex.digit (n / 16); Hex.digit (n mod 16)] else [c]
  end.
(** U+2028 and U+2029, which JavaScript takes for line ends. *)
Definition lineSeparator (c0 c1 c2 : ascii) : bool := (ord c0 =? 226) && (ord c1 =? 128) && between 168 169 c2.
Definition rune3 (c0 c1 c2 : ascii) : Str.chars :=
  if lineSeparator c0 c1 c2 then [backslash; "u"%char; "2"%char; "0"%char; "2"%char; Hex.digit (ord c2 mod 16)] else [c0; c1; c2].
Definition replacement : Str.chars := [backslash; "u"; "f"; "f"; "f"; "d"]%char.
(** A byte that starts no character becomes the replacement character. *)
Fixpoint jsonChars (s : Str.chars) : Str.chars :=
  match s with
  | [] => []
  | c0 :: s1 =>
      if ord c0 <? 128 then escaped c0 ++ jsonChars s1 else
      match s1 with
      | [] => replacement
      | c1 :: s2 =>
          if two c0 c1 then c0 :: c1 :: jsonChars s2 else
          match s2 with
          | [] => replacement ++ jsonChars s1
          | c2 :: s3 =>
              if three c0 c1 c2 then rune3 c0 c1 c2 ++ jsonChars s3 else
              match s3 with
              | [] => replacement ++ jsonChars s1
              | c3 :: s4 => if four c0 c1 c2 c3 then c0 :: c1 :: c2 :: c3 :: jsonChars s4 else replacement ++ jsonChars s1
              end
          end
      end
  end.
Definition TOMLString (v : string) : Str.chars := quote :: jsonChars (Str.of_string v) ++ [quote].

(** * The reference reader of a basic string *)
Definition chr (n : Z) : ascii := Ascii.ascii_of_N (Z.to_N n).
Definition encodeRune (n : Z) : option Str.chars :=
  if n <? 128 then Some [chr n]
  else if n <? 2048 then Some [chr (192 + n / 64); chr (128 + n mod 64)]
  else if (55296 <=? n) && (n <=? 57343) then None
  else Some [chr (224 + n / 4096); chr (128 + n / 64 mod 64); chr (128 + n mod 64)].
Definition hex4 (a b c d : ascii) : option Z :=
  va ← Hex.value a; vb ← Hex.value b; vc ← Hex.value c; vd ← Hex.value d; Some (((va * 16 + vb) * 16 + vc) * 16 + vd).
Definition simpleEscape (c : ascii) : option ascii :=
  match ord c with
  | 98 => Some "008"%char | 116 => Some "009"%char | 110 => Some "010"%char | 102 => Some "012"%char | 114 => Some "013"%char
  | 34 => Some quote | 92 => Some backslash | _ => None
  end.
(** Control characters other than a tab must be escaped. *)
Definition literal (c : ascii) : bool := (ord c =? 9) || (32 <=? ord c) && negb (ord c =? 127).
Definition before (x : Str.chars) (r : option (Str.chars * Str.chars)) : option (Str.chars * Str.chars) :=
  match r with Some (v, rest) => Some (x ++ v, rest) | None => None end.
(** The text of a basic string after its opening quote, and what follows it. *)
Fixpoint basicString (s : Str.chars) : option (Str.chars * Str.chars) :=
  match s with
  | [] => None
  | c :: s1 =>
      if decide (c = quote) then Some ([], s1) else
      if decide (c = backslash) then
        match s1 with
        | [] => None
        | e :: s2 =>
            match simpleEscape e with
            | Some x => before [x] (basicString s2)
            | None =>
                if decide (e = "u"%char) then
                  match s2 with
                  | h1 :: h2 :: h3 :: h4 :: s3 =>
                      match hex4 h1 h2 h3 h4 ≫= encodeRune with
                      | Some x => before x (basicString s3)
                      | None => None
                      end
                  | _ => None
                  end
                else None
            end
        end
      else if literal c then before [c] (basicString s1) else None
  end.

(** * A string comes back whole *)
Lemma basic_escaped c t v : ord c < 128 -> c ≠ DEL -> basicString t = Some v -> basicString (escaped c ++ t) = before [c] (Some v).
Proof.
  intros Hc Hd Ht; destruct c as [[] [] [] [] [] [] [] []]; try done;
    (match goal with |- context [escaped ?c] => let e := eval vm_compute in (escaped c) in change (escaped c) with e end);
    cbn -[hex4 encodeRune before]; rewrite Ht; done.
Qed.
Lemma basic_literal c t : 128 <= ord c -> basicString (c :: t) = before [c] (basicString t).
Proof.
  intros Hc; cbn [basicString]; rewrite !decide_False by (intros ->; done); unfold literal.
  rewrite (proj2 (Z.leb_le 32 _)) by lia; destruct (Z.eqb_spec (ord c) 127); [lia|].
  by destruct (Z.eqb_spec (ord c) 9).
Qed.
Lemma between_spec a b c : between a b c = true <-> a <= ord c <= b.
Proof. unfold between; rewrite andb_true_iff, !Z.leb_le; lia. Qed.
Lemma two_high c0 c1 : two c0 c1 = true -> 128 <= ord c0 ∧ 128 <= ord c1.
Proof. unfold two, cont; rewrite andb_true_iff, !between_spec; lia. Qed.
Lemma three_high c0 c1 c2 : three c0 c1 c2 = true -> 128 <= ord c0 ∧ 128 <= ord c1 ∧ 128 <= ord c2.
Proof.
  unfold three, second3, cont; rewrite !andb_true_iff, !orb_true_iff, !andb_true_iff, !between_spec, !Z.eqb_eq; lia.
Qed.
Lemma four_high c0 c1 c2 c3 : four c0 c1 c2 c3 = true -> 128 <= ord c0 ∧ 128 <= ord c1 ∧ 128 <= ord c2 ∧ 128 <= ord c3.
Proof.
  unfold four, second4, cont; rewrite !andb_true_iff, !orb_true_iff, !andb_true_iff, !between_spec, !Z.eqb_eq; lia.
Qed.
Lemma basic_high l t : Forall (fun c => 128 <= ord c) l -> basicString (l ++ t) = before l (basicString t).
Proof.
  induction 1 as [|c l Hc _ IH]; cbn [app]; [by destruct (basicString t) as [[]|]|].
  rewrite basic_literal, IH by done; by destruct (basicString t) as [[]|].
Qed.
Lemma basic_separator c0 c1 c2 t : lineSeparator c0 c1 c2 = true ->
  basicString ([backslash; "u"%char; "2"%char; "0"%char; "2"%char; Hex.digit (ord c2 mod 16)] ++ t) = before [c0; c1; c2] (basicString t).
Proof.
  unfold lineSeparator; rewrite !andb_true_iff, !Z.eqb_eq, between_spec; intros [[H0 H1] H2].
  assert (forall c n, 0 <= n -> ord c = n -> c = chr n) as Hchr.
  { intros c n _ <-; unfold chr, ord; by rewrite N2Z.id, Ascii.ascii_N_embedding. }
  assert (ord c2 = 168 ∨ ord c2 = 169) as [E|E] by lia; rewrite E;
    (apply Hchr in H0, H1, E; [|done..]); subst; done.
Qed.
Lemma basic_rune3 c0 c1 c2 t : three c0 c1 c2 = true -> basicString (rune3 c0 c1 c2 ++ t) = before [c0; c1; c2] (basicString t).
Proof.
  intros H; unfold rune3; destruct (lineSeparator c0 c1 c2) eqn:E; [by apply basic_separator|].
  apply basic_high; apply three_high in H; by repeat (constructor; try lia).
Qed.

(** [jsonChars] at a character of each width. *)
Lemma json_1 c s : ord c < 128 -> jsonChars (c :: s) = escaped c ++ jsonChars s.
Proof. intros H; cbn; by rewrite (proj2 (Z.ltb_lt _ _) H). Qed.
Lemma high_not_ascii c : 128 <= ord c -> (ord c <? 128) = false.
Proof. apply Z.ltb_ge. Qed.
Lemma json_2 c0 c1 s : two c0 c1 = true -> jsonChars (c0 :: c1 :: s) = [c0; c1] ++ jsonChars s.
Proof. intros H; pose proof (two_high _ _ H) as []; cbn; by rewrite high_not_ascii, H. Qed.
Lemma three_not_two c0 c1 c2 : three c0 c1 c2 = true -> two c0 c1 = false.
Proof.
  intros H; apply not_true_is_false; intros H2; revert H H2.
  unfold three, second3, two, cont; rewrite !andb_true_iff, !orb_true_iff, !andb_true_iff, !between_spec, !Z.eqb_eq; lia.
Qed.
Lemma json_3 c0 c1 c2 s : three c0 c1 c2 = true -> jsonChars (c0 :: c1 :: c2 :: s) = rune3 c0 c1 c2 ++ jsonChars s.
Proof.
  intros H; pose proof (three_high _ _ _ H) as []; cbn; by rewrite high_not_ascii, (three_not_two _ _ _ H), H.
Qed.
Lemma four_not_less c0 c1 c2 c3 : four c0 c1 c2 c3 = true -> two c0 c1 = false ∧ three c0 c1 c2 = false.
Proof.
  intros H; split; apply not_true_is_false; intros H2; revert H H2;
    unfold four, second4, three, second3, two, cont; rewrite !andb_true_iff, !orb_true_iff, !andb_true_iff, !between_spec, !Z.eqb_eq; lia.
Qed.
Lemma json_4 c0 c1 c2 c3 s : four c0 c1 c2 c3 = true -> jsonChars (c0 :: c1 :: c2 :: c3 :: s) = [c0; c1; c2; c3] ++ jsonChars s.
Proof.
  intros H; pose proof (four_high _ _ _ _ H) as []; destruct (four_not_less _ _ _ _ H) as [E2 E3].
  cbn; by rewrite high_not_ascii, E2, E3, H.
Qed.

(** A value that is text: UTF-8 without the delete character. *)
Definition text (v : string) : Prop := utf8 (Str.of_string v) ∧ DEL ∉ Str.of_string v.
Lemma basic_json s rest : utf8 s -> DEL ∉ s -> basicString (jsonChars s ++ quote :: rest) = Some (s, rest).
Proof.
  induction 1 as [|c s Hc _ IH|c0 c1 s Hc _ IH|c0 c1 c2 s Hc _ IH|c0 c1 c2 c3 s Hc _ IH]; intros Hd; [done|..].
  all: rewrite ?not_elem_of_cons in Hd; destruct_and? Hd.
  - by rewrite json_1, <- (assoc_L app), (basic_escaped _ _ _ Hc) by eauto.
  - rewrite json_2, <- (assoc_L app), basic_high, IH by (done || apply two_high in Hc; by repeat (constructor; try lia)); done.
  - by rewrite json_3, <- (assoc_L app), basic_rune3, IH.
  - rewrite json_4, <- (assoc_L app), basic_high, IH by (done || apply four_high in Hc; by repeat (constructor; try lia)); done.
Qed.

(** Whatever it holds, a value stays on its line. *)
Lemma escaped_line c : newLine ∉ escaped c.
Proof. apply (bool_decide_unpack (_ ∉ _)); by destruct c as [[] [] [] [] [] [] [] []]; vm_compute. Qed.
Lemma json_line s : newLine ∉ jsonChars s.
Proof.
  assert (forall c, 128 <= ord c -> newLine ≠ c) as Hhigh by (intros c Hc <-; change (ord newLine) with 10 in Hc; lia).
  assert (newLine ∉ replacement) as Hr by (by apply (bool_decide_unpack (_ ∉ _))).
  assert (forall c0 c1 c2, three c0 c1 c2 = true -> newLine ∉ rune3 c0 c1 c2) as H3.
  { intros c0 c1 c2 (H0 & H1 & H2)%three_high; unfold rune3; destruct (lineSeparator c0 c1 c2) eqn:E.
    - unfold lineSeparator in E; rewrite !andb_true_iff, !Z.eqb_eq, between_spec in E; destruct E as [_ E].
      assert (ord c2 = 168 ∨ ord c2 = 169) as [-> | ->] by lia; by apply (bool_decide_unpack (_ ∉ _)).
    - set_solver. }
  induction s as [s IH] using (induction_ltof1 _ (@length ascii)); unfold ltof in IH.
  destruct s as [|c0 s1]; [set_solver|]; cbn [jsonChars].
  destruct (Z.ltb_spec (ord c0) 128); [rewrite not_elem_of_app; split; [apply escaped_line|apply IH; cbn; lia]|].
  pose proof (IH s1 ltac:(cbn; lia)) as I1; destruct s1 as [|c1 s2]; [done|].
  destruct (two c0 c1) eqn:E2; [apply two_high in E2 as []; pose proof (IH s2 ltac:(cbn; lia)); set_solver|].
  destruct s2 as [|c2 s3]; [set_solver|].
  destruct (three c0 c1 c2) eqn:E3; [apply H3 in E3; pose proof (IH s3 ltac:(cbn; lia)); set_solver|].
  destruct s3 as [|c3 s4]; [set_solver|].
  destruct (four c0 c1 c2 c3) eqn:E4; [apply four_high in E4 as (? & ? & ? & ?); pose proof (IH s4 ltac:(cbn; lia)); set_solver|].
  set_solver.
Qed.

(** * The lines of a configuration file

    The templates' comments and blank lines are left out; a value goes through
    [TOMLString] or is printed as it is (a number or a boolean). *)
Inductive value := Quoted (v : string) | Plain (v : string).
Inductive tline := SectionLine (name : string) | KeyLine (k : string) (v : value).
Definition doc : Type := list tline.

Definition renderValue (v : value) : Str.chars := match v with Quoted v => TOMLString v | Plain v => Str.of_string v end.
Definition renderLine (l : tline) : Str.chars :=
  match l with
  | SectionLine name => "["%char :: Str.of_string name ++ ["]"%char]
  | KeyLine k v => Str.of_string k ++ [" "; "="; " "]%char ++ renderValue v
  end.
Definition render (d : doc) : string := Str.to_string (Str.join newLine (renderLine <$> d)).

(** What the reader takes from such a line. *)
Definition readValue (s : Str.chars) : option value :=
  match s with
  | [] => None
  | c :: s' =>
      if decide (c = quote) then match basicString s' with Some (v, []) => Some (Quoted (Str.to_string v)) | _ => None end
      else Some (Plain (Str.to_string s))
  end.
Definition readLine (l : Str.chars) : option tline :=
  match l with
  | [] => None
  | c :: r =>
      if decide (c = "["%char) then
        let '(name, rest, closed) := Str.cut "]" r in
        if closed && bool_decide (rest = []) then Some (SectionLine (Str.to_string name)) else None
      else
        let '(k, rest, found) := Str.cut " " l in
        match rest with
        | e :: b :: v => if decide (e = "="%char ∧ b = " "%char) then KeyLine (Str.to_string k) <$> readValue v else None
        | _ => None
        end
  end.
Fixpoint readLines (ls : list Str.chars) : option doc :=
  match ls with
  | [] => Some []
  | l :: ls => x ← readLine l; d ← readLines ls; Some (x :: d)
  end.
Definition readDoc (s : string) : option doc := readLines (Str.split newLine (Str.of_string s)).

Definition bare (k : string) : Prop :=
  ("["%char ∉ Str.of_string k) ∧ (" "%char ∉ Str.of_string k) ∧ ("]"%char ∉ Str.of_string k) ∧ (newLine ∉ Str.of_string k) ∧ (k ≠ ""%string).
#[export] Instance bare_dec k : Decision (bare k).
Proof. unfold bare; apply _. Defined.
Definition value_ok (v : value) : Prop :=
  match v with Quoted v => text v | Plain v => (v ≠ ""%string) ∧ (quote ∉ Str.of_string v) ∧ (newLine ∉ Str.of_string v) end.
Definition line_ok (l : tline) : Prop := match l with SectionLine n => bare n | KeyLine k v => bare k ∧ value_ok v end.

Lemma of_string_nil k : Str.of_string k = [] -> k = ""%string.
Proof. by destruct k. Qed.

Lemma read_renderValue v : value_ok v -> readValue (renderValue v) = Some v.
Proof.
  destruct v as [v|v]; cbn.
  - intros [Hu Hd]; by rewrite basic_json, Str.to_of_string.
  - intros (Hne & Hq & _); destruct (Str.of_string v) as [|c s] eqn:E; [by apply of_string_nil in E|]; cbn [readValue].
    rewrite decide_False by (intros ->; set_solver); by rewrite <- E, Str.to_of_string.
Qed.
Lemma read_renderLine l : line_ok l -> readLine (renderLine l) = Some l.
Proof.
  destruct l as [n|k v]; cbn [line_ok renderLine].
  - intros (_ & _ & Hb & _); unfold readLine; rewrite decide_True, Str.cut_app by done; cbn; by rewrite Str.to_of_string.
  - intros [(Hb & Hs & _ & _ & Hne) Hv]; pose proof (Str.cut_app " " (Str.of_string k) ("="%char :: " "%char :: renderValue v) Hs) as Hcut.
    unfold readLine; destruct (Str.of_string k) as [|c s] eqn:E; [by apply of_string_nil in E|]; cbn [app].
    rewrite decide_False by (intros ->; set_solver).
    cbn [app] in Hcut; rewrite Hcut, decide_True, read_renderValue by done; cbn [fmap option_fmap option_map]; by rewrite <- E, Str.to_of_string.
Qed.
Lemma not_in_one (a b : ascii) : bool_decide (a = b) = false -> a ∉ [b].
Proof. intros H%bool_decide_eq_false; set_solver. Qed.
Lemma renderLine_line l : line_ok l -> newLine ∉ renderLine l.
Proof.
  destruct l as [n|k v]; cbn [renderLine line_ok].
  - intros (_ & _ & _ & Hn & _); rewrite not_elem_of_cons, not_elem_of_app; split_and!; [done|done|by apply not_in_one].
  - intros [(_ & _ & _ & Hn & _) Hv]; rewrite not_elem_of_app; split; [done|]; rewrite not_elem_of_app; split; [by apply (bool_decide_unpack (_ ∉ _))|].
    destruct v as [v|v]; [|by destruct Hv as (_ & _ & ?)]; cbn [renderValue]; unfold TOMLString; rewrite not_elem_of_cons, not_elem_of_app.
    split_and!; [done|apply json_line|by apply not_in_one].
Qed.

(** A configuration file is read back as it was written. *)
Lemma read_render d : d ≠ [] -> Forall line_ok d -> readDoc (render d) = Some d.
Proof.
  intros Hne Hok; unfold readDoc, render; rewrite Str.of_to_string, Str.split_join.
  - clear Hne; induction Hok as [|l d Hl _ IH]; cbn; [done|]; by rewrite read_renderLine, IH.
  - by destruct d.
  - rewrite Forall_fmap; eapply Forall_impl; [exact Hok|]; intros l; apply renderLine_line.
Qed.

(** A value in printable ASCII is text, as is one with controls other than delete. *)
Lemma ascii_text v : forallb (fun c => (ord c <? 128) && negb (bool_decide (c = DEL))) (Str.of_string v) = true -> text v.
Proof.
  rewrite forallb_forall; intros H; split.
  - induction (Str.of_string v) as [|c s IH]; constructor; [|apply IH; intros x Hx; apply H; by right].
    specialize (H c (or_introl eq_refl)); apply andb_true_iff in H as [H _]; by apply Z.ltb_lt.
  - intros Hd%list_elem_of_In; by specialize (H DEL Hd).
Qed.

(** The exception: a delete character is written as it is, which no reader of TOML has
    to accept. *)
Example delete_refused : basicString (tail (TOMLString (String DEL ""))) = None.
Proof. reflexivity. Qed.
