(* ===== verification/Uuid.v ===== *)
(** The peer identifiers of the proxy protocols: src/services/common/uuid.go.

    A client sends its UUID either as a JSON array of 16 bytes or as the
    canonical 8-4-4-4-12 string; both forms must give the same 16 bytes, since
    those bytes are the session key.  JSON values are modelled after parsing:
    [jvalue] is what [json.Unmarshal] reads, and [unmarshal_bytes] and
    [unmarshal_string] are its rules for [[]byte] and [string] targets. *)
From S2P Require Import Prelude Codec.
Import Str.

(** * JSON values *)
(** The elements of an array, as far as a byte array tells them apart. *)
Inductive jelem :=
  | ENull
  | EInt (z : Z)          (* an integer literal *)
  | EOther.

Inductive jvalue :=
  | JNull
  | JBool (b : bool)
  | JInt (z : Z)          (* an integer literal *)
  | JFloat                (* any other number literal *)
  | JStr (s : string)
  | JArr (l : list jelem)
  | JObj.                 (* an object; no target here accepts one *)

(** An element of a byte array: an integer in range, or [null] (left zero). *)
Definition unmarshal_byte (j : jelem) : option byte :=
  match j with
  | EInt z => if decide (0 <= z < 256) then Some (byte_of_Z z) else None
  | ENull => Some x00
  | EOther => None
  end.

(** Into a [[]byte]: a string is base64, an array is bytes, [null] is nil. *)
Definition unmarshal_bytes (j : jvalue) : option bytes :=
  match j with
  | JNull => Some []
  | JStr s => Base64.DecodeString s
  | JArr l => mapM unmarshal_byte l
  | _ => None
  end.

Definition unmarshal_string (j : jvalue) : option string :=
  match j with
  | JNull => Some ""%string
  | JStr s => Some s
  | _ => None
  end.

(** * The UUID *)
Definition UUIDLen : nat := 16.

Inductive uuid_error :=
  | uuid_missing
  | uuid_wrong_length (n : nat)
  | uuid_not_array_or_string
  | uuid_invalid (s : string).

(** [copy(id[:], d)] into a fresh [UUIDLen]-byte array. *)
Definition copy16 (d : bytes) : bytes := take UUIDLen (d ++ replicate UUIDLen x00).

Definition ParseUUID (s : string) : uuid_error + bytes :=
  let parts := split "-" (of_string s) in
  if decide (length <$> parts = [8; 4; 4; 4; 12]%nat) then
    match Hex.decode (mjoin parts) with
    | Some decoded => inr (copy16 decoded)
    | None => inl (uuid_invalid s)
    end
  else inl (uuid_invalid s).

(** [h[i:j]]. *)
Definition slice (i j : nat) (h : chars) : chars := take (j - i) (drop i h).

Definition FormatUUID (id : bytes) : string :=
  let h := Hex.encode id in
  to_string (slice 0 8 h ++ "-"%char :: slice 8 12 h ++ "-"%char :: slice 12 16 h
             ++ "-"%char :: slice 16 20 h ++ "-"%char :: slice 20 32 h).

Definition UUIDFromJSON (raw : option jvalue) : uuid_error + bytes :=
  match raw with
  | None => inl uuid_missing
  | Some j =>
      match unmarshal_bytes j with
      | Some asBytes =>
          if decide (length asBytes = UUIDLen) then inr (copy16 asBytes)
          else inl (uuid_wrong_length (length asBytes))
      | None =>
          match unmarshal_string j with
          | Some asString => ParseUUID asString
          | None => inl uuid_not_array_or_string
          end
      end
  end.

(** The decoded body [{"uuid": ..., "public_key": ...}] of a peer request; an
    absent [uuid] is an empty [json.RawMessage]. *)
Record uuid_request := { ur_uuid : option jvalue; ur_public_key : option string }.

Inductive peer_request_error :=
  | pr_bad_json
  | pr_wireguard_client
  | pr_nothing_sent
  | pr_bad_uuid (e : uuid_error).

(** [None] is a body [json.Unmarshal] refuses. *)
Definition UUIDPeerRequest (raw : option uuid_request) : peer_request_error + bytes :=
  match raw with
  | None => inl pr_bad_json
  | Some req =>
      match ur_uuid req with
      | None =>
          if ur_public_key req is Some _ then inl pr_wireguard_client else inl pr_nothing_sent
      | Some j =>
          match UUIDFromJSON (Some j) with
          | inl e => inl (pr_bad_uuid e)
          | inr id => inr id
          end
      end
  end.

(** * Properties *)

Lemma copy16_id d : length d = UUIDLen -> copy16 d = d.
Proof. intros H; unfold copy16; rewrite <- H at 1; apply take_app_length. Qed.

Lemma copy16_length d : length (copy16 d) = UUIDLen.
Proof. unfold copy16; rewrite length_take, length_app, length_replicate; lia. Qed.


Lemma slice_length i j h : (i <= j)%nat -> (j <= length h)%nat -> length (slice i j h) = (j - i)%nat.
Proof. intros; unfold slice; rewrite length_take, length_drop; lia. Qed.

Lemma slice_no_dash i j d : "-"%char ∉ slice i j (Hex.encode d).
Proof.
  unfold slice; intros Hc%elem_of_take; destruct Hc as (k & Hk & _).
  rewrite lookup_drop in Hk; apply list_elem_of_lookup_2 in Hk.
  by apply Hex.encode_no_dash in Hk.
Qed.

Lemma slices_join h : length h = 32%nat ->
  slice 0 8 h ++ slice 8 12 h ++ slice 12 16 h ++ slice 16 20 h ++ slice 20 32 h = h.
Proof.
  intros Hl; do 33 (destruct h as [|? h]; [try discriminate Hl; try reflexivity|]); discriminate Hl.
Qed.

(** The pieces of a canonical string, as [strings.Split] finds them. *)
Lemma split_FormatUUID d :
  split "-" (of_string (FormatUUID d)) =
  [slice 0 8 (Hex.encode d); slice 8 12 (Hex.encode d); slice 12 16 (Hex.encode d);
   slice 16 20 (Hex.encode d); slice 20 32 (Hex.encode d)].
Proof.
  unfold FormatUUID; rewrite of_to_string.
  rewrite !split_cons, split_plain by apply slice_no_dash; done.
Qed.

Lemma ParseUUID_FormatUUID d : length d = UUIDLen -> ParseUUID (FormatUUID d) = inr d.
Proof.
  intros Hd; unfold ParseUUID; rewrite split_FormatUUID; cbn [fmap list_fmap].
  pose proof (Hex.encode_length d) as Hl; rewrite Hd in Hl.
  rewrite !slice_length by (unfold UUIDLen in *; lia).
  rewrite decide_True by done; cbn [mjoin list_join]; rewrite app_nil_r.
  rewrite slices_join, Hex.hex_decode_encode by (unfold UUIDLen in *; lia); by rewrite copy16_id.
Qed.

Lemma FormatUUID_inj d d' :
  length d = UUIDLen -> length d' = UUIDLen -> FormatUUID d = FormatUUID d' -> d = d'.
Proof.
  intros Hd Hd' E; apply (f_equal ParseUUID) in E.
  rewrite !ParseUUID_FormatUUID in E by done; congruence.
Qed.

(** A dash is not in the base64 alphabet, so the canonical string is never
    taken for base64 text. *)
Lemma decode_chars_dash s : "-"%char ∈ s -> Base64.decode_chars s = None.
Proof.
  enough (forall n s, (length s <= n)%nat -> "-"%char ∈ s -> Base64.decode_chars s = None) as H
    by (apply (H (length s)); lia).
  induction n as [|n IH]; intros [|c1 s1] Hl Hin; simpl in Hl; try lia; try by inversion Hin.
  destruct s1 as [|c2 [|c3 [|c4 rest]]]; try done; cbn [Base64.decode_chars].
  rewrite !elem_of_cons in Hin; destruct Hin as [<-|[<-|[<-|[<-|Hin]]]].
  - done.
  - by destruct (Base64.dec_char c1).
  - by destruct (Base64.dec_char c1), (Base64.dec_char c2).
  - destruct (Base64.dec_char c1), (Base64.dec_char c2), (Base64.dec_char c3); try done;
      cbn [mbind option_bind]; try done; by rewrite decide_False by (intros ?; destruct_and!; done).
  - assert (rest ≠ []) by (intros ->; inversion Hin).
    rewrite (IH rest) by (done || simpl in Hl; lia).
    destruct (Base64.dec_char c1), (Base64.dec_char c2), (Base64.dec_char c3), (Base64.dec_char c4);
      cbn [mbind option_bind]; try done; by rewrite decide_False by tauto.
Qed.

Lemma DecodeString_FormatUUID d : Base64.DecodeString (FormatUUID d) = None.
Proof.
  unfold Base64.DecodeString; apply decode_chars_dash.
  rewrite list_elem_of_In; apply filter_In; split; [|done].
  rewrite <- list_elem_of_In; unfold FormatUUID.
  change String.list_ascii_of_string with of_string; rewrite of_to_string.
  rewrite elem_of_app; right; left.
Qed.

(** Every way a client may send a UUID gives the same bytes. *)
Lemma UUIDFromJSON_string d :
  length d = UUIDLen -> UUIDFromJSON (Some (JStr (FormatUUID d))) = inr d.
Proof.
  intros Hd; cbn [UUIDFromJSON unmarshal_bytes unmarshal_string].
  by rewrite DecodeString_FormatUUID, ParseUUID_FormatUUID.
Qed.

Lemma unmarshal_byte_array d :
  mapM unmarshal_byte ((fun b => EInt (byte_to_Z b)) <$> d) = Some d.
Proof.
  induction d as [|b d IH]; [done|]; rewrite fmap_cons; cbn [mapM].
  assert (unmarshal_byte (EInt (byte_to_Z b)) = Some b) as ->.
  { cbn [unmarshal_byte]; rewrite decide_True by apply byte_to_Z_range; by rewrite byte_of_to_Z. }
  cbn [mbind option_bind]; by rewrite IH.
Qed.

Lemma UUIDFromJSON_array d :
  length d = UUIDLen -> UUIDFromJSON (Some (JArr ((fun b => EInt (byte_to_Z b)) <$> d))) = inr d.
Proof.
  intros Hd; cbn [UUIDFromJSON unmarshal_bytes]; rewrite unmarshal_byte_array.
  by rewrite decide_True, copy16_id.
Qed.

(** Whatever is accepted is a full UUID. *)
Lemma UUIDPeerRequest_length raw id : UUIDPeerRequest raw = inr id -> length id = UUIDLen.
Proof.
  unfold UUIDPeerRequest, UUIDFromJSON, ParseUUID; intros H.
  repeat case_match; simplify_eq; apply copy16_length.
Qed.

(** A client's uuid means the same bytes however it is sent: the canonical
    text parses back to the uuid it was printed from, a peer request carrying
    that text and one carrying the 16 numbers are read as the same uuid, and
    whatever request is accepted yields 16 bytes. *)
Theorem uuid_request_roundtrip d key : length d = UUIDLen ->
  ParseUUID (FormatUUID d) = inr d
  ∧ UUIDPeerRequest (Some {| ur_uuid := Some (JStr (FormatUUID d)); ur_public_key := key |}) = inr d
  ∧ UUIDPeerRequest (Some {| ur_uuid := Some (JArr ((fun b => EInt (byte_to_Z b)) <$> d)); ur_public_key := key |}) = inr d
  ∧ forall raw id, UUIDPeerRequest raw = inr id -> length id = UUIDLen.
Proof.
  intros Hd; split_and!.
  - by apply ParseUUID_FormatUUID.
  - unfold UUIDPeerRequest; cbn [ur_uuid]; by rewrite UUIDFromJSON_string.
  - unfold UUIDPeerRequest; cbn [ur_uuid]; by rewrite UUIDFromJSON_array.
  - apply UUIDPeerRequest_length.
Qed.
