(* ===== verification/Types.v ===== *)
(** The node's shared data and the interfaces its parts meet at:
    src/types/session.go (the local session row), src/types/service.go (what a
    VPN protocol offers the node), the session table ([gorm] over sqlite) and
    the chain client.

    - [Session], [ServedBytes], [Duration]: the row and what is derived from it.
    - [Service] / [ServiceLaws]: the peer-managing methods of [types.Service]
      and what the node relies on; the protocol files discharge the laws.
    - [SessionStore] / [SessionStoreLaws]: the statements the node runs on the
      table and [gorm]'s documented behaviour for them.
    - [Chain]: queries and the usage report.  No law is assumed of it. *)
From S2P Require Import Prelude Codec.

(** * The session row (src/types/session.go) *)
Record Session := mkSession {
  ID : Z;                (* uint64, unique *)
  Subscription : Z;      (* uint64 *)
  Key : string;          (* base64 of the peer data, unique *)
  Address : string;
  Available : Z;         (* int64 from here on *)
  Download : Z;
  Upload : Z;
  BaseDownload : Z;
  BaseUpload : Z;
  BaseDuration : Z;      (* nanoseconds *)
  CreatedAt : Z;         (* nanoseconds *)
  UpdatedAt : Z
}.

#[export] Instance Session_eq_dec : EqDecision Session.
Proof. solve_decision. Defined.

(** The zero value, which stands for "no condition" in a query. *)
Definition Session0 : Session := mkSession 0 0 "" "" 0 0 0 0 0 0 0 0.

Definition ServedBytes (s : Session) : Z :=
  wrap64 (wrap64 (Download s - BaseDownload s) + wrap64 (Upload s - BaseUpload s)).

Definition Duration (s : Session) : Z := wrap64 (BaseDuration s + time_Sub (UpdatedAt s) (CreatedAt s)).

(** * One connected peer with its counters (src/types/service.go) *)
Record Peer := mkPeer { p_Key : string; p_Upload : Z; p_Download : Z }.

(** * The VPN service *)
Class Service (S : Type) := {
  AddPeer : bytes -> M S gerror bytes;
  HasPeer : bytes -> S -> bool;
  RemovePeer : bytes -> M S gerror unit;
  Peers : M S gerror (list Peer);
  PeerCount : S -> Z
}.

(** What the node relies on: the service keeps a finite set of peers, named by
    their peer data.  [svc_inv] is the implementation's own invariant.  A
    failing [RemovePeer] may or may not have forgotten the peer.  The bounds on
    the count hold whatever the state. *)
Class ServiceLaws (S : Type) `{!Service S} := {
  svc_inv : S -> Prop;
  peer_set : S -> gset bytes;
  has_peer_spec s d : svc_inv s -> d ≠ [] -> HasPeer d s = bool_decide (d ∈ peer_set s);
  peer_count_spec s : svc_inv s -> PeerCount s = Z.of_nat (size (peer_set s));
  add_peer_ok s d r s' : svc_inv s -> d ≠ [] ->
    AddPeer d s = (inr r, s') -> svc_inv s' ∧ peer_set s' = {[d]} ∪ peer_set s;
  add_peer_err s d e s' : svc_inv s -> AddPeer d s = (inl e, s') ->
    svc_inv s' ∧ peer_set s' = peer_set s;
  remove_peer_ok s d s' : svc_inv s -> d ≠ [] -> RemovePeer d s = (inr tt, s') -> d ∉ peer_set s';
  remove_peer_frame s d r s' : svc_inv s -> RemovePeer d s = (r, s') ->
    svc_inv s' ∧ peer_set s ∖ {[d]} ⊆ peer_set s' ∧ peer_set s' ⊆ peer_set s;
  peers_frame s r s' : svc_inv s -> Peers s = (r, s') ->
    svc_inv s' ∧ peer_set s' = peer_set s ∧ PeerCount s' = PeerCount s;
  add_peer_count s d r s' : AddPeer d s = (r, s') ->
    PeerCount s' <= PeerCount s + (if r is inr _ then 1 else 0);
  remove_peer_count s d r s' : RemovePeer d s = (r, s') -> PeerCount s' <= PeerCount s
}.

(** * The session table

    [rows] is the content of the table in the order the database scans it. *)
Class SessionStore (D : Type) := {
  rows : D -> list Session;
  Count : Session -> M D gerror Z;                   (* Where(&w).Count(&n) *)
  Find : Session -> M D gerror (list Session);       (* Where(&w).Find(&items) *)
  FindFirst : Session -> M D gerror (list Session);  (* Where(&w).Limit(1).Find(&items) *)
  Create : Session -> M D gerror unit;               (* Create(&row) *)
  UpdateUsage : Session -> Z -> Z -> M D gerror unit;(* Where(&w).Updates({upload, download}) *)
  Delete : Session -> M D gerror unit;               (* Where(&w).Unscoped().Delete(&Session{}) *)
  DeleteAll : M D gerror unit;                       (* AllowGlobalUpdate, Unscoped().Delete *)
  Vacuum : M D gerror unit                           (* Exec("VACUUM") *)
}.

(** gorm builds a struct condition from the fields that are not zero; a field
    left zero does not constrain the row. *)
Definition zmatch (w v : Z) : bool := (w =? 0) || (w =? v).
Definition smatch (w v : string) : bool := bool_decide (w = ""%string) || bool_decide (w = v).
Definition matches (w r : Session) : bool :=
  zmatch (ID w) (ID r) && zmatch (Subscription w) (Subscription r)
  && smatch (Key w) (Key r) && smatch (Address w) (Address r)
  && zmatch (Available w) (Available r) && zmatch (Download w) (Download r)
  && zmatch (Upload w) (Upload r) && zmatch (BaseDownload w) (BaseDownload r)
  && zmatch (BaseUpload w) (BaseUpload r) && zmatch (BaseDuration w) (BaseDuration r).

Definition whereID (id : Z) : Session := mkSession id 0 "" "" 0 0 0 0 0 0 0 0.
Definition whereKey (k : string) : Session := mkSession 0 0 k "" 0 0 0 0 0 0 0 0.
Definition whereAccount (sub : Z) (addr : string) : Session :=
  mkSession 0 sub "" addr 0 0 0 0 0 0 0 0.

(** Timestamps gorm writes by itself. *)
Definition stamped (r : Session) (t : Z) : Session :=
  mkSession (ID r) (Subscription r) (Key r) (Address r) (Available r) (Download r) (Upload r)
    (BaseDownload r) (BaseUpload r) (BaseDuration r) t t.
Definition with_usage (r : Session) (up down t : Z) : Session :=
  mkSession (ID r) (Subscription r) (Key r) (Address r) (Available r) down up
    (BaseDownload r) (BaseUpload r) (BaseDuration r) (CreatedAt r) t.

(** Every statement either fails and leaves the table alone (gorm runs it in a
    transaction) or does what it says; [Create] respects the unique indexes on
    [id] and [key]. *)
Class SessionStoreLaws (D : Type) `{!SessionStore D} := {
  count_spec w db r db' : Count w db = (r, db') -> rows db' = rows db ∧
    (if r is inr n then n = Z.of_nat (length (List.filter (matches w) (rows db))) else True);
  find_spec w db r db' : Find w db = (r, db') -> rows db' = rows db ∧
    (if r is inr items then items = List.filter (matches w) (rows db) else True);
  find_first_spec w db r db' : FindFirst w db = (r, db') -> rows db' = rows db ∧
    (if r is inr items then items = take 1 (List.filter (matches w) (rows db)) else True);
  create_spec row db r db' : Create row db = (r, db') ->
    if r is inr _ then
      (∃ t, rows db' = rows db ++ [stamped row t])
      ∧ (ID row ∉ (ID <$> rows db)) ∧ Key row ∉ (Key <$> rows db)
    else rows db' = rows db;
  update_usage_spec w up down db r db' : UpdateUsage w up down db = (r, db') ->
    if r is inr _ then
      ∃ t, rows db' = (fun x => if matches w x then with_usage x up down t else x) <$> rows db
    else rows db' = rows db;
  delete_spec w db r db' : Delete w db = (r, db') ->
    if r is inr _ then rows db' = List.filter (fun x => negb (matches w x)) (rows db)
    else rows db' = rows db;
  delete_all_spec db r db' : DeleteAll db = (r, db') ->
    if r is inr _ then rows db' = [] else rows db' = rows db;
  vacuum_spec db r db' : Vacuum db = (r, db') -> rows db' = rows db
}.

(** * The chain *)
Inductive Status := StatusUnspecified | StatusActive | StatusInactivePending | StatusInactive.
#[export] Instance Status_eq_dec : EqDecision Status.
Proof. solve_decision. Defined.

(** A session is paid to the node itself or drawn on a plan subscription. *)
Inductive SessionKind := NodeSession | SubscriptionSession (id : Z).

(** The v3 session interface: what its getters answer.  Byte counts are
    [sdkmath.Int], integers without a machine width. *)
Record ChainSession := mkChainSession {
  GetID : Z;
  GetAccAddress : string;
  GetNodeAddress : string;
  GetStatus : Status;
  GetStatusAt : Z;
  GetDownloadBytes : Z;
  GetUploadBytes : Z;
  TotalBytes : Z;
  GetMaxBytes : Z;
  GetDuration : Z;
  GetKind : SessionKind
}.

Record ChainSubscription := mkSub { sub_ID : Z; sub_Status : Status }.
Record Allocation := mkAlloc { GrantedBytes : Z; UtilisedBytes : Z }.

(** The messages the node signs. *)
Inductive Msg :=
  | MsgRegisterNode (from : string) (gigabytePrices hourlyPrices : string) (remoteAddrs : list string)
  | MsgUpdateNodeDetails (from : string) (gigabytePrices hourlyPrices : string) (remoteAddrs : list string)
  | MsgUpdateNodeStatus (from : string) (status : Status)
  | MsgUpdateSession (from : string) (id download upload duration : Z).

(** The chain client.  [None] is "not found"; every call may fail, and two
    calls need not agree, so the client's state is threaded.  A transaction
    carries all of its messages or none. *)
Class Chain (C : Type) := {
  QueryNode : string -> M C gerror (option Status);
  QuerySession : Z -> M C gerror (option ChainSession);
  QuerySubscription : Z -> M C gerror (option ChainSubscription);
  QueryAllocation : Z -> string -> M C gerror (option Allocation);
  Tx : list Msg -> M C gerror unit
}.

(** * Lemmas on queries *)

Lemma zmatch_0 v : zmatch 0 v = true.
Proof. done. Qed.
Lemma smatch_empty v : smatch "" v = true.
Proof. done. Qed.

Lemma matches_whereID id r : id ≠ 0 -> matches (whereID id) r = bool_decide (ID r = id).
Proof.
  intros Hid; unfold matches, whereID; cbn [ID Subscription Key Address Available Download Upload
    BaseDownload BaseUpload BaseDuration].
  rewrite !zmatch_0, !smatch_empty, !andb_true_r; unfold zmatch.
  destruct (Z.eqb_spec id 0); [done|]; destruct (Z.eqb_spec id (ID r)); simpl;
    by (rewrite bool_decide_true by done) || by (rewrite bool_decide_false by congruence).
Qed.

Lemma matches_whereKey k r : k ≠ ""%string -> matches (whereKey k) r = bool_decide (Key r = k).
Proof.
  intros Hk; unfold matches, whereKey; cbn [ID Subscription Key Address Available Download Upload
    BaseDownload BaseUpload BaseDuration].
  rewrite !zmatch_0, !smatch_empty, !andb_true_r; unfold smatch; cbn [andb].
  rewrite (bool_decide_false (k = ""%string)) by done; simpl.
  by apply bool_decide_ext.
Qed.

(** A condition without a subscription matches the account's rows on all of them. *)
Lemma matches_account_any sub addr r : matches (whereAccount sub addr) r = true -> matches (whereAccount 0 addr) r = true.
Proof.
  unfold matches, whereAccount; cbn [ID Subscription Key Address Available Download Upload BaseDownload BaseUpload BaseDuration].
  rewrite !zmatch_0, !smatch_empty, !andb_true_r; by intros [_ ?]%andb_true_iff.
Qed.

(** An empty condition matches every row. *)
Lemma matches_whereKey_empty r : matches (whereKey "") r = true.
Proof. done. Qed.

Lemma count_zero_not_elem {A B} `{!EqDecision B} (f : A -> B) (b : B) (l : list A) :
  length (List.filter (fun x => bool_decide (f x = b)) l) = 0%nat <-> b ∉ (f <$> l).
Proof.
  induction l as [|x l IH]; simpl; [split; [intros _; apply not_elem_of_nil|done]|].
  rewrite not_elem_of_cons, <- IH; case_bool_decide; simpl; split; [done|by intros []|by split|by intros []].
Qed.

Lemma filter_matches_ext (w : Session) (p : Session -> bool) (l : list Session) :
  (forall r, matches w r = p r) -> List.filter (matches w) l = List.filter p l.
Proof. intros H; by apply filter_ext. Qed.
