(* ===== verification/Admission.v ===== *)
(** Session admission: src/api/session/admit.go, with the peer helpers of
    src/context/service.go and the log tag of src/types/keytag.go.

    [sessionAdmit] decides whether a handshake becomes a served peer.  It asks the
    chain without a lock ([queryAdmission]) and then, under the admission lock,
    re-checks the capacity, counts bytes not yet reported, evicts the account's
    earlier peers, adds the peer and writes its row ([admit_locked]).  The node
    is the triple of the VPN service, the session table and the chain client,
    each reached through its interface. *)
From S2P Require Import Prelude Codec Types.

(** * Node state *)
Record node (S D C : Type) := mkNode { svc : S; db : D; chain : C }.
Arguments mkNode {S D C}. Arguments svc {S D C}. Arguments db {S D C}. Arguments chain {S D C}.

Section Lift.
Context {S D C E A : Type}.

Definition on_svc (m : M S E A) : M (node S D C) E A := fun n =>
  let '(r, s) := m (svc n) in (r, mkNode s (db n) (chain n)).
Definition on_db (m : M D E A) : M (node S D C) E A := fun n =>
  let '(r, d) := m (db n) in (r, mkNode (svc n) d (chain n)).
Definition on_chain (m : M C E A) : M (node S D C) E A := fun n =>
  let '(r, c) := m (chain n) in (r, mkNode (svc n) (db n) c).

Lemma on_svc_inv m n r n' : on_svc m n = (r, n') ->
  m (svc n) = (r, svc n') ∧ db n' = db n ∧ chain n' = chain n.
Proof. unfold on_svc; destruct (m (svc n)); naive_solver. Qed.
Lemma on_db_inv m n r n' : on_db m n = (r, n') ->
  m (db n) = (r, db n') ∧ svc n' = svc n ∧ chain n' = chain n.
Proof. unfold on_db; destruct (m (db n)); naive_solver. Qed.
Lemma on_chain_inv m n r n' : on_chain m n = (r, n') ->
  m (chain n) = (r, chain n') ∧ svc n' = svc n ∧ db n' = db n.
Proof. unfold on_chain; destruct (m (chain n)); naive_solver. Qed.
End Lift.

(** * Errors *)
Inductive api_cause :=
  | cause (e : gerror)                      (* an error from below, as it came *)
  | max_peers_reached (limit : Z)
  | session_already_exists (id : Z)
  | key_already_exists (tag : string)
  | session_does_not_exist (id : Z)
  | invalid_session_status (st : Status) (id : Z)
  | account_mismatch (expected got : string)
  | node_mismatch (expected got : string)
  | session_bytes_used (id max : Z)
  | subscription_does_not_exist (id : Z)
  | invalid_subscription_status (st : Status) (id : Z)
  | allocation_does_not_exist (id : Z) (addr : string)
  | allocation_used (granted utilised : Z).

Record apiError := mkApiError { e_Status : Z; e_Code : Z; e_Err : api_cause }.
Definition newAPIError (status code : Z) (err : api_cause) : apiError :=
  mkApiError status code err.

Definition StatusBadRequest : Z := 400.
Definition StatusNotFound : Z := 404.
Definition StatusConflict : Z := 409.
Definition StatusInternalServerError : Z := 500.

(** * Requests *)

(** [AccAddress] is kept in its text form, which is all admission uses. *)
Record admitRequest := mkReq { AccAddress : string; req_ID : Z; PeerData : bytes }.
Definition PeerKey (r : admitRequest) : string := Base64.EncodeToString (PeerData r).

Record admitResult := mkRes { res_Session : ChainSession; res_Peer : bytes }.

Record admission := mkAdm {
  adm_session : ChainSession;
  subscriptionID : Z;
  remainingBytes : Z;              (* 0 is no cap *)
  alloc : option Allocation
}.

Definition clampInt64 (v : Z) : Z :=
  if v <? 0 then 0 else if v <=? max_int64 then v else max_int64.

Section Admission.
Context {S D C : Type} `{!Service S} `{!SessionStore D} `{!Chain C}.
(** SHA-256, and from the configuration [qos.max_peers] and the node's address. *)
Context (sha256 : bytes -> bytes) (MaxPeers : Z) (NodeAddress : string).
Abbreviation node := (node S D C).

(** src/types/keytag.go *)
Definition KeyTag (key : string) : string :=
  Str.to_string (Hex.encode (take 6 (sha256 (String.list_byte_of_string key)))).

(** ** src/context/service.go *)
Definition illegal_base64 : gerror := "illegal base64 data".

Definition ctx_RemovePeer (key : string) : M node gerror unit :=
  match Base64.DecodeString key with
  | None => throw illegal_base64
  | Some data => on_svc (RemovePeer data)
  end.

Definition ctx_HasPeer (key : string) : M node gerror bool :=
  match Base64.DecodeString key with
  | None => throw illegal_base64
  | Some data => gets (fun n => HasPeer data (svc n))
  end.

Definition RemovePeerIfExists (key : string) : M node gerror unit :=
  ok ← ctx_HasPeer key;
  if negb ok then mret tt else ctx_RemovePeer key.

(** ** Capacity *)
Definition sessionExists (w : Session) : M node gerror bool :=
  n ← on_db (Count w);
  mret (0 <? n).

Definition checkCapacity (req : admitRequest) : M node apiError unit :=
  count ← gets (fun n => PeerCount (svc n));
  throw_if (MaxPeers <=? count)
    (newAPIError StatusBadRequest 1 (max_peers_reached MaxPeers)) ≫= fun _ =>
  exists_ ← or_throw (sessionExists (whereID (req_ID req)))
    (fun e => newAPIError StatusInternalServerError 3 (cause e));
  throw_if exists_
    (newAPIError StatusConflict 3 (session_already_exists (req_ID req))) ≫= fun _ =>
  exists_ ← or_throw (sessionExists (whereKey (PeerKey req)))
    (fun e => newAPIError StatusInternalServerError 3 (cause e));
  throw_if exists_
    (newAPIError StatusConflict 3 (key_already_exists (KeyTag (PeerKey req)))).

(** ** What the chain says *)
Definition checkMaxBytes (session : ChainSession) : M node apiError Z :=
  let max := GetMaxBytes session in
  if 0 <? max then
    let diff := max - TotalBytes session in
    if 0 <? diff then mret (clampInt64 diff)
    else throw (newAPIError StatusBadRequest 8 (session_bytes_used (GetID session) max))
  else mret 0.

Definition queryAdmission (req : admitRequest) : M node apiError admission :=
  found ← or_throw (on_chain (QuerySession (req_ID req)))
    (fun e => newAPIError StatusInternalServerError 5 (cause e));
  match found with
  | None => throw (newAPIError StatusNotFound 5 (session_does_not_exist (req_ID req)))
  | Some session =>
    throw_if (bool_decide (GetStatus session ≠ StatusActive))
      (newAPIError StatusNotFound 5 (invalid_session_status (GetStatus session) (GetID session)))
      ≫= fun _ =>
    throw_if (bool_decide (GetAccAddress session ≠ AccAddress req))
      (newAPIError StatusBadRequest 5 (account_mismatch (AccAddress req) (GetAccAddress session)))
      ≫= fun _ =>
    throw_if (bool_decide (GetNodeAddress session ≠ NodeAddress))
      (newAPIError StatusBadRequest 7 (node_mismatch NodeAddress (GetNodeAddress session)))
      ≫= fun _ =>
    remaining ← checkMaxBytes session;
    match GetKind session with
    | NodeSession => mret (mkAdm session 0 remaining None)
    | SubscriptionSession sid =>
      subscription ← or_throw (on_chain (QuerySubscription sid))
        (fun e => newAPIError StatusInternalServerError 6 (cause e));
      match subscription with
      | None => throw (newAPIError StatusNotFound 6 (subscription_does_not_exist sid))
      | Some sub =>
        throw_if (bool_decide (sub_Status sub ≠ StatusActive))
          (newAPIError StatusBadRequest 6 (invalid_subscription_status (sub_Status sub) (sub_ID sub)))
          ≫= fun _ =>
        al ← or_throw (on_chain (QueryAllocation (sub_ID sub) (AccAddress req)))
          (fun e => newAPIError StatusInternalServerError 8 (cause e));
        match al with
        | None =>
          throw (newAPIError StatusNotFound 8 (allocation_does_not_exist (sub_ID sub) (AccAddress req)))
        | Some a => mret (mkAdm session sid remaining (Some a))
        end
      end
    end
  end.

(** ** Under the admission lock *)

Definition totalServed (items : list Session) : Z :=
  foldl (fun acc item => acc + ServedBytes item) 0 items.

(** The byte cap of the new session, from its own [max_bytes] and, on a plan
    subscription, from the account's allocation less what this node served and
    has not reported. *)
Definition remainingFor (req : admitRequest) (a : admission) : M node apiError Z :=
  match alloc a with
  | None => mret (remainingBytes a)
  | Some al =>
    items ← or_throw (on_db (Find (whereAccount (subscriptionID a) (AccAddress req))))
      (fun e => newAPIError StatusInternalServerError 8 (cause e));
    let utilised := UtilisedBytes al + totalServed items in
    if GrantedBytes al <=? utilised then
      throw (newAPIError StatusBadRequest 8 (allocation_used (GrantedBytes al) utilised))
    else
      let left := clampInt64 (GrantedBytes al - utilised) in
      mret (if (remainingBytes a =? 0) || (left <? remainingBytes a) then left else remainingBytes a)
  end.

Fixpoint removeAll (items : list Session) : M node gerror unit :=
  match items with
  | [] => mret tt
  | item :: rest => RemovePeerIfExists (Key item) ≫= fun _ => removeAll rest
  end.

Definition newRow (req : admitRequest) (a : admission) (remaining : Z) : Session :=
  let session := adm_session a in
  let baseDownload := clampInt64 (GetDownloadBytes session) in
  let baseUpload := clampInt64 (GetUploadBytes session) in
  mkSession (req_ID req) (subscriptionID a) (PeerKey req) (AccAddress req) remaining
    baseDownload baseUpload baseDownload baseUpload (GetDuration session) 0 0.

(** Adding the peer and writing its row, the last part of the locked section. *)
Definition addAndRecord (req : admitRequest) (a : admission) (remaining : Z)
  : M node apiError admitResult :=
  peer ← or_throw (on_svc (AddPeer (PeerData req)))
    (fun e => newAPIError StatusInternalServerError 10 (cause e));
  created ← attempt (E' := gerror) (on_db (Create (newRow req a remaining)));
  match created with
  | inl err =>
      (* a failure to take the peer out again is only logged *)
      attempt (E' := gerror) (on_svc (RemovePeer (PeerData req))) ≫= fun _ =>
      throw (newAPIError StatusInternalServerError 10 (cause err))
  | inr _ => mret (mkRes (adm_session a) peer)
  end.

Definition admit_locked (req : admitRequest) (a : admission) : M node apiError admitResult :=
  checkCapacity req ≫= fun _ =>
  remaining ← remainingFor req a;
  items ← or_throw (on_db (Find (whereAccount (subscriptionID a) (AccAddress req))))
    (fun e => newAPIError StatusInternalServerError 9 (cause e));
  or_throw (removeAll items)
    (fun e => newAPIError StatusInternalServerError 9 (cause e)) ≫= fun _ =>
  addAndRecord req a remaining.

Definition sessionAdmit (req : admitRequest) : M node apiError admitResult :=
  checkCapacity req ≫= fun _ =>
  a ← queryAdmission req;
  admit_locked req a.
End Admission.
