(* ===== verification/AdmissionProofs.v ===== *)
(** What admission guarantees, proved against the service and table interfaces.

    [node_inv] ties the two halves of the node's state together: every peer the
    service carries has a row, and rows are well formed.  Admission keeps it,
    except when writing the row and taking the peer out again both fail. *)
From S2P Require Import Prelude Codec Types Admission.
Set Default Proof Using "Type*".

(** A well-formed row key: the base64 of some peer data. *)
Definition wf_key (k : string) : Prop := ∃ d, d ≠ [] ∧ k = Base64.EncodeToString d.

Lemma wf_key_nonempty k : wf_key k -> k ≠ ""%string.
Proof. by intros (d & Hd & ->) H%Base64.encode_empty. Qed.

Section Proofs.
Context {S D C : Type} `{!Service S, !ServiceLaws S} `{!SessionStore D, !SessionStoreLaws D} `{!Chain C}.
Context (NodeAddress : string).
Abbreviation node := (node S D C).
Implicit Types (n : node) (req : admitRequest) (a : admission).

(** Two states with the same peers and the same rows. *)
Definition same_obs n n' : Prop := svc n' = svc n ∧ rows (db n') = rows (db n).

#[export] Instance same_obs_preorder : PreOrder same_obs.
Proof. split; [done|]; intros x y z [] []; split; congruence. Qed.

Lemma on_db_find w n r n' : on_db (Find w) n = (r, n') -> same_obs n n' ∧
  (if r is inr items then items = List.filter (matches w) (rows (db n)) else True).
Proof.
  intros (H & Hs & _)%on_db_inv; apply find_spec in H as [Hr Hi]; by repeat split.
Qed.

Lemma on_chain_obs {E A} (m : M C E A) n r n' : on_chain m n = (r, n') -> same_obs n n' ∧ db n' = db n.
Proof. intros (_ & Hs & Hd)%on_chain_inv; split; [split; congruence|done]. Qed.

Lemma sessionExists_inv w n r n' : sessionExists w n = (r, n') -> same_obs n n' ∧ chain n' = chain n ∧
  (if r is inr b then b = false -> List.filter (matches w) (rows (db n)) = [] else True).
Proof.
  intros H; unfold sessionExists in H; minv H.
  - apply on_db_inv in H as (H & Hs & Hc); apply count_spec in H as [Hr _]; by repeat split.
  - apply on_db_inv in Hm as (Hm & Hs & Hc); apply count_spec in Hm as [Hr Hn].
    repeat split; [done|done|done|]; intros Hb%Z.ltb_ge; apply nil_length_inv; lia.
Qed.

Lemma filter_nil_not_elem {B} `{!EqDecision B} (f : Session -> B) w b (l : list Session) :
  (forall r, matches w r = bool_decide (f r = b)) -> List.filter (matches w) l = [] ->
  b ∉ (f <$> l).
Proof. intros Hw H; apply count_zero_not_elem; by rewrite <- (filter_ext _ _ Hw), H. Qed.

(** The key of a request is empty only for empty peer data. *)
Lemma PeerKey_nonempty req : PeerKey req = ""%string -> PeerData req = [].
Proof. apply Base64.encode_empty. Qed.

(** ** What the chain said *)

(** The chain's own cap on a session: nothing when [max_bytes] is not set. *)
Definition session_cap (session : ChainSession) : list Z :=
  if 0 <? GetMaxBytes session then [GetMaxBytes session - TotalBytes session] else [].

(** The abstract byte cap: the least of the caps, 0 when there is none,
    saturated to what the row can hold. *)
Definition byteCap (caps : list Z) : Z :=
  match caps with
  | [] => 0
  | c :: cs => Z.min max_int64 (foldr Z.min c cs)
  end.

(** [a] is the admission the chain granted for [req], asked from its state [c] on:
    every answer is the one the client got, each question from where the one before
    it left the client. *)
Record granted (c : C) req a : Prop := {
  granted_active : GetStatus (adm_session a) = StatusActive;
  granted_account : GetAccAddress (adm_session a) = AccAddress req;
  granted_node : GetNodeAddress (adm_session a) = NodeAddress;
  granted_left : Forall (Z.lt 0) (session_cap (adm_session a));
  granted_remaining : remainingBytes a = byteCap (session_cap (adm_session a));
  granted_answers : ∃ c1, QuerySession (req_ID req) c = (inr (Some (adm_session a)), c1) ∧
    match GetKind (adm_session a) with
    | NodeSession => subscriptionID a = 0 ∧ alloc a = None
    | SubscriptionSession sid => subscriptionID a = sid
        ∧ ∃ sub al c2 c3, QuerySubscription sid c1 = (inr (Some sub), c2)
          ∧ sub_Status sub = StatusActive
          ∧ QueryAllocation (sub_ID sub) (AccAddress req) c2 = (inr (Some al), c3)
          ∧ alloc a = Some al
    end
}.

(** The chain's answers decide the admission. *)
Lemma granted_unique c req a b : granted c req a -> granted c req b -> a = b.
Proof.
  intros [_ _ _ _ Ra (c1 & Qa & Ka)] [_ _ _ _ Rb (c1' & Qb & Kb)]; rewrite Qa in Qb; injection Qb as Es <-.
  destruct a as [ses sid rem al], b as [ses' sid' rem' al']; cbn in *; subst ses'; subst rem rem'.
  destruct (GetKind ses) as [|id]; [by destruct Ka as [-> ->], Kb as [-> ->]|].
  destruct Ka as (-> & sub & l & c2 & c3 & Q1 & _ & Q2 & ->), Kb as (-> & sub' & l' & c2' & c3' & Q1' & _ & Q2' & ->).
  by rewrite Q1 in Q1'; injection Q1' as <- <-; rewrite Q2 in Q2'; injection Q2' as <- _.
Qed.

Lemma clampInt64_pos v : 0 < v -> clampInt64 v = Z.min max_int64 v.
Proof.
  intros Hv; unfold clampInt64; destruct (Z.ltb_spec v 0); [lia|].
  destruct (Z.leb_spec v max_int64); lia.
Qed.

Lemma clampInt64_range v : 0 <= clampInt64 v <= max_int64.
Proof.
  unfold clampInt64, max_int64; destruct (Z.ltb_spec v 0); [lia|].
  destruct (Z.leb_spec v (2 ^ 63 - 1)); lia.
Qed.

Lemma checkMaxBytes_inv session n r n' : checkMaxBytes session n = (r, n') -> n' = n ∧
  if r is inr v then Forall (Z.lt 0) (session_cap session) ∧ v = byteCap (session_cap session)
  else True.
Proof.
  unfold checkMaxBytes, session_cap; intros H.
  destruct (0 <? GetMaxBytes session); [|minv H; repeat split; constructor].
  destruct (Z.ltb_spec 0 (GetMaxBytes session - TotalBytes session)); minv H; [|done].
  repeat split; [by constructor|]; by apply clampInt64_pos.
Qed.

Lemma queryAdmission_inv req n r n' : queryAdmission NodeAddress req n = (r, n') ->
  same_obs n n' ∧ db n' = db n ∧
  (if r is inr a then granted (chain n) req a else True).
Proof.
  intros H; unfold queryAdmission in H; minv H;
    repeat match goal with
    | H : bool_decide _ = false |- _ => apply bool_decide_eq_false, dec_stable in H
    | H : checkMaxBytes _ _ = _ |- _ => apply checkMaxBytes_inv in H as [? H]; subst
    | H : on_chain _ _ = _ |- _ =>
        pose proof (on_chain_inv _ _ _ _ H) as (? & _ & _); apply on_chain_obs in H as [? ?]
    end.
  all: (split; [by repeat (etrans; [eassumption|])|split; [congruence|]]); try done.
  all: destruct_and!; split; simpl; rewrite ?Hx; eauto 14.
Qed.

(** ** The byte cap of the new session *)

(** Everything that caps the session: its own [max_bytes] and, on a plan
    subscription, the allocation less what [items] served. *)
Definition all_caps (a : admission) (items : list Session) : list Z :=
  session_cap (adm_session a) ++
  (if alloc a is Some al then [GrantedBytes al - (UtilisedBytes al + totalServed items)] else []).

Lemma byteCap_pos caps : caps ≠ [] -> Forall (Z.lt 0) caps -> 0 < byteCap caps.
Proof.
  destruct caps as [|c cs]; [done|]; intros _ [Hc Hcs]%Forall_cons; simpl.
  enough (0 < foldr Z.min c cs) by (unfold max_int64; lia).
  induction Hcs; simpl; lia.
Qed.

Lemma remainingFor_inv c req a n r n' : granted c req a -> remainingFor req a n = (r, n') ->
  let items := List.filter (matches (whereAccount (subscriptionID a) (AccAddress req))) (rows (db n)) in
  same_obs n n' ∧
  (if r is inr v then Forall (Z.lt 0) (all_caps a items) ∧ v = byteCap (all_caps a items) else True).
Proof.
  intros Hg H items; unfold remainingFor in H.
  pose proof (granted_remaining _ _ _ Hg) as Hr; pose proof (granted_left _ _ _ Hg) as Hl.
  unfold all_caps; minv H;
    repeat match goal with H : on_db (Find _) _ = _ |- _ => apply on_db_find in H as [? H] end;
    try done; [|by rewrite app_nil_r].
  subst; split; [done|]; fold items in Hx0 |- *.
  apply Z.leb_gt in Hx0; split; [apply Forall_app; split; [done|constructor; [lia|done]]|].
  rewrite clampInt64_pos by lia; rewrite Hr; unfold session_cap in *.
  destruct (0 <? GetMaxBytes (adm_session a)); simpl; [|done].
  apply Forall_cons in Hl as [Hl _].
  destruct (Z.eqb_spec (Z.min max_int64 (GetMaxBytes (adm_session a) - TotalBytes (adm_session a))) 0);
    simpl; [unfold max_int64 in *; lia|].
  match goal with |- context [?x <? ?y] => destruct (Z.ltb_spec x y) end; lia.
Qed.

(** ** Taking peers out *)

(** From [n] to [n'] only peers whose key satisfies [P] may have gone. *)
Record shrinks (P : string -> Prop) n n' : Prop := {
  shr_db : db n' = db n;
  shr_chain : chain n' = chain n;
  shr_inv : svc_inv (svc n');
  shr_sub : peer_set (svc n') ⊆ peer_set (svc n);
  shr_keep d : d ∈ peer_set (svc n) -> ¬ P (Base64.EncodeToString d) -> d ∈ peer_set (svc n');
  shr_count : PeerCount (svc n') <= PeerCount (svc n)
}.

Lemma shrinks_refl P n : svc_inv (svc n) -> shrinks P n n.
Proof. by split. Qed.

Lemma shrinks_trans P P1 P2 n1 n2 n3 : (forall k, P1 k -> P k) -> (forall k, P2 k -> P k) ->
  shrinks P1 n1 n2 -> shrinks P2 n2 n3 -> shrinks P n1 n3.
Proof.
  intros HP1 HP2 [Hd1 Hc1 Hi1 Hs1 Hk1 Hn1] [Hd2 Hc2 Hi2 Hs2 Hk2 Hn2]; split;
    [congruence|congruence|done|by etrans| |lia].
  intros d Hd HP; apply Hk2; [apply Hk1; [done|]|]; auto.
Qed.

Lemma on_svc_remove d n r n' : svc_inv (svc n) -> d ≠ [] -> on_svc (RemovePeer d) n = (r, n') ->
  shrinks (eq (Base64.EncodeToString d)) n n' ∧ (r = inr tt -> d ∉ peer_set (svc n')).
Proof.
  intros Hi Hd (H & Hdb & Hc)%on_svc_inv.
  pose proof (remove_peer_frame _ _ _ _ Hi H) as (Hi' & Hsup & Hsub).
  pose proof (remove_peer_count _ _ _ _ H).
  split; [split; try done|].
  - intros d' Hd' Hne; apply Hsup; set_solver.
  - intros ->; by apply (remove_peer_ok (svc n)).
Qed.

Lemma RemovePeerIfExists_inv k n r n' : svc_inv (svc n) -> wf_key k ->
  RemovePeerIfExists k n = (r, n') ->
  shrinks (eq k) n n' ∧ (r = inr tt -> forall d, Base64.EncodeToString d = k -> d ∉ peer_set (svc n')).
Proof.
  intros Hi (d & Hd & ->) H; unfold RemovePeerIfExists, ctx_HasPeer, ctx_RemovePeer in H.
  rewrite Base64.decode_encode in H; minv H.
  - split; [by apply shrinks_refl|]; intros _ d' ->%(inj _).
    apply negb_true_iff in Hx; rewrite has_peer_spec in Hx by done.
    by apply bool_decide_eq_false in Hx.
  - apply on_svc_remove in H as [Hs Hr]; [|done..]; split; [done|].
    intros -> d' ->%(inj _); by apply Hr.
Qed.

Lemma removeAll_inv items n r n' : svc_inv (svc n) -> Forall (fun x => wf_key (Key x)) items ->
  removeAll items n = (r, n') ->
  shrinks (fun k => k ∈ (Key <$> items)) n n' ∧
  (r = inr tt -> forall d, Base64.EncodeToString d ∈ (Key <$> items) -> d ∉ peer_set (svc n')).
Proof.
  intros Hi Hw; revert n Hi; induction Hw as [|x items Hx Hw IH]; simpl; intros n Hi H; minv H.
  - split; [by apply shrinks_refl|]; by intros _ d ?%not_elem_of_nil.
  - apply RemovePeerIfExists_inv in H as [Hs _]; [|done..]; split; [|done].
    eapply shrinks_trans; [| |apply Hs|apply shrinks_refl, Hs]; set_solver.
  - apply RemovePeerIfExists_inv in Hm as [Hs Hn]; [|done..].
    apply IH in H as [Hs2 Hn2]; [|apply Hs]; split.
    + eapply shrinks_trans; [| |apply Hs|apply Hs2]; set_solver.
    + intros Hr d [Hd|Hd]%elem_of_cons; [|by apply Hn2].
      intros Hin; eapply Hn; [by destruct a|done|by apply Hs2].
Qed.

(** ** The invariant *)
Record node_inv n : Prop := {
  ni_svc : svc_inv (svc n);
  ni_ids : NoDup (ID <$> rows (db n));
  ni_id0 : 0 ∉ (ID <$> rows (db n));
  ni_keys : NoDup (Key <$> rows (db n));
  ni_wf : Forall (fun x => wf_key (Key x)) (rows (db n));
  (** every peer the service carries is metered by a row *)
  ni_metered d : d ∈ peer_set (svc n) -> Base64.EncodeToString d ∈ (Key <$> rows (db n))
}.

Lemma node_inv_obs n n' : same_obs n n' -> node_inv n -> node_inv n'.
Proof. intros [Hs Hr] []; split; rewrite ?Hs, ?Hr; auto. Qed.

Lemma node_inv_shrinks P n n' : shrinks P n n' -> node_inv n -> node_inv n'.
Proof. intros [Hd _ Hi Hsub _ _] []; split; rewrite ?Hd; auto. Qed.

Lemma node_inv_items w n :
  node_inv n -> Forall (fun x => wf_key (Key x)) (List.filter (matches w) (rows (db n))).
Proof.
  intros Hn; apply List.Forall_forall; intros x [Hx _]%filter_In.
  pose proof (ni_wf _ Hn) as Hw; rewrite List.Forall_forall in Hw; auto.
Qed.

Context (MaxPeers : Z).

(** ** Capacity *)
Section Capacity.
Context (sha256 : bytes -> bytes).

Lemma checkCapacity_inv req n r n' : checkCapacity sha256 MaxPeers req n = (r, n') ->
  (same_obs n n' ∧ chain n' = chain n) ∧
  (r = inr tt -> PeerCount (svc n) < MaxPeers
     ∧ (req_ID req ≠ 0 -> req_ID req ∉ (ID <$> rows (db n)))
     ∧ (PeerData req ≠ [] -> PeerKey req ∉ (Key <$> rows (db n)))).
Proof.
  intros H; unfold checkCapacity in H; minv H; try done;
    repeat match goal with
    | H : sessionExists _ _ = _ |- _ => apply sessionExists_inv in H as (? & ? & ?)
    end; (split; [split; [by repeat (etrans; [eassumption|])|congruence]|]); try discriminate.
  intros _; destruct H2 as [_ Hr]; repeat split; [by apply Z.leb_gt| |]; intros Hne.
  - eapply filter_nil_not_elem; [|eauto]; intros; by apply matches_whereID.
  - eapply filter_nil_not_elem; [|rewrite <- Hr; eauto].
    intros; apply matches_whereKey; intros Hk; apply Hne; by apply PeerKey_nonempty.
Qed.
End Capacity.

(** ** The locked part of admission *)
Section Locked.
Context (req : admitRequest) (a : admission).
Context (Hid : req_ID req ≠ 0) (Hdata : PeerData req ≠ []).

Definition accountRows (n : node) : list Session :=
  List.filter (matches (whereAccount (subscriptionID a) (AccAddress req))) (rows (db n)).

(** The session was taken on: what holds of the states before and after. *)
Record admitted (res : admitResult) n n' : Prop := {
  ad_session : res_Session res = adm_session a;
  ad_room : PeerCount (svc n) < MaxPeers ∧ PeerCount (svc n') <= MaxPeers;
  ad_fresh : (req_ID req ∉ (ID <$> rows (db n))) ∧ PeerKey req ∉ (Key <$> rows (db n));
  ad_caps : Forall (Z.lt 0) (all_caps a (accountRows n));
  ad_row : ∃ t, rows (db n') =
    rows (db n) ++ [stamped (newRow req a (byteCap (all_caps a (accountRows n)))) t];
  ad_served : PeerData req ∈ peer_set (svc n');
  (** the last thing the service did was to add this peer, and the result carries
      what it answered *)
  ad_peer : ∃ s, AddPeer (PeerData req) s = (inr (res_Peer res), svc n') ∧ peer_set s ⊆ peer_set (svc n);
  ad_evicted d : Base64.EncodeToString d ∈ (Key <$> accountRows n) -> d ∉ peer_set (svc n');
  ad_others d : d ∈ peer_set (svc n) -> Base64.EncodeToString d ∉ (Key <$> accountRows n) ->
    d ∈ peer_set (svc n');
  ad_inv : node_inv n'
}.

(** The keys of the account's rows, on any subscription. *)
Definition accountKeys (n : node) : list string :=
  Key <$> List.filter (matches (whereAccount 0 (AccAddress req))) (rows (db n)).

(** The undo of an admission failed: the one case in which a refusal leaves its peer. *)
Definition undo_failed (e : apiError) n' : Prop :=
  e_Status e = StatusInternalServerError ∧ e_Code e = 10 ∧ PeerData req ∈ peer_set (svc n')
  ∧ ∃ s e', RemovePeer (PeerData req) s = (inl e', svc n').

(** The session was refused.  Only a peer whose row could not be written and
    that could not be taken out again is left without a row; of the peers that were
    there, only those of the account may be gone, and only when the refusal came
    from taking them out (code 9) or after it (code 10). *)
Record refused (e : apiError) n n' : Prop := {
  rf_rows : rows (db n') = rows (db n);
  rf_peers : peer_set (svc n') ⊆ {[PeerData req]} ∪ peer_set (svc n);
  rf_own : PeerData req ∈ peer_set (svc n') -> PeerData req ∈ peer_set (svc n) ∨ undo_failed e n';
  rf_others d : d ∈ peer_set (svc n) -> Base64.EncodeToString d ∉ accountKeys n -> d ≠ PeerData req -> d ∈ peer_set (svc n');
  rf_early : e_Code e ≠ 9 -> e_Code e ≠ 10 -> peer_set (svc n') = peer_set (svc n);
  rf_room : PeerCount (svc n') <= Z.max (PeerCount (svc n)) MaxPeers;
  rf_inv : node_inv n' ∨ undo_failed e n'
}.

(** A later part of the admission refused, from [n1]; until then peers of the account
    only had gone. *)
Lemma refused_from e n n1 n' : rows (db n1) = rows (db n) ->
  peer_set (svc n1) ⊆ peer_set (svc n) -> PeerCount (svc n1) <= PeerCount (svc n) ->
  (forall d, d ∈ peer_set (svc n) -> Base64.EncodeToString d ∉ accountKeys n -> d ∈ peer_set (svc n1)) ->
  peer_set (svc n1) = peer_set (svc n) ∨ e_Code e = 9 ∨ e_Code e = 10 ->
  refused e n1 n' -> refused e n n'.
Proof.
  intros Hr Hs Hc Hk He [R P O Ot E Rm I]; unfold accountKeys in *; rewrite Hr in *.
  split; [congruence|set_solver| | | |lia|done].
  - intros [?|?]%O; [left; by apply Hs|by right].
  - intros d Hd Ha Hne; apply Ot; auto.
  - intros E1 E2; rewrite E by done; destruct He as [He|[He|He]]; [exact He|by destruct E1|by destruct E2].
Qed.
Lemma refused_from_same e n n1 n' : rows (db n1) = rows (db n) ->
  peer_set (svc n1) = peer_set (svc n) -> PeerCount (svc n1) = PeerCount (svc n) ->
  refused e n1 n' -> refused e n n'.
Proof. intros Hr Hs Hc; apply refused_from; [done|by rewrite Hs|lia|by rewrite Hs|by left]. Qed.

Lemma refused_same e n n' : node_inv n -> same_obs n n' -> refused e n n'.
Proof.
  intros Hn Ho; pose proof (node_inv_obs _ _ Ho Hn); destruct Ho as [Hs Hr].
  split; rewrite ?Hs; auto; [set_solver|lia].
Qed.

Lemma accountRows_keys n k : k ∈ (Key <$> accountRows n) -> k ∈ accountKeys n.
Proof.
  unfold accountRows, accountKeys; intros (x & -> & Hx)%list_elem_of_fmap.
  apply list_elem_of_fmap_2, list_elem_of_In, filter_In; apply list_elem_of_In, filter_In in Hx as [Hx Hm].
  split; [done|]; by apply (matches_account_any (subscriptionID a)).
Qed.

(** Evicting the account's peers failed. *)
Lemma refused_shrinks e n n' : node_inv n -> e_Code e = 9 -> shrinks (fun k => k ∈ (Key <$> accountRows n)) n n' ->
  refused e n n'.
Proof.
  intros Hn He Hs; pose proof (node_inv_shrinks _ _ _ Hs Hn); destruct Hs as [Hd _ _ Hsub Hkeep Hc].
  split; [congruence|set_solver|by intros ?%Hsub; left| |done|lia|by left].
  intros d Hin Ha _; apply Hkeep; [done|]; by intros ?%accountRows_keys.
Qed.

(** Adding the peer and writing its row, once the account's peers are gone. *)
Lemma add_and_record n1 n2 peer (r : gerror + unit) n3 row : 
  node_inv n1 -> PeerCount (svc n1) < MaxPeers ->
  ID row = req_ID req -> Key row = PeerKey req -> PeerKey req ∉ (Key <$> rows (db n1)) ->
  on_svc (AddPeer (PeerData req)) n1 = (inr peer, n2) -> on_db (Create row) n2 = (r, n3) ->
  PeerCount (svc n3) <= MaxPeers ∧ peer_set (svc n3) = {[PeerData req]} ∪ peer_set (svc n1)
  ∧ svc_inv (svc n3) ∧
  match r with
  | inr _ => node_inv n3 ∧ ∃ t, rows (db n3) = rows (db n1) ++ [stamped row t]
  | inl _ => rows (db n3) = rows (db n1)
  end.
Proof.
  intros Hn Hc Hrid Hrk Hk (Ha & Hdb & _)%on_svc_inv (Hcr & Hsv & _)%on_db_inv.
  pose proof (add_peer_count _ _ _ _ Ha) as Hcount; simpl in Hcount.
  apply add_peer_ok in Ha as [Hi Hset]; [|apply Hn|done].
  rewrite Hsv; split_and!; [lia|done|done|].
  apply create_spec in Hcr; rewrite Hdb in Hcr; destruct r as [e|[]]; [done|].
  destruct Hcr as ((t & Hrows) & Hnid & _); split; [|by exists t].
  destruct Hn; split; rewrite ?Hrows, ?fmap_app, ?Hsv; simpl; rewrite ?Hrid, ?Hrk in *; try done.
  - by apply NoDup_snoc.
  - intros [?|?%list_elem_of_singleton]%elem_of_app; [done|by apply Hid].
  - by apply NoDup_snoc.
  - apply Forall_app; split; [done|]; constructor; [|done]; by exists (PeerData req).
  - intros d; rewrite Hset, elem_of_union, elem_of_singleton; intros [->|Hd]; set_solver.
Qed.

(** The peer went in but its row did not: it is taken out again, if that works. *)
Lemma refused_undo e n n3 (r : gerror + unit) n' :
  node_inv n -> rows (db n3) = rows (db n) -> svc_inv (svc n3) ->
  peer_set (svc n3) = {[PeerData req]} ∪ peer_set (svc n) -> PeerCount (svc n3) <= MaxPeers ->
  e_Status e = StatusInternalServerError -> e_Code e = 10 ->
  on_svc (RemovePeer (PeerData req)) n3 = (r, n') -> refused e n n'.
Proof.
  intros Hn Hr Hi Hset Hc He1 He2 H; pose proof (on_svc_inv _ _ _ _ H) as (Hrm & _ & _).
  apply on_svc_remove in H as [Hs Hout]; [|done..].
  pose proof (shr_db _ _ _ Hs) as Hdb; pose proof (shr_sub _ _ _ Hs) as Hsub.
  pose proof (shr_count _ _ _ Hs).
  assert (PeerData req ∈ peer_set (svc n') -> undo_failed e n') as Hfail.
  { intros Hin; destruct r as [e'|[]]; [by repeat split; eauto|by destruct (Hout eq_refl)]. }
  split; [congruence|by rewrite <- Hset|by right; apply Hfail| |done|lia|].
  { intros d Hd _ Hne; apply (shr_keep _ _ _ Hs); [by rewrite Hset; set_solver|by intros <-%(inj _)]. }
  destruct (decide (PeerData req ∈ peer_set (svc n'))) as [Hin|Hin]; [right; auto|].
  - left; destruct Hn; split; rewrite ?Hdb, ?Hr; try done; [apply Hs|].
    intros d Hd; apply ni_metered0; apply Hsub in Hd as Hd'; set_solver.
Qed.

(** From a state in which the request's key is free and there is room. *)
Lemma addAndRecord_inv n remaining r n' :
  node_inv n -> PeerCount (svc n) < MaxPeers -> PeerKey req ∉ (Key <$> rows (db n)) ->
  addAndRecord req a remaining n = (r, n') ->
  match r with
  | inl e => refused e n n'
  | inr res => res_Session res = adm_session a ∧ PeerCount (svc n') <= MaxPeers ∧ node_inv n'
      ∧ peer_set (svc n') = {[PeerData req]} ∪ peer_set (svc n)
      ∧ AddPeer (PeerData req) (svc n) = (inr (res_Peer res), svc n')
      ∧ ∃ t, rows (db n') = rows (db n) ++ [stamped (newRow req a remaining) t]
  end.
Proof.
  intros Hn Hroom Hk H; unfold addAndRecord in H; minv H.
  - apply on_svc_inv in H as (H & Hd & _); pose proof (add_peer_count _ _ _ _ H) as Hc; simpl in Hc.
    apply add_peer_err in H as [Hi Hset]; [|apply Hn].
    destruct Hn; split; rewrite ?Hset, ?Hd; [done|set_solver|by left|done|done|lia|].
    left; split; rewrite ?Hset, ?Hd; done.
  - eapply add_and_record in Hm0 as (Hc & Hset & Hi & Hr); [|done..].
    eapply refused_undo; [done..|eassumption].
  - pose proof (on_svc_inv _ _ _ _ Hm) as (Ha & _ & _); pose proof (on_db_inv _ _ _ _ Hm0) as (_ & Hsv & _).
    eapply add_and_record in Hm0 as (Hc & Hset & Hi & Hn' & Ht); [|done..]; cbn; rewrite Hsv; rewrite Hsv in *; done.
Qed.

Lemma addAndRecord_code n remaining e n' : addAndRecord req a remaining n = (inl e, n') -> e_Code e = 10.
Proof. unfold addAndRecord; intros H; minv H; done. Qed.

Context (sha256 : bytes -> bytes).

Lemma admit_locked_inv c n r n' : node_inv n -> granted c req a ->
  admit_locked sha256 MaxPeers req a n = (r, n') ->
  match r with inr res => admitted res n n' | inl e => refused e n n' end.
Proof.
  intros Hn Hg H; unfold admit_locked in H; minv H;
    repeat match goal with
    | H : checkCapacity _ _ _ _ = _ |- _ => let Ho := fresh "Ho" in apply checkCapacity_inv in H as [[Ho _] H]
    | H : remainingFor _ _ _ = _ |- _ => apply (remainingFor_inv c) in H as [? H]; [|done]
    | H : on_db (Find _) _ = _ |- _ => apply on_db_find in H as [? H]
    end.
  1-3: apply refused_same; [done|by repeat (etrans; [eassumption|])].
  all: assert (Hobs : same_obs n s1) by (by repeat (etrans; [eassumption|])).
  all: pose proof (node_inv_obs _ _ Hobs Hn) as Hn1.
  all: assert (Hrs : rows (db s) = rows (db n) ∧ rows (db s0) = rows (db n))
    by (repeat match goal with H : same_obs _ _ |- _ => destruct H end; split; congruence).
  all: destruct Hrs as [Hrs Hrs0]; rewrite Hrs in Hm0; rewrite Hrs0 in Hm1;
    fold (accountRows n) in Hm0, Hm1; subst a3.
  all: assert (Hwf : Forall (fun x => wf_key (Key x)) (accountRows n)) by by apply node_inv_items.
  { apply removeAll_inv in H as [Hs _]; [|apply Hn1|done]; destruct Hobs as [Hsvc Hrows].
    eapply refused_from_same, refused_shrinks; rewrite ?Hsvc; try done; unfold accountRows in *; by rewrite Hrows. }
  destruct a0, (Hm eq_refl) as (Hroom & Hfid & Hfk), Hm0 as [Hcaps Hcap].
  apply removeAll_inv in Hm2 as [Hs Hgone]; [|apply Hn1|done]; rename s2 into n2.
  pose proof (node_inv_shrinks _ _ _ Hs Hn1) as Hn2; destruct Hobs as [Hsvc Hrows], a4.
  destruct Hs as [Hdb _ _ Hsub Hkeep Hcnt]; rewrite Hsvc in *.
  pose proof H as Hadd; apply addAndRecord_inv in H; [|done|lia|rewrite Hdb, Hrows; auto].
  destruct r as [e|res].
  { pose proof (addAndRecord_code _ _ _ _ Hadd) as He; eapply refused_from; [..|exact H]; rewrite ?Hdb; auto.
    intros d Hd Ha; apply Hkeep; [done|]; by intros ?%accountRows_keys. }
  destruct H as (Hres & Hle & Hn' & Hset & Hpeer & t & Ht); subst a1.
  split; rewrite ?Hset; auto; [exists t; congruence|set_solver|by eauto| |].
  - intros d Hd; apply not_elem_of_union; split; [|auto].
    intros ->%elem_of_singleton; apply Hfk; [done|]; by eapply fmap_filter_incl.
  - intros d Hd Hne; apply elem_of_union_r; auto.
Qed.
End Locked.

Context (sha256 : bytes -> bytes).

(** ** The whole of admission *)
Lemma admit_inv req n r n' : node_inv n -> req_ID req ≠ 0 -> PeerData req ≠ [] ->
  sessionAdmit sha256 MaxPeers NodeAddress req n = (r, n') ->
  match r with
  | inl e => refused req e n n'
  | inr res => ∃ a, granted (chain n) req a ∧ admitted req a res n n'
  end.
Proof.
  intros Hn Hid Hd H; unfold sessionAdmit in H; minv H;
    repeat match goal with
    | H : checkCapacity _ _ _ _ = _ |- _ => apply checkCapacity_inv in H as [[? ?] _]
    | H : queryAdmission _ _ _ = _ |- _ => apply queryAdmission_inv in H as (? & _ & H)
    end.
  1-2: by apply refused_same; [done..|repeat (etrans; [eassumption|])].
  assert (same_obs n s0) as Hobs by (by etrans); rename Hm0 into Hg.
  replace (chain s) with (chain n) in Hg by congruence.
  eapply admit_locked_inv in H; [|done|done|by eapply node_inv_obs|exact Hg].
  destruct Hobs as [Hs Hr], r as [e|res].
  - eapply refused_from_same; [..|done]; by rewrite ?Hs.
  - exists a0; split; [done|]; destruct H; unfold accountRows in *.
    rewrite ?Hs, ?Hr in *; by split; unfold accountRows; rewrite ?Hs, ?Hr.
Qed.

(** C1. A handshake that is admitted was entitled to it and changes the node
    exactly as promised: the chain answered with an active session of this
    account on this node, with bytes left on every cap that applies (and, on a
    plan, an active subscription with an allocation); there was room, and the
    peer count stays within [max_peers]; neither the session nor the key was
    known; the peer is served, the account's earlier peers are not, all others
    still are; exactly one row is written, with the counters the chain holds and
    the least of the caps; and afterwards every served peer still has its row. *)
Theorem admit_success req n res n' : node_inv n -> req_ID req ≠ 0 -> PeerData req ≠ [] ->
  sessionAdmit sha256 MaxPeers NodeAddress req n = (inr res, n') ->
  ∃ a, granted (chain n) req a ∧ admitted req a res n n'.
Proof. intros Hn Hid Hd H; by apply (admit_inv req n (inr res) n'). Qed.

(** C2. A handshake that is refused changes no row, keeps the peer count within
    [max_peers], takes out no peer but the account's own (and none at all before the
    eviction), and leaves no peer of its own and every served peer with its row,
    unless both writing the row and taking the peer out again failed: then the
    reply is 500 with code 10 and only that peer lacks a row. *)
Theorem admit_failure req n e n' : node_inv n -> req_ID req ≠ 0 -> PeerData req ≠ [] ->
  sessionAdmit sha256 MaxPeers NodeAddress req n = (inl e, n') -> refused req e n n'.
Proof. intros Hn Hid Hd H; by apply (admit_inv req n (inl e) n'). Qed.

Lemma byteCap_le caps : Forall (fun c => byteCap caps <= c) caps.
Proof.
  destruct caps as [|c cs]; [constructor|]; simpl.
  set (m := foldr Z.min c cs); enough (Forall (Z.le m) (c :: cs)) as H
    by (eapply Forall_impl; [apply H|]; simpl; lia).
  subst m; induction cs as [|x cs IH]; simpl; [constructor; [lia|done]|].
  apply Forall_cons in IH as [IHc IH]; repeat constructor; [lia|lia|].
  eapply Forall_impl; [apply IH|]; simpl; lia.
Qed.

Lemma or_iff_compat (P P' Q Q' : Prop) : (P <-> P') -> (Q <-> Q') -> P ∨ Q <-> P' ∨ Q'.
Proof. tauto. Qed.
Lemma byteCap_in caps : byteCap caps ≠ 0 -> byteCap caps < max_int64 -> byteCap caps ∈ caps.
Proof.
  destruct caps as [|c cs]; [done|]; simpl; intros _ Hm; replace (Z.min _ _) with (foldr Z.min c cs) by lia; clear Hm.
  induction cs as [|x cs IH]; simpl; [by left|]; destruct (Z.min_spec x (foldr Z.min c cs)) as [[_ ->]|[_ ->]];
    rewrite !elem_of_cons in *; tauto.
Qed.
Lemma byteCap_spec caps : Forall (Z.lt 0) caps ->
  (forall c, c ∈ caps -> byteCap caps <= c) ∧ 0 <= byteCap caps <= max_int64
  ∧ (byteCap caps = 0 <-> caps = []) ∧ (0 < byteCap caps < max_int64 -> byteCap caps ∈ caps).
Proof.
  intros Hpos; assert (caps ≠ [] -> 0 < byteCap caps) as Hp by (intros; by apply byteCap_pos).
  assert (byteCap caps <= max_int64) as Hm by (destruct caps; simpl; unfold max_int64 in *; lia).
  split; [by apply Forall_forall, byteCap_le|].
  destruct (decide (caps = [])) as [->|Hne]; [simpl; split_and!; [done|done|done|intros []; lia]|]; specialize (Hp Hne).
  split_and!; [lia|done|split; [intros; lia|done]|intros []; apply byteCap_in; lia].
Qed.

(** C3. The byte budget written to the row is the least of the caps that apply, and
    0, meaning "unlimited", exactly when none does.  The caps are those of the
    admission the chain's answers decide ([granted_unique]): what its session has
    left of [max_bytes], and what its allocation has left, less the bytes this node
    served the account and has not reported yet.  The budget exceeds none of them,
    fits the row's [int64], and is one of them unless they are all above it. *)
Theorem admit_budget req n res n' : node_inv n -> req_ID req ≠ 0 -> PeerData req ≠ [] ->
  sessionAdmit sha256 MaxPeers NodeAddress req n = (inr res, n') ->
  ∃ row a, rows (db n') = rows (db n) ++ [row] ∧ ID row = req_ID req ∧ granted (chain n) req a ∧
    let session := adm_session a in
    let items := List.filter (matches (whereAccount (subscriptionID a) (AccAddress req))) (rows (db n)) in
    let applies c := 0 < GetMaxBytes session ∧ c = GetMaxBytes session - TotalBytes session
      ∨ ∃ al, alloc a = Some al ∧ c = GrantedBytes al - UtilisedBytes al - totalServed items in
    (forall c, applies c -> Available row <= c) ∧ 0 <= Available row <= max_int64
    ∧ (Available row = 0 <-> forall c, ~ applies c)
    ∧ (0 < Available row < max_int64 -> applies (Available row)).
Proof.
  intros Hn Hid Hd H; apply admit_inv in H as (a & Hg & Had); [|done..].
  pose proof (ad_caps _ _ _ _ _ Had) as Hpos; destruct (ad_row _ _ _ _ _ Had) as [t Ht].
  eexists _, a; split_and!; [exact Ht|done|done|]; intros session items applies; cbn [Available stamped newRow].
  assert (forall c, applies c <-> c ∈ all_caps a (accountRows req a n)) as Happ.
  { intros c; unfold applies, all_caps, session_cap, session; rewrite elem_of_app; apply or_iff_compat.
    - destruct (Z.ltb_spec 0 (GetMaxBytes (adm_session a))); rewrite ?list_elem_of_singleton, ?elem_of_nil; intuition lia.
    - destruct (alloc a) as [al|]; rewrite ?list_elem_of_singleton, ?elem_of_nil; [|split; [by intros (? & ? & _)|done]].
      change items with (accountRows req a n); split; [intros (? & [= <-] & ->); lia|intros ->; exists al; split; [done|lia]]. }
  destruct (byteCap_spec _ Hpos) as (Hle & Hr & H0 & Hin); split_and!; [|apply Hr|apply Hr| |].
  - intros c Hc; by apply Hle, Happ.
  - rewrite H0; split; intros Hc; [intros c; rewrite Happ, Hc; apply not_elem_of_nil|].
    destruct (all_caps _ _) as [|x caps]; [done|]; destruct (Hc x); apply Happ; by left.
  - intros Hb; by apply Happ, Hin.
Qed.

(** Admission answers with a 5xx exactly when something below it failed (the
    database, the chain client or the VPN service); everything the client or
    the chain's state is the cause of is a 4xx. *)
Theorem admit_5xx_iff_internal req n e n' :
  sessionAdmit sha256 MaxPeers NodeAddress req n = (inl e, n') ->
  (e_Status e = StatusInternalServerError <-> ∃ g, e_Err e = cause g)
  ∧ 400 <= e_Status e <= 500.
Proof.
  intros H; unfold sessionAdmit, admit_locked, addAndRecord, queryAdmission, remainingFor, checkCapacity,
    checkMaxBytes in H; minv H;
  unfold newAPIError, StatusBadRequest, StatusConflict, StatusNotFound, StatusInternalServerError;
  simpl; (split; [|lia]); split; solve [eauto | discriminate | by intros []].
Qed.
End Proofs.
