(* ===== verification/Jobs.v ===== *)
(** The node's own work: src/node/jobs.go, src/node/reconcile.go,
    src/node/node.go (Initialize) and src/context/tx.go.

    Every job pass returns the errors it met ([errors.Join] of the empty list is
    nil) and never stops early over one.  The one thing that does stop a pass is
    a Go panic: [sdkmath.Int.Int64] panics outside the [int64] range, and
    [runJob] turns a panic into the end of the node.  Panics are the error side
    of the monad here; ordinary errors are returned values. *)
From S2P Require Import Prelude Codec Types Admission.

Inductive panic := Int64_out_of_bound (v : Z).

(** Errors to join: none for a call that went well. *)
Definition errs_of {A} (r : gerror + A) : list gerror := if r is inl e then [e] else [].

(** [sdkmath.Int.Int64]. *)
Definition Int64 {S} (v : Z) : M S panic Z :=
  if bool_decide (is_int64 v) then mret v else throw (Int64_out_of_bound v).

Section Jobs.
Context {S D C : Type} `{!Service S} `{!SessionStore D} `{!Chain C}.
(** From the configuration: the node's address, its operator account and what
    it advertises. *)
Context (NodeAddress Operator GigabytePrices HourlyPrices : string) (RemoteAddrs : list string).
Abbreviation node := (node S D C).

(** ** Transactions: src/context/tx.go *)
Definition RegisterNode : M node gerror unit :=
  on_chain (Tx [MsgRegisterNode Operator GigabytePrices HourlyPrices RemoteAddrs]).
Definition UpdateNodeInfo : M node gerror unit :=
  on_chain (Tx [MsgUpdateNodeDetails NodeAddress GigabytePrices HourlyPrices RemoteAddrs]).
Definition UpdateNodeStatus : M node gerror unit :=
  on_chain (Tx [MsgUpdateNodeStatus NodeAddress StatusActive]).

Definition sessionMsg (item : Session) : Msg :=
  MsgUpdateSession NodeAddress (ID item) (Download item) (Upload item) (Duration item).
Definition UpdateSessions (items : list Session) : M node gerror unit :=
  on_chain (Tx (sessionMsg <$> items)).

(** ** Start-up: src/node/node.go *)
Definition Initialize : M node gerror unit :=
  result ← on_chain (QueryNode NodeAddress);
  match result with
  | None => RegisterNode
  | Some _ => UpdateNodeInfo
  end.

(** ** set_sessions *)
Definition reportedUsage (item : Session) (peer : Peer) : Z * Z * bool :=
  let upload := wrap64 (BaseUpload item + p_Upload peer) in
  let download := wrap64 (BaseDownload item + p_Download peer) in
  (upload, download, negb (upload =? Upload item)).

(** One peer of the snapshot. *)
Definition setSession (peer : Peer) : M node panic (list gerror) :=
  found ← attempt (on_db (FindFirst (whereKey (p_Key peer))));
  match found with
  | inl err => mret [err]
  | inr [] =>
      removed ← attempt (ctx_RemovePeer (p_Key peer));
      mret (errs_of removed)
  | inr (item :: _) =>
      let '(upload, download, moved) := reportedUsage item peer in
      if negb moved then mret [] else
      updated ← attempt (on_db (UpdateUsage (whereID (ID item)) upload download));
      let consumed := wrap64 (p_Upload peer + p_Download peer) in
      if (0 <? Available item) && (Available item <? consumed) then
        removed ← attempt (ctx_RemovePeer (Key item));
        mret (errs_of updated ++ errs_of removed)
      else mret (errs_of updated)
  end.

(** What runs under the admission lock, on a snapshot of the peers. *)
Fixpoint setSessions_locked (peers : list Peer) : M node panic (list gerror) :=
  match peers with
  | [] => mret []
  | peer :: rest =>
      errs ← setSession peer;
      more ← setSessions_locked rest;
      mret (errs ++ more)
  end.

Definition setSessions : M node panic (list gerror) :=
  peers ← attempt (on_svc Peers);
  match peers with
  | inl err => mret [err]
  | inr peers => setSessions_locked peers
  end.

(** ** update_sessions *)
Record verdict := mkVerdict {
  removePeer : bool; removeSession : bool; skipUpdate : bool; v_err : option gerror }.

(** The counters the chain holds are the stored ones; the second comparison is
    made only when the first one holds. *)
Definition unmoved (item : Session) (session : ChainSession) : M node panic bool :=
  up ← Int64 (GetUploadBytes session);
  if Upload item =? up then
    down ← Int64 (GetDownloadBytes session);
    mret (Download item =? down)
  else mret false.

Definition over_limit (item : Session) (session : ChainSession) : bool :=
  (0 <? GetMaxBytes session) && (GetMaxBytes session <=? wrap64 (Upload item + Download item)).

Definition checkSession (item : Session) : M node panic verdict :=
  found ← attempt (on_chain (QuerySession (ID item)));
  match found with
  | inl err => mret (mkVerdict false false true (Some err))
  | inr None => mret (mkVerdict true true true None)
  | inr (Some session) =>
    same ← unmoved item session;
    let stale := same && (CreatedAt item <? GetStatusAt session) in
    let inactive := bool_decide (GetStatus session ≠ StatusActive) in
    let ended := bool_decide (GetStatus session = StatusInactive) in
    let removePeer := stale || inactive || over_limit item session in
    let skipUpdate := same || ended in
    match GetKind session with
    | NodeSession => mret (mkVerdict removePeer ended skipUpdate None)
    | SubscriptionSession sid =>
      subscription ← attempt (on_chain (QuerySubscription sid));
      match subscription with
      | inl err => mret (mkVerdict removePeer ended true (Some err))
      | inr sub =>
        let active := if sub is Some s then bool_decide (sub_Status s = StatusActive) else false in
        let over := if sub is Some s then bool_decide (sub_Status s = StatusInactive) else true in
        mret (mkVerdict (removePeer || negb active) (ended || over) (skipUpdate || over) None)
      end
    end
  end.

(** Under the admission lock. *)
Definition retire (item : Session) (removePeer removeSession : bool) : M node gerror unit :=
  (if removePeer then RemovePeerIfExists (Key item) else mret tt) ≫= fun _ =>
  if removeSession then on_db (Delete (whereID (ID item))) else mret tt.

(** One stored session: the errors met, and whether it is still to be reported. *)
Definition updateSession (item : Session) : M node panic (list gerror * bool) :=
  v ← checkSession item;
  retired ← (if removePeer v || removeSession v
             then attempt (retire item (removePeer v) (removeSession v))
             else mret (inr tt));
  mret (option_list (v_err v) ++ errs_of retired,
        negb (skipUpdate v || if v_err v is Some _ then true else false)).

(** The rows are visited from the last to the first; those to report keep their
    order. *)
Fixpoint checkAll (items_rev : list Session) (keep : list Session)
  : M node panic (list gerror * list Session) :=
  match items_rev with
  | [] => mret ([], keep)
  | item :: rest =>
      res ← updateSession item;
      let '(errs, report) := res in
      more ← checkAll rest (if (report : bool) then item :: keep else keep);
      mret (errs ++ more.1, more.2)
  end.

(** Which of the sessions of a refused batch the chain still knows, and how many
    could be asked about. *)
Fixpoint stillThere (items : list Session) : M node panic (list Session * nat) :=
  match items with
  | [] => mret ([], 0%nat)
  | item :: rest =>
      found ← attempt (E' := gerror) (on_chain (QuerySession (ID item)));
      more ← stillThere rest;
      mret (match found with
            | inl _ => (item :: more.1, more.2)
            | inr None => (more.1, (1 + more.2)%nat)
            | inr (Some session) =>
                if bool_decide (GetStatus session = StatusInactive)
                then (more.1, (1 + more.2)%nat) else (item :: more.1, (1 + more.2)%nat)
            end)
  end.

Fixpoint reportEach (items : list Session) : M node panic (list gerror) :=
  match items with
  | [] => mret []
  | item :: rest =>
      sent ← attempt (UpdateSessions [item]);
      more ← reportEach rest;
      mret (errs_of sent ++ more)
  end.

Definition reportSessions (items : list Session) : M node panic (list gerror) :=
  sent ← attempt (UpdateSessions items);
  match sent with
  | inr _ => mret []
  | inl err =>
    res ← stillThere items;
    let '(still, queried) := res in
    if (length still =? 0)%nat then mret []
    else if (queried =? 0)%nat then mret [err]
    else if (length still <? length items)%nat then
      again ← attempt (UpdateSessions still);
      match again with
      | inr _ => mret []
      | inl _ => reportEach still
      end
    else reportEach still
  end.

Definition updateSessions : M node panic (list gerror) :=
  found ← attempt (on_db (Find Session0));
  match found with
  | inl err => mret [err]
  | inr items =>
    res ← checkAll (rev items) [];
    let '(errs, keep) := res in
    match keep with
    | [] => mret errs
    | _ :: _ => more ← reportSessions keep; mret (errs ++ more)
    end
  end.

(** ** ReconcileSessions, once before the jobs and the API *)
Definition sessionNeedsReport (local : Session) (onChain : ChainSession) : M node panic bool :=
  if bool_decide (GetStatus onChain ≠ StatusActive) then mret false
  else
    up ← Int64 (GetUploadBytes onChain);
    if negb (Upload local =? up) then mret true
    else
      down ← Int64 (GetDownloadBytes onChain);
      mret (negb (Download local =? down)).

Fixpoint finalReport (items : list Session) : M node panic (list Session) :=
  match items with
  | [] => mret []
  | item :: rest =>
      found ← attempt (E' := gerror) (on_chain (QuerySession (ID item)));
      needs ← match found with
              | inr (Some session) => sessionNeedsReport item session
              | _ => mret false
              end;
      more ← finalReport rest;
      mret (if (needs : bool) then item :: more else more)
  end.

(** A failure to read the table is not looked at: the list stays empty. *)
Definition ReconcileSessions : M node panic (option gerror) :=
  found ← attempt (E' := gerror) (on_db (Find Session0));
  let items := if found is inr items then items else [] in
  match items with
  | [] => attempt (E' := gerror) (on_db Vacuum) ≫= fun _ => mret None
  | _ :: _ =>
    report ← finalReport items;
    (if (0 <? length report)%nat then attempt (UpdateSessions report) else mret (inr tt)) ≫= fun _ =>
    cleared ← attempt (on_db DeleteAll);
    match cleared with
    | inl err => mret (Some err)
    | inr _ => attempt (E' := gerror) (on_db Vacuum) ≫= fun _ => mret None
    end
  end.
End Jobs.
