(* ===== verification/JobsProofs.v ===== *)
(** What the jobs guarantee, proved against the service, table and chain
    interfaces.

    - [setSessions]: the pass stores exactly the usage the service counted and
      takes out exactly the unknown peers and those over their budget.
    ReportProofs.v has the other job and the start. *)
From S2P Require Import Prelude Codec Types Admission AdmissionProofs Jobs.
Set Default Proof Using "Type*".

(** Rows are well formed, whatever the service holds. *)
Record table_inv (l : list Session) : Prop := {
  ti_ids : NoDup (ID <$> l);
  ti_id0 : 0 ∉ (ID <$> l);
  ti_keys : NoDup (Key <$> l);
  ti_wf : Forall (fun x => wf_key (Key x)) l
}.

Section SetSessions.
Context {S D C : Type} `{!Service S, !ServiceLaws S} `{!SessionStore D, !SessionStoreLaws D} `{!Chain C}.
Abbreviation node := (node S D C).
Implicit Types (n : node).

Lemma node_inv_split n : node_inv n <-> svc_inv (svc n) ∧ table_inv (rows (db n)) ∧
  (forall d, d ∈ peer_set (svc n) -> Base64.EncodeToString d ∈ (Key <$> rows (db n))).
Proof. split; [by intros []|by intros (? & [] & ?)]. Qed.

(** ** One peer *)

(** What the pass makes of one stored row, said of the numbers: a row's totals are
    those the chain held when the peer was admitted plus what the service has counted
    since, in [int64] arithmetic.  A peer moved when its upload total is another than
    the stored one; one that only downloaded is left alone until it sends. *)
Definition counted_up (r : Session) (peer : Peer) : Z := wrap64 (BaseUpload r + p_Upload peer).
Definition counted_down (r : Session) (peer : Peer) : Z := wrap64 (BaseDownload r + p_Download peer).
Definition moved (r : Session) (peer : Peer) : bool := negb (counted_up r peer =? Upload r).
Definition stores (peer : Peer) (r r' : Session) : Prop :=
  if bool_decide (Key r = p_Key peer) && moved r peer
  then ∃ t, r' = with_usage r (counted_up r peer) (counted_down r peer) t else r' = r.
Lemma reportedUsage_eq r peer : reportedUsage r peer = (counted_up r peer, counted_down r peer, moved r peer).
Proof. done. Qed.
Definition over_budget (item : Session) (peer : Peer) : bool :=
  (0 <? Available item) && (Available item <? wrap64 (p_Upload peer + p_Download peer)).
Definition row_for (k : string) (l : list Session) : option Session :=
  head (List.filter (fun r => bool_decide (Key r = k)) l).
(** The peer is to be taken out: it has no row, or it moved data over budget. *)
Definition cut (l : list Session) (peer : Peer) : bool :=
  match row_for (p_Key peer) l with
  | None => true
  | Some r => moved r peer && over_budget r peer
  end.

Lemma row_for_Some k l r : row_for k l = Some r -> r ∈ l ∧ Key r = k.
Proof.
  unfold row_for; intros H; apply head_Some_elem_of, list_elem_of_In, filter_In in H as [Hin Hk].
  split; [by apply list_elem_of_In|by apply bool_decide_eq_true in Hk].
Qed.

Lemma row_for_None k l : row_for k l = None <-> k ∉ (Key <$> l).
Proof.
  unfold row_for; rewrite <- count_zero_not_elem.
  destruct (List.filter _ l); simpl; split; (done || lia).
Qed.

Lemma on_db_find_first k n r n' : k ≠ ""%string -> on_db (FindFirst (whereKey k)) n = (r, n') ->
  same_obs n n' ∧ (if r is inr items then items = option_list (row_for k (rows (db n))) else True).
Proof.
  intros Hk (H & Hs & _)%on_db_inv; apply find_first_spec in H as [Hr Hi].
  split; [by split|]; destruct r as [|items]; [done|]; subst items; unfold row_for.
  rewrite (filter_matches_ext _ (fun x => bool_decide (Key x = k)))
    by (intros; by apply matches_whereKey).
  by destruct (List.filter _ _).
Qed.

Lemma ctx_RemovePeer_inv k n r n' : svc_inv (svc n) -> wf_key k -> ctx_RemovePeer k n = (r, n') ->
  shrinks (eq k) n n' ∧ (r = inr tt -> forall d, Base64.EncodeToString d = k -> d ∉ peer_set (svc n')).
Proof.
  intros Hi (d & Hd & ->) H; unfold ctx_RemovePeer in H; rewrite Base64.decode_encode in H.
  apply on_svc_remove in H as [Hs Hr]; [|done..]; split; [done|]; by intros -> d' ->%(inj _); auto.
Qed.

(** Rows that differ at most in their usage. *)
Definition same_row (r r' : Session) : Prop := r' = with_usage r (Upload r') (Download r') (UpdatedAt r').

Lemma same_row_refl r : same_row r r.
Proof. by destruct r. Qed.

Lemma same_rows_fmap {A} (f : Session -> A) l l' :
  (forall r u d t, f (with_usage r u d t) = f r) -> Forall2 same_row l l' -> f <$> l' = f <$> l.
Proof.
  intros Hf; induction 1 as [|x y l l' Hxy _ IH]; [done|]; rewrite !fmap_cons, IH.
  by unfold same_row in Hxy; rewrite Hxy, Hf.
Qed.

Lemma same_rows_keys l l' : Forall2 same_row l l' -> Key <$> l' = Key <$> l.
Proof. by apply same_rows_fmap. Qed.

Lemma table_inv_same_rows l l' : Forall2 same_row l l' -> table_inv l -> table_inv l'.
Proof.
  intros Hl [Hi H0 Hk Hw]; pose proof (same_rows_keys _ _ Hl) as Hkeys.
  assert (ID <$> l' = ID <$> l) as Hids by (by apply same_rows_fmap).
  split; rewrite ?Hids, ?Hkeys; try done.
  assert (Forall wf_key (Key <$> l')) as H by (by rewrite Hkeys; apply Forall_fmap).
  rewrite Forall_fmap in H; exact H.
Qed.

Lemma stores_same_row p r r' : stores p r r' -> same_row r r'.
Proof.
  unfold stores; destruct (_ && _); [intros [t ->]; by destruct r|intros ->; apply same_row_refl].
Qed.

(** Storing the usage of the row that [FindFirst] returned touches that row only. *)
Lemma update_stores n n' r item p up down : table_inv (rows (db n)) ->
  row_for (p_Key p) (rows (db n)) = Some item -> reportedUsage item p = (up, down, true) ->
  on_db (UpdateUsage (whereID (ID item)) up down) n = (r, n') ->
  svc n' = svc n ∧
  (if r is inr _ then Forall2 (stores p) (rows (db n)) (rows (db n')) else rows (db n') = rows (db n)).
Proof.
  intros [Hids H0 Hkeys _] Hrow Hu (H & Hs & _)%on_db_inv; split; [done|].
  apply update_usage_spec in H; destruct r as [|[]]; [done|]; destruct H as [t ->].
  apply row_for_Some in Hrow as [Hin Hk].
  assert (ID item ≠ 0) as Hid0 by (intros E; apply H0; rewrite <- E; by apply list_elem_of_fmap_2).
  apply Forall2_fmap_r, Forall_Forall2_diag, Forall_forall; intros x Hx.
  simpl; rewrite matches_whereID by done; unfold stores; case_bool_decide as Hxi.
  - assert (x = item) as -> by (apply (NoDup_fmap_elem Key (rows (db n))); congruence).
    rewrite reportedUsage_eq in Hu; injection Hu as <- <- ->; rewrite bool_decide_true by done; simpl; eauto.
  - rewrite bool_decide_false; [done|].
    intros Hid; apply Hxi; by rewrite (NoDup_fmap_elem ID (rows (db n)) x item).
Qed.

(** What one step of the pass does, whatever goes wrong in it. *)
Record pass_step (k : string) n n' : Prop := {
  ps_rows : Forall2 same_row (rows (db n)) (rows (db n'));
  ps_inv : svc_inv (svc n');
  ps_sub : peer_set (svc n') ⊆ peer_set (svc n);
  ps_keep d : d ∈ peer_set (svc n) -> Base64.EncodeToString d ≠ k -> d ∈ peer_set (svc n');
  ps_count : PeerCount (svc n') <= PeerCount (svc n)
}.

Lemma Forall2_same_row_refl l : Forall2 same_row l l.
Proof. apply Forall_Forall2_diag, Forall_forall; intros; apply same_row_refl. Qed.

(** A step made of a change to the rows and then removals of one key. *)
Lemma pass_step_intro k n n1 n' : svc n1 = svc n -> Forall2 same_row (rows (db n)) (rows (db n1)) ->
  shrinks (eq k) n1 n' -> pass_step k n n'.
Proof.
  intros Hs Hr [Hd _ Hi Hsub Hkeep Hc]; rewrite Hs in *; split; [by rewrite Hd|done..| |done].
  intros d Hdi Hne; apply Hkeep; congruence.
Qed.

Lemma setSession_total p n r n' : setSession p n = (r, n') -> ∃ errs, r = inr errs.
Proof. intros H; unfold setSession in H; minv H; eauto. Qed.

(** The promise of one step. *)
Definition step_spec (p : Peer) n (errs : list gerror) n' : Prop :=
  pass_step (p_Key p) n n' ∧
  (errs = [] -> Forall2 (stores p) (rows (db n)) (rows (db n'))
    ∧ forall d, Base64.EncodeToString d = p_Key p ->
        (d ∈ peer_set (svc n') <-> d ∈ peer_set (svc n) ∧ cut (rows (db n)) p = false)).

Lemma step_kept p n errs n' : svc_inv (svc n) -> svc n' = svc n ->
  Forall2 same_row (rows (db n)) (rows (db n')) ->
  (errs = [] -> Forall2 (stores p) (rows (db n)) (rows (db n')) ∧ cut (rows (db n)) p = false) ->
  step_spec p n errs n'.
Proof.
  intros Hi Hs Hr He; split.
  - eapply pass_step_intro; [done|done|]; apply shrinks_refl; congruence.
  - intros [Hst Hc]%He; split; [done|]; intros d Hd; rewrite Hs, Hc; naive_solver.
Qed.

Lemma step_removed p n n1 errs (x : gerror + unit) n' : svc_inv (svc n) -> wf_key (p_Key p) ->
  svc n1 = svc n -> Forall2 same_row (rows (db n)) (rows (db n1)) ->
  ctx_RemovePeer (p_Key p) n1 = (x, n') ->
  (errs = [] -> Forall2 (stores p) (rows (db n)) (rows (db n1))
     ∧ x = inr tt ∧ cut (rows (db n)) p = true) ->
  step_spec p n errs n'.
Proof.
  intros Hi Hk Hs Hr H He; apply ctx_RemovePeer_inv in H as [Hsh Hout]; [|congruence|done].
  split; [by eapply pass_step_intro|]; intros (Hst & Hx & Hc)%He; split.
  - by rewrite (shr_db _ _ _ Hsh).
  - intros d Hd; rewrite Hc; split; [|by intros []]; by intros Hin%Hout.
Qed.

Lemma stores_no_row p l : row_for (p_Key p) l = None -> Forall2 (stores p) l l.
Proof.
  intros Hn%row_for_None; apply Forall_Forall2_diag, Forall_forall; intros x Hx.
  unfold stores; rewrite bool_decide_false; [done|].
  intros E; apply Hn; rewrite <- E; by apply list_elem_of_fmap_2.
Qed.

Lemma stores_unmoved p l r : NoDup (Key <$> l) -> row_for (p_Key p) l = Some r -> moved r p = false ->
  Forall2 (stores p) l l.
Proof.
  intros Hnd [Hin Hk]%row_for_Some Hm; apply Forall_Forall2_diag, Forall_forall; intros x Hx.
  unfold stores; case_bool_decide as Hxk; [|done].
  assert (x = r) as -> by (apply (NoDup_fmap_elem Key l); congruence).
  by rewrite Hm.
Qed.

Lemma setSession_inv p n errs n' : table_inv (rows (db n)) -> svc_inv (svc n) -> wf_key (p_Key p) ->
  setSession p n = (inr errs, n') -> step_spec p n errs n'.
Proof.
  intros Ht Hi Hk H; pose proof (wf_key_nonempty _ Hk) as Hne; unfold setSession in H; minv H;
    apply on_db_find_first in Hm as [[Hs Hr] Hf]; try done.
  - apply step_kept; rewrite ?Hr; auto using Forall2_same_row_refl; done.
  - destruct (row_for _ _) as [item|] eqn:Hrow; [done|].
    eapply step_removed; [done|done|exact Hs|rewrite Hr; apply Forall2_same_row_refl|done|].
    intros He; rewrite Hr; split_and!; [by apply stores_no_row|by destruct x as [|[]]|].
    by unfold cut; rewrite Hrow.
  - destruct (row_for _ _) as [item|] eqn:Hrow; simplify_eq/=; apply negb_true_iff in Hx0; subst.
    assert (moved item p = false) as Hm by (rewrite reportedUsage_eq in Hx; congruence).
    apply step_kept; rewrite ?Hr; auto using Forall2_same_row_refl; intros _.
    split; [by eapply stores_unmoved; [apply Ht|..]|]; unfold cut; by rewrite Hrow, Hm.
  - destruct (row_for _ _) as [item|] eqn:Hrow; simplify_eq/=; apply negb_false_iff in Hx0; subst.
    rewrite <- Hr in Ht, Hrow; pose proof (row_for_Some _ _ _ Hrow) as [_ Hik]; rewrite Hik in *.
    eapply update_stores in Hm0 as [Hs1 Hu]; [|done..].
    refine (step_removed p n _ _ _ _ Hi Hk _ _ Hm1 _); [congruence|..]; rewrite <- Hr.
    + destruct x; [rewrite Hu; apply Forall2_same_row_refl|].
      eapply Forall2_impl; [done|]; eauto using stores_same_row.
    + destruct x, x0 as [|[]]; try done; intros _; split_and!; [done|done|].
      rewrite reportedUsage_eq in Hx; injection Hx as <- <- Hmv; unfold cut; by rewrite Hrow, Hmv.
  - destruct (row_for _ _) as [item|] eqn:Hrow; simplify_eq/=; apply negb_false_iff in Hx0; subst.
    rewrite <- Hr in Ht, Hrow; eapply update_stores in Hm0 as [Hs1 Hu]; [|done..].
    apply step_kept; [done|congruence| |]; rewrite <- Hr.
    + destruct x; [rewrite Hu; apply Forall2_same_row_refl|].
      eapply Forall2_impl; [done|]; eauto using stores_same_row.
    + destruct x; [done|]; intros _; split; [done|].
      rewrite reportedUsage_eq in Hx; injection Hx as <- <- Hmv; unfold cut; by rewrite Hrow, Hmv.
Qed.

(** ** The whole pass *)
Lemma stores_other p r r' : stores p r r' -> Key r ≠ p_Key p -> r' = r.
Proof.
  unfold stores; intros H Hk; by rewrite bool_decide_false in H.
Qed.

Lemma row_for_stores p k l l' : Forall2 (stores p) l l' -> k ≠ p_Key p -> row_for k l' = row_for k l.
Proof.
  unfold row_for; intros Hl Hk; induction Hl as [|r r' l l' Hr _ IH]; simpl; [done|].
  pose proof (stores_same_row _ _ _ Hr) as Hsame.
  assert (Key r' = Key r) as Hkey by (unfold same_row in Hsame; by rewrite Hsame).
  rewrite Hkey; case_bool_decide as Hkk; [|done]; simpl; f_equal; eapply stores_other; eauto.
  congruence.
Qed.

(** What the pass makes of a row: the usage of the peer that has its key. *)
Definition stores_all (peers : list Peer) (r r' : Session) : Prop :=
  match List.find (fun p => bool_decide (p_Key p = Key r)) peers with
  | None => r' = r
  | Some p => stores p r r'
  end.

Lemma stores_all_cons p peers r r1 r' : p_Key p ∉ (p_Key <$> peers) ->
  stores p r r1 -> stores_all peers r1 r' -> stores_all (p :: peers) r r'.
Proof.
  intros Hp H1 H2; unfold stores_all; simpl; case_bool_decide as Hk.
  - assert (Key r1 = Key r) as Hkey
      by (apply stores_same_row in H1; unfold same_row in H1; by rewrite H1).
    unfold stores_all in H2; destruct (List.find _ peers) as [q|] eqn:Hq; [|by subst].
    apply List.find_some in Hq as [Hin Hqk%bool_decide_eq_true].
    destruct Hp; rewrite Hk, <- Hkey, <- Hqk; by apply list_elem_of_fmap_2, list_elem_of_In.
  - by rewrite (stores_other _ _ _ H1) in H2.
Qed.

Lemma setSessions_locked_total peers n r n' : setSessions_locked peers n = (r, n') -> ∃ errs, r = inr errs.
Proof.
  revert n r n'; induction peers as [|p peers IH]; simpl; intros n r n' H; minv H; eauto.
  by apply setSession_total in H as [].
Qed.

(** The promise of the pass. *)
Record pass_spec (peers : list Peer) n (errs : list gerror) n' : Prop := {
  pass_rows : Forall2 same_row (rows (db n)) (rows (db n'));
  pass_inv : svc_inv (svc n');
  pass_sub : peer_set (svc n') ⊆ peer_set (svc n);
  pass_keep d : d ∈ peer_set (svc n) -> Base64.EncodeToString d ∉ (p_Key <$> peers) ->
    d ∈ peer_set (svc n');
  pass_count : PeerCount (svc n') <= PeerCount (svc n);
  pass_stored : errs = [] -> Forall2 (stores_all peers) (rows (db n)) (rows (db n'));
  pass_cut d p : errs = [] -> p ∈ peers -> p_Key p = Base64.EncodeToString d ->
    (d ∈ peer_set (svc n') <-> d ∈ peer_set (svc n) ∧ cut (rows (db n)) p = false)
}.

Lemma same_row_trans r1 r2 r3 : same_row r1 r2 -> same_row r2 r3 -> same_row r1 r3.
Proof. unfold same_row, with_usage; destruct r1, r2, r3; simpl; intros [=] [=]; by subst. Qed.

Lemma setSessions_locked_inv peers n errs n' : table_inv (rows (db n)) -> svc_inv (svc n) ->
  Forall wf_key (p_Key <$> peers) -> NoDup (p_Key <$> peers) ->
  setSessions_locked peers n = (inr errs, n') -> pass_spec peers n errs n'.
Proof.
  revert n errs n'; induction peers as [|p peers IH]; simpl; intros n errs n' Ht Hi Hw Hnd H; minv H.
  { split; try done; [apply Forall2_same_row_refl| |set_solver].
    intros _; by apply Forall_Forall2_diag, Forall_forall. }
  apply Forall_cons in Hw as [Hk Hw]; apply NoDup_cons in Hnd as [Hp Hnd].
  apply setSession_inv in Hm as [Hst He]; [|done..].
  destruct Hst as [Hrows Hi1 Hsub Hkeep Hcnt].
  apply IH in Hm0 as [Hrows2 Hi2 Hsub2 Hkeep2 Hcnt2 Hst2 Hcut2]; [|by eapply table_inv_same_rows|done..].
  split; [|done|by etrans| |lia| |].
  - eapply Forall2_compose; [|done..]; apply same_row_trans.
  - intros d Hd [Hd1 Hd2]%not_elem_of_cons; auto.
  - intros [-> ->]%app_nil; destruct He as [He _]; [done|].
    eapply Forall2_compose; [|done|by apply Hst2]; intros; by eapply stores_all_cons.
  - intros d q [-> ->]%app_nil Hq Hqk; destruct He as [Hst Hcut]; [done|].
    apply elem_of_cons in Hq as [->|Hq].
    + rewrite <- Hcut by done; split; [apply Hsub2|].
      intros Hd; apply Hkeep2; [done|by rewrite <- Hqk].
    + assert (p_Key q ≠ p_Key p) as Hne
        by (intros E; apply Hp; rewrite <- E; by apply list_elem_of_fmap_2).
      rewrite (Hcut2 d q) by done; unfold cut; rewrite (row_for_stores p _ _ _ Hst Hne).
      split; intros [Hd Hc]; (split; [|done]); [by apply Hsub|].
      apply Hkeep; [done|by rewrite <- Hqk].
Qed.

Lemma node_inv_pass peers n errs n' : node_inv n -> pass_spec peers n errs n' -> node_inv n'.
Proof.
  rewrite !node_inv_split; intros (Hi & Ht & Hm) []; split_and!; [done|by eapply table_inv_same_rows|].
  intros d Hd; erewrite same_rows_keys by done; auto.
Qed.

(** C5. One pass of [set_sessions] never panics and does what it promises: rows
    only ever change in their usage, no peer is added, and no peer outside the
    snapshot is taken out.  When it reports no error, then for every peer whose upload
    changed since the last pass it stored the totals the chain held at admission plus
    what the service counted since; rows of peers that sent nothing, also of those
    that only downloaded, are as they were; and of the snapshot's peers it took out
    exactly those without a row and those that sent something and are beyond their
    byte budget. *)
Theorem setSessions_correct n peers s1 r n' : table_inv (rows (db n)) -> svc_inv (svc n) ->
  Peers (svc n) = (inr peers, s1) ->
  Forall wf_key (p_Key <$> peers) -> NoDup (p_Key <$> peers) ->
  setSessions n = (r, n') -> ∃ errs, r = inr errs ∧ pass_spec peers n errs n'.
Proof.
  intros Ht Hi Hp Hw Hnd H; unfold setSessions in H; minv H;
    apply on_svc_inv in Hm as (Hm & Hdb & _); rewrite Hp in Hm; simplify_eq.
  apply peers_frame in Hp as (Hi1 & Hset & Hc); [|done].
  pose proof (setSessions_locked_total _ _ _ _ H) as [errs ->]; exists errs; split; [done|].
  apply setSessions_locked_inv in H as []; [|by rewrite ?Hdb..].
  split; rewrite <- ?Hset, <- ?Hc, <- ?Hdb; auto.
Qed.

(** C6. [set_sessions] repairs the node: whatever peers the service carries,
    after one pass without errors over a complete snapshot every peer still
    served has its row, so a peer that was left without one is gone. *)
Theorem setSessions_repairs n peers s1 n' : table_inv (rows (db n)) -> svc_inv (svc n) ->
  Peers (svc n) = (inr peers, s1) ->
  Forall wf_key (p_Key <$> peers) -> NoDup (p_Key <$> peers) ->
  (forall d, d ∈ peer_set (svc n) -> Base64.EncodeToString d ∈ (p_Key <$> peers)) ->
  setSessions n = (inr [], n') -> node_inv n'.
Proof.
  intros Ht Hi Hp Hw Hnd Hall H; unfold setSessions in H; minv H;
    apply on_svc_inv in Hm as (Hm & Hdb & _); rewrite Hp in Hm; simplify_eq.
  apply peers_frame in Hp as (Hi1 & Hset & Hc); [|done].
  apply setSessions_locked_inv in H as [Hrows Hi' Hsub _ _ _ Hcut]; [|by rewrite ?Hdb..].
  rewrite Hdb, Hset in *; apply node_inv_split; split_and!; [done|by eapply table_inv_same_rows|].
  intros d Hd; pose proof (Hall _ (Hsub _ Hd)) as (p & Hk & Hin)%list_elem_of_fmap.
  destruct (proj1 (Hcut d p eq_refl Hin (eq_sym Hk)) Hd) as [_ Hno]; unfold cut in Hno.
  destruct (row_for _ _) as [x|] eqn:Hrow; [|done]; apply row_for_Some in Hrow as [Hx Hxk].
  erewrite same_rows_keys by done; rewrite Hk, <- Hxk; by apply list_elem_of_fmap_2.
Qed.
End SetSessions.
