(* ===== verification/ReportProofs.v ===== *)
(** The second half of the jobs: [update_sessions] and [ReconcileSessions]. *)
From S2P Require Import Prelude Codec Types Admission AdmissionProofs Jobs JobsProofs.
Set Default Proof Using "Type*".

Section UpdateSessions.
Context {S D C : Type} `{!Service S, !ServiceLaws S} `{!SessionStore D, !SessionStoreLaws D} `{!Chain C}.
Context (NodeAddress : string).
Abbreviation node := (node S D C).
Implicit Types (n : node).

(** ** The verdict on one session *)

(** Only the chain client was touched. *)
Definition chain_only n n' : Prop := svc n' = svc n ∧ db n' = db n.
#[export] Instance chain_only_preorder : PreOrder chain_only.
Proof using Type. split; [done|]; intros x y z [] []; split; congruence. Qed.

Lemma on_chain_only {E A} (m : M C E A) n r n' : on_chain m n = (r, n') -> chain_only n n'.
Proof using Type. intros (_ & Hs & Hd)%on_chain_inv; by split. Qed.

Lemma chain_only_obs n n' : chain_only n n' -> same_obs n n'.
Proof. intros [Hs Hd]; split; congruence. Qed.

Lemma Int64_inv v n r n' : Int64 (S := node) v n = (r, n') -> n' = n ∧
  (is_int64 v ∧ r = inr v ∨ ¬ is_int64 v ∧ r = inl (Int64_out_of_bound v)).
Proof. unfold Int64; case_bool_decide; intros Hr; minv Hr; naive_solver. Qed.

(** The counters stored are the ones the chain holds. *)
Definition reported (item : Session) (session : ChainSession) : Prop :=
  Upload item = GetUploadBytes session ∧ Download item = GetDownloadBytes session.

Lemma unmoved_inv item session n r n' : unmoved item session n = (r, n') -> n' = n ∧
  match r with
  | inr b => b = true <-> reported item session
  | inl (Int64_out_of_bound v) => ¬ is_int64 v ∧ (v = GetUploadBytes session ∨ v = GetDownloadBytes session)
  end.
Proof.
  unfold unmoved, reported; intros H; minv H;
    repeat match goal with H : Int64 _ _ = _ |- _ => apply Int64_inv in H as [? [[? ?]|[? ?]]]; simplify_eq end;
    (split; [done|]); try by eauto.
  - apply Z.eqb_eq in Hx; rewrite Z.eqb_eq; naive_solver.
  - apply Z.eqb_neq in Hx; naive_solver.
Qed.

(** What the chain must have answered for a verdict [v] on [item]. *)
Definition ended (session : ChainSession) : Prop := GetStatus session = StatusInactive.

Record verdict_spec (item : Session) (v : verdict) : Prop := {
  (** a row is deleted only together with its peer *)
  vs_row_peer : removeSession v = true -> removePeer v = true;
  (** a session left for the report is known to the chain, has usage the chain
      does not hold, and has not ended *)
  vs_report : skipUpdate v = false -> ∃ session (c c' : C),
    QuerySession (ID item) c = (inr (Some session), c')
    ∧ ¬ reported item session ∧ ¬ ended session ∧ v_err v = None;
  (** a peer is taken out only for one of the four reasons *)
  vs_removed : removePeer v = true -> ∃ (c c' : C) answer,
    QuerySession (ID item) c = (inr answer, c') ∧
    match answer with
    | None => removeSession v = true
    | Some session => GetStatus session ≠ StatusActive
        ∨ over_limit item session = true
        ∨ (reported item session ∧ CreatedAt item < GetStatusAt session)
        ∨ ∃ sid (d d' : C) sub, GetKind session = SubscriptionSession sid
            ∧ QuerySubscription sid d = (inr sub, d')
            ∧ (if sub is Some s then sub_Status s ≠ StatusActive else True)
    end
}.

(** The part of the verdict that depends on the session alone. *)
Lemma inactive_removes (b l : bool) session :
  bool_decide (GetStatus session = StatusInactive) = true ->
  b || bool_decide (GetStatus session ≠ StatusActive) || l = true.
Proof.
  intros H%bool_decide_eq_true; rewrite (bool_decide_true (_ ≠ _)) by congruence.
  by rewrite orb_true_r.
Qed.

Lemma session_reasons item session (same : bool) : (same = true <-> reported item session) ->
  same && (CreatedAt item <? GetStatusAt session)
    || bool_decide (GetStatus session ≠ StatusActive) || over_limit item session = true ->
  GetStatus session ≠ StatusActive ∨ over_limit item session = true
  ∨ (reported item session ∧ CreatedAt item < GetStatusAt session).
Proof.
  intros Hs; rewrite !orb_true_iff, andb_true_iff, bool_decide_eq_true, Z.ltb_lt; tauto.
Qed.

Lemma report_reasons item session (same : bool) : (same = true <-> reported item session) ->
  same || bool_decide (GetStatus session = StatusInactive) = false ->
  ¬ reported item session ∧ ¬ ended session.
Proof.
  intros Hs [Ha Hb%bool_decide_eq_false]%orb_false_iff; split; [|done].
  intros Hr%Hs; congruence.
Qed.

Lemma checkSession_inv item n r n' : checkSession item n = (r, n') -> chain_only n n' ∧
  match r with
  | inr v => verdict_spec item v
  | inl (Int64_out_of_bound v) => ¬ is_int64 v ∧ ∃ session (c c' : C),
      QuerySession (ID item) c = (inr (Some session), c')
      ∧ (v = GetUploadBytes session ∨ v = GetDownloadBytes session)
  end.
Proof.
  intros H; unfold checkSession in H; minv H;
    repeat match goal with
    | H : on_chain _ _ = _ |- _ =>
        pose proof (on_chain_inv _ _ _ _ H) as (? & _ & _); apply on_chain_only in H
    | H : unmoved _ _ _ = _ |- _ => apply unmoved_inv in H as [-> H]
    end; (split; [by repeat (etrans; [eassumption|])|]).
  - by split.
  - destruct e as [v]; destruct H as [Hv Hor]; eauto 8.
  - split; simpl; [apply inactive_removes| |].
    + intros [Hr He]%(report_reasons item); [|done]; eauto 10.
    + intros Hr%(session_reasons item); [|done]; eexists _, _, _; split; [eassumption|]; tauto.
  - split; simpl; [apply inactive_removes|done|].
    intros Hr%(session_reasons item); [|done]; eexists _, _, _; split; [eassumption|]; tauto.
  - split; simpl.
    + intros [Hin|Hsub]%orb_true_iff; [by rewrite inactive_removes|].
      destruct o as [sub|]; [|by rewrite orb_true_r]; apply bool_decide_eq_true in Hsub.
      by rewrite (bool_decide_false (_ = StatusActive)), orb_true_r by congruence.
    + intros [[Hr He]%(report_reasons item) _]%orb_false_iff; [|done]; eauto 10.
    + intros [Hr%(session_reasons item)|Hsub]%orb_true_iff; [|done|];
        (eexists _, _, _; split; [eassumption|]); [tauto|].
      right; right; right; eexists _, _, _, o; split_and!; [eassumption..|].
      destruct o; [|done]; by apply negb_true_iff, bool_decide_eq_false in Hsub.
  - split; simpl; [done|done|]; intros _; eexists _, _, None; eauto.
Qed.

(** ** Retiring a session *)

(** [item] was read from the table: as long as the row is there, it is that one. *)
Definition read_from (item : Session) n : Prop :=
  ID item ≠ 0 ∧ wf_key (Key item) ∧
  forall r, r ∈ rows (db n) -> ID r = ID item -> Key r = Key item.

(** From [n] to [n'] the node only gave up rows and peers. *)
Record trims n n' : Prop := {
  tr_inv : node_inv n';
  tr_rows : rows (db n') ⊆ rows (db n);
  tr_sub : peer_set (svc n') ⊆ peer_set (svc n);
  tr_count : PeerCount (svc n') <= PeerCount (svc n)
}.

Lemma trims_refl n : node_inv n -> trims n n.
Proof. by split. Qed.

Lemma trims_trans n1 n2 n3 : trims n1 n2 -> trims n2 n3 -> trims n1 n3.
Proof. intros [] []; split; [done|by etrans|by etrans|lia]. Qed.

Lemma trims_obs n n1 n' : same_obs n n1 -> trims n1 n' -> trims n n'.
Proof. intros [Hs Hr] []; split; rewrite <- ?Hs, <- ?Hr; done. Qed.

Lemma read_from_trims item n n' : trims n n' -> read_from item n -> read_from item n'.
Proof. intros [_ Hr _ _] (Hid & Hw & Hk); split_and!; [done|done|]; intros r Hin; auto. Qed.

Lemma delete_rows id n r n' : id ≠ 0 -> on_db (Delete (whereID id)) n = (r, n') ->
  svc n' = svc n ∧ (if r is inr _ then rows (db n') = List.filter (fun x => negb (bool_decide (ID x = id))) (rows (db n))
   else rows (db n') = rows (db n)).
Proof.
  intros Hid (H & Hs & _)%on_db_inv; split; [done|]; apply delete_spec in H; destruct r; [done|].
  rewrite H; apply filter_ext; intros x; by rewrite matches_whereID.
Qed.

Lemma filter_subseteq {A} (p : A -> bool) (l : list A) : List.filter p l ⊆ l.
Proof. intros x; rewrite !list_elem_of_In, filter_In; tauto. Qed.

Lemma table_inv_filter (p : Session -> bool) l : table_inv l -> table_inv (List.filter p l).
Proof.
  intros [Hi H0 Hk Hw]; split; [by apply NoDup_fmap_filter| |by apply NoDup_fmap_filter|].
  - by intros H%fmap_filter_incl.
  - rewrite Forall_forall in *; intros x Hx%filter_subseteq; auto.
Qed.

(** Deleting the row of a session whose peer is gone. *)
Lemma delete_trims item n n' : node_inv n -> svc n' = svc n ->
  (forall r, r ∈ rows (db n) -> ID r = ID item -> Key r = Key item) ->
  (forall d, Base64.EncodeToString d = Key item -> d ∉ peer_set (svc n)) ->
  rows (db n') = List.filter (fun x => negb (bool_decide (ID x = ID item))) (rows (db n)) ->
  trims n n'.
Proof.
  intros Hn Hs Hkey Hgone Hr; split; rewrite ?Hs; [|rewrite Hr; apply filter_subseteq|done..].
  apply node_inv_split in Hn as (Hi & Ht & Hm); apply node_inv_split; rewrite Hs, Hr.
  split_and!; [done|by apply table_inv_filter|].
  intros d Hd; pose proof (Hm _ Hd) as (r & Hrk & Hin)%list_elem_of_fmap; rewrite Hrk.
  apply list_elem_of_fmap_2, list_elem_of_In, filter_In; split; [by apply list_elem_of_In|].
  rewrite bool_decide_false; [done|]; intros Hid; apply (Hgone d); [|done]; rewrite Hrk; auto.
Qed.

Lemma retire_inv item rp rs n r n' : node_inv n -> read_from item n ->
  (rs = true -> rp = true) -> retire item rp rs n = (r, n') ->
  trims n n' ∧ (r = inr tt -> rp = true ->
    forall d, Base64.EncodeToString d = Key item -> d ∉ peer_set (svc n')).
Proof.
  intros Hn (Hid & Hw & Hkey) Hrs H; unfold retire in H; apply bind_inv in H.
  assert (Hstep : forall (x : gerror + unit) n1,
    (if rp then RemovePeerIfExists (Key item) else mret tt) n = (x, n1) ->
    shrinks (eq (Key item)) n n1 ∧ (x = inr tt -> rp = true ->
      forall d, Base64.EncodeToString d = Key item -> d ∉ peer_set (svc n1))).
  { intros x n1 H1; destruct rp; [|minv H1; split; [apply shrinks_refl, Hn|done]].
    apply (RemovePeerIfExists_inv _ _ _ _ (ni_svc _ Hn) Hw) in H1 as [Hs Ho]; auto. }
  assert (Htr : forall n1, shrinks (eq (Key item)) n n1 -> trims n n1).
  { intros n1 Hs; pose proof (node_inv_shrinks _ _ _ Hs Hn); destruct Hs as [Hd]; split; [done|by rewrite Hd|done..]. }
  destruct H as [(e & H & ->)|([] & n1 & H1 & H)].
  { apply Hstep in H as [Hs _]; split; [auto|done]. }
  apply Hstep in H1 as [Hs Ho]; specialize (Ho eq_refl).
  destruct rs; [|minv H; auto].
  pose proof (Htr _ Hs) as Ht1; destruct (delete_rows _ _ _ _ Hid H) as [Hsvc Hrows]; clear H.
  rewrite Hsvc; split; [|auto]; destruct r as [e|u].
  { eapply trims_trans, trims_obs, trims_refl; [done|by split|].
    eapply node_inv_obs; [|apply Ht1]; by split. }
  eapply trims_trans; [done|]; apply (delete_trims item); [apply Ht1|done| |auto|done].
  intros x Hx; apply Hkey; by apply Ht1.
Qed.

(** ** The pass over the stored sessions *)

(** The chain knows the session, holds other totals and has not ended it. *)
Definition reportable (item : Session) : Prop := ∃ session (c c' : C),
  QuerySession (ID item) c = (inr (Some session), c') ∧ ¬ reported item session ∧ ¬ ended session.

Lemma verdict_reportable item v : verdict_spec item v ->
  negb (skipUpdate v || if v_err v is Some _ then true else false) = true -> reportable item.
Proof.
  intros Hv [Hs _]%negb_true_iff%orb_false_iff.
  apply (vs_report _ _ Hv) in Hs as (session & c & c' & ? & ? & ? & _); by exists session, c, c'.
Qed.

Lemma trims_chain_only n n' : node_inv n -> chain_only n n' -> trims n n'.
Proof.
  intros Hn Hc%chain_only_obs; eapply trims_obs; [done|].
  by eapply trims_refl, node_inv_obs.
Qed.

Lemma updateSession_inv item n r n' : node_inv n -> read_from item n ->
  updateSession item n = (r, n') -> trims n n' ∧
  match r with
  | inl (Int64_out_of_bound v) => ¬ is_int64 v
  | inr (_, report) => report = true -> reportable item
  end.
Proof.
  intros Hn Hf H; unfold updateSession in H; minv H;
    repeat match goal with
    | H : checkSession _ _ = _ |- _ =>
        apply checkSession_inv in H as [?%(trims_chain_only _ _ Hn) H]
    end.
  - split; [done|destruct e; tauto].
  - split; [|by apply verdict_reportable].
    apply retire_inv in Hm0 as [Ht _]; [by eapply trims_trans|by eapply tr_inv|by eapply read_from_trims|].
    apply Hm.
  - split; [done|by apply verdict_reportable].
Qed.

Lemma checkAll_inv items keep n r n' : node_inv n -> Forall (fun x => read_from x n) items ->
  checkAll items keep n = (r, n') -> trims n n' ∧
  match r with
  | inl (Int64_out_of_bound v) => ¬ is_int64 v
  | inr (_, out) => ∃ new, out = new ++ keep ∧ new `sublist_of` rev items ∧ Forall reportable new
  end.
Proof.
  revert keep n r n'; induction items as [|x items IH]; simpl; intros keep n r n' Hn Hf H; minv H.
  { split; [by apply trims_refl|]; by exists []. }
  all: apply Forall_cons in Hf as [Hx Hf].
  - apply updateSession_inv in H as [Ht H]; [|done..]; split; [done|by destruct e].
  - apply updateSession_inv in Hm as [Ht Hr]; [|done..].
    assert (Forall (fun x => read_from x s) items) as Hf'
      by (eapply Forall_impl; [apply Hf|]; eauto using read_from_trims).
    apply IH in H as [Ht2 H]; [|by eapply tr_inv|done]; split; [by eapply trims_trans|by destruct e].
  - apply updateSession_inv in Hm as [Ht Hr]; [|done..].
    assert (Forall (fun x => read_from x s) items) as Hf'
      by (eapply Forall_impl; [apply Hf|]; eauto using read_from_trims).
    apply IH in Hm0 as [Ht2 Ho]; [|by eapply tr_inv|done]; split; [by eapply trims_trans|].
    destruct a as [es out]; simpl; destruct Ho as (new & -> & Hsub & Hall); destruct b.
    + exists (new ++ [x]); rewrite <- app_assoc; split_and!; [done|by apply sublist_app|].
      apply Forall_app; split; [done|]; constructor; [auto|done].
    + exists new; split_and!; [done|by apply sublist_inserts_r|done].
Qed.

(** ** Reporting *)
Lemma UpdateSessions_obs items n r n' : UpdateSessions NodeAddress items n = (r, n') -> chain_only n n'.
Proof using Type. apply on_chain_only. Qed.

Lemma stillThere_obs items n r n' : stillThere items n = (r, n') -> chain_only n n' ∧ ∃ x, r = inr x.
Proof using Type.
  revert n r n'; induction items as [|x items IH]; simpl; intros n r n' H; minv H;
    [by split; [|eexists]|apply on_chain_only in Hm..].
  - apply IH in H as [? []]; done.
  - apply IH in Hm0 as [? _]; split; [by etrans|eauto].
Qed.

Lemma reportEach_obs items n r n' : reportEach NodeAddress items n = (r, n') ->
  chain_only n n' ∧ ∃ x, r = inr x.
Proof using Type.
  revert n r n'; induction items as [|x items IH]; simpl; intros n r n' H; minv H;
    [by split; [|eexists]|apply on_chain_only in Hm..].
  - apply IH in H as [? []]; done.
  - apply IH in Hm0 as [? _]; split; [by etrans|eauto].
Qed.

Lemma reportSessions_obs items n r n' : reportSessions NodeAddress items n = (r, n') ->
  chain_only n n' ∧ ∃ x, r = inr x.
Proof using Type.
  intros H; unfold reportSessions in H; minv H;
    repeat match goal with
    | H : UpdateSessions _ _ _ = _ |- _ => apply UpdateSessions_obs in H
    | H : stillThere _ _ = _ |- _ => apply stillThere_obs in H as [? [? ?]]; simplify_eq
    | H : reportEach _ _ _ = _ |- _ => apply reportEach_obs in H as [? [? ?]]; simplify_eq
    end; (split; [by repeat (etrans; [eassumption|])|eauto]).
Qed.

Lemma read_rows n : node_inv n -> Forall (fun x => read_from x n) (rows (db n)).
Proof.
  intros (Hi & [Hids H0 Hk Hw] & _)%node_inv_split; rewrite Forall_forall in *; intros x Hx.
  split_and!; [|auto|].
  - intros E; apply H0; rewrite <- E; by apply list_elem_of_fmap_2.
  - intros r Hr Hid; by rewrite (NoDup_fmap_elem ID (rows (db n)) r x).
Qed.

Lemma find_all l : List.filter (matches Session0) l = l.
Proof. induction l as [|x l IH]; simpl; [done|by rewrite IH]. Qed.

(** The rows as [updateSessions] reads them. *)
Lemma on_db_find_all n r n' : node_inv n -> on_db (Find Session0) n = (r, n') ->
  node_inv n' ∧ trims n n' ∧
  (if r is inr items then items = rows (db n') ∧ Forall (fun x => read_from x n') (rev items) else True).
Proof.
  intros Hn H; apply on_db_find in H as [Ho Hi]; pose proof (node_inv_obs _ _ Ho Hn) as Hn'.
  split_and!; [done|by eapply trims_obs, trims_refl|]; destruct r as [|items]; [done|].
  rewrite find_all in Hi; assert (items = rows (db n')) as -> by (by destruct Ho as [_ ->]).
  split; [done|]; by apply Forall_rev, read_rows.
Qed.

(** C7. A pass of [update_sessions] only gives up rows and peers, never leaves a
    served peer without its row (a row goes only after its peer), and stops
    early only if the chain holds byte totals outside [int64]. *)
Theorem updateSessions_safe n r n' : node_inv n -> updateSessions NodeAddress n = (r, n') ->
  trims n n' ∧ (if r is inl (Int64_out_of_bound v) then ¬ is_int64 v else True).
Proof.
  intros Hn H; unfold updateSessions in H; minv H; apply on_db_find_all in Hm as (Hn1 & Ht1 & Hi); try done;
    destruct Hi as [-> Hf].
  - apply checkAll_inv in H as [Ht2 He]; [|done..]; split; [by eapply trims_trans|done].
  - apply checkAll_inv in Hm0 as [Ht2 _]; [|done..]; split; [by eapply trims_trans|done].
  - by apply reportSessions_obs in H as [_ [? ?]].
  - apply checkAll_inv in Hm0 as [Ht2 _]; [|done..]; apply reportSessions_obs in Hm1 as [Hc _].
    split; [|done]; repeat (eapply trims_trans; [eassumption|]).
    apply trims_chain_only; [by eapply tr_inv|done].
Qed.
End UpdateSessions.

(** ** What reached the chain

    The same jobs run on a chain client that keeps a log of what was asked and
    sent; the jobs are parametric in the client, so the log only observes. *)
Inductive event :=
  | Sent (msgs : list Msg) (ok : bool)
  | Asked (id : Z) (answer : gerror + option ChainSession).

Definition logged (C : Type) : Type := C * list event.
Definition log_tx {A} (r : gerror + A) : bool := if r is inr _ then true else false.

#[export] Instance logged_chain {C} `{!Chain C} : Chain (logged C) := {
  QueryNode a '(c, l) := let '(r, c') := QueryNode a c in (r, (c', l));
  QuerySession id '(c, l) := let '(r, c') := QuerySession id c in (r, (c', l ++ [Asked id r]));
  QuerySubscription id '(c, l) := let '(r, c') := QuerySubscription id c in (r, (c', l));
  QueryAllocation id a '(c, l) := let '(r, c') := QueryAllocation id a c in (r, (c', l));
  Tx msgs '(c, l) := let '(r, c') := Tx msgs c in (r, (c', l ++ [Sent msgs (log_tx r)]))
}.

(** The messages the chain took, in the order it took them. *)
Fixpoint accepted (l : list event) : list Msg :=
  match l with
  | [] => []
  | Sent msgs true :: rest => msgs ++ accepted rest
  | _ :: rest => accepted rest
  end.
Definition sends (l : list event) : nat :=
  length (List.filter (fun e => if e is Sent _ _ then true else false) l).
(** An answer that says the session is over. *)
Definition gone (answer : option ChainSession) : Prop :=
  if answer is Some session then GetStatus session = StatusInactive else True.

Lemma accepted_app l l' : accepted (l ++ l') = accepted l ++ accepted l'.
Proof.
  induction l as [|[msgs []|] l IH]; simpl; rewrite ?IH, ?app_assoc; done.
Qed.
Lemma sends_app l l' : sends (l ++ l') = (sends l + sends l')%nat.
Proof. unfold sends; by rewrite List.filter_app, length_app. Qed.

Section Log.
Context {S D C : Type} `{!Chain C} (NodeAddress : string).
Abbreviation node := (node S D (logged C)).
Abbreviation msgs_of items := (sessionMsg NodeAddress <$> items).
Implicit Types (n : node).

Definition log n : list event := (chain n).2.

Lemma UpdateSessions_log items n r n' : UpdateSessions NodeAddress items n = (r, n') ->
  log n' = log n ++ [Sent (msgs_of items) (log_tx r)].
Proof.
  intros (H & _ & _)%on_chain_inv; unfold log; simpl in H.
  destruct (chain n) as [c l], (Tx _ c) as [x c']; simpl in H; simplify_eq; rewrite <- H0; done.
Qed.

Lemma QuerySession_log id n r n' : on_chain (QuerySession id) n = (r, n') ->
  log n' = log n ++ [Asked id r].
Proof.
  intros (H & _ & _)%on_chain_inv; unfold log; simpl in H.
  destruct (chain n) as [c l], (QuerySession id c) as [x c']; simpl in H; simplify_eq; rewrite <- H0; done.
Qed.

(** What asking again about [items] left in the log. *)
Record asked_spec (items still : list Session) (q : nat) (new : list event) : Prop := {
  as_accepted : accepted new = [];
  as_sends : sends new = 0%nat;
  as_sublist : still `sublist_of` items;
  as_gone x : x ∈ items -> x ∈ still ∨ ∃ ans, Asked (ID x) (inr ans) ∈ new ∧ gone ans;
  as_outage : q = 0%nat -> still = items;
  as_answered : q ≠ 0%nat -> ∃ id ans, Asked id (inr ans) ∈ new
}.

Lemma asked_cons x items still still' q q' new answer : asked_spec items still q new ->
  still' = x :: still ∧ (q' = q ∨ (∃ ans, answer = inr ans) ∧ q' = Datatypes.S q)
  ∨ still' = still ∧ (∃ ans, answer = inr ans ∧ gone ans) ∧ q' = Datatypes.S q ->
  asked_spec (x :: items) still' q' (Asked (ID x) answer :: new).
Proof.
  intros [Ha Hs Hsub Hg Ho Hans] Hcase; split; try done.
  - destruct Hcase as [[-> _]|[-> _]]; by constructor.
  - intros y [->|Hy]%elem_of_cons.
    + destruct Hcase as [[-> _]|(-> & (ans & -> & Hgone) & _)]; [by left; left|].
      right; exists ans; split; [by left|done].
    + destruct (Hg _ Hy) as [?|(ans & ? & ?)]; [left|right; exists ans; split; [by right|done]].
      destruct Hcase as [[-> _]|[-> _]]; [by right|done].
  - intros ->; destruct Hcase as [[-> [<-|[_ ?]]]|(_ & _ & ?)]; [|done..]; by rewrite Ho.
  - intros Hq; destruct Hcase as [[_ [->|[[ans ->] _]]]|(_ & (ans & -> & _) & _)];
      [|by eexists _, ans; left..].
    destruct (Hans Hq) as (id & ans & ?); exists id, ans; by right.
Qed.

Lemma stillThere_log items n still q n' : stillThere items n = (inr (still, q), n') ->
  ∃ new, log n' = log n ++ new ∧ asked_spec items still q new.
Proof.
  revert n still q n'; induction items as [|x items IH]; simpl; intros n still q n' H; minv H.
  { exists []; rewrite app_nil_r; split; [done|]; split; try done; set_solver. }
  apply QuerySession_log in Hm; destruct a as [st q0].
  apply IH in Hm0 as (new & Hl & Hspec); exists (Asked (ID x) x0 :: new).
  split; [by rewrite Hl, Hm, <- app_assoc|]; eapply asked_cons; [done|].
  destruct x0 as [e|[session|]]; simpl in Hr; [|case_bool_decide|]; simplify_eq; naive_solver.
Qed.

Lemma reportEach_log items n errs n' : reportEach NodeAddress items n = (inr errs, n') ->
  ∃ new, log n' = log n ++ new ∧ accepted new `sublist_of` msgs_of items
    ∧ (errs = [] -> accepted new = msgs_of items) ∧ sends new = length items.
Proof.
  revert n errs n'; induction items as [|x items IH]; simpl; intros n errs n' H; minv H.
  { exists []; by rewrite app_nil_r. }
  apply UpdateSessions_log in Hm; apply IH in Hm0 as (new & Hl & Hsub & He & Hn).
  eexists (_ :: new); split; [by rewrite Hl, Hm, <- app_assoc|].
  destruct x0; simpl; (split; [by constructor|]); (split; [|by rewrite <- Hn]).
  - done.
  - intros ->; by rewrite He.
Qed.

(** What one call of [reportSessions] left in the log. *)
Record report_spec (items : list Session) (errs : list gerror) (new : list event) : Prop := {
  rs_once : accepted new `sublist_of` msgs_of items;
  rs_complete : errs = [] -> forall x, x ∈ items ->
    sessionMsg NodeAddress x ∈ accepted new ∨ ∃ ans, Asked (ID x) (inr ans) ∈ new ∧ gone ans;
  rs_outage : (forall id ans, Asked id (inr ans) ∉ new) -> sends new = 1%nat
}.

(** After a refused batch: the questions in [new1], then what was sent in [new2]. *)
Lemma report_again items still q new1 new2 errs :
  asked_spec items still q new1 -> accepted new2 `sublist_of` msgs_of still ->
  (errs = [] -> accepted new2 = msgs_of still) -> (q = 0%nat -> sends new2 = 0%nat) ->
  report_spec items errs (Sent (msgs_of items) false :: new1 ++ new2).
Proof.
  intros [Ha Hs Hsub Hg Ho Hans] Hacc Hok Hq; split.
  - simpl; rewrite accepted_app, Ha; simpl; etrans; [done|]; by apply fmap_sublist.
  - intros He x Hx; simpl; rewrite accepted_app, Ha, Hok by done; simpl.
    destruct (Hg _ Hx) as [Hst|(ans & Hin & Hgone)]; [left; by apply list_elem_of_fmap_2|right].
    exists ans; split; [right; apply elem_of_app; by left|done].
  - intros Hno; destruct (decide (q = 0%nat)) as [->|Hq'].
    + change (Datatypes.S (sends (new1 ++ new2)) = 1%nat); by rewrite sends_app, Hs, Hq.
    + destruct (Hans Hq') as (id & ans & Hin); destruct (Hno id ans).
      right; apply elem_of_app; by left.
Qed.

Lemma reportSessions_spec items n errs n' :
  reportSessions NodeAddress items n = (inr errs, n') ->
  ∃ new, log n' = log n ++ new ∧ report_spec items errs new.
Proof.
  intros H; unfold reportSessions in H; minv H; apply UpdateSessions_log in Hm;
    [..|exists [Sent (msgs_of items) true]; split; [done|]; split; simpl; rewrite ?app_nil_r; try done;
        intros _ x Hx; left; by apply list_elem_of_fmap_2].
  all: apply stillThere_log in Hm0 as (new1 & Hl1 & Hspec); rewrite Hm in Hl1.
  all: repeat match goal with
    | H : UpdateSessions _ _ _ = _ |- _ => apply UpdateSessions_log in H
    | H : reportEach _ _ _ = _ |- _ => apply reportEach_log in H as (new2 & Hl2 & Hsub & Hok & Hlen)
    end; rewrite <- app_assoc in Hl1; simpl in *.
  all: repeat match goal with H : (_ =? _)%nat = _ |- _ =>
         apply Nat.eqb_eq in H || apply Nat.eqb_neq in H end.
  - exists (Sent (msgs_of items) false :: new1 ++ []); rewrite app_nil_r at 1; split; [done|].
    apply nil_length_inv in Hx; subst; by eapply report_again.
  - exists (Sent (msgs_of items) false :: new1 ++ []); rewrite app_nil_r at 1; split; [done|].
    eapply report_again; [done|apply sublist_nil_l|done|done].
  - eexists (Sent (msgs_of items) false :: new1 ++ Sent (msgs_of l) false :: new2); split.
    + rewrite Hl2, Hm1, Hl1, <- !app_assoc; done.
    + by eapply report_again.
  - exists (Sent (msgs_of items) false :: new1 ++ [Sent (msgs_of l) true]); split.
    + rewrite Hm1, Hl1, <- !app_assoc; done.
    + eapply report_again; simpl; rewrite ?app_nil_r; done.
  - exists (Sent (msgs_of items) false :: new1 ++ new2); split.
    + rewrite Hl2, Hl1, <- !app_assoc; done.
    + by eapply report_again.
Qed.

(** ** The whole exchange, event by event *)

(** An answer that says the session is over, as the code reads it. *)
Definition over (answer : gerror + option ChainSession) : bool :=
  match answer with
  | inl _ => false
  | inr None => true
  | inr (Some session) => bool_decide (GetStatus session = StatusInactive)
  end.
Definition told_us (answer : gerror + option ChainSession) : bool := if answer is inr _ then true else false.
(** The sessions that are not over by the answers given to them. *)
Fixpoint survivors (items : list Session) (answers : list (gerror + option ChainSession)) : list Session :=
  match items, answers with
  | x :: items, a :: answers => if over a then survivors items answers else x :: survivors items answers
  | _, _ => []
  end.
Abbreviation questions := (zip_with (fun x a => Asked (ID x) a)).
Abbreviation singles := (zip_with (fun x ok => Sent [sessionMsg NodeAddress x] ok)).

(** What is sent after the questions, for the sessions [still] there of [all]: nothing
    when none is left or nobody answered; the rest as one batch, if some dropped out;
    and, when that is refused or is the batch already tried, each on its own, one
    error for each that is refused. *)
Inductive resent (all still : list Session) : bool -> list gerror -> list event -> Prop :=
  | resent_none some : still = [] -> resent all still some [] []
  | resent_outage e : still ≠ [] -> resent all still false [e] []
  | resent_batch : still ≠ [] -> (length still < length all)%nat ->
      resent all still true [] [Sent (msgs_of still) true]
  | resent_each errs oks : still ≠ [] -> length oks = length still -> length errs = length (filter (fun ok => ok = false) oks) ->
      resent all still true errs
        ((if (length still <? length all)%nat then [Sent (msgs_of still) false] else []) ++ singles still oks).

Definition report_trace (items : list Session) (errs : list gerror) (new : list event) : Prop :=
  new = [Sent (msgs_of items) true] ∧ errs = []
  ∨ ∃ answers sent, length answers = length items
      ∧ new = Sent (msgs_of items) false :: questions items answers ++ sent
      ∧ resent items (survivors items answers) (existsb told_us answers) errs sent.

Lemma stillThere_trace items n still q n' : stillThere items n = (inr (still, q), n') ->
  ∃ answers, length answers = length items ∧ log n' = log n ++ questions items answers
    ∧ still = survivors items answers ∧ (q =? 0)%nat = negb (existsb told_us answers).
Proof.
  revert n still q n'; induction items as [|x items IH]; simpl; intros n still q n' H; minv H.
  { exists []; rewrite app_nil_r; by split_and!. }
  apply QuerySession_log in Hm; destruct a as [st q0]; apply IH in Hm0 as (answers & Hl & E & -> & Hq).
  exists (x0 :: answers); simpl; rewrite E, Hm, <- app_assoc; split; [by rewrite Hl|]; split; [done|].
  destruct x0 as [e|[session|]]; simpl in *; [|case_bool_decide|]; simplify_eq; by split.
Qed.

Lemma reportEach_trace items n errs n' : reportEach NodeAddress items n = (inr errs, n') ->
  ∃ oks, length oks = length items ∧ log n' = log n ++ singles items oks
    ∧ length errs = length (filter (fun ok => ok = false) oks).
Proof.
  revert n errs n'; induction items as [|x items IH]; simpl; intros n errs n' H; minv H.
  { exists []; rewrite app_nil_r; by split_and!. }
  apply UpdateSessions_log in Hm; apply IH in Hm0 as (oks & Hl & E & He).
  exists (log_tx x0 :: oks); simpl; rewrite E, Hm, <- app_assoc, length_app, He; split_and!; [by rewrite Hl|done|].
  by destruct x0.
Qed.

Lemma reportSessions_trace items n errs n' : reportSessions NodeAddress items n = (inr errs, n') ->
  ∃ new, log n' = log n ++ new ∧ report_trace items errs new.
Proof.
  intros H; unfold reportSessions in H; minv H; apply UpdateSessions_log in Hm;
    [..|exists [Sent (msgs_of items) true]; split; [done|by left]].
  all: apply stillThere_trace in Hm0 as (answers & Hlen & Hl & -> & Hq); rewrite Hm, <- app_assoc in Hl.
  all: repeat match goal with
    | H : UpdateSessions _ _ _ = _ |- _ => apply UpdateSessions_log in H
    | H : reportEach _ _ _ = _ |- _ => apply reportEach_trace in H as (oks & Hoks & Hl2 & Herr)
    end.
  all: assert (forall e sent n'', log n'' = log s1 ++ sent -> resent items (survivors items answers) (existsb told_us answers) e sent ->
    ∃ new, log n'' = log n ++ new ∧ report_trace items e new) as Hdone
    by (intros e sent n'' E R; exists (Sent (msgs_of items) false :: questions items answers ++ sent);
        split; [by rewrite E, Hl, <- app_assoc|]; right; by eexists _, _).
  all: repeat match goal with H : (length ?l =? 0)%nat = _ |- _ =>
         first [apply Nat.eqb_eq, nil_length_inv in H | apply Nat.eqb_neq in H; assert (l ≠ []) by (by destruct l)] end.
  - apply (Hdone [] []); [by rewrite app_nil_r|by constructor].
  - rewrite Hq in Hx0; apply negb_true_iff in Hx0; rewrite Hx0 in Hdone.
    apply (Hdone [s0] []); [by rewrite app_nil_r|by constructor].
  - rewrite Hq in Hx0; apply negb_false_iff in Hx0; rewrite Hx0 in Hdone.
    eapply Hdone; [|by apply (resent_each _ _ errs oks)]; rewrite Hx1, Hl2, Hm1, <- app_assoc; done.
  - rewrite Hq in Hx0; apply negb_false_iff in Hx0; rewrite Hx0 in Hdone.
    apply (Hdone [] [Sent (msgs_of (survivors items answers)) true]); [done|]; constructor; [done|by apply Nat.ltb_lt].
  - rewrite Hq in Hx0; apply negb_false_iff in Hx0; rewrite Hx0 in Hdone.
    eapply Hdone; [|by apply (resent_each _ _ errs oks)]; rewrite Hx1, Hl2; done.
Qed.

Lemma survivors_split items answers x : length answers = length items -> x ∈ items ->
  x ∈ survivors items answers ∨ ∃ ans, Asked (ID x) (inr ans) ∈ questions items answers ∧ gone ans.
Proof.
  revert answers; induction items as [|y items IH]; intros [|a answers] Hl Hx; simpl in *; try done; [by apply elem_of_nil in Hx|].
  apply elem_of_cons in Hx as [->|Hx].
  - destruct a as [e|[session|]]; simpl; [by left; left|case_bool_decide; [|by left; left]|]; right; eexists; (split; [by left|done]).
  - destruct (IH answers) as [?|(ans & ? & ?)]; [lia|done|left; destruct (over a); [done|by right]|].
    right; exists ans; split; [by right|done].
Qed.
Lemma singles_split still oks x : length oks = length still -> x ∈ still ->
  sessionMsg NodeAddress x ∈ accepted (singles still oks) ∨ Sent [sessionMsg NodeAddress x] false ∈ singles still oks.
Proof.
  revert oks; induction still as [|y still IH]; intros [|[] oks] Hl Hx; simpl in *; try done; try (by apply elem_of_nil in Hx).
  all: apply elem_of_cons in Hx as [->|Hx]; [set_solver|]; destruct (IH oks) as [?|?]; [lia|done|set_solver..].
Qed.

Lemma accepted_questions items answers : accepted (questions items answers) = [].
Proof. revert answers; induction items as [|x items IH]; intros [|a answers]; simpl; auto. Qed.
Lemma questions_outage items answers id ans : existsb told_us answers = false ->
  Asked id (inr ans) ∉ questions items answers.
Proof.
  revert answers; induction items as [|x items IH]; intros [|a answers]; simpl; try (intros _ H; by apply elem_of_nil in H).
  intros [Ha Hr]%orb_false_iff [E|H]%elem_of_cons; [by simplify_eq|by eapply IH].
Qed.

(** Whenever anybody answered, the fate of every session is known. *)
Lemma trace_accounted items errs new x : report_trace items errs new -> x ∈ items ->
  sessionMsg NodeAddress x ∈ accepted new ∨ (∃ ans, Asked (ID x) (inr ans) ∈ new ∧ gone ans)
  ∨ Sent [sessionMsg NodeAddress x] false ∈ new
  ∨ (∃ e, errs = [e]) ∧ forall id ans, Asked id (inr ans) ∉ new.
Proof.
  intros [[-> ->]|(answers & sent & Hl & -> & R)] Hx.
  { left; simpl; rewrite app_nil_r; by apply list_elem_of_fmap_2. }
  destruct (survivors_split items answers x Hl Hx) as [Hs|(ans & ? & ?)]; [|right; left; exists ans; set_solver].
  cbn [accepted]; rewrite accepted_app, accepted_questions; simpl.
  remember (existsb told_us answers) as some eqn:Hsome; destruct R as [some Hn|e Hn|Hn Hlt|errs oks Hn Ho He].
  - rewrite Hn in Hs; by apply elem_of_nil in Hs.
  - do 3 right; split; [by exists e|]; intros id ans Hin; symmetry in Hsome.
    rewrite app_nil_r in Hin; apply elem_of_cons in Hin as [?|Hin]; [done|]; by eapply questions_outage.
  - left; simpl; rewrite app_nil_r; by apply list_elem_of_fmap_2.
  - destruct (singles_split _ _ _ Ho Hs) as [Ha|Hr]; [left|right; right; left].
    + rewrite accepted_app; apply elem_of_app; by right.
    + right; rewrite !elem_of_app; by right; right.
Qed.

(** C8. A report is accounted for to the last session.  The batch is tried once; when
    it is refused the chain is asked about every session of it, those that are over
    are dropped, the rest is tried as one batch if any dropped out, and otherwise, or
    when that is refused too, each on its own, whatever became of the one before it
    ([report_trace]).  So every session was accepted, or the chain said it is over,
    or its own report was refused and is one of the errors; unless the chain answered
    no question at all (an outage), and then the batch was tried exactly once and is
    left, with its error, for the next pass.  What the chain accepts is among the
    messages of the sessions, each at most once and in order. *)
Theorem reportSessions_accounts items n r n' :
  reportSessions NodeAddress items n = (r, n') ->
  ∃ errs new, r = inr errs ∧ log n' = log n ++ new
    ∧ report_trace items errs new ∧ report_spec items errs new
    ∧ forall x, x ∈ items ->
        sessionMsg NodeAddress x ∈ accepted new ∨ (∃ ans, Asked (ID x) (inr ans) ∈ new ∧ gone ans)
        ∨ Sent [sessionMsg NodeAddress x] false ∈ new
        ∨ (∃ e, errs = [e]) ∧ forall id ans, Asked id (inr ans) ∉ new.
Proof.
  intros H; pose proof (reportSessions_obs _ _ _ _ _ H) as [_ [errs ->]].
  destruct (reportSessions_trace _ _ _ _ H) as (new & E & Ht), (reportSessions_spec _ _ _ _ H) as (new' & E' & Hs).
  assert (new' = new) as -> by (rewrite E in E'; by apply (inj (app (log n))) in E').
  exists errs, new; split_and!; try done; intros x; by apply trace_accounted.
Qed.
End Log.

(** ** Start-up *)
Section Reconcile.
Context {S D C : Type} `{!Service S, !ServiceLaws S} `{!SessionStore D, !SessionStoreLaws D} `{!Chain C}.
Context (NodeAddress : string).
Abbreviation node := (node S D (logged C)).
Implicit Types (n : node).

(** A stored session owes the chain a final report. *)
Definition needs (x : Session) (answer : gerror + option ChainSession) : bool :=
  match answer with
  | inr (Some session) => bool_decide (GetStatus session = StatusActive)
      && negb ((Upload x =? GetUploadBytes session) && (Download x =? GetDownloadBytes session))
  | _ => false
  end.
(** The items selected by the answers given to them. *)
Fixpoint select (items : list Session) (answers : list (gerror + option ChainSession)) : list Session :=
  match items, answers with
  | x :: items, a :: answers => if needs x a then x :: select items answers else select items answers
  | _, _ => []
  end.

Lemma sessionNeedsReport_inv x session n b n' : sessionNeedsReport x session n = (inr b, n') ->
  n' = n ∧ b = needs x (inr (Some session)).
Proof.
  intros H; unfold sessionNeedsReport in H; simpl; minv H;
    repeat match goal with
    | H : Int64 _ _ = _ |- _ => apply Int64_inv in H as [? [[? ?]|[? ?]]]; simplify_eq
    | H : bool_decide _ = true |- _ => apply bool_decide_eq_true in H
    | H : bool_decide _ = false |- _ => apply bool_decide_eq_false, dec_stable in H
    end; (split; [done|]).
  - by rewrite bool_decide_false.
  - rewrite bool_decide_true by done; apply negb_true_iff in Hx0; by rewrite Hx0.
  - rewrite bool_decide_true by done; apply negb_false_iff in Hx0; by rewrite Hx0.
Qed.

Lemma finalReport_log items n report n' : finalReport items n = (inr report, n') ->
  chain_only n n' ∧ ∃ answers, length answers = length items
    ∧ log n' = log n ++ zip_with (fun x a => Asked (ID x) a) items answers
    ∧ report = select items answers.
Proof.
  revert n report n'; induction items as [|x items IH]; simpl; intros n report n' H.
  { minv H; split; [done|]; exists []; by rewrite app_nil_r. }
  apply bind_inv in H as [(e & H & ?)|(found & s & H1 & H)]; [done|].
  apply attempt_inv in H1 as (a & H1 & ?); simplify_eq.
  pose proof (on_chain_only _ _ _ _ H1) as Hc; apply QuerySession_log in H1.
  apply bind_inv in H as [(e & H & ?)|(b & s1 & H2 & H)]; [done|].
  assert (s1 = s ∧ b = needs x a) as [-> ->].
  { destruct a as [e|[session|]]; [by minv H2|by apply sessionNeedsReport_inv|by minv H2]. }
  minv H; apply IH in Hm as (Hc2 & answers & Hlen & Hl & ->).
  split; [by etrans|]; exists (a :: answers); simpl.
  split_and!; [by rewrite Hlen|by rewrite Hl, H1, <- app_assoc|done].
Qed.

(** What the table holds once [ReconcileSessions] returned. *)
Lemma vacuum_obs n r n' : on_db Vacuum n = (r, n') -> same_obs n n' ∧ chain n' = chain n.
Proof. intros (H & Hs & Hc)%on_db_inv; apply vacuum_spec in H; by repeat split. Qed.

(** The final report is sent in one transaction, if there is anything to send. *)
Definition final_sent (report : list Session) (new : list event) : Prop :=
  match report with
  | [] => new = []
  | _ => ∃ ok, new = [Sent (sessionMsg NodeAddress <$> report) ok]
  end.

Lemma final_tx report n (r : panic + (gerror + unit)) n' :
  (if (0 <? length report)%nat then attempt (UpdateSessions NodeAddress report) else mret (inr tt)) n = (r, n') ->
  chain_only n n' ∧ ∃ new, log n' = log n ++ new ∧ final_sent report new.
Proof.
  destruct report as [|x report]; simpl; intros H; minv H.
  - split; [done|]; exists []; by rewrite app_nil_r.
  - pose proof (UpdateSessions_obs _ _ _ _ _ H) as Hc; apply UpdateSessions_log in H.
    split; [done|]; eexists; split; [done|by eexists].
Qed.

Lemma empty_node_inv n (m : node) : svc_inv (svc n) -> peer_set (svc n) = ∅ ->
  rows (db m) = [] -> svc m = svc n -> node_inv m.
Proof.
  intros Hi Hp Hr Hs; apply node_inv_split; rewrite Hr, Hs, Hp; split_and!; [done| |set_solver].
  split; simpl; [constructor|set_solver|constructor|constructor].
Qed.

(** C9. When [ReconcileSessions] has read the table and returns without an
    error, the table is empty and the node's invariant holds for the freshly
    started service; the chain was asked about every stored session, in order,
    and exactly the sessions it called active and whose totals it does not hold
    were reported, in one transaction. *)
Theorem ReconcileSessions_clears n items d n' : svc_inv (svc n) -> peer_set (svc n) = ∅ ->
  Find Session0 (db n) = (inr items, d) ->
  ReconcileSessions NodeAddress n = (inr None, n') ->
  rows (db n') = [] ∧ node_inv n' ∧ ∃ answers sent, length answers = length (rows (db n))
    ∧ log n' = log n ++ zip_with (fun x a => Asked (ID x) a) (rows (db n)) answers ++ sent
    ∧ final_sent (select (rows (db n)) answers) sent.
Proof.
  intros Hi Hp Hf H; unfold ReconcileSessions in H.
  apply bind_inv in H as [(e & H & ?)|(found & s & H1 & H)]; [done|].
  apply attempt_inv in H1 as (r & H1 & ?); simplify_eq.
  pose proof (on_db_inv _ _ _ _ H1) as (Hf' & _ & Hc); rewrite Hf in Hf'; simplify_eq.
  apply on_db_find in H1 as [[Hs Hr] Hit]; rewrite find_all in Hit; subst items.
  assert (Hlog : log s = log n) by (unfold log; by rewrite Hc).
  destruct (rows (db n)) as [|x items'] eqn:Hrows.
  - minv H; apply vacuum_obs in Hm as [[Hs0 Hr0] Hc0].
    assert (rows (db s0) = []) as Hnil by congruence.
    split_and!; [done|apply (empty_node_inv n); congruence|]; exists [], [].
    unfold log in *; simpl; by rewrite app_nil_r, Hc0.
  - apply bind_inv in H as [(e & _ & ?)|(report & s1 & Hm & H)]; [done|].
    apply bind_inv in H as [(e & _ & ?)|(u & s2 & Hm0 & H)]; [done|]; minv H.
    apply finalReport_log in Hm as (Hc1 & answers & Hlen & Hl & ->).
    apply final_tx in Hm0 as (Hc2 & sent & Hl2 & Hsent).
    apply on_db_inv in Hm1 as (Hdel & Hs3 & Hc3); apply delete_all_spec in Hdel.
    apply vacuum_obs in Hm2 as [[Hs4 Hr4] Hc4].
    assert (rows (db s3) = []) as Hnil by congruence.
    destruct Hc1 as [Hs1 _], Hc2 as [Hs2 _].
    split_and!; [done|apply (empty_node_inv n); congruence|]; exists answers, sent.
    split_and!; [done| |done]; unfold log in *.
    by rewrite Hc4, Hc3, Hl2, Hl, Hlog, <- app_assoc.
Qed.
End Reconcile.
