(* ===== verification/NodeSystem.v ===== *)
(** The running node: handshakes and jobs interleaved.

    Each handshake is served by its own goroutine and the two session jobs run
    beside them.  They share the VPN service, the session table and the
    admission lock.  A step of the system is one stretch of a goroutine between
    two points where another can come in: a read without the lock, a round trip
    to the chain, or a whole section under the lock.

    - [step] follows src/api/session/admit.go (admit) and src/node/jobs.go
      (setSessions, updateSessions) cut at those points.
    - [reachable_safe]: in every interleaving the table stays well formed, the
      peer count stays within [max_peers], and the job's list stays true.
    - [clean_metered]: as long as no admission fails to undo itself, every
      served peer has its row. *)
From S2P Require Import Prelude Codec Types Admission AdmissionProofs Jobs JobsProofs ReportProofs.
Set Default Proof Using "Type*".

(** Lemmas that a stretch of code leaves rows and peers as they should be. *)
Create HintDb quiet.

Section System.
Context {S D C : Type} `{!Service S, !ServiceLaws S} `{!SessionStore D, !SessionStoreLaws D} `{!Chain C}.
Context (sha256 : bytes -> bytes) (MaxPeers : Z) (NodeAddress : string).
Abbreviation node := (node S D C).

(** ** State *)
Inductive handshake :=
  | Checked (req : admitRequest)                    (* passed the first checkCapacity *)
  | Queried (req : admitRequest) (a : admission).   (* has the chain's answer, waits for the lock *)

Inductive updater :=
  | UIdle
  | UVisit (todo : list Session) (keep : list Session)
  | URetire (item : Session) (v : verdict) (todo keep : list Session)
  | UPanicked.

Record system := mkSys {
  nd : node;
  handshakes : list handshake;
  snapshot : option (list Peer);    (* set_sessions: the peers read, waiting for the lock *)
  updating : updater
}.

(** What the API hands to admission. *)
Definition wf_req (req : admitRequest) : Prop := req_ID req ≠ 0 ∧ PeerData req ≠ [].

Definition keep_if (v : verdict) (item : Session) (keep : list Session) : list Session :=
  if skipUpdate v || (if v_err v is Some _ then true else false) then keep else item :: keep.

(** ** Steps *)

(** The flag says that the step is clean: not an admission that could neither
    write the row nor take the peer out again. *)
Inductive step : bool -> system -> system -> Prop :=
  | hs_begin n n' hs sn up req r : wf_req req ->
      checkCapacity sha256 MaxPeers req n = (r, n') ->
      step true (mkSys n hs sn up)
        (mkSys n' (if r is inr _ then Checked req :: hs else hs) sn up)
  | hs_query n n' hs1 hs2 sn up req r :
      queryAdmission NodeAddress req n = (r, n') ->
      step true (mkSys n (hs1 ++ Checked req :: hs2) sn up)
        (mkSys n' (if r is inr a then hs1 ++ Queried req a :: hs2 else hs1 ++ hs2) sn up)
  | hs_lock n n' hs1 hs2 sn up req a r :
      admit_locked sha256 MaxPeers req a n = (r, n') ->
      step (if r is inl e then negb ((e_Code e =? 10) && bool_decide (PeerData req ∈ peer_set (svc n')))
            else true)
        (mkSys n (hs1 ++ Queried req a :: hs2) sn up) (mkSys n' (hs1 ++ hs2) sn up)
  | set_read n n' hs up r : on_svc Peers n = (r, n') ->
      step true (mkSys n hs None up) (mkSys n' hs (if r is inr ps then Some ps else None) up)
  | set_lock n n' hs up peers errs : setSessions_locked peers n = (inr errs, n') ->
      step true (mkSys n hs (Some peers) up) (mkSys n' hs None up)
  | upd_read n n' hs sn r : on_db (Find Session0) n = (r, n') ->
      step true (mkSys n hs sn UIdle)
        (mkSys n' hs sn (if r is inr items then UVisit (rev items) [] else UIdle))
  | upd_check n n' hs sn x todo keep r : checkSession x n = (r, n') ->
      step true (mkSys n hs sn (UVisit (x :: todo) keep))
        (mkSys n' hs sn (if r is inr v then URetire x v todo keep else UPanicked))
  | upd_lock n n' hs sn x v todo keep r :
      (if removePeer v || removeSession v
       then retire x (removePeer v) (removeSession v) else mret tt) n = (r, n') ->
      step true (mkSys n hs sn (URetire x v todo keep)) (mkSys n' hs sn (UVisit todo (keep_if v x keep)))
  | upd_report n n' hs sn keep errs :
      (match keep with [] => mret [] | _ => reportSessions NodeAddress keep end) n = (inr errs, n') ->
      step true (mkSys n hs sn (UVisit [] keep)) (mkSys n' hs sn UIdle).

(** Runs; [clean] runs take clean steps only. *)
Inductive run (clean : bool) : system -> system -> Prop :=
  | run_nil σ : run clean σ σ
  | run_step σ1 σ2 σ3 b : run clean σ1 σ2 -> step b σ2 σ3 -> (clean = true -> b = true) ->
      run clean σ1 σ3.

(** ** Invariants *)
Implicit Types (n : node) (σ : system) (l : list Session).

Definition metered n : Prop :=
  forall d, d ∈ peer_set (svc n) -> Base64.EncodeToString d ∈ (Key <$> rows (db n)).

Record node_ok n : Prop := {
  ok_svc : svc_inv (svc n);
  ok_table : table_inv (rows (db n));
  ok_room : PeerCount (svc n) <= MaxPeers
}.

Lemma ok_metered_inv n : node_ok n -> metered n -> node_inv n.
Proof. intros [] Hm; by apply node_inv_split. Qed.

(** What identifies a row. *)
Definition idk (r : Session) : Z * string := (ID r, Key r).

Lemma idk_ids l l' : idk <$> l' = idk <$> l -> ID <$> l' = ID <$> l.
Proof. intros H; apply (f_equal (fmap fst)) in H; by rewrite <- !list_fmap_compose in H. Qed.
Lemma idk_keys l l' : idk <$> l' = idk <$> l -> Key <$> l' = Key <$> l.
Proof. intros H; apply (f_equal (fmap snd)) in H; by rewrite <- !list_fmap_compose in H. Qed.

Lemma table_inv_idk l l' : idk <$> l' = idk <$> l -> table_inv l -> table_inv l'.
Proof.
  intros H [Hi H0 Hk Hw]; pose proof (idk_ids _ _ H) as Hids; pose proof (idk_keys _ _ H) as Hkeys.
  split; rewrite ?Hids, ?Hkeys; try done.
  assert (Forall wf_key (Key <$> l')) as Hf by (rewrite Hkeys; by apply Forall_fmap).
  rewrite Forall_fmap in Hf; exact Hf.
Qed.

(** A stretch that neither adds nor drops a row and adds no peer. *)
Record quiet n n' : Prop := {
  q_rows : idk <$> rows (db n') = idk <$> rows (db n);
  q_svc : svc_inv (svc n');
  q_sub : peer_set (svc n') ⊆ peer_set (svc n);
  q_count : PeerCount (svc n') <= PeerCount (svc n)
}.

Lemma quiet_ok n n' : quiet n n' -> node_ok n -> node_ok n'.
Proof. intros [] []; split; [done|by eapply table_inv_idk|lia]. Qed.

Lemma quiet_metered n n' : quiet n n' -> metered n -> metered n'.
Proof. intros [Hr _ Hs _] Hm d Hd; rewrite (idk_keys _ _ Hr); auto. Qed.

Lemma quiet_trans n1 n2 n3 : quiet n1 n2 -> quiet n2 n3 -> quiet n1 n3.
Proof. intros [] []; split; [congruence|done|by etrans|lia]. Qed.

Lemma same_obs_quiet n n' : node_ok n -> same_obs n n' -> quiet n n'.
Proof. intros [Hi _ _] [Hs Hr]; split; rewrite ?Hs, ?Hr; done. Qed.

Lemma shrinks_quiet P n n' : shrinks P n n' -> quiet n n'.
Proof. intros [Hd _ Hi Hs _ Hc]; split; rewrite ?Hd; done. Qed.

(** ** The pass of set_sessions, for any snapshot *)
Lemma ctx_RemovePeer_quiet k n r n' : svc_inv (svc n) -> ctx_RemovePeer k n = (r, n') -> quiet n n'.
Proof.
  intros Hi H; unfold ctx_RemovePeer in H; destruct (Base64.DecodeString k) as [d|]; [|minv H; by split].
  apply on_svc_inv in H as (H & Hd & _); pose proof (remove_peer_count _ _ _ _ H).
  apply remove_peer_frame in H as (Hi' & _ & Hs); [|done]; split; rewrite ?Hd; done.
Qed.

Lemma update_quiet w up down n r n' : svc_inv (svc n) ->
  on_db (UpdateUsage w up down) n = (r, n') -> quiet n n'.
Proof.
  intros Hi (H & Hs & _)%on_db_inv; apply update_usage_spec in H.
  split; rewrite ?Hs; try done; destruct r as [|u]; [by rewrite H|]; destruct H as [t ->].
  rewrite <- list_fmap_compose; apply list_fmap_ext; intros i x _; simpl.
  by destruct (matches w x).
Qed.

Lemma setSession_quiet p n r n' : svc_inv (svc n) -> setSession p n = (r, n') -> quiet n n'.
Proof.
  intros Hi H; unfold setSession in H; minv H; apply on_db_inv in Hm as (Hm & Hs & _);
    apply find_first_spec in Hm as [Hr _];
    (assert (quiet n s) as Hq by (split; rewrite ?Hs, ?Hr; done)); try done.
  - eapply quiet_trans; [done|]; eapply ctx_RemovePeer_quiet; [by rewrite Hs|done].
  - eapply quiet_trans; [done|].
    apply update_quiet in Hm0 as Hq2; [|by rewrite Hs]; eapply quiet_trans; [done|].
    eapply ctx_RemovePeer_quiet; [by apply Hq2|done].
  - eapply quiet_trans; [done|]; eapply update_quiet; [by rewrite Hs|done].
Qed.

Lemma setSessions_quiet peers n r n' : svc_inv (svc n) ->
  setSessions_locked peers n = (r, n') -> quiet n n'.
Proof.
  revert n r n'; induction peers as [|p peers IH]; simpl; intros n r n' Hi H; minv H.
  - by split.
  - by eapply setSession_quiet.
  - apply setSession_quiet in Hm as Hq; [|done]; eapply quiet_trans; [done|]; eapply IH; [apply Hq|done].
  - apply setSession_quiet in Hm as Hq; [|done]; eapply quiet_trans; [done|]; eapply IH; [apply Hq|done].
Qed.

(** ** Admission under the lock, whatever peers the service carries *)

(** At most one row was added, under a fresh id. *)
Definition one_more n n' : Prop :=
  idk <$> rows (db n') = idk <$> rows (db n)
  ∨ ∃ row, idk <$> rows (db n') = (idk <$> rows (db n)) ++ [idk row] ∧ ID row ∉ (ID <$> rows (db n)).

Lemma table_inv_snoc l row : table_inv l -> ID row ≠ 0 -> wf_key (Key row) ->
  ID row ∉ (ID <$> l) -> Key row ∉ (Key <$> l) -> table_inv (l ++ [row]).
Proof.
  intros [Hi H0 Hk Hw] Hid Hwf Hfi Hfk; split; rewrite ?fmap_app; simpl.
  - by apply NoDup_snoc.
  - rewrite elem_of_app, list_elem_of_singleton; naive_solver.
  - by apply NoDup_snoc.
  - apply Forall_app; split; [done|by constructor].
Qed.

Lemma addAndRecord_ok req a remaining n r n' : svc_inv (svc n) -> table_inv (rows (db n)) ->
  wf_req req -> PeerCount (svc n) < MaxPeers ->
  addAndRecord req a remaining n = (r, n') -> node_ok n' ∧ one_more n n'.
Proof.
  intros Hi Ht [Hid Hd] Hroom H; unfold addAndRecord in H; minv H;
    repeat match goal with
    | H : on_svc _ _ = _ |- _ => apply on_svc_inv in H as (? & ? & _)
    | H : on_db _ _ = _ |- _ => apply on_db_inv in H as (? & ? & _)
    | H : AddPeer _ _ = _ |- _ =>
        pose proof (add_peer_count _ _ _ _ H); (apply add_peer_ok in H as [? ?] || apply add_peer_err in H as [? ?]);
        [|done..]
    | H : Create _ _ = _ |- _ => apply create_spec in H; simpl in H
    | H : RemovePeer _ _ = _ |- _ =>
        pose proof (remove_peer_count _ _ _ _ H); apply remove_peer_frame in H as (? & _ & _); [|congruence]
    | H : db _ = db _ |- _ => rewrite H in *; clear H
    end; simpl in *.
  - split; [split; [done|congruence|lia]|left; congruence].
  - assert (svc s0 = svc s) as Hs by done; rewrite Hs in *.
    split; [split; [done|congruence|lia]|left; congruence].
  - match goal with H : (∃ t, _) ∧ _ |- _ => destruct H as ([t Hr] & Hfi & Hfk) end.
    assert (svc s0 = svc s) as Hs by done.
    split; [split; rewrite ?Hs; [done|rewrite Hr|lia]|right; eexists; rewrite Hr, fmap_app; done].
    apply table_inv_snoc; try done; by exists (PeerData req).
Qed.

Lemma remainingFor_obs req a n r n' : remainingFor req a n = (r, n') -> same_obs n n'.
Proof.
  intros H; unfold remainingFor in H; minv H; try done;
    repeat match goal with H : on_db (Find _) _ = _ |- _ => apply on_db_find in H as [? _] end; done.
Qed.

Lemma one_more_quiet n n1 n' : quiet n n1 -> one_more n1 n' -> one_more n n'.
Proof.
  intros [Hr _ _ _] [H|(row & H & Hf)]; [left; congruence|right].
  exists row; rewrite <- Hr, <- (idk_ids _ _ Hr); done.
Qed.

Lemma admit_locked_ok req a n r n' : node_ok n -> wf_req req ->
  admit_locked sha256 MaxPeers req a n = (r, n') -> node_ok n' ∧ one_more n n'.
Proof.
  intros Hn Hwf H; unfold admit_locked in H; minv H;
    repeat match goal with
    | H : checkCapacity _ _ _ _ = _ |- _ => let Hc := fresh "Hcap" in apply checkCapacity_inv in H as [[Hc _] H]
    | H : remainingFor _ _ _ = _ |- _ => apply remainingFor_obs in H
    | H : on_db (Find _) _ = _ |- _ => apply on_db_find in H as [? H]
    end.
  1-3: assert (quiet n n') as Hq by (apply same_obs_quiet; [done|by repeat (etrans; [eassumption|])]);
       split; [by eapply quiet_ok|left; apply Hq].
  all: assert (same_obs n s1) as Ho by (by repeat (etrans; [eassumption|]));
    pose proof (same_obs_quiet _ _ Hn Ho) as Hq; pose proof (quiet_ok _ _ Hq Hn) as Hn1.
  all: assert (Forall (fun x => wf_key (Key x)) a3) as Hw by
    (subst a3; rewrite Forall_forall; intros x Hx%filter_subseteq;
     pose proof (ti_wf _ (ok_table _ Hn1)) as Hw; rewrite Forall_forall in Hw; apply Hw;
     repeat match goal with H : same_obs _ _ |- _ => destruct H as [_ ?] end; congruence).
  - apply removeAll_inv in H as [Hs%shrinks_quiet _]; [|apply Hn1|done].
    assert (quiet n n') as Hq2 by (by eapply quiet_trans).
    split; [by eapply quiet_ok|left; apply Hq2].
  - apply removeAll_inv in Hm2 as [Hs%shrinks_quiet _]; [|apply Hn1|done].
    destruct a0, (Hm eq_refl) as (Hroom & _ & _); pose proof (quiet_ok _ _ Hs Hn1) as Hn2.
    apply addAndRecord_ok in H as [Hn3 Hone]; [|apply Hn2|apply Hn2|done|].
    + split; [done|]; eapply one_more_quiet; [|done]; by eapply quiet_trans.
    + destruct Ho as [Hsv _]; pose proof (q_count _ _ Hs) as Hc; rewrite Hsv in Hc; lia.
Qed.

(** ** Retiring under the lock *)
Definition dropped (id : Z) n n' : Prop :=
  idk <$> rows (db n') = idk <$> rows (db n)
  ∨ rows (db n') = List.filter (fun x => negb (bool_decide (ID x = id))) (rows (db n)).

Lemma retire_ok item rp rs n r n' : node_ok n -> read_from item n ->
  retire item rp rs n = (r, n') -> node_ok n' ∧ dropped (ID item) n n'.
Proof.
  intros Hn (Hid & Hw & Hkey) H; unfold retire in H; apply bind_inv in H.
  assert (Hstep : forall (x : gerror + unit) n1,
    (if rp then RemovePeerIfExists (Key item) else mret tt) n = (x, n1) -> quiet n n1).
  { intros x n1 H1; destruct rp; [|minv H1; by apply same_obs_quiet].
    apply RemovePeerIfExists_inv in H1 as [Hs _]; [by eapply shrinks_quiet|apply Hn|done]. }
  assert (Hquiet : forall n1, quiet n n1 -> node_ok n1 ∧ dropped (ID item) n n1).
  { intros n1 Hq; split; [by eapply quiet_ok|left; apply Hq]. }
  destruct H as [(e & H & ->)|([] & n1 & H1 & H)]; [eauto|]; apply Hstep in H1 as Hq.
  destruct rs; [|minv H; auto]; apply delete_rows in H as [Hs Hr]; [|done].
  assert (db n1 = db n) as Hdb.
  { destruct rp; [|by minv H1].
    apply RemovePeerIfExists_inv in H1 as [Hsh _]; [apply Hsh|apply Hn|done]. }
  rewrite Hdb in Hr; destruct r as [e|u].
  - apply Hquiet; destruct Hq; split; rewrite ?Hs, ?Hr; done.
  - destruct Hn, Hq; split; [split; rewrite ?Hs, ?Hr; [done|by apply table_inv_filter|lia]|by right].
Qed.

(** ** The system invariant *)

(** The sessions the update job has read and not dealt with yet. *)
Definition pending (u : updater) : list Session :=
  match u with
  | UVisit todo _ => todo
  | URetire x _ todo _ => x :: todo
  | _ => []
  end.

(** They are still in the table, each under its own id. *)
Definition pend_ok (l : list Session) n : Prop :=
  NoDup (ID <$> l) ∧ forall x, x ∈ l -> idk x ∈ (idk <$> rows (db n)).

Definition hs_ok (h : handshake) : Prop :=
  match h with
  | Checked req => wf_req req
  | Queried req a => wf_req req ∧ ∃ c : C, granted NodeAddress c req a
  end.

Definition verdict_ok (u : updater) : Prop :=
  if u is URetire _ v _ _ then removeSession v = true -> removePeer v = true else True.

Record sys_inv σ : Prop := {
  si_node : node_ok (nd σ);
  si_hs : Forall hs_ok (handshakes σ);
  si_pend : pend_ok (pending (updating σ)) (nd σ);
  si_verdict : verdict_ok (updating σ)
}.

Lemma pend_idk l n n' : idk <$> rows (db n') = idk <$> rows (db n) -> pend_ok l n -> pend_ok l n'.
Proof. intros H [Hn Hp]; split; [done|]; rewrite H; done. Qed.

Lemma pend_one_more l n n' : one_more n n' -> pend_ok l n -> pend_ok l n'.
Proof.
  intros [H|(row & H & _)]; [by apply pend_idk|]; intros [Hn Hp]; split; [done|].
  intros x Hx; rewrite H; apply elem_of_app; left; auto.
Qed.

Lemma pend_tail x l n : pend_ok (x :: l) n -> pend_ok l n.
Proof. intros [[_ Hn]%NoDup_cons Hp]; split; [done|]; intros y Hy; apply Hp; by right. Qed.

Lemma pend_dropped x l n n' : dropped (ID x) n n' -> pend_ok (x :: l) n -> pend_ok l n'.
Proof.
  intros [H|H] Hp; [by eapply pend_idk, pend_tail|]; destruct Hp as [[Hx Hn]%NoDup_cons Hp].
  split; [done|]; intros y Hy; rewrite H.
  destruct (proj1 (list_elem_of_fmap _ _ _) (Hp y ltac:(by right))) as (z & Hz & Hin).
  rewrite Hz; apply list_elem_of_fmap_2, list_elem_of_In, filter_In.
  split; [by apply list_elem_of_In|]; rewrite bool_decide_false; [done|].
  intros E; apply Hx; injection Hz as Hid _; rewrite <- E, <- Hid; by apply list_elem_of_fmap_2.
Qed.

Lemma pend_read x l n : node_ok n -> pend_ok (x :: l) n -> read_from x n.
Proof.
  intros [_ [Hids H0 Hk Hw] _] [_ Hp].
  destruct (proj1 (list_elem_of_fmap _ _ _) (Hp x ltac:(by left))) as (z & [= Hid Hkey] & Hin).
  rewrite Forall_forall in Hw; split_and!; [|rewrite Hkey; auto|].
  - rewrite Hid; intros E; apply H0; rewrite <- E; by apply list_elem_of_fmap_2.
  - intros r Hr Hrid; rewrite Hkey; f_equal; apply (NoDup_fmap_elem ID (rows (db n))); congruence.
Qed.

(** ** Every step keeps the invariants *)
Lemma sys_inv_quiet n n' hs hs' sn sn' up up' : quiet n n' ->
  sys_inv (mkSys n hs sn up) -> Forall hs_ok hs' ->
  (pend_ok (pending up) n' -> pend_ok (pending up') n') -> verdict_ok up' ->
  sys_inv (mkSys n' hs' sn' up').
Proof.
  intros Hq [Hn _ Hp _] Hhs Hpend Hv; simpl in *; split; simpl; [by eapply quiet_ok|done| |done].
  apply Hpend; eapply pend_idk; [apply Hq|done].
Qed.

(** The stretches without the lock, and the pass, are quiet. *)
Lemma checkCapacity_quiet req n r n' : node_ok n ->
  checkCapacity sha256 MaxPeers req n = (r, n') -> quiet n n'.
Proof. intros Hn [[H _] _]%checkCapacity_inv; by apply same_obs_quiet. Qed.

Lemma queryAdmission_quiet req n r n' : node_ok n ->
  queryAdmission NodeAddress req n = (r, n') -> quiet n n'.
Proof. intros Hn [H _]%queryAdmission_inv; by apply same_obs_quiet. Qed.

Lemma peers_quiet n r n' : node_ok n -> on_svc Peers n = (r, n') -> quiet n n'.
Proof.
  intros [Hi _ _] (H & Hd & _)%on_svc_inv; apply peers_frame in H as (Hi' & Hs & Hc); [|done].
  split; rewrite ?Hd, ?Hs, ?Hc; done.
Qed.

Lemma pass_quiet peers n r n' : node_ok n -> setSessions_locked peers n = (r, n') -> quiet n n'.
Proof. intros [Hi _ _]; by apply setSessions_quiet. Qed.

Lemma find_quiet w n r n' : node_ok n -> on_db (Find w) n = (r, n') -> quiet n n'.
Proof. intros Hn [H _]%on_db_find; by apply same_obs_quiet. Qed.

Lemma chain_only_quiet n n' : node_ok n -> chain_only n n' -> quiet n n'.
Proof. intros Hn H; by apply same_obs_quiet, chain_only_obs. Qed.

Lemma check_quiet x n r n' : node_ok n -> checkSession x n = (r, n') -> quiet n n'.
Proof. intros Hn [H _]%checkSession_inv; by apply chain_only_quiet. Qed.

Lemma report_quiet keep n (r : panic + list gerror) n' : node_ok n ->
  (match keep with [] => mret [] | _ => reportSessions NodeAddress keep end) n = (r, n') -> quiet n n'.
Proof.
  intros Hn H; destruct keep; [minv H; by apply same_obs_quiet|].
  apply reportSessions_obs in H as [H _]; by apply chain_only_quiet.
Qed.
#[local] Hint Resolve checkCapacity_quiet queryAdmission_quiet peers_quiet pass_quiet find_quiet
  check_quiet report_quiet : quiet.

Lemma hs_ok_remove hs1 h hs2 : Forall hs_ok (hs1 ++ h :: hs2) -> Forall hs_ok (hs1 ++ hs2) ∧ hs_ok h.
Proof. rewrite !Forall_app, Forall_cons; tauto. Qed.

Lemma hs_ok_insert hs1 h hs2 : Forall hs_ok (hs1 ++ hs2) -> hs_ok h -> Forall hs_ok (hs1 ++ h :: hs2).
Proof. rewrite !Forall_app, Forall_cons; tauto. Qed.

Lemma find_pend n (r : gerror + list Session) n' : node_ok n -> on_db (Find Session0) n = (r, n') ->
  pend_ok (pending (if r is inr items then UVisit (rev items) [] else UIdle)) n'.
Proof.
  intros [_ [Hids _ _ _] _] [[_ Hr] Hi]%on_db_find; destruct r as [e|items]; simpl.
  { split; [constructor|set_solver]. }
  rewrite find_all in Hi; subst items; unfold pend_ok; rewrite Hr; split.
  - change (NoDup (map ID (rev (rows (db n))))); rewrite map_rev; by rewrite <- Permutation_rev.
  - intros x Hx%list_elem_of_In%in_rev%list_elem_of_In; by apply list_elem_of_fmap_2.
Qed.

Lemma retire_step x v n (r : gerror + unit) n' : node_ok n -> read_from x n ->
  (if removePeer v || removeSession v
   then retire x (removePeer v) (removeSession v) else mret tt) n = (r, n') ->
  node_ok n' ∧ dropped (ID x) n n'.
Proof.
  intros Hn Hf H; destruct (_ || _); [by eapply retire_ok|minv H].
  split; [done|by left].
Qed.

Lemma step_inv b σ σ' : sys_inv σ -> step b σ σ' -> sys_inv σ'.
Proof.
  intros Hσ Hstep; pose proof (si_node _ Hσ) as Hn; pose proof (si_hs _ Hσ) as Hhs.
  destruct Hstep; simpl in Hn, Hhs.
  - eapply sys_inv_quiet; eauto with quiet; [destruct r; [done|by constructor]|apply Hσ].
  - apply hs_ok_remove in Hhs as [Hhs Hh].
    eapply sys_inv_quiet; eauto with quiet; [|apply Hσ].
    apply queryAdmission_inv in H as (_ & _ & H); destruct r as [e|a]; [done|].
    apply hs_ok_insert; [done|]; split; [done|by eexists].
  - apply hs_ok_remove in Hhs as [Hhs [Hw Hg]].
    apply admit_locked_ok in H as [Hn' Hone]; [|done..].
    split; simpl; [done|done|eapply pend_one_more; [done|apply Hσ]|apply Hσ].
  - eapply sys_inv_quiet; eauto with quiet; apply Hσ.
  - eapply sys_inv_quiet; eauto with quiet; apply Hσ.
  - eapply sys_inv_quiet; eauto with quiet; [|by destruct r]; intros _; by eapply find_pend.
  - eapply sys_inv_quiet; eauto with quiet; simpl.
    + destruct r; [split; [constructor|set_solver]|done].
    + apply checkSession_inv in H as [_ H]; destruct r as [|v]; [done|simpl; apply H].
  - pose proof (si_pend _ Hσ) as Hp; simpl in Hp.
    apply retire_step in H as [Hn' Hd]; [|done|by eapply pend_read].
    split; simpl; [done|done|by eapply pend_dropped|done].
  - eapply sys_inv_quiet; eauto with quiet; done.
Qed.

Lemma step_metered σ σ' : sys_inv σ -> metered (nd σ) -> step true σ σ' -> metered (nd σ').
Proof.
  intros Hσ Hm Hstep; pose proof (si_node _ Hσ) as Hn; pose proof (si_hs _ Hσ) as Hhs.
  pose proof (ok_metered_inv _ Hn Hm) as Hinv; remember true as b eqn:Hb.
  destruct Hstep; simpl in *; try (eapply quiet_metered; [|exact Hm]; eauto with quiet; fail).
  - apply hs_ok_remove in Hhs as [_ [[Hid Hd] [c Hg]]].
    apply (admit_locked_inv NodeAddress _ _ _ Hid Hd _ c) in H; [|done..]; destruct r as [e|res].
    + destruct (rf_inv _ _ _ _ _ H) as [Hi|(_ & Hc & Hin & _)]; [exact (ni_metered _ Hi)|].
      by rewrite Hc, bool_decide_true in Hb.
    + exact (ni_metered _ (ad_inv _ _ _ _ _ _ H)).
  - pose proof (si_verdict _ Hσ) as Hv; pose proof (si_pend _ Hσ) as Hp; simpl in *.
    destruct (_ || _); [|by minv H].
    apply retire_inv in H as [Ht _]; [exact (ni_metered _ (tr_inv _ _ Ht))|done|by eapply pend_read|done].
Qed.

Lemma run_inv clean σ0 σ : sys_inv σ0 -> (clean = true -> metered (nd σ0)) -> run clean σ0 σ ->
  sys_inv σ ∧ (clean = true -> metered (nd σ)).
Proof.
  intros H0 Hm0; induction 1 as [|σ1 σ2 σ3 b _ IH Hs Hb]; [done|].
  destruct IH as [IH1 IH2]; [done..|]; split; [by eapply step_inv|].
  intros Hc; rewrite (Hb Hc) in Hs; eapply step_metered; eauto.
Qed.

(** A node that was just started: nothing in flight, the table cleared. *)
Definition started σ : Prop :=
  svc_inv (svc (nd σ)) ∧ peer_set (svc (nd σ)) = ∅ ∧ rows (db (nd σ)) = []
  ∧ handshakes σ = [] ∧ updating σ = UIdle.

Lemma started_inv σ : 0 <= MaxPeers -> started σ -> sys_inv σ ∧ metered (nd σ).
Proof.
  intros HM (Hi & Hp & Hr & Hh & Hu); split.
  - split; rewrite ?Hh, ?Hu; simpl; [|constructor|split; [constructor|set_solver]|done].
    split; [done|rewrite Hr|rewrite peer_count_spec, Hp, size_empty by done; done].
    split; simpl; [constructor|set_solver|constructor|constructor].
  - intros d; rewrite Hp; set_solver.
Qed.

(** C10. However handshakes and jobs interleave, from start-up on the node never
    serves more than [max_peers] peers, no session id and no peer key is ever
    recorded twice, and no row with id 0 or a malformed key is written; and the
    sessions the update job still has to deal with are all still in the table
    under the key it read, so retiring one can never hit a newer session. *)
Theorem reachable_safe σ0 σ : 0 <= MaxPeers -> started σ0 -> run false σ0 σ ->
  PeerCount (svc (nd σ)) <= MaxPeers ∧ table_inv (rows (db (nd σ)))
  ∧ pend_ok (pending (updating σ)) (nd σ).
Proof.
  intros HM Hs Hrun; destruct (started_inv _ HM Hs) as [Hi _].
  destruct (run_inv false σ0 σ Hi) as [[[] _ Hp _] _]; done.
Qed.

(** C11. No peer is served unmetered: in every interleaving in which no admission
    fails both to write its row and to take its peer out again, every peer the
    service carries has a row in the session table. *)
Theorem clean_metered σ0 σ : 0 <= MaxPeers -> started σ0 -> run true σ0 σ -> metered (nd σ).
Proof.
  intros HM Hs Hrun; destruct (started_inv _ HM Hs) as [Hi Hm].
  by apply (run_inv _ _ _ Hi (fun _ => Hm) Hrun).
Qed.
End System.
