(* ===== verification/Guard.v ===== *)
(** What stands in front of a handshake: src/api/session/guard.go and the reply
    envelope of src/types/rest.go.

    - [rateLimiter], [allow]: attempts counted per client block in fixed windows.
    - [clientBlock]: an IPv4 address, or the /64 of an IPv6 address.
    - [guard]: the TLS requirement and then the limit, in the order
      src/api/session/routes.go installs them. *)
From S2P Require Import Prelude Codec.
Set Default Proof Using "Type*".

(** * The reply envelope (src/types/rest.go) *)
Record Error := mkError { Code : Z; Message : string }.
Record Response (R : Type) := mkResponse {
  Success : bool; resp_Error : option Error; Result : option R }.
Arguments mkResponse {R}. Arguments Success {R}. Arguments resp_Error {R}. Arguments Result {R}.

Definition NewError (code : Z) (message : string) : Error := mkError code message.
Definition NewResponse {R} (err : option Error) (res : option R) : Response R :=
  mkResponse (if err is None then true else false) err res.
Definition NewResponseError {R} (code : Z) (message : string) : Response R :=
  NewResponse (Some (NewError code message)) None.
Definition NewResponseResult {R} (v : R) : Response R := NewResponse None (Some v).
Definition InternalErrorMessage : string :=
  "the node could not complete the request; try again later".

(** An HTTP reply: status, the header the handler sets, body. *)
Record reply (R : Type) := mkReply {
  r_status : Z; r_headers : list (string * string); r_body : Response R }.
Arguments mkReply {R}. Arguments r_status {R}. Arguments r_headers {R}. Arguments r_body {R}.

(** * The rate limiter *)

(** Instants are nanoseconds since the zero time, which is where [start] begins. *)
Record rateLimiter := mkLimiter {
  limit : Z; window : Z; start : Z; counts : gmap string Z; warned : bool }.

Definition newRateLimiter (limit window : Z) : rateLimiter := mkLimiter limit window 0 ∅ false.
Definition count (l : rateLimiter) (key : string) : Z := default 0 (counts l !! key).

Definition handshakeLimit : Z := 30.
Definition second : Z := 1000000000.
Definition handshakeWindow : Z := 60 * second.

(** Start a new window when the current one is over. *)
Definition roll (now : Z) (l : rateLimiter) : rateLimiter :=
  if window l <=? time_Sub now (start l) then mkLimiter (limit l) (window l) now ∅ false else l.

(** [(ok, wait, first)] and the limiter afterwards. *)
Definition allow (now : Z) (key : string) (l : rateLimiter) : (bool * Z * bool) * rateLimiter :=
  let l := roll now l in
  if limit l <=? count l key then
    ((false, time_Sub (start l + window l) now, negb (warned l)),
     mkLimiter (limit l) (window l) (start l) (counts l) true)
  else
    ((true, 0, false),
     mkLimiter (limit l) (window l) (start l) (<[key := count l key + 1]> (counts l)) (warned l)).

(** * Client blocks *)
Section Block.
(** Go's net package: the 16-byte form of an address, and its text. *)
Context (ParseIP : string -> option bytes) (IPString : bytes -> string).

Definition v4InV6Prefix : bytes := replicate 10 x00 ++ [xff; xff].

(** [IP.To4]: the last four bytes of an IPv4-mapped address. *)
Definition To4 (ip : bytes) : option bytes :=
  if bool_decide (length ip = 4%nat) then Some ip
  else if bool_decide (length ip = 16%nat) && bool_decide (take 12 ip = v4InV6Prefix)
  then Some (drop 12 ip) else None.

(** [IP.Mask(net.CIDRMask(64, 128))] of a 16-byte address. *)
Definition mask64 (ip : bytes) : bytes := take 8 ip ++ replicate 8 x00.

Definition clientBlock (remoteIP : string) : string :=
  match ParseIP remoteIP with
  | None => remoteIP
  | Some ip =>
      match To4 ip with
      | Some v4 => IPString v4
      | None => IPString (mask64 ip)
      end
  end.

(** * The two middlewares, as the routes stack them *)
Definition StatusForbidden : Z := 403.
Definition StatusTooManyRequests : Z := 429.

Definition requireTLS {R} (tls : bool) : option (reply R) :=
  if tls then None
  else Some (mkReply StatusForbidden [] (NewResponseError 11 "the handshake must be made over https")).

(** [strconv.Itoa(int(wait.Seconds()) + 1)], as the number it prints. *)
Definition retryAfter (wait : Z) : Z := Z.quot wait second + 1.

Definition limitHandshakes {R} (itoa : Z -> string) (now : Z) (remoteIP : string) (l : rateLimiter)
  : option (reply R) * rateLimiter :=
  let '((ok, wait, _), l') := allow now (clientBlock remoteIP) l in
  if ok then (None, l')
  else (Some (mkReply StatusTooManyRequests [("Retry-After"%string, itoa (retryAfter wait))]
                (NewResponseError 12 "too many handshake attempts; retry later")), l').

(** [None] lets the request through to its handler. *)
Definition guard {R} (itoa : Z -> string) (tls : bool) (now : Z) (remoteIP : string) (l : rateLimiter)
  : option (reply R) * rateLimiter :=
  match requireTLS tls with
  | Some r => (Some r, l)
  | None => limitHandshakes itoa now remoteIP l
  end.
End Block.

(** * The bound on attempts *)

(** How many of a sequence of attempts [key] was allowed. *)
Fixpoint allowed (key : string) (events : list (Z * string)) (l : rateLimiter) : Z :=
  match events with
  | [] => 0
  | (now, k) :: rest =>
      let '((ok, _, _), l') := allow now k l in
      (if ok && bool_decide (k = key) then 1 else 0) + allowed key rest l'
  end.

Record limiter_inv (l : rateLimiter) : Prop := {
  li_limit : 0 <= limit l;
  li_window : 0 < window l <= max_int64;
  li_counts k : 0 <= count l k <= limit l
}.

Lemma count_insert l k k' v b :
  count (mkLimiter (limit l) (window l) (start l) (<[k := v]> (counts l)) b) k' =
  if bool_decide (k = k') then v else count l k'.
Proof. unfold count; simpl; case_bool_decide; subst; by rewrite ?lookup_insert_eq, ?lookup_insert_ne. Qed.

Lemma roll_inv now l : limiter_inv l -> limiter_inv (roll now l).
Proof.
  intros []; unfold roll; destruct (_ <=? _); [|done]; split; try done.
Qed.

Lemma allow_inv now k l : limiter_inv l -> limiter_inv (allow now k l).2.
Proof.
  intros Hl%(roll_inv now); unfold allow; set (r := roll now l) in *.
  destruct (Z.leb_spec (limit r) (count r k)); simpl; destruct Hl as [H1 H2 H3]; split; try done.
  intros k'; rewrite count_insert; specialize (H3 k');
  case_bool_decide; subst; simpl in *; lia.
Qed.

Lemma roll_same now l : now - start l < window l -> 0 < window l <= max_int64 -> roll now l = l.
Proof.
  unfold roll, time_Sub, min_int64, max_int64; intros Hn Hw.
  destruct (Z.leb_spec (window l) (Z.max (- 2 ^ 63) (Z.min (2 ^ 63 - 1) (now - start l)))); [exfalso; lia|done].
Qed.

(** Within one window the key has what is left of its limit. *)
Lemma allowed_window key events l : limiter_inv l ->
  Forall (fun e => e.1 - start l < window l) events ->
  0 <= allowed key events l <= limit l - count l key.
Proof.
  revert l; induction events as [|[now k] events IH]; intros l Hl Hev; simpl.
  { destruct Hl as [_ _ Hc]; specialize (Hc key); lia. }
  apply Forall_cons in Hev as [Hnow Hev]; simpl in Hnow.
  pose proof (roll_same now l Hnow (li_window _ Hl)) as Hroll.
  pose proof (allow_inv now k l Hl) as Hl'.
  unfold allow in *; rewrite Hroll in *; destruct (Z.leb_spec (limit l) (count l k)); simpl in *.
  - specialize (IH _ Hl' Hev); simpl in IH; unfold count in *; simpl in *; lia.
  - specialize (IH _ Hl' Hev); rewrite count_insert in IH; simpl in IH.
    case_bool_decide; subst; lia.
Qed.

(** A new window begins empty, at the attempt that opened it. *)
Lemma roll_new now l : window l <= max_int64 -> window l <= now - start l ->
  roll now l = mkLimiter (limit l) (window l) now ∅ false.
Proof.
  unfold roll, time_Sub, min_int64, max_int64; intros Hw Hn.
  destruct (Z.leb_spec (window l) (Z.max (- 2 ^ 63) (Z.min (2 ^ 63 - 1) (now - start l)))); [done|exfalso; lia].
Qed.

Lemma allow_roll now k l : 0 < window l <= max_int64 -> allow now k (roll now l) = allow now k l.
Proof.
  intros [Hw0 Hw]; unfold allow; destruct (Z.lt_ge_cases (now - start l) (window l)) as [H|H].
  - by rewrite !(roll_same now l).
  - rewrite (roll_new now l) by done; rewrite roll_same by (simpl; lia); done.
Qed.

Lemma allowed_two key events l a : limiter_inv l ->
  Forall (fun e => a <= e.1 < a + window l) events ->
  allowed key events l <= (limit l - count l key) + limit l.
Proof.
  revert l; induction events as [|[now k] events IH]; intros l Hl Hev.
  { destruct Hl as [? _ Hc]; specialize (Hc key); simpl; lia. }
  pose proof (li_window _ Hl) as Hw; pose proof (li_counts _ Hl key) as Hc.
  destruct (Z.lt_ge_cases (now - start l) (window l)) as [H|H].
  - pose proof (allow_inv now k l Hl) as Hl'; simpl; unfold allow in *.
    rewrite (roll_same now l) in * by lia.
    apply Forall_cons in Hev as [_ Hev].
    destruct (Z.leb_spec (limit l) (count l k)); simpl in *.
    + specialize (IH _ Hl' Hev); unfold count in *; simpl in *; lia.
    + specialize (IH _ Hl' Hev); rewrite count_insert in IH; simpl in IH; case_bool_decide; subst; lia.
  - assert (allowed key ((now, k) :: events) l = allowed key ((now, k) :: events) (roll now l)) as ->.
    { simpl; by rewrite allow_roll. }
    pose proof (roll_inv now l Hl) as Hr; apply Forall_cons in Hev as Hev'; destruct Hev' as [Hnow _].
    rewrite (roll_new now l) in * by lia; simpl in Hnow.
    apply (allowed_window key ((now, k) :: events)) in Hr; simpl in Hr.
    + pose proof (li_limit _ Hl); unfold count in Hr; simpl in Hr; rewrite lookup_empty in Hr.
      simpl in *; lia.
    + eapply Forall_impl; [exact Hev|]; simpl; lia.
Qed.

(** C12. No client block gets through more than twice the limit within any span
    of one window's length, whatever it and the others send: the windows are
    fixed, so a span can touch two of them. *)
Theorem allowed_bound key events l a : limiter_inv l ->
  Forall (fun e => a <= e.1 < a + window l) events ->
  allowed key events l <= 2 * limit l.
Proof.
  intros Hl Hev; pose proof (allowed_two key events l a Hl Hev).
  pose proof (li_counts _ Hl key); lia.
Qed.

(** A refused client is told the truth: the wait is positive and at most one
    window, nothing is counted against it, and once [Retry-After] seconds have
    passed its next attempt is allowed. *)
Theorem refused_retry now now' k l wait first l' : limiter_inv l -> 0 < limit l ->
  start l <= now -> allow now k l = ((false, wait, first), l') ->
  0 < wait <= window l ∧ counts l' = counts (roll now l) ∧
  (now + retryAfter wait * second <= now' -> (allow now' k l').1.1.1 = true).
Proof.
  intros Hl Hpos Hst H; pose proof (li_window _ Hl) as Hw; unfold allow in H.
  destruct (Z.leb_spec (limit (roll now l)) (count (roll now l) k)) as [Hle|Hle]; simplify_eq.
  destruct (Z.lt_ge_cases (now - start l) (window l)) as [Hn|Hn].
  - rewrite (roll_same now l) in * by lia.
    assert (time_Sub (start l + window l) now = start l + window l - now) as ->
      by (unfold time_Sub, min_int64, max_int64 in *; lia).
    split_and!; [lia|lia|done|]; intros Hnow'; unfold retryAfter in Hnow'.
    assert (start l + window l <= now').
    { pose proof (Z.quot_rem (start l + window l - now) second ltac:(done)).
      pose proof (Z.rem_bound_pos (start l + window l - now) second ltac:(lia) ltac:(done)). lia. }
    unfold allow; rewrite roll_new by (simpl; lia); simpl; unfold count; simpl.
    rewrite lookup_empty; simpl; by destruct (Z.leb_spec (limit l) 0); [lia|].
  - rewrite (roll_new now l) in Hle by lia; unfold count in Hle; simpl in Hle.
    rewrite lookup_empty in Hle; simpl in Hle; lia.
Qed.
