(* ===== verification/Handshake.v ===== *)
(** The handshake endpoints: src/api/session/handshake.go, reply.go, handlers.go,
    requests.go, with [replyError] of admit.go.

    A handler turns an HTTP request into an admission and its outcome into a
    reply.  The JSON codec, the signature scheme, the address encoding and the
    node's signing key are parameters; the parts of the VPN service the API
    needs beside its peers are [ServiceAPI]. *)
From S2P Require Import Prelude Codec Types Admission Guard.
Set Default Proof Using "Type*".

(** What the API asks of a service beside its peers. *)
Class ServiceAPI (S : Type) := {
  Payload : Type;
  ParsePeerRequest : bytes -> M S gerror bytes;
  HandshakePayload : bytes -> M S gerror Payload;
  Info : S -> bytes
}.

Record HandshakeBody := mkBody {
  body_Data : string; body_ID : Z; body_PubKey : string; body_Signature : string }.
Record HandshakeResult := mkResult { hr_Data : string; hr_Addrs : list string }.

Definition pubKeyPrefix : string := "secp256k1:".
Definition PubKeySize : nat := 33.

(** * The request *)
Section Verify.
(** secp256k1: does the signature verify under the key; the account of a key. *)
Context (VerifySignature : bytes -> bytes -> bytes -> bool) (Address : bytes -> string).

Definition signed_message (id : Z) (data : bytes) : bytes := BE.uint64 id ++ data.

(** The account that signed and the peer request it signed. *)
Definition verifyHandshake (body : HandshakeBody) : result (string * bytes) :=
  let pub := Str.of_string (body_PubKey body) in
  let prefix := Str.of_string pubKeyPrefix in
  if negb (Str.has_prefix prefix pub) then inl "pub_key must be secp256k1"%string else
  match Base64.DecodeString (Str.to_string (Str.trim_prefix prefix pub)) with
  | None => inl "invalid pub_key"%string
  | Some raw =>
    if negb (length raw =? PubKeySize)%nat then inl "pub_key must be 33 bytes"%string else
    match Base64.DecodeString (body_Data body) with
    | None => inl "invalid data"%string
    | Some data =>
      match Base64.DecodeString (body_Signature body) with
      | None => inl "invalid signature"%string
      | Some signature =>
        if body_ID body =? 0 then inl "id cannot be zero"%string else
        if negb (VerifySignature raw (signed_message (body_ID body) data) signature)
        then inl "signature does not verify"%string
        else inr (Address raw, data)
      end
    end
  end.

Lemma verifyHandshake_inv body acc data : verifyHandshake body = inr (acc, data) ->
  ∃ raw signature, length raw = PubKeySize ∧ acc = Address raw ∧ body_ID body ≠ 0
    ∧ Base64.DecodeString (body_Data body) = Some data
    ∧ Base64.DecodeString (body_Signature body) = Some signature
    ∧ VerifySignature raw (signed_message (body_ID body) data) signature = true.
Proof.
  unfold verifyHandshake; destruct (Str.has_prefix _ _); simpl; [|done].
  destruct (Base64.DecodeString (Str.to_string _)) as [raw|]; [|done].
  destruct (Nat.eqb_spec (length raw) PubKeySize) as [Hl|]; simpl; [|done].
  destruct (Base64.DecodeString (body_Data body)) as [d|]; [|done].
  destruct (Base64.DecodeString (body_Signature body)) as [sg|]; [|done].
  destruct (Z.eqb_spec (body_ID body) 0); [done|].
  destruct (VerifySignature _ _ _) eqn:Hv; simpl; [|done]; intros [= <- <-]; eauto 10.
Qed.

(** C14. An accepted handshake proves possession of the account's key over this
    very request: the signature verifies, under the key the account is derived
    from, on a message that determines both the session id and the peer request,
    so a captured signature cannot be moved to another session or peer. *)
Theorem verifyHandshake_binds body acc data :
  verifyHandshake body = inr (acc, data) -> is_uint64 (body_ID body) ->
  ∃ raw signature, length raw = PubKeySize ∧ acc = Address raw ∧ body_ID body ≠ 0
    ∧ VerifySignature raw (signed_message (body_ID body) data) signature = true
    ∧ forall id' data', is_uint64 id' ->
        signed_message id' data' = signed_message (body_ID body) data ->
        id' = body_ID body ∧ data' = data.
Proof.
  intros (raw & sg & Hl & Ha & Hid & _ & _ & Hv)%verifyHandshake_inv Hu.
  exists raw, sg; split_and!; try done; intros id' data' Hu'; by apply BE.uint64_app_inj.
Qed.
End Verify.

(** * The reply *)
Section Reply.
Context (sha256 : bytes -> bytes).

Definition replyDomain : bytes := String.list_byte_of_string "dvpnd/handshake-reply/v1".
Definition newline : ascii := Ascii.ascii_of_nat 10.
Definition join_addrs (addrs : list string) : bytes :=
  String.list_byte_of_string (Str.to_string (Str.join newline (Str.of_string <$> addrs))).

Definition reply_preimage (id : Z) (request reply : bytes) (addrs : list string) : bytes :=
  replyDomain ++ BE.uint64 id ++ sha256 request ++ sha256 reply ++ join_addrs addrs.
Definition replyDigest (id : Z) (request reply : bytes) (addrs : list string) : bytes :=
  sha256 (reply_preimage id request reply addrs).

(** The signing key: the signature and the public key it verifies under. *)
Context (SignBytes : bytes -> result (bytes * bytes)).

Definition signReply (id : Z) (request : bytes) (res : HandshakeResult) : result string :=
  match Base64.DecodeString (hr_Data res) with
  | None => inl "illegal base64 data"%string
  | Some reply =>
    match SignBytes (replyDigest id request reply (hr_Addrs res)) with
    | inl e => inl e
    | inr (sig, pub) =>
        inr (pubKeyPrefix +:+ Base64.EncodeToString pub +:+ ";" +:+ Base64.EncodeToString sig)%string
    end
  end.

Lemma join_addrs_inj addrs addrs' :
  Forall (fun a => newline ∉ Str.of_string a) addrs -> Forall (fun a => newline ∉ Str.of_string a) addrs' ->
  addrs ≠ [] -> addrs' ≠ [] -> join_addrs addrs = join_addrs addrs' -> addrs = addrs'.
Proof.
  intros Ha Ha' Hn Hn' H; unfold join_addrs in H.
  apply (f_equal String.string_of_list_byte) in H; rewrite !String.string_of_list_byte_of_string in H.
  apply (f_equal Str.of_string) in H; rewrite !Str.of_to_string in H.
  apply (f_equal (Str.split newline)) in H; rewrite !Str.split_join in H;
    try (by rewrite Forall_fmap); [|by destruct addrs'|by destruct addrs].
  apply (f_equal (fmap Str.to_string)) in H; rewrite <- !list_fmap_compose in H.
  rewrite !(list_fmap_ext (Str.to_string ∘ Str.of_string) id) in H; [by rewrite !list_fmap_id in H|..];
    intros; apply Str.to_of_string.
Qed.

(** Two different inputs with one digest. *)
Definition collision (x y : bytes) : Prop := x ≠ y ∧ sha256 x = sha256 y.

(** C15. What the node signs pins down the whole reply: two replies with the same
    digest are for the same session and the same client request and carry the
    same configuration and hosts, unless SHA-256 collides on the two signed
    strings, on the two requests or on the two configurations. *)
Theorem replyDigest_binds id id' rq rq' rp rp' addrs addrs' :
  (forall x, length (sha256 x) = 32%nat) -> is_uint64 id -> is_uint64 id' ->
  Forall (fun a => newline ∉ Str.of_string a) addrs -> Forall (fun a => newline ∉ Str.of_string a) addrs' ->
  addrs ≠ [] -> addrs' ≠ [] ->
  replyDigest id rq rp addrs = replyDigest id' rq' rp' addrs' ->
  (id = id' ∧ rq = rq' ∧ rp = rp' ∧ addrs = addrs')
  ∨ collision (reply_preimage id rq rp addrs) (reply_preimage id' rq' rp' addrs')
  ∨ collision rq rq' ∨ collision rp rp'.
Proof.
  intros H32 Hi Hi' Ha Ha' Hn Hn' H.
  assert (Hcol : forall x y, sha256 x = sha256 y -> x = y ∨ collision x y)
    by (intros x y E; destruct (decide (x = y)); [by left|by right]).
  apply Hcol in H as [H|]; [|by auto]; unfold reply_preimage in H.
  apply (inj (app replyDomain)) in H; apply BE.uint64_app_inj in H as [<- H]; [|done..].
  apply app_inj_1 in H as [Hrq H]; [|by rewrite !H32].
  apply app_inj_1 in H as [Hrp H]; [|by rewrite !H32].
  apply Hcol in Hrq as [->|]; [|by auto]; apply Hcol in Hrp as [->|]; [|by auto].
  left; split_and!; try done; by apply join_addrs_inj.
Qed.
End Reply.

(** * The handlers *)
Section Handlers.
Context {S D C : Type} `{!Service S, !ServiceAPI S} `{!SessionStore D} `{!Chain C}.
Context (sha256 : bytes -> bytes) (MaxPeers : Z) (NodeAddress : string).
Context (VerifySignature : bytes -> bytes -> bytes -> bool) (Address : bytes -> string).
Context (SignBytes : bytes -> result (bytes * bytes)).
(** How errors read, the JSON codec, and the node's own addresses: its public
    IPv4 (bytes and text) and the host of [remote_url] if that parses. *)
Context (error_text : api_cause -> string) (Marshal : Payload -> result bytes).
Context (IPv4 : bytes) (IPv4Text : string) (RemoteHost : option string).
(** The account of an address: [None] when the chain has none, and its public
    key if it ever signed. *)
Context (QueryAccount : string -> M C gerror (option (option bytes))).
Context (AccAddressFromBech32 : string -> result string).
Abbreviation node := (node S D C).

Definition StatusOK : Z := 200.
Definition StatusCreated : Z := 201.
Definition ReplySignatureHeader : string := "X-Dvpnd-Signature".

(** A failure inside the node is logged; the client gets a generic message. *)
Definition replyError {R} (status code : Z) (err : string) : reply R :=
  mkReply status [] (NewResponseError code
    (if StatusInternalServerError <=? status then InternalErrorMessage else err)).
Definition replyAPIError {R} (e : apiError) : reply R :=
  replyError (e_Status e) (e_Code e) (error_text (e_Err e)).

Definition nodeAddrs : list string :=
  IPv4Text :: match RemoteHost with
              | Some h => if bool_decide (h = ""%string) || bool_decide (h = IPv4Text) then [] else [h]
              | None => []
              end.

Definition buildHandshakeResult (peer : bytes) : M node gerror HandshakeResult :=
  payload ← on_svc (HandshakePayload peer);
  match Marshal payload with
  | inl e => throw e
  | inr data => mret (mkResult (Base64.EncodeToString data) nodeAddrs)
  end.

(** A value or an early reply. *)
Definition lift {A R} (status code : Z) (r : result A) : M node (reply R) A :=
  match r with
  | inl e => throw (replyError status code e)
  | inr a => mret a
  end.

(** POST /.  [body] is what the JSON binding gave.  An early return is the
    error side; both sides are the reply sent. *)
Definition HandlerHandshake (body : result HandshakeBody)
  : M node (reply HandshakeResult) (reply HandshakeResult) :=
  body ← lift StatusBadRequest 2 body;
  auth ← lift StatusBadRequest 4 (verifyHandshake VerifySignature Address body);
  let '(accAddr, data) := auth in
  peerData ← or_throw (on_svc (ParsePeerRequest data)) (replyError StatusBadRequest 2);
  res ← or_throw (sessionAdmit sha256 MaxPeers NodeAddress (mkReq accAddr (body_ID body) peerData))
    replyAPIError;
  result ← or_throw (buildHandshakeResult (res_Peer res)) (replyError StatusInternalServerError 10);
  mret (mkReply StatusOK
    (match signReply sha256 SignBytes (body_ID body) data result with
     | inl _ => []          (* logged; the reply goes out unsigned *)
     | inr header => [(ReplySignatureHeader, header)]
     end) (NewResponseResult result)).

(** The legacy endpoint. *)
Record RequestAddSession := mkAdd { ra_AccAddress : string; ra_ID : Z; ra_Key : bytes; ra_Signature : bytes }.

(** The URI and body fields as the router bound them, id 0 refused by the binding. *)
Definition NewRequestAddSession (acc : string) (id : Z) (key sig : string) : result RequestAddSession :=
  if id <=? 0 then inl "id must be greater than 0"%string else
  match AccAddressFromBech32 acc with
  | inl e => inl e
  | inr addr =>
    match Base64.DecodeString key, Base64.DecodeString sig with
    | Some k, Some s => inr (mkAdd addr id k s)
    | _, _ => inl "illegal base64 data"%string
    end
  end.

Definition authLegacy {R} (req : RequestAddSession) : M node (reply R) unit :=
  account ← or_throw (on_chain (QueryAccount (ra_AccAddress req)))
    (replyError StatusInternalServerError 4);
  match account with
  | None => throw (replyError StatusNotFound 4 "account does not exist")
  | Some None => throw (replyError StatusNotFound 4 "public key does not exist")
  | Some (Some pub) =>
      throw_if (negb (VerifySignature pub (BE.uint64 (ra_ID req)) (ra_Signature req)))
        (replyError StatusBadRequest 4 "invalid signature")
  end.

Definition HandlerAddSession (req : result RequestAddSession) : M node (reply bytes) (reply bytes) :=
  req ← lift StatusBadRequest 2 req;
  authLegacy req ≫= fun _ =>
  res ← or_throw (sessionAdmit sha256 MaxPeers NodeAddress
                    (mkReq (ra_AccAddress req) (ra_ID req) (ra_Key req))) replyAPIError;
  info ← gets (fun n => Info (svc n));
  mret (mkReply StatusCreated [] (NewResponseResult (res_Peer res ++ IPv4 ++ info))).
End Handlers.
