(* ===== verification/HandshakeProofs.v ===== *)
(** What a client can rely on at the handshake endpoint, end to end: from the
    HTTP request to the peer that is served. *)
From S2P Require Import Prelude Codec Types Admission AdmissionProofs Guard Handshake.
Set Default Proof Using "Type*".

(** Reading a peer request and rendering a payload do not touch the peers, and a
    peer request never reads as empty peer data. *)
Class ServiceAPILaws (S : Type) `{!Service S, !ServiceLaws S, !ServiceAPI S} := {
  parse_frame s raw r s' : svc_inv s -> ParsePeerRequest raw s = (r, s') ->
    svc_inv s' ∧ peer_set s' = peer_set s ∧ PeerCount s' = PeerCount s
    ∧ (if r is inr d then d ≠ [] else True);
  payload_frame s peer r s' : svc_inv s -> HandshakePayload peer s = (r, s') ->
    svc_inv s' ∧ peer_set s' = peer_set s ∧ PeerCount s' = PeerCount s
}.

Section HandshakeProofs.
Context {S D C : Type} `{!Service S, !ServiceLaws S, !ServiceAPI S, !ServiceAPILaws S}.
Context `{!SessionStore D, !SessionStoreLaws D} `{!Chain C}.
Context (sha256 : bytes -> bytes) (MaxPeers : Z) (NodeAddress : string).
Context (VerifySignature : bytes -> bytes -> bytes -> bool) (Address : bytes -> string).
Context (SignBytes : bytes -> result (bytes * bytes)).
Context (error_text : api_cause -> string) (Marshal : Payload -> result bytes).
Context (IPv4Text : string) (RemoteHost : option string).
Abbreviation node := (node S D C).
Abbreviation handler := (HandlerHandshake (S := S) (D := D) (C := C) sha256 MaxPeers NodeAddress
  VerifySignature Address SignBytes error_text Marshal IPv4Text RemoteHost).
Implicit Types (n : node).

(** Same peers and rows, read through the interface. *)
Definition same_peers n n' : Prop :=
  svc_inv (svc n') ∧ peer_set (svc n') = peer_set (svc n) ∧ PeerCount (svc n') = PeerCount (svc n)
  ∧ db n' = db n ∧ chain n' = chain n.

Lemma same_peers_inv n n' : same_peers n n' -> node_inv n -> node_inv n'.
Proof. intros (Hi & Hp & _ & Hd & _) []; split; rewrite ?Hd, ?Hp; done. Qed.

Lemma parse_peers raw n r n' : svc_inv (svc n) -> on_svc (ParsePeerRequest raw) n = (r, n') ->
  same_peers n n' ∧ (if r is inr d then d ≠ [] else True).
Proof.
  intros Hi (H & Hd & Hc)%on_svc_inv; apply parse_frame in H as (? & ? & ? & ?); [|done].
  by repeat split.
Qed.

Lemma build_peers peer n r n' : svc_inv (svc n) ->
  buildHandshakeResult Marshal IPv4Text RemoteHost peer n = (r, n') -> same_peers n n' ∧
  (if r is inr res then hr_Addrs res = nodeAddrs IPv4Text RemoteHost
     ∧ ∃ payload data, HandshakePayload peer (svc n) = (inr payload, svc n') ∧ Marshal payload = inr data
         ∧ hr_Data res = Base64.EncodeToString data else True).
Proof.
  intros Hi H; unfold buildHandshakeResult in H; minv H;
    repeat match goal with H : on_svc _ _ = _ |- _ =>
      apply on_svc_inv in H as (H & ? & ?); pose proof H as Hcall; apply payload_frame in H as (? & ? & ?); [|done] end;
    split; try by repeat split.
  split; [done|]; by eexists _, _.
Qed.

Lemma lift_inv {A R} status code (x : result A) n (r : reply R + A) n' :
  lift status code x n = (r, n') -> n' = n ∧
  ((∃ e, x = inl e ∧ r = inl (replyError status code e)) ∨ (∃ a, x = inr a ∧ r = inr a)).
Proof. unfold lift; destruct x; intros H; minv H; eauto. Qed.

(** What an admitted request looks like in the node afterwards: the admission is the
    one the chain's answers decide; the peer is served, the account's earlier peers
    are not, all others still are; and the row holds the budget of the caps. *)
Record served (acc : string) (id : Z) (peerData : bytes) n n' : Prop := {
  sv_row : let req := mkReq acc id peerData in
    ∃ a t, granted NodeAddress (chain n) req a
      ∧ rows (db n') = rows (db n) ++ [stamped (newRow req a (byteCap (all_caps a (accountRows req a n)))) t]
      ∧ (forall d, Base64.EncodeToString d ∈ (Key <$> accountRows req a n) -> d ∉ peer_set (svc n'))
      ∧ (forall d, d ∈ peer_set (svc n) -> Base64.EncodeToString d ∉ (Key <$> accountRows req a n) -> d ∈ peer_set (svc n'));
  sv_peer : peerData ∈ peer_set (svc n');
  sv_room : PeerCount (svc n') <= MaxPeers;
  sv_inv : node_inv n'
}.

Lemma admit_served acc id peerData n res n' : node_inv n -> id ≠ 0 -> peerData ≠ [] ->
  sessionAdmit sha256 MaxPeers NodeAddress (mkReq acc id peerData) n = (inr res, n') ->
  served acc id peerData n n'
  ∧ ∃ s, AddPeer peerData s = (inr (res_Peer res), svc n') ∧ peer_set s ⊆ peer_set (svc n).
Proof.
  intros Hn Hid Hd H; apply admit_inv in H as (a & Hg & Had); [|done..].
  destruct (ad_row _ _ _ _ _ _ Had) as [t Ht], (ad_room _ _ _ _ _ _ Had) as [_ Hroom].
  split; [|apply (ad_peer _ _ _ _ _ _ Had)].
  split; [exists a, t; split_and!; [done|done|..]|..]; try done; apply Had.
Qed.

Lemma served_same acc id peerData n m m' n' :
  same_peers n m -> served acc id peerData m m' -> same_peers m' n' -> served acc id peerData n n'.
Proof.
  intros (_ & Hpm & _ & Hd & Hch) [(a & t & Hg & Hrow & Hev & Hot) Hin Hroom Hi] Hs.
  pose proof (same_peers_inv _ _ Hs Hi) as Hi'; destruct Hs as (_ & Hp & Hc & Hd' & _).
  unfold accountRows in *; rewrite Hd, Hch, Hpm in *.
  split; rewrite ?Hp, ?Hc; try done; exists a, t; rewrite ?Hd'; by split_and!.
Qed.

(** The request the client signed: its account and the peer it asks for. *)
Definition asked (body : result HandshakeBody) n (acc : string) (id : Z) (data peerData : bytes) : Prop :=
  ∃ b, body = inr b ∧ id = body_ID b ∧ verifyHandshake VerifySignature Address b = inr (acc, data)
    ∧ (ParsePeerRequest data (svc n)).1 = inr peerData.

(** C16. A handshake that is answered with success was made by the holder of the
    session's account key over this very session and peer request; the peer it
    asked for is served for that account and has its row, with what the chain
    granted; the reply carries the settings the service renders for what it
    answered when it added that peer, lists the node's addresses, and is signed
    whenever the signing key works. *)
Theorem handshake_ok body n rep n' : node_inv n -> handler body n = (inr rep, n') ->
  r_status rep = StatusOK ∧ ∃ acc id data peerData result,
    asked body n acc id data peerData ∧ served acc id peerData n n'
    ∧ r_body rep = NewResponseResult result
    ∧ hr_Addrs result = nodeAddrs IPv4Text RemoteHost
    ∧ (∃ s peer s1 payload text, AddPeer peerData s = (inr peer, s1) ∧ peer_set s ⊆ peer_set (svc n)
         ∧ HandshakePayload peer s1 = (inr payload, svc n') ∧ Marshal payload = inr text
         ∧ hr_Data result = Base64.EncodeToString text)
    ∧ (forall sig, signReply sha256 SignBytes id data result = inr sig ->
         r_headers rep = [(ReplySignatureHeader, sig)]).
Proof.
  intros Hn H; unfold HandlerHandshake in H.
  apply bind_inv in H as [(e & _ & ?)|(b & s & H1 & H)]; [done|].
  apply lift_inv in H1 as [-> [(? & _ & ?)|(b' & -> & ?)]]; [done|]; simplify_eq.
  apply bind_inv in H as [(e & _ & ?)|([acc data] & s & H1 & H)]; [done|].
  apply lift_inv in H1 as [-> [(? & _ & ?)|(a' & Hv & ?)]]; [done|]; simplify_eq.
  minv H; apply parse_peers in Hm as Hp; [|apply Hn].
  apply on_svc_inv in Hm as (Hm & _ & _); destruct Hp as [Hp Hne].
  pose proof (same_peers_inv _ _ Hp Hn) as Hn1.
  apply admit_served in Hm0 as [Hsv (sa & Hadd & Hsub)]; [|done|by apply verifyHandshake_inv in Hv as (? & ? & _ & _ & ? & _)|done].
  apply build_peers in Hm1 as [Hp2 (Haddr & payload & text & Hpay & Hmar & Hdata)]; [|apply (sv_inv _ _ _ _ _ Hsv)].
  split; [done|]; exists acc, (body_ID b'), data, a0, a2; split_and!; try done.
  - exists b'; by rewrite Hm.
  - by eapply served_same.
  - exists sa, (res_Peer a1), (svc s0), payload, text; split_and!; try done.
    destruct Hp as (_ & Hps & _); by rewrite <- Hps.
  - simpl; intros sig Hsig; by rewrite Hsig.
Qed.





End HandshakeProofs.
