(* ===== verification/IPPool.v ===== *)
(** Tunnel addresses: src/services/wireguard/types/ip.go and ip_pool.go.

    The IPv4 and the IPv6 pool are the same code at two widths, except that the
    IPv4 one skips addresses ending in 0 or 255; [pool] is written once, over
    the width [w] and the loop [advance] run before a fresh address is taken.
    Addresses are byte strings, compared as big-endian integers. *)
From S2P Require Import Prelude Codec Guard.
Set Default Proof Using "Type*".

(** * Addresses *)

(** [big.Int.Bytes]: the magnitude without leading zeros. *)
Definition nbytes (z : Z) : nat := if z <=? 0 then 0%nat else Z.to_nat (Z.log2 z / 8 + 1).
Definition big_Bytes (z : Z) : bytes := BE.put (nbytes z) z.

(** [copy(dst, src)]. *)
Definition copy (dst src : bytes) : bytes := take (length dst) src ++ drop (length src) dst.

Definition Next (ip : bytes) : bytes := copy ip (big_Bytes (BE.get ip + 1)).

(** A network: an address and a prefix length. *)
Record IPNet := mkNet { net_IP : bytes; net_bits : Z }.

(** The number an address shares with its network. *)
Definition prefix_of (w bits : Z) (ip : bytes) : Z := BE.get ip / 2 ^ (8 * w - bits).

(** [IPNet.Contains]. *)
Definition Contains (n : IPNet) (ip : bytes) : bool :=
  let ip := default ip (To4 ip) in
  let w := Z.of_nat (length (net_IP n)) in
  bool_decide (length ip = length (net_IP n))
  && (prefix_of w (net_bits n) ip =? prefix_of w (net_bits n) (net_IP n)).

(** * Pools *)
Record pool := mkPool {
  Net : IPNet; current : bytes; available : list bytes; reserved : gset bytes }.

Definition NewPool (ip : bytes) (net : IPNet) : pool := mkPool net ip [] ∅.

(** The last byte is 0 or 255. *)
Definition edge (ip : bytes) : bool :=
  match ip !! 3%nat with
  | Some b => bool_decide (b = x00) || bool_decide (b = xff)
  | None => false
  end.

(** [for p.current[3] == 0 || p.current[3] == 255 { ... }], at most [fuel] times. *)
Fixpoint skipEdges (fuel : nat) (ip : bytes) : bytes :=
  match fuel with
  | O => ip
  | S fuel => if edge ip then skipEdges fuel (Next ip) else ip
  end.

Definition advance4 : bytes -> bytes := skipEdges 3.
Definition advance6 (ip : bytes) : bytes := ip.

Section Ops.
Context (advance : bytes -> bytes).

Definition Get (p : pool) : (gerror + bytes) * pool :=
  match available p with
  | [] =>
      let cur := advance (current p) in
      if negb (Contains (Net p) cur) then (inl "pool is full"%string, mkPool (Net p) cur [] (reserved p))
      else (inr cur, mkPool (Net p) (Next cur) [] ({[cur]} ∪ reserved p))
  | ip :: rest => (inr ip, mkPool (Net p) (current p) rest ({[ip]} ∪ reserved p))
  end.
End Ops.

Definition Release (ip : bytes) (p : pool) : pool :=
  if bool_decide (ip ∈ reserved p)
  then mkPool (Net p) (current p) (available p ++ [ip]) (reserved p ∖ {[ip]})
  else p.

(** The two pools of a WireGuard interface. *)
Record IPPool := mkIPPool { V4 : pool; V6 : pool }.

Definition IPPool_Get : M IPPool gerror (bytes * bytes) := fun p =>
  match Get advance4 (V4 p) with
  | (inl e, v4s) => (inl e, mkIPPool v4s (V6 p))
  | (inr v4, v4s) =>
      match Get advance6 (V6 p) with
      | (inl e, v6s) => (inl e, mkIPPool (Release v4 v4s) v6s)
      | (inr v6, v6s) => (inr (v4, v6), mkIPPool v4s v6s)
      end
  end.

Definition IPPool_Release (v4 v6 : bytes) (p : IPPool) : IPPool :=
  mkIPPool (Release v4 (V4 p)) (Release v6 (V6 p)).

(** * Arithmetic of addresses *)
Lemma nbytes_spec z : 0 < z -> (0 < nbytes z)%nat ∧
  256 ^ Z.of_nat (nbytes z - 1) <= z < 256 ^ Z.of_nat (nbytes z).
Proof.
  intros Hz; unfold nbytes; destruct (Z.leb_spec z 0); [lia|].
  pose proof (Z.log2_nonneg z); pose proof (Z.log2_spec z Hz) as [Hl Hu].
  pose proof (Z.div_mod (Z.log2 z) 8 ltac:(lia)); pose proof (Z.mod_pos_bound (Z.log2 z) 8 ltac:(lia)).
  assert (0 <= Z.log2 z / 8) by (apply Z.div_pos; lia).
  split; [lia|]; rewrite Nat2Z.inj_sub, Z2Nat.id by lia.
  replace (Z.log2 z / 8 + 1 - Z.of_nat 1) with (Z.log2 z / 8) by lia.
  change 256 with (2 ^ 8); rewrite <- !Z.pow_mul_r by lia; split.
  - etransitivity; [|exact Hl]; apply Z.pow_le_mono_r; lia.
  - eapply Z.lt_le_trans; [exact Hu|]; apply Z.pow_le_mono_r; lia.
Qed.

Lemma nbytes_unique z n : 256 ^ (Z.of_nat n) <= z < 256 ^ (Z.of_nat n + 1) -> nbytes z = S n.
Proof.
  intros [H1 H2]; assert (0 < z) as Hz by (pose proof (Z.pow_pos_nonneg 256 (Z.of_nat n)); lia).
  destruct (nbytes_spec z Hz) as (Hp & Hl & Hu).
  assert (Z.of_nat (nbytes z - 1) < Z.of_nat n + 1) by (apply (Z.pow_lt_mono_r_iff 256); lia).
  assert (Z.of_nat n < Z.of_nat (nbytes z)) by (apply (Z.pow_lt_mono_r_iff 256); lia).
  lia.
Qed.

Lemma Next_length ip : length (Next ip) = length ip.
Proof. unfold Next, copy; rewrite length_app, length_take, length_drop; lia. Qed.

(** Away from leading zeros and from the last address, the next address is one up. *)
Lemma Next_succ ip n : length ip = S n -> 256 ^ Z.of_nat n <= BE.get ip ->
  BE.get ip + 1 < 256 ^ Z.of_nat (S n) -> Next ip = BE.put (S n) (BE.get ip + 1).
Proof.
  intros Hl Hlo Hhi; unfold Next, big_Bytes, copy.
  rewrite (nbytes_unique _ n) by (rewrite Nat2Z.inj_succ in Hhi; lia).
  rewrite BE.put_length, Hl, firstn_all2 by (rewrite BE.put_length; lia).
  by rewrite drop_ge, app_nil_r by lia.
Qed.

Lemma get_Next ip n : length ip = S n -> 256 ^ Z.of_nat n <= BE.get ip ->
  BE.get ip + 1 < 256 ^ Z.of_nat (S n) -> BE.get (Next ip) = BE.get ip + 1.
Proof.
  intros Hl Hlo Hhi; rewrite (Next_succ ip n) by done; rewrite BE.get_put, Z.mod_small; [done|].
  pose proof (BE.get_range ip); lia.
Qed.

(** The next address never starts with a zero byte. *)
Lemma Next_top ip n : length ip = S n -> 256 ^ Z.of_nat n <= BE.get (Next ip).
Proof.
  intros Hl; pose proof (BE.get_range ip) as Hr; set (z := BE.get ip + 1).
  destruct (nbytes_spec z ltac:(lia)) as (Hp & Hlo & Hhi).
  pose proof (Next_length ip) as HN; unfold Next, copy, big_Bytes in *; fold z in HN |- *.
  destruct (nbytes z) as [|k]; [lia|]; replace (S k - 1)%nat with k in Hlo by lia.
  rewrite Hl in *; cbn [BE.put take app length] in *; rewrite BE.get_cons, byte_to_of_Z.
  injection HN as HN; rewrite HN; rewrite Nat2Z.inj_succ, Z.pow_succ_r in Hhi by lia.
  pose proof (Z.pow_pos_nonneg 256 (Z.of_nat k) ltac:(lia) ltac:(lia)).
  assert (1 <= z / 256 ^ Z.of_nat k < 256).
  { split; [apply Z.div_le_lower_bound; lia|apply Z.div_lt_upper_bound; lia]. }
  rewrite Z.mod_small by lia.
  match goal with |- context [BE.get ?d] => pose proof (BE.get_range d) end.
  pose proof (Z.pow_pos_nonneg 256 (Z.of_nat n) ltac:(lia) ltac:(lia)); nia.
Qed.

Lemma get_zeros n : BE.get (replicate n x00) = 0.
Proof. induction n as [|n IH]; [done|]; cbn [replicate]; rewrite BE.get_cons, IH; done. Qed.

Lemma put_zeros m k : (m <= k)%nat -> BE.put m (256 ^ Z.of_nat k) = replicate m x00.
Proof.
  induction m as [|m IH]; intros Hm; [done|]; cbn [BE.put replicate]; rewrite IH by lia; f_equal.
  apply (inj byte_to_Z); rewrite byte_to_of_Z.
  replace (Z.of_nat k) with (1 + Z.of_nat (k - m - 1) + Z.of_nat m) by lia.
  rewrite Z.pow_add_r, Z.div_mul by lia.
  rewrite Z.pow_add_r, Z.pow_1_r, Z.mul_comm, Z.mod_mul by lia; done.
Qed.

(** The last address wraps around to one that starts with 1. *)
Lemma Next_wrap ip n : length ip = S n -> BE.get ip + 1 = 256 ^ Z.of_nat (S n) ->
  BE.get (Next ip) = 256 ^ Z.of_nat n.
Proof.
  intros Hl Hz; unfold Next, copy, big_Bytes; rewrite Hz.
  pose proof (Z.pow_pos_nonneg 256 (Z.of_nat (S n)) ltac:(lia) ltac:(lia)).
  rewrite (nbytes_unique _ (S n)) by (rewrite Z.pow_add_r by lia; lia).
  rewrite BE.put_length, Hl, drop_ge, app_nil_r by lia.
  change (BE.put (S (S n)) (256 ^ Z.of_nat (S n))) with
    (byte_of_Z (256 ^ Z.of_nat (S n) / 256 ^ Z.of_nat (S n)) :: BE.put (S n) (256 ^ Z.of_nat (S n))).
  rewrite put_zeros, Z.div_same by lia; cbn [take]; rewrite take_replicate.
  replace (n `min` S n)%nat with n by lia.
  by rewrite BE.get_cons, get_zeros, byte_to_of_Z, length_replicate, Z.mod_small, Z.mul_1_l, Z.add_0_r by lia.
Qed.

(** ** The loop over edge addresses ends *)
Lemma last_byte ip d : BE.get (ip ++ [d]) mod 256 = byte_to_Z d.
Proof.
  unfold BE.get; rewrite foldl_app; simpl.
  rewrite Z.add_comm, Z.mod_add by lia; apply Z.mod_small, byte_to_Z_range.
Qed.

Lemma edge_spec ip : length ip = 4%nat ->
  edge ip = ((BE.get ip mod 256 =? 0) || (BE.get ip mod 256 =? 255)).
Proof.
  intros Hl; destruct ip as [|a [|b [|c [|d [|]]]]]; try done.
  change [a; b; c; d] with ([a; b; c] ++ [d]); rewrite last_byte; unfold edge; simpl.
  f_equal; case_bool_decide as Hd.
  - by subst.
  - symmetry; apply Z.eqb_neq; change 0 with (byte_to_Z x00); by intros ?%(inj byte_to_Z).
  - by subst.
  - symmetry; apply Z.eqb_neq; change 255 with (byte_to_Z xff); by intros ?%(inj byte_to_Z).
Qed.

Lemma Next_mod ip : length ip = 4%nat -> 256 ^ 3 <= BE.get ip ->
  BE.get (Next ip) mod 256 = (BE.get ip + 1) mod 256.
Proof.
  intros Hl Hlo; pose proof (BE.get_range ip) as Hr; rewrite Hl in Hr.
  destruct (Z.eq_dec (BE.get ip + 1) (256 ^ Z.of_nat 4)) as [E|E].
  - by rewrite (Next_wrap ip 3), E.
  - rewrite (get_Next ip 3); [done|done|done|lia].
Qed.

Lemma skipEdges_two ip : length ip = 4%nat -> 256 ^ 3 <= BE.get ip -> edge (skipEdges 2 ip) = false.
Proof.
  intros Hl Hlo; pose proof (Next_length ip) as Hl1; rewrite Hl in Hl1.
  pose proof (Next_top ip 3 Hl) as Hlo1; pose proof (Next_length (Next ip)) as Hl2; rewrite Hl1 in Hl2.
  pose proof (Next_mod ip Hl Hlo) as M1; pose proof (Next_mod (Next ip) Hl1 Hlo1) as M2.
  rewrite <- Zplus_mod_idemp_l in M1, M2.
  cbn [skipEdges]; destruct (edge ip) eqn:E0; [|done]; destruct (edge (Next ip)) eqn:E1; [|done].
  rewrite edge_spec in * by done; rewrite M1 in *; rewrite M2.
  apply orb_true_iff in E0 as [E0%Z.eqb_eq|E0%Z.eqb_eq]; rewrite E0 in *; [done|by vm_compute].
Qed.

Lemma skipEdges_ends ip : length ip = 4%nat -> edge (skipEdges 3 ip) = false.
Proof.
  intros Hl; cbn [skipEdges]; destruct (edge ip) eqn:E; [|done].
  apply skipEdges_two; [by rewrite Next_length|by apply (Next_top ip 3)].
Qed.

(** The loop that skips addresses ending in 0 or 255 ends: from any IPv4
    address whatsoever (the wrap-around at the top and the misaligned copy for
    addresses that start with a zero byte included) it takes at most three
    steps to leave them, so [Get] always returns. *)
Theorem skipEdges_terminates ip : length ip = 4%nat -> edge (advance4 ip) = false.
Proof.
  apply skipEdges_ends.
Qed.

(** * The pool invariant *)
Section PoolInv.
(** The width less one, the loop, and which addresses it stops at. *)
Context (n : nat) (advance : bytes -> bytes) (usable : Z -> bool).
Abbreviation w := (S n).

(** From an address away from both ends, the loop goes to the first usable one,
    at most two further. *)
Class AdvanceSpec := advance_spec ip : length ip = w -> 256 ^ Z.of_nat n <= BE.get ip ->
  BE.get ip + 4 < 256 ^ Z.of_nat w ->
  length (advance ip) = w ∧ BE.get ip <= BE.get (advance ip) <= BE.get ip + 2
  ∧ usable (BE.get (advance ip)) = true
  ∧ forall z, BE.get ip <= z < BE.get (advance ip) -> usable z = false.

(** The usable addresses from [a] up to [b] (excluded), in order. *)
Definition fresh (a b : Z) : list bytes := BE.put w <$> List.filter usable (seqZ a (b - a)).

(** The last address of a network. *)
Definition net_last (net : IPNet) : Z :=
  let h := 2 ^ (8 * Z.of_nat w - net_bits net) in BE.get (net_IP net) / h * h + (h - 1).

Record net_wf (net : IPNet) (first : Z) : Prop := {
  nw_len : length (net_IP net) = w;
  nw_bits : 0 <= net_bits net <= 8 * Z.of_nat w;
  nw_low : 256 ^ Z.of_nat n <= first;
  nw_in : BE.get (net_IP net) / 2 ^ (8 * Z.of_nat w - net_bits net) * 2 ^ (8 * Z.of_nat w - net_bits net) <= first;
  nw_high : net_last net + 8 < 256 ^ Z.of_nat w
}.

Record pool_inv (first : Z) (p : pool) : Prop := {
  pi_net : net_wf (Net p) first;
  pi_len : length (current p) = w;
  pi_low : first <= BE.get (current p);
  pi_high : BE.get (current p) <= net_last (Net p) + 1
    ∨ usable (BE.get (current p)) = true ∧ BE.get (current p) <= net_last (Net p) + 3
      ∧ (forall z, net_last (Net p) < z < BE.get (current p) -> usable z = false);
  pi_all : available p ++ elements (reserved p) ≡ₚ fresh first (BE.get (current p))
}.

(** An address that does not start with a zero byte is not an IPv4-mapped one. *)
Lemma To4_default ip : length ip = w -> 256 ^ Z.of_nat n <= BE.get ip -> default ip (To4 ip) = ip.
Proof.
  intros Hl Hlo; unfold To4; case_bool_decide; [done|].
  case_bool_decide as H16; [|done]; case_bool_decide as Hp; [|done]; simpl; exfalso.
  destruct ip as [|b ip]; [done|]; simpl in Hp; injection Hp as Hb _; subst b.
  rewrite BE.get_cons in Hlo; change (byte_to_Z x00) with 0 in Hlo.
  pose proof (BE.get_range ip); simpl in Hl; injection Hl as Hl; rewrite Hl in *; lia.
Qed.

Lemma Contains_spec net first ip : net_wf net first -> length ip = w -> first <= BE.get ip ->
  Contains net ip = (BE.get ip <=? net_last net).
Proof.
  intros [Hnl Hb Hlo Hin Hhi] Hl Hf; unfold Contains; rewrite To4_default by (done || lia).
  rewrite bool_decide_true by congruence; simpl; unfold prefix_of, net_last; rewrite Hnl.
  set (h := 2 ^ (8 * Z.of_nat w - net_bits net)) in *.
  assert (0 < h) by (apply Z.pow_pos_nonneg; lia).
  set (q := BE.get (net_IP net) / h) in *.
  pose proof (Z.div_mod (BE.get ip) h ltac:(lia)); pose proof (Z.mod_pos_bound (BE.get ip) h ltac:(lia)).
  destruct (Z.leb_spec (BE.get ip) (q * h + (h - 1))); [apply Z.eqb_eq|apply Z.eqb_neq]; nia.
Qed.

Lemma fresh_split a b c : a <= b <= c -> fresh a c = fresh a b ++ fresh b c.
Proof.
  intros H; unfold fresh; replace (c - a) with ((b - a) + (c - b)) by lia.
  rewrite seqZ_app by lia; replace (a + (b - a)) with b by lia.
  by rewrite List.filter_app, fmap_app.
Qed.

Lemma fresh_none a b : (forall z, a <= z < b -> usable z = false) -> fresh a b = [].
Proof.
  intros H; unfold fresh; enough (List.filter usable (seqZ a (b - a)) = []) as -> by done.
  apply nil_length_inv; destruct (List.filter _ _) as [|z l] eqn:E; [done|].
  assert (In z (z :: l)) as Hz by (by left); rewrite <- E in Hz; apply filter_In in Hz as [Hz Hu].
  apply list_elem_of_In, elem_of_seqZ in Hz; rewrite H in Hu by lia; done.
Qed.

Lemma fresh_one a : usable a = true -> fresh a (a + 1) = [BE.put w a].
Proof. intros H; unfold fresh; replace (a + 1 - a) with 1 by lia; rewrite seqZ_cons by lia; simpl; by rewrite H. Qed.

Lemma elem_of_fresh ip a b : ip ∈ fresh a b -> ∃ z, a <= z < b ∧ usable z = true ∧ ip = BE.put w z.
Proof.
  intros (z & -> & [Hz Hu]%list_elem_of_In%filter_In)%list_elem_of_fmap.
  apply list_elem_of_In, elem_of_seqZ in Hz; exists z; split_and!; [lia|lia|done|done].
Qed.

Lemma fresh_NoDup a b : 0 <= a -> b <= 256 ^ Z.of_nat w -> NoDup (fresh a b).
Proof.
  intros Ha Hb; unfold fresh; pose proof (NoDup_seqZ a (b - a)) as Hnd.
  assert (Forall (fun z => a <= z < b) (List.filter usable (seqZ a (b - a)))) as Hr.
  { rewrite Forall_forall; intros z [Hz _]%list_elem_of_In%filter_In.
    apply list_elem_of_In, elem_of_seqZ in Hz; lia. }
  assert (NoDup (List.filter usable (seqZ a (b - a)))) as Hnd'.
  { apply NoDup_ListNoDup, List.NoDup_filter, NoDup_ListNoDup; done. }
  clear Hnd; induction Hnd' as [|z l Hz _ IH]; simpl; [constructor|].
  apply Forall_cons in Hr as [Hzr Hr]; constructor; [|auto].
  intros (z' & E & Hz')%list_elem_of_fmap; rewrite Forall_forall in Hr; apply Hz.
  pose proof (Hr _ Hz'); by rewrite (BE.put_inj w z z') by (done || lia).
Qed.

Lemma pool_bounds first p : pool_inv first p ->
  256 ^ Z.of_nat n <= BE.get (current p) ∧ BE.get (current p) + 4 < 256 ^ Z.of_nat w
  ∧ 0 < 256 ^ Z.of_nat n.
Proof.
  intros [[] Hl Hlo Hhi _]; pose proof (Z.pow_pos_nonneg 256 (Z.of_nat n) ltac:(lia) ltac:(lia)).
  destruct Hhi as [?|(_ & ? & _)]; lia.
Qed.

Lemma pool_NoDup first p : pool_inv first p -> NoDup (available p ++ elements (reserved p)).
Proof.
  intros Hp; pose proof (pool_bounds _ _ Hp); rewrite (pi_all _ _ Hp).
  pose proof (pi_net _ _ Hp) as []; apply fresh_NoDup; [lia|lia].
Qed.

Lemma Release_inv first ip p : pool_inv first p -> pool_inv first (Release ip p).
Proof.
  unfold Release; intros Hp; case_bool_decide as Hin; [|done].
  destruct Hp as [Hnet Hlen Hlow Hhigh Hall]; split; simpl; try done.
  rewrite <- app_assoc; simpl; rewrite <- Hall; apply Permutation_app_head.
  rewrite <- elements_union_singleton by (intros [_ H]%elem_of_difference; by apply H, elem_of_singleton).
  by rewrite (union_difference_singleton_L ip (reserved p) Hin) at 2.
Qed.
Context {Hadv : AdvanceSpec}.

(** The address the pool would hand out when it has to take a fresh one. *)
Lemma advance_fresh first p : pool_inv first p -> let cur := advance (current p) in
  length cur = w ∧ first <= BE.get cur <= BE.get (current p) + 2 ∧ usable (BE.get cur) = true
  ∧ fresh first (BE.get cur) = fresh first (BE.get (current p))
  ∧ fresh first (BE.get cur + 1) = fresh first (BE.get (current p)) ++ [cur].
Proof.
  intros Hp cur; destruct (pool_bounds _ _ Hp) as (Hlo & Hhi & _).
  destruct (advance_spec (current p)) as (Hlen & Hrange & Hu & Hno); [apply Hp|done|done|].
  fold cur in Hlen, Hrange, Hu, Hno; pose proof (pi_low _ _ Hp).
  assert (Hsame : fresh first (BE.get cur) = fresh first (BE.get (current p))).
  { rewrite (fresh_split first (BE.get (current p)) (BE.get cur)) by lia.
    by rewrite (fresh_none (BE.get (current p)) (BE.get cur)), app_nil_r by done. }
  split_and!; try done; try lia.
  rewrite (fresh_split first (BE.get cur)) by lia; rewrite Hsame, fresh_one by done.
  by rewrite <- Hlen at 1; rewrite BE.put_get.
Qed.

(** Taking a fresh address. *)
Lemma take_fresh first p : pool_inv first p -> available p = [] -> let cur := advance (current p) in
  BE.get cur <= net_last (Net p) ->
  (cur ∉ reserved p) ∧ pool_inv first (mkPool (Net p) (Next cur) [] ({[cur]} ∪ reserved p)).
Proof.
  intros Hp Hav cur Hin; destruct (advance_fresh _ _ Hp) as (Hlen & Hr & Hu & Hsame & Hone).
  destruct (pool_bounds _ _ Hp) as (Hlo & Hhi & Hpos); pose proof (pi_all _ _ Hp) as Hall.
  rewrite Hav in Hall; simpl in Hall; fold cur in Hlen, Hr, Hu, Hsame, Hone.
  destruct (advance_spec (current p)) as (_ & Hge & _ & _); [apply Hp|done|done|]; fold cur in Hge.
  assert (cur ∉ reserved p) as Hnew.
  { intros H; apply elem_of_elements in H; rewrite Hall in H.
    apply elem_of_fresh in H as (z & Hz & _ & E); apply (f_equal BE.get) in E.
    pose proof (pi_net _ _ Hp) as []; rewrite BE.get_put, Z.mod_small in E by lia; lia. }
  pose proof (get_Next cur n Hlen ltac:(lia) ltac:(lia)) as HN.
  split; [done|]; split; simpl; [apply Hp|by rewrite Next_length|lia|left; lia|].
  by rewrite HN, Hone, elements_union_singleton, Hall, Permutation_cons_append.
Qed.

Lemma Get_inv first p r p' : pool_inv first p -> Get advance p = (r, p') ->
  pool_inv first p' ∧ Net p' = Net p ∧
  match r with
  | inr ip => (ip ∉ reserved p) ∧ reserved p' = {[ip]} ∪ reserved p
      ∧ length ip = w ∧ first <= BE.get ip <= net_last (Net p) ∧ usable (BE.get ip) = true
  | inl _ => reserved p' = reserved p
      ∧ (length (fresh first (net_last (Net p) + 1)) <= size (reserved p))%nat
  end.
Proof.
  intros Hp; pose proof (pool_NoDup _ _ Hp) as Hnd; destruct (pool_bounds _ _ Hp) as (Hlo & Hhi & Hpos).
  pose proof (pi_all _ _ Hp) as Hall; unfold Get; destruct (available p) as [|ip rest] eqn:Hav.
  - destruct (advance_fresh _ _ Hp) as (Hlen & Hr & Hu & Hsame & Hone).
    pose proof (take_fresh _ _ Hp Hav) as Htake; set (cur := advance (current p)) in *.
    rewrite (Contains_spec _ first) by (apply Hp || done || lia).
    destruct (Z.leb_spec (BE.get cur) (net_last (Net p))) as [Hin|Hout]; simpl; intros [= <- <-].
    + destruct (Htake Hin); split_and!; try done; lia.
    + split; [|split; [done|split; [done|]]].
      * destruct (advance_spec (current p)) as (_ & Hge & _ & Hno); [apply Hp|done..|]; fold cur in Hge, Hno.
        destruct Hp as [Hnet _ _ Hhigh _]; split; simpl; try done; [lia| |by rewrite Hsame, <- Hall].
        right; destruct Hhigh as [Hc|(Hu' & Hc & Hgap)].
        -- split_and!; [done|lia|]; intros z Hz; apply Hno; lia.
        -- destruct (Z.eq_dec (BE.get cur) (BE.get (current p))) as [->|Hne]; [done|].
           rewrite Hno in Hu'; [done|lia].
      * unfold size, set_size; simpl in *; rewrite (Permutation_length Hall), <- Hsame.
        destruct (Z.le_gt_cases first (net_last (Net p) + 1)).
        -- rewrite (fresh_split first (net_last (Net p) + 1) (BE.get cur)), length_app by lia; lia.
        -- rewrite (fresh_none first (net_last (Net p) + 1)); simpl; [lia|]; lia.
  - intros [= <- <-]; simpl in Hnd; apply NoDup_cons in Hnd as [Hip Hnd].
    assert (ip ∉ reserved p) as Hnew by (intros H; apply Hip, elem_of_app; right; by apply elem_of_elements).
    assert (ip ∈ fresh first (BE.get (current p))) as (z & Hz & Hu & ->)%elem_of_fresh
      by (rewrite <- Hall; simpl; by left).
    pose proof (nw_low _ _ (pi_net _ _ Hp)).
    rewrite BE.put_length, BE.get_put, Z.mod_small by lia; split_and!; try done; try lia.
    + destruct Hp; split; simpl; try done.
      by rewrite elements_union_singleton, <- Permutation_middle, <- Hall.
    + destruct (pi_high _ _ Hp) as [|(_ & _ & Hgap)]; [lia|].
      destruct (Z.le_gt_cases z (net_last (Net p))) as [|Hlt]; [done|rewrite Hgap in Hu; [done|lia]].
Qed.

End PoolInv.

(** * The two pools *)
Definition usable4 (z : Z) : bool := negb ((z mod 256 =? 0) || (z mod 256 =? 255)).
Definition usable6 (z : Z) : bool := true.

(** Of three addresses in a row, an edge one is followed by at most one more. *)
Lemma edges_run a : usable4 a = false -> usable4 (a + 1) = false -> usable4 (a + 2) = true.
Proof.
  unfold usable4; rewrite !negb_false_iff, negb_true_iff, !orb_true_iff, orb_false_iff.
  rewrite !Z.eqb_eq, !Z.eqb_neq; Z.to_euclidean_division_equations; lia.
Qed.

Lemma edge_usable ip : length ip = 4%nat -> edge ip = negb (usable4 (BE.get ip)).
Proof. intros H; unfold usable4; by rewrite edge_spec, negb_involutive by done. Qed.

#[export] Instance advance4_spec : AdvanceSpec 3 advance4 usable4.
Proof.
  intros ip Hl Hlo Hhi; unfold advance4; cbn [skipEdges].
  pose proof (Next_length ip) as Hl1; rewrite Hl in Hl1.
  pose proof (get_Next ip 3 Hl Hlo ltac:(lia)) as G1.
  pose proof (Next_length (Next ip)) as Hl2; rewrite Hl1 in Hl2.
  pose proof (get_Next (Next ip) 3 Hl1 ltac:(lia) ltac:(lia)) as G2.
  rewrite G1 in G2; rewrite !edge_usable by done; rewrite G2, G1; set (a := BE.get ip) in *.
  replace (a + 1 + 1) with (a + 2) in * by lia.
  destruct (usable4 a) eqn:E0; simpl; [split_and!; (done || lia)|].
  destruct (usable4 (a + 1)) eqn:E1; simpl; [|rewrite (edges_run a) by done; simpl];
    rewrite ?G2, ?G1; split_and!; try lia; auto using edges_run; intros z Hz.
  - by replace z with a by lia.
  - assert (z = a ∨ z = a + 1) as [-> | ->] by lia; done.
Qed.

#[export] Instance advance6_spec : AdvanceSpec 15 advance6 usable6.
Proof. intros ip Hl _ _; unfold advance6, usable6; split_and!; (done || lia). Qed.

(** ** What clients of the pools can do *)
Section Reach.
Context (n : nat) (advance : bytes -> bytes) (usable : Z -> bool) {Hadv : AdvanceSpec n advance usable}.

Inductive pool_reach (p0 : pool) : pool -> Prop :=
  | reach_new : pool_reach p0 p0
  | reach_get p r p' : pool_reach p0 p -> Get advance p = (r, p') -> pool_reach p0 p'
  | reach_release p ip : pool_reach p0 p -> pool_reach p0 (Release ip p).

Lemma NewPool_inv ip net : length ip = S n -> net_wf n net (BE.get ip) ->
  BE.get ip <= net_last n net + 1 -> pool_inv n usable (BE.get ip) (NewPool ip net).
Proof.
  intros Hl Hnet Hin; split; simpl; [done|done|lia|by left|].
  by rewrite elements_empty, (fresh_none n usable) by lia.
Qed.

Lemma Release_Net ip p : Net (Release ip p) = Net p.
Proof. unfold Release; by case_bool_decide. Qed.

Lemma reach_inv first p0 p : pool_inv n usable first p0 -> pool_reach p0 p ->
  pool_inv n usable first p ∧ Net p = Net p0.
Proof.
  intros H0; induction 1 as [|p r p' _ [IH E] Hget|p ip _ [IH E]]; [done|..].
  - apply (Get_inv n advance usable first) in Hget as (? & ? & _); [|done]; split; congruence.
  - split; [by apply (Release_inv n usable)|by rewrite Release_Net].
Qed.
End Reach.

(** The default networks: src/types/keys.go. *)
Definition IPv4CIDR : bytes * IPNet := ([x0a; x08; x00; x02], mkNet [x0a; x08; x00; x00] 24).
Definition IPv6CIDR : bytes * IPNet :=
  let pre := [xfd; x86; xea; x04; x11; x15] ++ replicate 9 x00 in
  (pre ++ [x02], mkNet (pre ++ [x00]) 120).

Definition defaultPool4 : pool := NewPool IPv4CIDR.1 IPv4CIDR.2.
Definition defaultPool6 : pool := NewPool IPv6CIDR.1 IPv6CIDR.2.

Lemma net_wf4 : net_wf 3 IPv4CIDR.2 (BE.get IPv4CIDR.1).
Proof. by split; vm_compute. Qed.
Lemma net_wf6 : net_wf 15 IPv6CIDR.2 (BE.get IPv6CIDR.1).
Proof. by split; vm_compute. Qed.

Lemma default4_inv p : pool_reach advance4 defaultPool4 p -> pool_inv 3 usable4 (BE.get IPv4CIDR.1) p ∧ Net p = IPv4CIDR.2.
Proof.
  intros H; apply (reach_inv 3 advance4 usable4) with (p0 := defaultPool4); [|done].
  apply (NewPool_inv 3 advance4 usable4); [done|apply net_wf4|by vm_compute].
Qed.
Lemma default6_inv p : pool_reach advance6 defaultPool6 p -> pool_inv 15 usable6 (BE.get IPv6CIDR.1) p ∧ Net p = IPv6CIDR.2.
Proof.
  intros H; apply (reach_inv 15 advance6 usable6) with (p0 := defaultPool6); [|done].
  apply (NewPool_inv 15 advance6 usable6); [done|apply net_wf6|by vm_compute].
Qed.

(** No two peers share a tunnel address: whatever was taken from and given
    back to the default IPv4 pool, an address it hands out is not held by anyone,
    lies in 10.8.0.0/24 and does not end in 0 or 255. *)
Theorem pool4_exclusive p ip p' : pool_reach advance4 defaultPool4 p ->
  Get advance4 p = (inr ip, p') ->
  (ip ∉ reserved p) ∧ (ip ∈ reserved p') ∧ Contains IPv4CIDR.2 ip = true ∧ edge ip = false.
Proof.
  intros [Hi Hn]%default4_inv Hget.
  apply (Get_inv 3 advance4 usable4 (BE.get IPv4CIDR.1)) in Hget as (_ & _ & Hnew & Hres & Hl & Hr & Hu); [|done].
  rewrite Hn in Hr; split_and!; [done|rewrite Hres; set_solver| |by rewrite edge_usable, Hu].
  rewrite (Contains_spec 3 _ (BE.get IPv4CIDR.1)); [apply Z.leb_le; lia|apply net_wf4|done|lia].
Qed.

(** * Both pools together *)
Section Both.
Context (f4 f6 : Z).

Record ippool_inv (p : IPPool) : Prop := {
  ip_v4 : pool_inv 3 usable4 f4 (V4 p);
  ip_v6 : pool_inv 15 usable6 f6 (V6 p)
}.

Lemma Release_reserved ip p : reserved (Release ip p) = reserved p ∖ {[ip]}.
Proof. unfold Release; case_bool_decide; simpl; [done|]; apply set_eq; set_solver. Qed.

Lemma IPPool_Get_inv p r p' : ippool_inv p -> IPPool_Get p = (r, p') -> ippool_inv p' ∧
  match r with
  | inr (v4, v6) => (v4 ∉ reserved (V4 p)) ∧ (v6 ∉ reserved (V6 p))
      ∧ reserved (V4 p') = {[v4]} ∪ reserved (V4 p) ∧ reserved (V6 p') = {[v6]} ∪ reserved (V6 p)
      ∧ length v4 = 4%nat ∧ length v6 = 16%nat ∧ f6 <= BE.get v6
  | inl _ => reserved (V4 p') = reserved (V4 p) ∧ reserved (V6 p') = reserved (V6 p)
  end.
Proof.
  intros [H4 H6]; unfold IPPool_Get; destruct (Get advance4 (V4 p)) as [r4 p4] eqn:G4.
  apply (Get_inv 3 advance4 usable4 f4) in G4 as (I4 & _ & G4); [|done].
  destruct r4 as [e|v4]; [intros [= <- <-]; destruct G4; split; [by split|by split]|].
  destruct G4 as (N4 & R4 & L4 & _); destruct (Get advance6 (V6 p)) as [r6 p6] eqn:G6.
  apply (Get_inv 15 advance6 usable6 f6) in G6 as (I6 & _ & G6); [|done].
  destruct r6 as [e|v6]; intros [= <- <-].
  - destruct G6 as [R6 _]; split; [split; [by apply (Release_inv 3 usable4)|done]|]; simpl.
    split; [|done]; rewrite Release_reserved, R4; apply set_eq; set_solver.
  - destruct G6 as (N6 & R6 & L6 & Hr & _); split; [by split|]; simpl; split_and!; try done; lia.
Qed.

Lemma IPPool_Release_inv v4 v6 p : ippool_inv p -> ippool_inv (IPPool_Release v4 v6 p).
Proof.
  intros [H4 H6]; split; simpl; [by apply (Release_inv 3 usable4)|by apply (Release_inv 15 usable6)].
Qed.
End Both.
