(* ===== verification/Keyed.v ===== *)
(** Peers named by a base64 key: src/services/common/peers.go, and what the
    services' peer tables have in common.

    Every service files a peer under the base64 of its peer data; [decoded]
    takes a set of such keys to the set of peer data the node speaks of. *)
From S2P Require Import Prelude Codec Types AdmissionProofs.
Set Default Proof Using "Type*".

(** * PeerSet *)
Definition PeerSet_t : Type := gset string.
Definition PeerSet_New : PeerSet_t := ∅.
Definition PeerSet_Put (key : string) (p : PeerSet_t) : PeerSet_t := {[key]} ∪ p.
Definition PeerSet_Delete (key : string) (p : PeerSet_t) : PeerSet_t := p ∖ {[key]}.
Definition PeerSet_Has (key : string) (p : PeerSet_t) : bool := bool_decide (key ∈ p).
Definition PeerSet_Len (p : PeerSet_t) : Z := Z.of_nat (size p).
(** Go ranges over a map in no particular order; the elements are listed in
    some fixed one here. *)
Definition PeerSet_Keys (p : PeerSet_t) : list string := elements p.

(** * Keys and peer data *)
Definition wf_keys (ks : gset string) : Prop := forall k, k ∈ ks -> wf_key k.

Definition decoded (ks : gset string) : gset bytes :=
  list_to_set (omap Base64.DecodeString (elements ks)).

Lemma elem_of_decoded ks d : wf_keys ks -> d ∈ decoded ks <-> Base64.EncodeToString d ∈ ks.
Proof.
  intros Hk; unfold decoded; rewrite elem_of_list_to_set, list_elem_of_omap; split.
  - intros (k & Hin & Hd); apply elem_of_elements in Hin.
    destruct (Hk _ Hin) as (d' & _ & ->); rewrite Base64.decode_encode in Hd; congruence.
  - intros Hin; exists (Base64.EncodeToString d); split; [by apply elem_of_elements|].
    apply Base64.decode_encode.
Qed.

Lemma omap_decode l : NoDup l -> Forall wf_key l ->
  NoDup (omap Base64.DecodeString l) ∧ length (omap Base64.DecodeString l) = length l.
Proof.
  intros Hnd Hw; induction Hw as [|k l (d & Hd & ->) Hw IH]; [by split; [constructor|]|].
  apply NoDup_cons in Hnd as [Hin Hnd]; destruct (IH Hnd) as [IH1 IH2].
  simpl; rewrite Base64.decode_encode; split; [|cbn [length]; f_equal; exact IH2].
  constructor; [|done]; rewrite list_elem_of_omap; intros (k & Hk & Hd').
  rewrite Forall_forall in Hw; destruct (Hw _ Hk) as (d' & _ & ->).
  rewrite Base64.decode_encode in Hd'; injection Hd' as ->; done.
Qed.

Lemma size_decoded ks : wf_keys ks -> size (decoded ks) = size ks.
Proof.
  intros Hk; destruct (omap_decode (elements ks)) as [Hnd Hl]; [apply NoDup_elements|..].
  - rewrite Forall_forall; intros k; rewrite elem_of_elements; apply Hk.
  - unfold decoded; by rewrite size_list_to_set.
Qed.

Lemma wf_keys_insert ks d : wf_keys ks -> d ≠ [] -> wf_keys ({[Base64.EncodeToString d]} ∪ ks).
Proof. intros Hk Hd k [->%elem_of_singleton|Hin]%elem_of_union; [by exists d|auto]. Qed.

Lemma wf_keys_subseteq ks ks' : ks' ⊆ ks -> wf_keys ks -> wf_keys ks'.
Proof. intros Hsub Hk k Hin; auto. Qed.

Lemma decoded_insert ks d : wf_keys ks -> d ≠ [] ->
  decoded ({[Base64.EncodeToString d]} ∪ ks) = {[d]} ∪ decoded ks.
Proof.
  intros Hk Hd; pose proof (wf_keys_insert ks d Hk Hd); apply set_eq; intros x.
  rewrite elem_of_decoded, !elem_of_union, !elem_of_singleton, elem_of_decoded by done.
  split; [intros [E%(inj Base64.EncodeToString)|?]; auto|intros [->|?]; auto].
Qed.

Lemma decoded_delete ks d : wf_keys ks ->
  decoded (ks ∖ {[Base64.EncodeToString d]}) = decoded ks ∖ {[d]}.
Proof.
  intros Hk; assert (wf_keys (ks ∖ {[Base64.EncodeToString d]})) by (eapply wf_keys_subseteq; [|done]; set_solver).
  apply set_eq; intros x; rewrite elem_of_decoded, !elem_of_difference, !elem_of_singleton, elem_of_decoded by done.
  split; intros [Hin Hne]; (split; [done|]).
  - intros ->; done.
  - intros E%(inj Base64.EncodeToString); done.
Qed.

Lemma decoded_empty : decoded ∅ = ∅.
Proof. done. Qed.

(** * Services that keep a set of keys

    Adding files the key, removing forgets it (a failing removal may or may not
    have), and nothing else touches the set: that is all the node's contract
    asks of a service with a key per peer.  [J] is what else the service keeps. *)
Section KeyedService.
Context {S : Type} `{!Service S} (keys : S -> gset string) (J : S -> Prop).

Class KeyedService := {
  ks_add s d r s' : AddPeer d s = (r, s') ->
    keys s' = if r is inr _ then {[Base64.EncodeToString d]} ∪ keys s else keys s;
  ks_remove s d r s' : RemovePeer d s = (r, s') ->
    keys s' = keys s ∖ {[Base64.EncodeToString d]} ∨ keys s' = keys s ∧ r ≠ inr tt;
  ks_peers s r s' : Peers s = (r, s') -> keys s' = keys s;
  ks_has s d : d ≠ [] -> wf_keys (keys s) -> J s ->
    HasPeer d s = bool_decide (Base64.EncodeToString d ∈ keys s);
  ks_count s : PeerCount s = Z.of_nat (size (keys s));
  ks_J_add s d r s' : J s -> wf_keys (keys s) -> AddPeer d s = (r, s') -> J s';
  ks_J_remove s d r s' : J s -> wf_keys (keys s) -> RemovePeer d s = (r, s') -> J s';
  ks_J_peers s r s' : J s -> wf_keys (keys s) -> Peers s = (r, s') -> J s'
}.
Context {HKS : KeyedService}.

Definition keyed_inv (s : S) : Prop := wf_keys (keys s) ∧ J s.
Definition keyed_set (s : S) : gset bytes := decoded (keys s).

Lemma keyed_count_add s d r s' : AddPeer d s = (r, s') ->
  PeerCount s' <= PeerCount s + (if r is inr _ then 1 else 0).
Proof.
  intros H%ks_add; rewrite !ks_count, H; destruct r; [lia|].
  pose proof (size_union_alt {[Base64.EncodeToString d]} (keys s)) as E.
  pose proof (subseteq_size (keys s ∖ {[Base64.EncodeToString d]}) (keys s) ltac:(apply subseteq_difference_l; done)).
  rewrite size_singleton in E; lia.
Qed.

Lemma keyed_count_remove s d r s' : RemovePeer d s = (r, s') -> PeerCount s' <= PeerCount s.
Proof.
  intros H%ks_remove; rewrite !ks_count; destruct H as [->|[-> _]]; [|lia].
  apply inj_le, subseteq_size, subseteq_difference_l; done.
Qed.

Definition keyed_laws : ServiceLaws S.
Proof.
  refine (Build_ServiceLaws S _ keyed_inv keyed_set _ _ _ _ _ _ _ keyed_count_add keyed_count_remove);
    unfold keyed_inv, keyed_set.
  - intros s d [Hk HJ] Hd; rewrite ks_has by done; apply bool_decide_ext; by rewrite elem_of_decoded.
  - intros s [Hk HJ]; by rewrite ks_count, size_decoded.
  - intros s d r s' [Hk HJ] Hd H; pose proof (ks_J_add _ _ _ _ HJ Hk H); apply ks_add in H; rewrite H.
    split; [split; [by apply wf_keys_insert|done]|by apply decoded_insert].
  - intros s d e s' [Hk HJ] H; pose proof (ks_J_add _ _ _ _ HJ Hk H); apply ks_add in H; by rewrite H.
  - intros s d s' [Hk HJ] Hd H; apply ks_remove in H as [->|[_ ?]]; [|done].
    rewrite decoded_delete by done; intros [_ Hn]%elem_of_difference; by apply Hn, elem_of_singleton.
  - intros s d r s' [Hk HJ] H; pose proof (ks_J_remove _ _ _ _ HJ Hk H).
    apply ks_remove in H as [->|[-> _]].
    + rewrite decoded_delete by done; split_and!; [|done|done|apply subseteq_difference_l; done].
      eapply wf_keys_subseteq; [|exact Hk]; apply subseteq_difference_l; done.
    + split_and!; [done|done|apply subseteq_difference_l; done|done].
  - intros s r s' [Hk HJ] H; pose proof (ks_J_peers _ _ _ HJ Hk H); apply ks_peers in H.
    rewrite !ks_count, H; done.
Defined.
End KeyedService.
