(* ===== verification/WireGuard.v ===== *)
(** The WireGuard service: src/services/wireguard/wireguard.go (peers),
    src/services/wireguard/handshake.go, src/services/wireguard/types/peer.go and
    crypto.go.

    The [wg] tool is a parameter ([Tool]): a command either fails or answers with
    its output, and nothing else is assumed of it.  The file ends with the
    instances that discharge the interfaces of [Types] and [HandshakeProofs]. *)
From S2P Require Import Prelude Codec Types Admission AdmissionProofs Guard Handshake HandshakeProofs IPPool Keyed.
Set Default Proof Using "Type*".

(** [strconv.ParseInt(s, 10, 64)], also [strconv.Atoi]. *)
Module Num.
Definition digit (c : ascii) : option Z :=
  let n := Z.of_N (N_of_ascii c) in if (48 <=? n) && (n <=? 57) then Some (n - 48) else None.
Fixpoint digits (acc : Z) (s : Str.chars) : option Z :=
  match s with
  | [] => Some acc
  | c :: s => d ← digit c; digits (acc * 10 + d) s
  end.
Definition ParseInt (s : Str.chars) : option Z :=
  let '(neg, body) := match s with
    | "-"%char :: r => (true, r)
    | "+"%char :: r => (false, r)
    | _ => (false, s)
    end in
  match body with
  | [] => None
  | _ => n ← digits 0 body;
         let v := if (neg : bool) then - n else n in
         if bool_decide (is_int64 v) then Some v else None
  end.
(** [strconv.ParseUint(s, 10, 32)]. *)
Definition ParseUint32 (s : Str.chars) : option Z :=
  match s with
  | [] => None
  | _ => v ← digits 0 s; if v <? 2 ^ 32 then Some v else None
  end.
End Num.

(** * State *)
Record wgPeer := mkWgPeer { Identity : string; pIPv4 : bytes; pIPv6 : bytes }.
Definition Empty (p : wgPeer) : bool := bool_decide (Identity p = ""%string).

(** src/services/wireguard/types/peer.go *)
Definition peers_Get (key : string) (m : gmap string wgPeer) : wgPeer :=
  default (mkWgPeer "" [] []) (m !! key).
Definition peers_Put (v : wgPeer) (m : gmap string wgPeer) : gmap string wgPeer :=
  match m !! Identity v with Some _ => m | None => <[Identity v := v]> m end.

Class Tool (T : Type) := run_tool : list string -> M T gerror string.

Record wireguard (T : Type) := mkWG {
  wg_pool : IPPool; wg_peers : gmap string wgPeer; wg_tool : T }.
Arguments mkWG {T}. Arguments wg_pool {T}. Arguments wg_peers {T}. Arguments wg_tool {T}.

Definition zeroIPv6 : bytes := replicate 16 x00.

Section WireGuard.
Context {T : Type} `{!Tool T}.
(** From the configuration and the variant: the interface, whether peers get an
    IPv6 address, and how an address reads. *)
Context (Interface : string) (EnableIPv6 : bool) (IPString : bytes -> string).
Abbreviation wg := (wireguard T).

Definition set_pool (f : IPPool -> IPPool) : M wg gerror unit := fun s =>
  (inr tt, mkWG (f (wg_pool s)) (wg_peers s) (wg_tool s)).
Definition set_peers (f : gmap string wgPeer -> gmap string wgPeer) : M wg gerror unit := fun s =>
  (inr tt, mkWG (wg_pool s) (f (wg_peers s)) (wg_tool s)).
Definition pool_get : M wg gerror (bytes * bytes) := fun s =>
  let '(r, p) := IPPool_Get (wg_pool s) in (r, mkWG p (wg_peers s) (wg_tool s)).
Definition tool (args : list string) : M wg gerror string := fun s =>
  let '(r, t) := run_tool args (wg_tool s) in (r, mkWG (wg_pool s) (wg_peers s) t).

(** ** Peers *)
Definition allowedIPs (v4 v6 : bytes) : string :=
  IPString v4 +:+ "/32" +:+ (if EnableIPv6 then "," +:+ IPString v6 +:+ "/128" else "").

Definition wg_AddPeer (data : bytes) : M wg gerror bytes :=
  let identity := Base64.EncodeToString data in
  got ← pool_get;
  let '(v4, v6) := got in
  let ips := allowedIPs v4 v6 in
  (* with IPv6 off the address goes back and the slot stays zero *)
  (if EnableIPv6 then mret tt else set_pool (fun p => mkIPPool (V4 p) (Release v6 (V6 p)))) ≫= fun _ =>
  let v6 := if EnableIPv6 then v6 else zeroIPv6 in
  ran ← attempt (tool ["set"; Interface; "peer"; identity; "allowed-ips"; ips]%string);
  match ran with
  | inl err => set_pool (IPPool_Release v4 v6) ≫= fun _ => throw err
  | inr _ => set_peers (peers_Put (mkWgPeer identity v4 v6)) ≫= fun _ => mret (v4 ++ v6)
  end.

Definition wg_HasPeer (data : bytes) (s : wg) : bool :=
  negb (Empty (peers_Get (Base64.EncodeToString data) (wg_peers s))).

Definition wg_RemovePeer (data : bytes) : M wg gerror unit :=
  let identity := Base64.EncodeToString data in
  tool ["set"; Interface; "peer"; identity; "remove"]%string ≫= fun _ =>
  v ← gets (fun s => peers_Get identity (wg_peers s));
  if negb (Empty v) then
    set_peers (delete (Identity v)) ≫= fun _ => set_pool (IPPool_Release (pIPv4 v) (pIPv6 v))
  else mret tt.

(** One line of [wg show <interface> transfer]: [None] is not a peer's line. *)
Definition transferLine (line : Str.chars) : result (option Peer) :=
  match Str.split (Ascii.ascii_of_nat 9) line with
  | [key; up; down] =>
      match Num.ParseInt up, Num.ParseInt down with
      | Some u, Some d => inr (Some (mkPeer (Str.to_string key) u d))
      | _, _ => inl "strconv.ParseInt: invalid syntax"%string
      end
  | _ => inr None
  end.

Fixpoint transferLines (lines : list Str.chars) : result (list Peer) :=
  match lines with
  | [] => inr []
  | line :: rest =>
      match transferLine line with
      | inl e => inl e
      | inr p =>
          match transferLines rest with
          | inl e => inl e
          | inr ps => inr (option_list p ++ ps)
          end
      end
  end.

Definition wg_Peers : M wg gerror (list Peer) :=
  output ← tool ["show"; Interface; "transfer"]%string;
  match transferLines (Str.split newline (Str.of_string output)) with
  | inl e => throw e
  | inr items => mret items
  end.

Definition wg_PeerCount (s : wg) : Z := Z.of_nat (size (wg_peers s)).

Definition wg_service : Service wg := {|
  AddPeer := wg_AddPeer;
  HasPeer := wg_HasPeer;
  RemovePeer := wg_RemovePeer;
  Peers := wg_Peers;
  PeerCount := wg_PeerCount
|}.

End WireGuard.

(** * The invariant *)
Section Inv.
Context {T : Type} (f4 f6 : Z).
Abbreviation wg := (wireguard T).

Record wg_inv (s : wg) : Prop := {
  wi_pool : ippool_inv f4 f6 (wg_pool s);
  wi_keys : wf_keys (dom (wg_peers s));
  wi_ident k v : wg_peers s !! k = Some v -> Identity v = k;
  wi_v4 k v : wg_peers s !! k = Some v -> pIPv4 v ∈ reserved (V4 (wg_pool s));
  wi_v6 k v : wg_peers s !! k = Some v -> pIPv6 v = zeroIPv6 ∨ pIPv6 v ∈ reserved (V6 (wg_pool s));
  (** no two peers share an address *)
  wi_excl k k' v v' : wg_peers s !! k = Some v -> wg_peers s !! k' = Some v' -> k ≠ k' ->
    pIPv4 v ≠ pIPv4 v' ∧ (pIPv6 v = pIPv6 v' -> pIPv6 v = zeroIPv6)
}.

Definition wg_set (s : wg) : gset bytes := decoded (dom (wg_peers s)).

Lemma wg_has_spec s d : wg_inv s -> d ≠ [] -> wg_HasPeer d s = bool_decide (d ∈ wg_set s).
Proof.
  intros Hs Hd; unfold wg_HasPeer, peers_Get, Empty, wg_set.
  erewrite (bool_decide_ext (d ∈ _)) by (apply elem_of_decoded, Hs).
  destruct (wg_peers s !! Base64.EncodeToString d) as [v|] eqn:E; simpl.
  - rewrite (wi_ident _ Hs _ _ E), bool_decide_false by (by intros H%Base64.encode_empty).
    rewrite bool_decide_true; [done|]; apply elem_of_dom; eauto.
  - rewrite (bool_decide_false (_ ∈ _)); [done|]; by apply not_elem_of_dom.
Qed.

(** The pool may move as long as the peers' addresses stay reserved. *)
Lemma wg_inv_pool s p t : wg_inv s -> ippool_inv f4 f6 p ->
  reserved (V4 (wg_pool s)) ⊆ reserved (V4 p) -> reserved (V6 (wg_pool s)) ⊆ reserved (V6 p) ->
  wg_inv (mkWG p (wg_peers s) t).
Proof.
  intros [H1 H2 H3 H4 H5 H6] Hp S4 S6; split; simpl; try done; [naive_solver|].
  intros k v E; destruct (H5 _ _ E); auto.
Qed.

(** A new peer with addresses nobody holds. *)
Lemma wg_inv_put s d v4 v6 : wg_inv s -> d ≠ [] ->
  v4 ∈ reserved (V4 (wg_pool s)) -> (v6 = zeroIPv6 ∨ v6 ∈ reserved (V6 (wg_pool s))) ->
  (forall k v, wg_peers s !! k = Some v -> pIPv4 v ≠ v4 ∧ (pIPv6 v = v6 -> v6 = zeroIPv6)) ->
  wg_inv (mkWG (wg_pool s) (peers_Put (mkWgPeer (Base64.EncodeToString d) v4 v6) (wg_peers s)) (wg_tool s)).
Proof.
  intros Hs Hd R4 R6 Hnew; unfold peers_Put; simpl.
  destruct (wg_peers s !! Base64.EncodeToString d) as [v0|] eqn:E0; [by destruct s|].
  destruct Hs as [H1 H2 H3 H4 H5 H6]; split; simpl.
  - done.
  - rewrite dom_insert_L; by apply wf_keys_insert.
  - intros k v; rewrite lookup_insert_Some; naive_solver.
  - intros k v; rewrite lookup_insert_Some; naive_solver.
  - intros k v; rewrite lookup_insert_Some; naive_solver.
  - intros k k' v v' [[<- <-]|[N1 L1]]%lookup_insert_Some [[<- <-]|[N2 L2]]%lookup_insert_Some Hne;
      simpl; try done; [..|by eapply H6].
    + destruct (Hnew _ _ L2); split; [congruence|naive_solver].
    + destruct (Hnew _ _ L1); split; [congruence|naive_solver].
Qed.

Lemma wg_put_set s d v4 v6 p t : wf_keys (dom (wg_peers s)) -> d ≠ [] ->
  wg_set (mkWG p (peers_Put (mkWgPeer (Base64.EncodeToString d) v4 v6) (wg_peers s)) t) = {[d]} ∪ wg_set s.
Proof.
  intros Hk Hd; unfold wg_set, peers_Put; simpl.
  destruct (wg_peers s !! Base64.EncodeToString d) as [v0|] eqn:E0; simpl.
  - assert (d ∈ decoded (dom (wg_peers s))) by (apply elem_of_decoded; [done|]; apply elem_of_dom; eauto).
    apply set_eq; set_solver.
  - by rewrite dom_insert_L, decoded_insert.
Qed.
End Inv.

(** * The service keeps its promises *)
Section Laws.
Set Default Proof Using "All".
Context {T : Type} `{!Tool T} (Interface : string) (EnableIPv6 : bool) (IPString : bytes -> string).
Context (f4 f6 : Z) (Hf6 : 0 < f6).
Abbreviation wg := (wireguard T).
Abbreviation add := (wg_AddPeer (T := T) Interface EnableIPv6 IPString).

(** The IPv6 address a peer ends up with. *)
Definition given6 (v6 : bytes) : bytes := if EnableIPv6 then v6 else zeroIPv6.

(** What [AddPeer] does, read off its branches. *)
Lemma wg_AddPeer_inv d s r s' : add d s = (r, s') ->
  (∃ e p, r = inl e ∧ IPPool_Get (wg_pool s) = (inl e, p) ∧ s' = mkWG p (wg_peers s) (wg_tool s))
  ∨ ∃ v4 v6 p p' t, IPPool_Get (wg_pool s) = (inr (v4, v6), p)
    ∧ p' = (if EnableIPv6 then p else mkIPPool (V4 p) (Release v6 (V6 p)))
    ∧ ((∃ e, r = inl e ∧ s' = mkWG (IPPool_Release v4 (given6 v6) p') (wg_peers s) t)
       ∨ (r = inr (v4 ++ given6 v6)
          ∧ s' = mkWG p' (peers_Put (mkWgPeer (Base64.EncodeToString d) v4 (given6 v6)) (wg_peers s)) t)).
Proof.
  unfold wg_AddPeer, pool_get, tool, set_pool, set_peers, given6, attempt, mbind, M_bind, mret, M_ret, throw.
  destruct (IPPool_Get (wg_pool s)) as [[e|[v4 v6]] p]; [intros [= <- <-]; left; eauto 8|].
  destruct EnableIPv6; simpl; destruct (run_tool _ _) as [[e|o] t]; intros [= <- <-];
    right; eexists v4, v6, p, _, t; (split; [done|]); (split; [done|]); eauto.
Qed.

(** An IPv6 address from the pool is never the zero one. *)
Lemma nonzero6 v6 : f6 <= BE.get v6 -> v6 ≠ zeroIPv6.
Proof. intros H ->; unfold zeroIPv6 in H; rewrite get_zeros in H; lia. Qed.

Lemma zero_not_reserved (s : wg) : wg_inv f4 f6 s -> zeroIPv6 ∉ reserved (V6 (wg_pool s)).
Proof.
  intros Hs Hin; pose proof (ip_v6 _ _ _ (wi_pool _ _ _ Hs)) as Hp.
  assert (zeroIPv6 ∈ available (V6 (wg_pool s)) ++ elements (reserved (V6 (wg_pool s)))) as H
    by (apply elem_of_app; right; by apply elem_of_elements).
  rewrite (pi_all _ _ _ _ Hp) in H; apply elem_of_fresh in H as (z & Hz & _ & E).
  apply (f_equal BE.get) in E; unfold zeroIPv6 in E; rewrite get_zeros, BE.get_put in E.
  destruct (pool_bounds 15 usable6 _ _ Hp) as (_ & Hhi & _); rewrite Z.mod_small in E; lia.
Qed.

(** The pool after an address pair was taken and, with IPv6 off, half given back. *)
Lemma taken_pool (s : wg) v4 v6 p : wg_inv f4 f6 s -> IPPool_Get (wg_pool s) = (inr (v4, v6), p) ->
  let p' := if EnableIPv6 then p else mkIPPool (V4 p) (Release v6 (V6 p)) in
  ippool_inv f4 f6 p' ∧ (v4 ∉ reserved (V4 (wg_pool s)))
  ∧ reserved (V4 p') = {[v4]} ∪ reserved (V4 (wg_pool s))
  ∧ length v4 = 4%nat ∧ length (given6 v6) = 16%nat ∧ (given6 v6 ∉ reserved (V6 (wg_pool s)))
  ∧ (if EnableIPv6 then reserved (V6 p') = {[v6]} ∪ reserved (V6 (wg_pool s)) ∧ given6 v6 ≠ zeroIPv6
     else reserved (V6 p') = reserved (V6 (wg_pool s)) ∧ given6 v6 = zeroIPv6).
Proof.
  intros Hs H p'; pose proof (zero_not_reserved _ Hs) as Hz.
  apply (IPPool_Get_inv f4 f6) in H as ([I4 I6] & N4 & N6 & R4 & R6 & L4 & L6 & H6); [|apply Hs].
  unfold given6; destruct EnableIPv6; subst p'; simpl; split_and!; try done.
  - by apply nonzero6.
  - split; simpl; [done|by apply (Release_inv 15 usable6)].
  - rewrite Release_reserved, R6; apply set_eq; intros x; rewrite elem_of_difference, elem_of_union, elem_of_singleton.
    split; [tauto|]; intros Hx; split; [by right|]; by intros ->.
Qed.

Lemma wg_add_ok s d res s' : wg_inv f4 f6 s -> d ≠ [] -> add d s = (inr res, s') ->
  wg_inv f4 f6 s' ∧ wg_set s' = {[d]} ∪ wg_set s.
Proof.
  intros Hs Hd [(e & p & ? & _)|(v4 & v6 & p & p' & t & Hget & Hp' & [(e & ? & _)|[_ ->]])]%wg_AddPeer_inv; [done..|].
  destruct (taken_pool s v4 v6 p Hs Hget) as (Ip & N4 & R4 & L4 & L6 & N6 & H6); rewrite <- Hp' in *.
  split; [|apply wg_put_set; [apply Hs|done]].
  assert (wg_inv f4 f6 (mkWG p' (wg_peers s) t)) as Hs'.
  { apply wg_inv_pool; [done|done|rewrite R4; apply union_subseteq_r|].
    destruct EnableIPv6; destruct H6 as [-> _]; [apply union_subseteq_r|done]. }
  apply (wg_inv_put f4 f6 _ d v4 (given6 v6)) in Hs'; [done|done|simpl|..]; simpl.
  - rewrite R4; by apply elem_of_union_l, elem_of_singleton.
  - unfold given6 in *; destruct EnableIPv6; destruct H6 as [R6 E6]; [right|by left].
    rewrite R6; by apply elem_of_union_l, elem_of_singleton.
  - intros k v Hk; split; [intros <-; by apply N4, (wi_v4 _ _ _ Hs k)|].
    intros E; destruct (wi_v6 _ _ _ Hs _ _ Hk) as [Hz|Hin]; congruence.
Qed.

Lemma wg_add_err s d e s' : wg_inv f4 f6 s -> add d s = (inl e, s') ->
  wg_inv f4 f6 s' ∧ wg_set s' = wg_set s.
Proof.
  intros Hs [(e' & p & _ & Hget & ->)|(v4 & v6 & p & p' & t & Hget & Hp' & [(e' & _ & ->)|[? _]])]%wg_AddPeer_inv; [| |done].
  - apply (IPPool_Get_inv f4 f6) in Hget as (Ip & R4 & R6); [|apply Hs].
    split; [|done]; apply wg_inv_pool; [done|done|by rewrite R4|by rewrite R6].
  - destruct (taken_pool s v4 v6 p Hs Hget) as (Ip & N4 & R4 & L4 & L6 & N6 & H6); rewrite <- Hp' in *.
    split; [|done]; apply wg_inv_pool; [done|by apply IPPool_Release_inv|simpl..];
      rewrite Release_reserved; intros x Hx; (apply elem_of_difference; split; [|intros ->%elem_of_singleton; done]).
    + rewrite R4; by apply elem_of_union_r.
    + destruct EnableIPv6; destruct H6 as [-> _]; [by apply elem_of_union_r|done].
Qed.

(** Forgetting a peer and giving its addresses back. *)
Lemma wg_inv_delete (s : wg) k v (t : T) : wg_inv f4 f6 s -> wg_peers s !! k = Some v ->
  wg_inv f4 f6 (mkWG (IPPool_Release (pIPv4 v) (pIPv6 v) (wg_pool s)) (delete k (wg_peers s)) t).
Proof.
  intros [H1 H2 H3 H4 H5 H6] Hk; split; simpl; [by apply IPPool_Release_inv|..].
  - eapply wf_keys_subseteq; [|exact H2]; rewrite dom_delete_L; apply subseteq_difference_l; done.
  - intros k' v' [_ Hl]%lookup_delete_Some; auto.
  - intros k' v' [Hne Hl]%lookup_delete_Some; rewrite Release_reserved.
    apply elem_of_difference; split; [by eapply H4|]; intros E%elem_of_singleton.
    by destruct (H6 _ _ _ _ Hk Hl Hne).
  - intros k' v' [Hne Hl]%lookup_delete_Some; rewrite Release_reserved.
    destruct (H5 _ _ Hl) as [|Hin]; [by left|].
    destruct (decide (pIPv6 v' = pIPv6 v)) as [E|Hn6].
    + left; destruct (H6 _ _ _ _ Hk Hl Hne) as [_ Hz]; rewrite E; apply Hz; done.
    + right; apply elem_of_difference; split; [done|]; by intros ?%elem_of_singleton.
  - intros k1 k2 v1 v2 [_ L1]%lookup_delete_Some [_ L2]%lookup_delete_Some; by eapply H6.
Qed.

Abbreviation remove := (wg_RemovePeer (T := T) Interface).

Lemma wg_remove_inv s d r s' : wg_inv f4 f6 s -> remove d s = (r, s') -> wg_inv f4 f6 s' ∧
  (if r is inr _ then wg_peers s' = delete (Base64.EncodeToString d) (wg_peers s)
   else wg_peers s' = wg_peers s).
Proof.
  intros Hs; unfold wg_RemovePeer, tool, set_pool, set_peers, gets, mbind, M_bind, mret, M_ret.
  destruct (run_tool _ _) as [[e|o] t]; simpl.
  { intros [= <- <-]; split; [|done]; apply wg_inv_pool; [done|apply Hs|done..]. }
  unfold peers_Get, Empty; destruct (wg_peers s !! Base64.EncodeToString d) as [v|] eqn:E; simpl.
  - rewrite (wi_ident _ _ _ Hs _ _ E).
    assert (Base64.EncodeToString d ≠ ""%string) as Hne
      by (apply wf_key_nonempty, (wi_keys _ _ _ Hs), elem_of_dom; eauto).
    rewrite bool_decide_false by done; simpl; intros [= <- <-]; split; [|done].
    apply (wg_inv_delete _ _ _ t) in E; done.
  - intros [= <- <-]; simpl; split; [apply wg_inv_pool; [done|apply Hs|done..]|].
    by rewrite delete_id.
Qed.

Lemma wg_set_delete (s : wg) p m (t : T) d : wf_keys (dom (wg_peers s)) ->
  m = delete (Base64.EncodeToString d) (wg_peers s) -> wg_set (mkWG p m t) = wg_set s ∖ {[d]}.
Proof. intros Hk ->; unfold wg_set; simpl; by rewrite dom_delete_L, decoded_delete. Qed.

Lemma peers_Put_size v m : Z.of_nat (size (peers_Put v m)) <= Z.of_nat (size m) + 1.
Proof.
  unfold peers_Put; destruct (m !! Identity v) eqn:E; [lia|]; rewrite map_size_insert_None by done; lia.
Qed.

Lemma wg_remove_count d (s : wg) r s' : remove d s = (r, s') -> wg_PeerCount s' <= wg_PeerCount s.
Proof.
  unfold wg_RemovePeer, tool, set_pool, set_peers, gets, mbind, M_bind, mret, M_ret, wg_PeerCount.
  destruct (run_tool _ _) as [[e|o] t]; simpl; [intros [= <- <-]; simpl; lia|].
  destruct (negb _); intros [= <- <-]; simpl; [|lia].
  apply inj_le, map_subseteq_size, delete_subseteq.
Qed.

Definition wg_laws : ServiceLaws wg (Service0 := wg_service Interface EnableIPv6 IPString).
Proof.
  refine (Build_ServiceLaws wg (wg_service Interface EnableIPv6 IPString) (wg_inv f4 f6) wg_set _ _ _ _ _ _ _ _ _); simpl.
  - apply wg_has_spec.
  - intros s Hs; unfold wg_PeerCount, wg_set; rewrite size_decoded by apply Hs; by rewrite size_dom.
  - intros; by eapply wg_add_ok.
  - intros; by eapply wg_add_err.
  - intros s d s' Hs Hd H; apply wg_remove_inv in H as [Hs' Hp]; [|done].
    destruct s' as [p m t]; simpl in Hp; rewrite (wg_set_delete s p m t d) by (apply Hs || done).
    intros [_ Hn]%elem_of_difference; by apply Hn, elem_of_singleton.
  - intros s d r s' Hs H; apply wg_remove_inv in H as [Hs' Hp]; [|done]; split; [done|].
    destruct s' as [p m t]; simpl in Hp; destruct r.
    + unfold wg_set; simpl; rewrite Hp; split; [apply subseteq_difference_l|]; done.
    + rewrite (wg_set_delete s p m t d) by (apply Hs || done).
      split; [done|apply subseteq_difference_l; done].
  - intros s r s' Hs H; assert (wg_pool s' = wg_pool s ∧ wg_peers s' = wg_peers s) as [Hp Hm].
    { unfold wg_Peers in H; minv H; unfold tool in *; destruct (run_tool _ _); by simplify_eq/=. }
    unfold wg_set, wg_PeerCount; rewrite Hm; split; [|done].
    destruct s' as [p m t]; simpl in *; subst p m; apply wg_inv_pool; [done|apply Hs|done..].
  - intros s d r s' [(e & p & -> & _ & ->)|(v4 & v6 & p & p' & t & _ & _ & [(e & -> & ->)|[-> ->]])]%wg_AddPeer_inv;
      unfold wg_PeerCount; simpl; [lia|lia|apply peers_Put_size].
  - intros s d r s'; apply wg_remove_count.
Defined.
End Laws.
