(* ===== verification/WireGuardAPI.v ===== *)
(** The WireGuard service towards clients: src/services/wireguard/handshake.go and
    src/services/wireguard/types/crypto.go, and what the service guarantees as a
    whole. *)
From S2P Require Import Prelude Codec Types Admission AdmissionProofs Guard Handshake HandshakeProofs IPPool Keyed WireGuard.
Set Default Proof Using "Type*".

(** * Keys (crypto.go) *)
Definition KeyLength : nat := 32.
Definition KeyFromBytes (b : bytes) : result bytes :=
  if (length b =? KeyLength)%nat then inr b else inl "invalid bytes length"%string.
Definition KeyFromString (s : string) : result bytes :=
  match Base64.DecodeString s with
  | None => inl "illegal base64 data"%string
  | Some b => KeyFromBytes b
  end.
Definition KeyString (k : bytes) : string := Base64.EncodeToString k.
Definition IsZero (k : bytes) : bool := bool_decide (k = replicate KeyLength x00).

(** Clamping of a private key: [key[0] &= 248; key[31] = key[31]&127 | 64]. *)
Definition clamp (key : bytes) : bytes :=
  match key, last key with
  | b0 :: _, Some b31 =>
      <[0%nat := byte_of_Z (Z.land (byte_to_Z b0) 248)]>
        (<[31%nat := byte_of_Z (Z.lor (Z.land (byte_to_Z b31) 127) 64)]> key)
  | _, _ => key
  end.

(** * The peer request *)
(** The two fields the decoder looks at. *)
Record wgRequest := mkWgReq { req_PublicKey : option string; req_hasUUID : bool }.
Definition PeerMetadata : Type := (Z * string).   (* port, public key *)
Record HandshakePayloadData := mkPayload { pl_Addrs : list string; pl_Metadata : list PeerMetadata }.

Section API.
Context {T : Type} `{!Tool T}.
Context (Interface : string) (EnableIPv6 : bool) (IPString : bytes -> string).
Context (Unmarshal : bytes -> result wgRequest).
(** 2 bytes of port and the 32 bytes of the interface's public key, set by Init. *)
Context (info : bytes).
Abbreviation wg := (wireguard T).

Definition ListenPort : Z := BE.get (take 2 info).
Definition PublicKey : string := Base64.EncodeToString (drop 2 info).

Definition wg_ParsePeerRequest (raw : bytes) : result bytes :=
  match Unmarshal raw with
  | inl _ => inl "invalid peer request"%string
  | inr req =>
    match req_PublicKey req with
    | None => if req_hasUUID req then inl "carries uuid, which is what a proxy client sends"%string
              else inl "carries a public_key; none was sent"%string
    | Some pk =>
        match KeyFromString pk with
        | inl _ => inl "invalid public_key"%string
        | inr key => inr key
        end
    end
  end.

(** 4 bytes of IPv4 and 16 of IPv6; all zero means there is no IPv6. *)
Definition peerAddrs (res : bytes) : result (list string) :=
  if negb (length res =? 20)%nat then inl "unexpected wireguard peer result length"%string
  else
    let v4 := take 4 res in
    let v6 := take 16 (drop 4 res) in
    inr ((IPString v4 +:+ "/32")%string ::
         (if bool_decide (v6 = zeroIPv6) then [] else [(IPString v6 +:+ "/128")%string])).

Definition wg_HandshakePayload (res : bytes) : result HandshakePayloadData :=
  match peerAddrs res with
  | inl e => inl e
  | inr addrs => inr (mkPayload addrs [(ListenPort, PublicKey)])
  end.

Definition pure {S A} (r : result A) : M S gerror A := fun s => (r, s).

Definition wg_api : ServiceAPI wg := {|
  Payload := HandshakePayloadData;
  ParsePeerRequest raw := pure (wg_ParsePeerRequest raw);
  HandshakePayload res := pure (wg_HandshakePayload res);
  Info _ := info
|}.

Lemma KeyFromString_length s k : KeyFromString s = inr k -> length k = KeyLength.
Proof.
  unfold KeyFromString, KeyFromBytes; destruct (Base64.DecodeString s) as [b|]; [|done].
  by destruct (Nat.eqb_spec (length b) KeyLength) as [E|]; [intros [= <-]|].
Qed.

Lemma wg_parse_length raw d : wg_ParsePeerRequest raw = inr d -> length d = KeyLength.
Proof.
  unfold wg_ParsePeerRequest; destruct (Unmarshal raw) as [|[[pk|] u]]; simpl; [done| |by destruct u].
  destruct (KeyFromString pk) as [|k] eqn:E; [done|]; intros [= <-]; by eapply KeyFromString_length.
Qed.

Context (f4 f6 : Z) (Hf6 : 0 < f6).

Definition wg_api_laws : ServiceAPILaws wg
  (Service0 := wg_service Interface EnableIPv6 IPString)
  (ServiceLaws0 := wg_laws Interface EnableIPv6 IPString f4 f6 Hf6) (ServiceAPI0 := wg_api).
Proof.
  split; simpl; unfold pure.
  - intros s raw r s' Hs [= <- <-]; split_and!; try done.
    destruct (wg_ParsePeerRequest raw) as [|d] eqn:E; [done|]; apply wg_parse_length in E.
    by destruct d.
  - intros s res r s' Hs [= <- <-]; done.
Qed.

(** * What the service guarantees *)

Abbreviation add := (wg_AddPeer (T := T) Interface EnableIPv6 IPString).

(** C22. A new peer is given tunnel addresses that no other peer of the interface
    holds, and what [AddPeer] returns always renders: the client is told exactly
    its IPv4 address and, when IPv6 is on and only then, its IPv6 address. *)
Theorem wg_peer_addresses s d res s' : wg_inv f4 f6 s -> add d s = (inr res, s') ->
  ∃ v4 v6, res = v4 ++ v6 ∧ length v4 = 4%nat ∧ length v6 = 16%nat
    ∧ (forall k v, wg_peers s !! k = Some v -> pIPv4 v ≠ v4 ∧ (EnableIPv6 = true -> pIPv6 v ≠ v6))
    ∧ wg_HandshakePayload res = inr (mkPayload
        ((IPString v4 +:+ "/32")%string :: (if EnableIPv6 then [(IPString v6 +:+ "/128")%string] else []))
        [(ListenPort, PublicKey)]).
Proof.
  intros Hs H; apply (wg_AddPeer_inv Interface EnableIPv6 IPString f4 f6 Hf6) in H
    as [(e & p & ? & _)|(v4 & v6 & p & p' & t & Hget & Hp' & [(e & ? & _)|[Hres _]])]; [done..|].
  injection Hres as ->.
  destruct (taken_pool Interface EnableIPv6 IPString f4 f6 Hf6 s v4 v6 p Hs Hget) as (_ & N4 & _ & L4 & L6 & N6 & H6).
  exists v4, (given6 EnableIPv6 v6); split_and!; try done.
  - intros k v Hk; split; [intros <-; by apply N4, (wi_v4 _ _ _ Hs k)|].
    intros HE E; destruct (wi_v6 _ _ _ Hs _ _ Hk) as [Hz|Hin]; [|congruence].
    destruct EnableIPv6; [|done]; destruct H6 as [_ H6]; congruence.
  - unfold wg_HandshakePayload, peerAddrs; rewrite length_app, L4, L6; simpl.
    rewrite take_app_length' by done; rewrite drop_app_length' by done.
    rewrite firstn_all2 by lia.
    destruct EnableIPv6; destruct H6 as [_ H6]; [by rewrite bool_decide_false|by rewrite bool_decide_true].
Qed.
End API.

(** * The pools are large enough *)
Section Tight.
Set Default Proof Using "All".
Context {T : Type} `{!Tool T} (Interface : string) (EnableIPv6 : bool) (IPString : bytes -> string).
Abbreviation wg := (wireguard T).
Abbreviation add := (wg_AddPeer (T := T) Interface EnableIPv6 IPString).
Abbreviation remove := (wg_RemovePeer (T := T) Interface).
Abbreviation f4 := (BE.get IPv4CIDR.1).
Abbreviation f6 := (BE.get IPv6CIDR.1).

Lemma f6_pos : 0 < f6.
Proof. by vm_compute. Qed.

(** The service as it starts, over the default networks. *)
Definition wg_new (t : T) : wg := mkWG (mkIPPool defaultPool4 defaultPool6) ∅ t.

(** What the node does to it: it never adds a peer that is there. *)
Inductive wg_reach : wg -> Prop :=
  | wg_start t : wg_reach (wg_new t)
  | wg_adds s d r s' : wg_reach s -> d ≠ [] -> Base64.EncodeToString d ∉ dom (wg_peers s) ->
      add d s = (r, s') -> wg_reach s'
  | wg_removes s d r s' : wg_reach s -> remove d s = (r, s') -> wg_reach s'.

(** Every reserved address is a peer's. *)
Record wg_tight (s : wg) : Prop := {
  wt_inv : wg_inv f4 f6 s;
  wt_net4 : Net (V4 (wg_pool s)) = IPv4CIDR.2;
  wt_net6 : Net (V6 (wg_pool s)) = IPv6CIDR.2;
  wt_size4 : size (reserved (V4 (wg_pool s))) = size (wg_peers s);
  wt_size6 : size (reserved (V6 (wg_pool s))) = if EnableIPv6 then size (wg_peers s) else 0%nat;
  wt_peer6 k v : EnableIPv6 = true -> wg_peers s !! k = Some v -> pIPv6 v ∈ reserved (V6 (wg_pool s))
}.

Lemma wg_new_tight t : wg_tight (wg_new t).
Proof.
  split; simpl; try done; [|by destruct EnableIPv6].
  split; simpl; try done; split.
  - apply (proj1 (default4_inv defaultPool4 (reach_new _ _))).
  - apply (proj1 (default6_inv defaultPool6 (reach_new _ _))).
Qed.

Lemma IPPool_Get_Net p r p' : ippool_inv f4 f6 p -> IPPool_Get p = (r, p') ->
  Net (V4 p') = Net (V4 p) ∧ Net (V6 p') = Net (V6 p).
Proof.
  intros [H4 H6]; unfold IPPool_Get; destruct (Get advance4 (V4 p)) as [r4 p4] eqn:G4.
  apply (Get_inv 3 advance4 usable4 f4) in G4 as (_ & N4 & _); [|done].
  destruct r4 as [e|v4]; [by intros [= <- <-]|].
  destruct (Get advance6 (V6 p)) as [r6 p6] eqn:G6.
  apply (Get_inv 15 advance6 usable6 f6) in G6 as (_ & N6 & _); [|done].
  destruct r6; intros [= <- <-]; simpl; by rewrite ?Release_Net.
Qed.

Lemma size_insert (x : bytes) (X : gset bytes) : x ∉ X -> size ({[x]} ∪ X) = S (size X).
Proof. intros Hx; rewrite size_union, size_singleton by (by apply disjoint_singleton_l); done. Qed.

(** The bookkeeping of the three ways a pass through the service can end. *)
Section Book.
Context (s : wg) (Hs : wg_tight s).

Lemma released_tight v4 v6 p' t :
  wg_inv f4 f6 (mkWG (IPPool_Release v4 (given6 EnableIPv6 v6) p') (wg_peers s) t) ->
  Net (V4 p') = IPv4CIDR.2 -> Net (V6 p') = IPv6CIDR.2 ->
  v4 ∉ reserved (V4 (wg_pool s)) -> reserved (V4 p') = {[v4]} ∪ reserved (V4 (wg_pool s)) ->
  given6 EnableIPv6 v6 ∉ reserved (V6 (wg_pool s)) ->
  (if EnableIPv6 then reserved (V6 p') = {[v6]} ∪ reserved (V6 (wg_pool s)) ∧ given6 EnableIPv6 v6 ≠ zeroIPv6
   else reserved (V6 p') = reserved (V6 (wg_pool s)) ∧ given6 EnableIPv6 v6 = zeroIPv6) ->
  wg_tight (mkWG (IPPool_Release v4 (given6 EnableIPv6 v6) p') (wg_peers s) t).
Proof.
  intros Hi N4 N6 A4 R4 A6 R6; destruct Hs as [_ _ _ S4 S6 P6].
  assert (reserved (Release v4 (V4 p')) = reserved (V4 (wg_pool s))) as E4
    by (rewrite Release_reserved, R4; apply set_eq; set_solver).
  assert (reserved (Release (given6 EnableIPv6 v6) (V6 p')) = reserved (V6 (wg_pool s))) as E6.
  { rewrite Release_reserved; unfold given6 in *; destruct EnableIPv6; destruct R6 as [-> _];
      apply set_eq; set_solver. }
  split; cbn [wg_pool wg_peers V4 V6 IPPool_Release]; rewrite ?Release_Net, ?E4, ?E6; done.
Qed.

Lemma put_tight d v4 v6 p' t :
  wg_inv f4 f6 (mkWG p' (peers_Put (mkWgPeer (Base64.EncodeToString d) v4 (given6 EnableIPv6 v6)) (wg_peers s)) t) ->
  wg_peers s !! Base64.EncodeToString d = None ->
  Net (V4 p') = IPv4CIDR.2 -> Net (V6 p') = IPv6CIDR.2 ->
  v4 ∉ reserved (V4 (wg_pool s)) -> reserved (V4 p') = {[v4]} ∪ reserved (V4 (wg_pool s)) ->
  given6 EnableIPv6 v6 ∉ reserved (V6 (wg_pool s)) ->
  (if EnableIPv6 then reserved (V6 p') = {[v6]} ∪ reserved (V6 (wg_pool s)) ∧ given6 EnableIPv6 v6 ≠ zeroIPv6
   else reserved (V6 p') = reserved (V6 (wg_pool s)) ∧ given6 EnableIPv6 v6 = zeroIPv6) ->
  wg_tight (mkWG p' (peers_Put (mkWgPeer (Base64.EncodeToString d) v4 (given6 EnableIPv6 v6)) (wg_peers s)) t).
Proof.
  intros Hi Hnew N4 N6 A4 R4 A6 R6; destruct Hs as [_ _ _ S4 S6 P6].
  unfold peers_Put in *; cbn [Identity] in *; rewrite Hnew in *.
  split; cbn [wg_pool wg_peers]; try done; rewrite ?map_size_insert_None by done.
  - by rewrite R4, size_insert, S4.
  - unfold given6 in *; destruct EnableIPv6; destruct R6 as [-> _]; [by rewrite size_insert, S6|done].
  - intros k v HE [[_ <-]|[_ Hl]]%lookup_insert_Some; unfold given6 in *; rewrite HE in *;
      destruct R6 as [-> _]; [by apply elem_of_union_l, elem_of_singleton|].
    apply elem_of_union_r; by eapply P6.
Qed.

Lemma delete_tight k v t : wg_peers s !! k = Some v ->
  wg_inv f4 f6 (mkWG (IPPool_Release (pIPv4 v) (pIPv6 v) (wg_pool s)) (delete k (wg_peers s)) t) ->
  wg_tight (mkWG (IPPool_Release (pIPv4 v) (pIPv6 v) (wg_pool s)) (delete k (wg_peers s)) t).
Proof.
  intros Hk Hi; destruct Hs as [Hi0 N4 N6 S4 S6 P6].
  split; cbn [wg_pool wg_peers V4 V6 IPPool_Release]; rewrite ?Release_Net, ?Release_reserved; try done.
  - rewrite size_difference, size_singleton by (apply singleton_subseteq_l; by eapply (wi_v4 _ _ _ Hi0)).
    rewrite S4, map_size_delete, Hk; lia.
  - destruct EnableIPv6 eqn:HE.
    + rewrite size_difference, size_singleton by (apply singleton_subseteq_l; by eapply P6).
      rewrite S6, map_size_delete, Hk; lia.
    + apply size_empty_inv in S6; fold_leibniz; rewrite S6.
      by assert ((∅ : gset bytes) ∖ {[pIPv6 v]} = ∅) as -> by (apply set_eq; set_solver).
  - intros k' v' HE [Hne Hl]%lookup_delete_Some; apply elem_of_difference; split; [by eapply P6|].
    intros E%elem_of_singleton; destruct (wi_excl _ _ _ Hi0 _ _ _ _ Hl Hk ltac:(done)) as [_ Hz].
    pose proof (zero_not_reserved Interface EnableIPv6 IPString f4 f6 f6_pos s Hi0) as Hnz.
    apply Hnz; rewrite <- (Hz E); by eapply P6.
Qed.
End Book.

Lemma wg_add_tight s d r s' : wg_tight s -> d ≠ [] -> Base64.EncodeToString d ∉ dom (wg_peers s) ->
  add d s = (r, s') -> wg_tight s'.
Proof.
  intros Hs Hd Hnew H; pose proof Hs as [Hi N4 N6 S4 S6 P6].
  assert (wg_inv f4 f6 s') as Hi'.
  { destruct r; [by eapply (wg_add_err Interface EnableIPv6 IPString f4 f6 f6_pos)|].
    by eapply (wg_add_ok Interface EnableIPv6 IPString f4 f6 f6_pos). }
  apply (wg_AddPeer_inv Interface EnableIPv6 IPString f4 f6 f6_pos) in H.
  apply not_elem_of_dom in Hnew.
  destruct H as [(e & p & _ & Hget & ->)|(v4 & v6 & p & p' & t & Hget & Hp' & Hcase)].
  - destruct (IPPool_Get_Net _ _ _ (wi_pool _ _ _ Hi) Hget) as [M4 M6].
    apply (IPPool_Get_inv f4 f6) in Hget as (_ & R4 & R6); [|apply Hi].
    split; cbn [wg_pool wg_peers]; rewrite ?R4, ?R6; (done || congruence).
  - destruct (IPPool_Get_Net _ _ _ (wi_pool _ _ _ Hi) Hget) as [M4 M6].
    destruct (taken_pool Interface EnableIPv6 IPString f4 f6 f6_pos s v4 v6 p Hi Hget) as (_ & A4 & R4 & _ & _ & A6 & H6).
    rewrite <- Hp' in *.
    assert (Net (V4 p') = IPv4CIDR.2 ∧ Net (V6 p') = IPv6CIDR.2) as [M4' M6'].
    { rewrite Hp'; destruct EnableIPv6; cbn [V4 V6]; rewrite ?Release_Net; split; congruence. }
    destruct Hcase as [(e & _ & ->)|[_ ->]].
    + by apply (released_tight s Hs).
    + by apply (put_tight s Hs).
Qed.

Lemma wg_remove_tight s d r s' : wg_tight s -> remove d s = (r, s') -> wg_tight s'.
Proof.
  intros Hs H; pose proof Hs as [Hi N4 N6 S4 S6 P6]; pose proof H as Hrm.
  apply (wg_remove_inv Interface EnableIPv6 IPString f4 f6 f6_pos) in Hrm as [Hi' _]; [|done].
  revert H Hi'; unfold wg_RemovePeer, tool, set_pool, set_peers, gets, mbind, M_bind, mret, M_ret.
  destruct (run_tool _ _) as [[e|o] t]; cbn [fst snd wg_pool wg_peers wg_tool];
    [intros [= <- <-] Hi'; by split|].
  unfold peers_Get, Empty; destruct (wg_peers s !! Base64.EncodeToString d) as [v|] eqn:E; simpl.
  - rewrite (wi_ident _ _ _ Hi _ _ E).
    assert (Base64.EncodeToString d ≠ ""%string) as Hne
      by (apply wf_key_nonempty, (wi_keys _ _ _ Hi), elem_of_dom; eauto).
    rewrite bool_decide_false by done; cbn [negb]; intros [= <- <-] Hi'.
    by apply (delete_tight s Hs).
  - intros [= <- <-] Hi'; by split.
Qed.

Lemma reach_tight s : wg_reach s -> wg_tight s.
Proof.
  induction 1 as [t|s d r s' _ IH Hd Hn H|s d r s' _ IH H].
  - apply wg_new_tight.
  - by eapply wg_add_tight.
  - by eapply wg_remove_tight.
Qed.

(** C23. A node within its limits never turns a client away for want of tunnel
    addresses: however peers were added and removed, as long as fewer than 253
    are connected (a configuration allows at most 250) both pools have an address
    for the next one, so adding it can only fail in the [wg] tool. *)
Theorem wg_pools_suffice s : wg_reach s -> wg_PeerCount s < 253 ->
  ∃ v4 v6 p, IPPool_Get (wg_pool s) = (inr (v4, v6), p).
Proof.
  intros Hr Hlt; assert (wg_tight s) as [[Hp _ _ _ _ _] N4 N6 S4 S6 _].
  { by apply reach_tight. }
  unfold IPPool_Get, wg_PeerCount in *; destruct Hp as [H4 H6].
  destruct (Get advance4 (V4 (wg_pool s))) as [[e|v4] p4] eqn:G4.
  { apply (Get_inv 3 advance4 usable4 f4) in G4 as (_ & _ & _ & Hs); [|done].
    rewrite N4 in Hs; vm_compute length in Hs; lia. }
  destruct (Get advance6 (V6 (wg_pool s))) as [[e|v6] p6] eqn:G6; [|by eauto].
  apply (Get_inv 15 advance6 usable6 f6) in G6 as (_ & _ & _ & Hs); [|done].
  rewrite N6 in Hs; vm_compute length in Hs; destruct EnableIPv6; lia.
Qed.
End Tight.
