(* ===== verification/UuidTables.v ===== *)
(** The tables of the services whose peers are uuids: a name (the canonical form
    of the uuid: Hysteria's password, an OpenVPN certificate's common name) to
    the session key, the session key to its traffic, and the set of registered
    keys.  [tables_agree] says they describe the same peers; adding and
    forgetting a peer keep it. *)
From S2P Require Import Prelude Codec Uuid AdmissionProofs Keyed.
Set Default Proof Using "Type*".

Record tables_agree {T : Type} (names : gmap string string) (traffic : gmap string T) (peers : gset string) : Prop := {
  ta_name a k : names !! a = Some k <->
    ∃ d, length d = UUIDLen ∧ a = FormatUUID d ∧ k = Base64.EncodeToString d ∧ k ∈ peers;
  ta_uuid k : k ∈ peers -> ∃ d, length d = UUIDLen ∧ k = Base64.EncodeToString d;
  ta_traffic : dom traffic = peers
}.

Section Tables.
Context {T : Type}.
Implicit Types (names : gmap string string) (traffic : gmap string T) (peers : gset string).

Lemma tables_empty : tables_agree ∅ (∅ : gmap string T) ∅.
Proof.
  split; [|intros k Hk; by apply not_elem_of_empty in Hk|by rewrite dom_empty_L].
  intros a k; rewrite lookup_empty; split; [done|].
  intros (d & _ & _ & _ & Hin); by apply not_elem_of_empty in Hin.
Qed.

Lemma tables_add names traffic peers d (t : T) : length d = UUIDLen -> tables_agree names traffic peers ->
  let k := Base64.EncodeToString d in
  tables_agree (<[FormatUUID d := k]> names)
    (match traffic !! k with Some _ => traffic | None => <[k := t]> traffic end) (PeerSet_Put k peers).
Proof.
  intros Hl [Ha Hu Ht]; split; cbv zeta; unfold PeerSet_Put.
  - intros a k; rewrite lookup_insert_Some, Ha; split.
    + intros [[<- <-]|(Hne & d' & Hl' & -> & -> & Hin)];
        [exists d; split_and!; [done..|by apply elem_of_union_l, elem_of_singleton]
        |exists d'; split_and!; [done..|by apply elem_of_union_r]].
    + intros (d' & Hl' & -> & -> & [E%elem_of_singleton%(inj _)|Hin]%elem_of_union); [left; by subst|].
      destruct (decide (FormatUUID d = FormatUUID d')) as [E|E]; [left|right; eauto 10].
      apply FormatUUID_inj in E; [by subst|done..].
  - intros k [->%elem_of_singleton|Hin]%elem_of_union; eauto.
  - destruct (traffic !! Base64.EncodeToString d) as [c|] eqn:E; rewrite ?dom_insert_L, Ht; [|done].
    assert (Base64.EncodeToString d ∈ peers) by (rewrite <- Ht; apply elem_of_dom; eauto).
    apply set_eq; set_solver.
Qed.

Lemma tables_forget names traffic peers d : length d = UUIDLen -> tables_agree names traffic peers ->
  let k := Base64.EncodeToString d in
  tables_agree (delete (FormatUUID d) names) (delete k traffic) (PeerSet_Delete k peers).
Proof.
  intros Hl [Ha Hu Ht]; split; cbv zeta; unfold PeerSet_Delete.
  - intros a' k; rewrite lookup_delete_Some, Ha; split.
    + intros (Hne & d' & Hl' & -> & -> & Hin); exists d'; split_and!; try done.
      apply elem_of_difference; split; [done|]; intros E%elem_of_singleton%(inj _); by subst.
    + intros (d' & Hl' & -> & -> & [Hin Hne]%elem_of_difference); split; [|by exists d'].
      intros E%FormatUUID_inj; [|done..]; subst; by apply Hne, elem_of_singleton.
  - intros k [Hin _]%elem_of_difference; auto.
  - by rewrite dom_delete_L, Ht.
Qed.

Lemma tables_traffic names traffic traffic' peers : dom traffic' = dom traffic ->
  tables_agree names traffic peers -> tables_agree names traffic' peers.
Proof. intros Hd [Ha Hu Ht]; split; [done..|by rewrite Hd]. Qed.

Lemma tables_wf names traffic peers : tables_agree names traffic peers -> wf_keys peers.
Proof.
  intros HT k (d & Hl & ->)%(ta_uuid _ _ _ HT); exists d; split; [by intros ->|done].
Qed.

(** The name of a registered peer, and whose names a session key has. *)
Lemma tables_name names traffic peers d : length d = UUIDLen -> tables_agree names traffic peers ->
  Base64.EncodeToString d ∈ peers -> names !! FormatUUID d = Some (Base64.EncodeToString d).
Proof. intros Hl HT Hin; apply (ta_name _ _ _ HT); by exists d. Qed.

Lemma tables_name_unique names traffic peers a d : length d = UUIDLen -> tables_agree names traffic peers ->
  names !! a = Some (Base64.EncodeToString d) -> a = FormatUUID d.
Proof. intros Hl HT (d' & _ & -> & E%(inj _) & _)%(ta_name _ _ _ HT); by subst. Qed.
End Tables.
