(* ===== verification/Hysteria.v ===== *)
(** The Hysteria2 service: src/services/hysteria/hysteria.go (peers and the
    authentication hook) and src/services/hysteria/handshake.go.

    The server is a child process that asks the node, over HTTP on loopback,
    whether a client may connect ([handleAuth]), and is asked for traffic and told
    to kick clients through its statistics API, which is a parameter here. *)
From S2P Require Import Prelude Codec Uuid Types Admission AdmissionProofs Handshake HandshakeProofs Keyed UuidTables.
Set Default Proof Using "Type*".

Record counters := mkCounters { c_upload : Z; c_download : Z }.

(** The statistics API: the HTTP status, and the traffic since the last read. *)
Class StatsAPI (A : Type) := {
  kick : string -> M A gerror Z;
  traffic_clear : M A gerror (Z * option (gmap string (Z * Z)))   (* no body when it does not decode *)
}.

(** [statsAPI]: the request behind both calls.  [fmt.Sprintf("%d")] is [Itoa]. *)
Record apiRequest := mkApiRequest { ar_Method : string; ar_URL : string; ar_Authorization : string; ar_ContentType : option string; ar_Body : option bytes }.
Definition statsAPI (Itoa : Z -> string) (statsPort : Z) (statsSecret method path : string) (body : option bytes) : apiRequest :=
  mkApiRequest method ("http://127.0.0.1:" +:+ Itoa statsPort +:+ path)%string statsSecret
    (if body is Some _ then Some "application/json"%string else None) body.

Record hysteria (A : Type) := mkHy {
  byAuth : gmap string string;       (* canonical uuid -> session key *)
  traffic : gmap string counters;    (* session key -> accumulated traffic *)
  hy_peers : PeerSet_t;
  hy_api : A
}.
Arguments mkHy {A}. Arguments byAuth {A}. Arguments traffic {A}. Arguments hy_peers {A}. Arguments hy_api {A}.

Section Hysteria.
Context {A : Type} `{!StatsAPI A}.
Abbreviation hy := (hysteria A).

Definition modify (f : hy -> hy) : M hy gerror unit := fun s => (inr tt, f s).
Definition on_api {B} (m : M A gerror B) : M hy gerror B := fun s =>
  let '(r, a) := m (hy_api s) in (r, mkHy (byAuth s) (traffic s) (hy_peers s) a).

Definition peerKey (data : bytes) : string := Base64.EncodeToString data.
Definition checkPeerData (data : bytes) : M hy gerror unit :=
  throw_if (negb (length data =? UUIDLen)%nat) "peer data must be a 16-byte uuid"%string.

Definition hy_New (a : A) : hy := mkHy ∅ ∅ PeerSet_New a.

Definition hy_AddPeer (data : bytes) : M hy gerror bytes :=
  checkPeerData data ≫= fun _ =>
  let key := peerKey data in
  modify (fun s => mkHy (<[FormatUUID data := key]> (byAuth s))
    (match traffic s !! key with Some _ => traffic s | None => <[key := mkCounters 0 0]> (traffic s) end)
    (hy_peers s) (hy_api s)) ≫= fun _ =>
  modify (fun s => mkHy (byAuth s) (traffic s) (PeerSet_Put key (hy_peers s)) (hy_api s)) ≫= fun _ =>
  mret [].

Definition hy_HasPeer (data : bytes) (s : hy) : bool := PeerSet_Has (peerKey data) (hy_peers s).

Definition hy_RemovePeer (data : bytes) : M hy gerror unit :=
  checkPeerData data ≫= fun _ =>
  let key := peerKey data in
  modify (fun s => mkHy (delete (FormatUUID data) (byAuth s)) (delete key (traffic s))
    (hy_peers s) (hy_api s)) ≫= fun _ =>
  modify (fun s => mkHy (byAuth s) (traffic s) (PeerSet_Delete key (hy_peers s)) (hy_api s)) ≫= fun _ =>
  status ← on_api (kick key);
  throw_if (negb (status =? 200)) "kick: status"%string.

(** Fold the traffic since the last read into the counters. *)
Definition accumulate (delta : gmap string (Z * Z)) (key : string) (c : counters) : counters :=
  match delta !! key with
  | Some (tx, rx) => mkCounters (wrap64 (c_upload c + tx)) (wrap64 (c_download c + rx))
  | None => c
  end.

Definition hy_Peers : M hy gerror (list Peer) :=
  res ← on_api traffic_clear;
  let '(status, body) := res in
  throw_if (negb (status =? 200)) "traffic: status"%string ≫= fun _ =>
  match body with
  | None => throw "traffic: invalid body"%string
  | Some delta =>
    modify (fun s => mkHy (byAuth s) (map_imap (fun k c => Some (accumulate delta k c)) (traffic s))
      (hy_peers s) (hy_api s)) ≫= fun _ =>
    gets (fun s => (fun key => let c := default (mkCounters 0 0) (traffic s !! key) in
                      mkPeer key (c_upload c) (c_download c)) <$> PeerSet_Keys (hy_peers s))
  end.

Definition hy_PeerCount (s : hy) : Z := PeerSet_Len (hy_peers s).

(** The authentication hook: the reply's status and, for an answer, whether the
    client may connect and the id its traffic is filed under.  [auth] is the
    password of the decoded body, [None] when it does not decode. *)
Record authReply := mkAuth { auth_Status : Z; auth_OK : bool; auth_ID : string }.

Definition handleAuth (post : bool) (auth : option string) (s : hy) : authReply :=
  if negb post then mkAuth 405 false "" else
  match auth with
  | None => mkAuth 400 false ""
  | Some auth =>
      match byAuth s !! auth with
      | None => mkAuth 200 false ""
      | Some key => mkAuth 200 true key
      end
  end.

Definition hy_service : Service hy := {|
  AddPeer := hy_AddPeer; HasPeer := hy_HasPeer; RemovePeer := hy_RemovePeer;
  Peers := hy_Peers; PeerCount := hy_PeerCount
|}.

(** ** The handshake *)
Record hyInbound := mkHyInbound { hi_Port : Z; hi_TLSPin : string; hi_ObfsPassword : string }.

Definition hy_ParsePeerRequest (req : option uuid_request) : result bytes :=
  match UUIDPeerRequest req with
  | inl _ => inl "invalid peer request"%string
  | inr id => inr id
  end.

Definition hy_HandshakePayload (info : bytes) (tlsPin obfs : string) (res : bytes)
  : result (list hyInbound) := inr [mkHyInbound (BE.get (take 2 info)) tlsPin obfs].

(** The root document: nothing of the session, and only whether there is a password. *)
Definition hy_PublicMetadata (obfs : string) : list hyInbound :=
  [mkHyInbound 0 "" (if bool_decide (obfs = ""%string) then "" else "<redacted>")].

(** * The invariant *)

(** The tables describe the same peers. *)
Definition hy_inv (s : hy) : Prop := tables_agree (byAuth s) (traffic s) (hy_peers s).

(** What the operations do, read off their branches. *)
Lemma hy_AddPeer_inv d s r s' : hy_AddPeer d s = (r, s') ->
  (∃ e, r = inl e ∧ s' = s ∧ length d ≠ UUIDLen)
  ∨ (r = inr [] ∧ length d = UUIDLen ∧ s' = mkHy (<[FormatUUID d := peerKey d]> (byAuth s))
      (match traffic s !! peerKey d with Some _ => traffic s | None => <[peerKey d := mkCounters 0 0]> (traffic s) end)
      (PeerSet_Put (peerKey d) (hy_peers s)) (hy_api s)).
Proof.
  unfold hy_AddPeer, checkPeerData, throw_if, modify, throw, mbind, M_bind, mret, M_ret.
  destruct (Nat.eqb_spec (length d) UUIDLen); simpl; intros [= <- <-]; eauto.
Qed.

Lemma hy_RemovePeer_inv d s r s' : hy_RemovePeer d s = (r, s') ->
  (∃ e, r = inl e ∧ s' = s ∧ length d ≠ UUIDLen)
  ∨ (length d = UUIDLen ∧ ∃ a, s' = mkHy (delete (FormatUUID d) (byAuth s)) (delete (peerKey d) (traffic s))
      (PeerSet_Delete (peerKey d) (hy_peers s)) a).
Proof.
  unfold hy_RemovePeer, checkPeerData, throw_if, modify, on_api, throw, mbind, M_bind, mret, M_ret.
  destruct (Nat.eqb_spec (length d) UUIDLen) as [E|E]; simpl; [|intros [= <- <-]; left; eauto].
  destruct (kick (peerKey d) (hy_api s)) as [[e|st] a]; [intros [= <- <-]; right; eauto|].
  destruct (st =? 200); simpl; intros [= <- <-]; right; eauto.
Qed.

Lemma hy_Peers_inv s r s' : hy_Peers s = (r, s') ->
  hy_peers s' = hy_peers s ∧ byAuth s' = byAuth s ∧ dom (traffic s') = dom (traffic s)
  ∧ (if r is inr items then p_Key <$> items = elements (hy_peers s) else True).
Proof.
  unfold hy_Peers, on_api, throw_if, modify, gets, throw, mbind, M_bind, mret, M_ret.
  destruct (traffic_clear (hy_api s)) as [[e|[st body]] a]; [by intros [= <- <-]|].
  destruct (st =? 200); simpl; [|by intros [= <- <-]].
  destruct body as [delta|]; intros [= <- <-]; simpl; [|done]; split_and!; try done.
  - apply dom_imap_L; intros k; rewrite elem_of_dom; unfold is_Some; naive_solver.
  - by rewrite <- list_fmap_compose, list_fmap_id.
Qed.

Lemma hy_inv_add d s r s' : hy_inv s -> hy_AddPeer d s = (r, s') -> hy_inv s'.
Proof.
  intros Hs [(e & _ & -> & _)|(_ & Hl & ->)]%hy_AddPeer_inv; [done|]; by apply tables_add.
Qed.

Lemma hy_inv_remove d s r s' : hy_inv s -> hy_RemovePeer d s = (r, s') -> hy_inv s'.
Proof.
  intros Hs [(e & _ & -> & _)|(Hl & a & ->)]%hy_RemovePeer_inv; [done|]; by apply tables_forget.
Qed.

Lemma hy_inv_peers s r s' : hy_inv s -> hy_Peers s = (r, s') -> hy_inv s'.
Proof.
  intros Hs (Hp & Hb & Hd & _)%hy_Peers_inv; unfold hy_inv; rewrite Hp, Hb.
  by eapply tables_traffic.
Qed.

#[local] Existing Instance hy_service.

#[export] Instance hy_keyed : KeyedService (S := hy) hy_peers hy_inv.
Proof.
  split; simpl.
  - by intros s d r s' [(e & -> & -> & _)|(-> & _ & ->)]%hy_AddPeer_inv.
  - intros s d r s' [(e & -> & -> & _)|(_ & a & ->)]%hy_RemovePeer_inv; [by right|by left].
  - by intros s r s' (H & _)%hy_Peers_inv.
  - done.
  - done.
  - intros s d r s' HJ _; by apply hy_inv_add.
  - intros s d r s' HJ _; by apply hy_inv_remove.
  - intros s r s' HJ _; by apply hy_inv_peers.
Qed.

Definition hy_laws : ServiceLaws hy := keyed_laws hy_peers hy_inv.

(** The decoder of the request is a parameter. *)
Definition hy_api_of (unmarshal : bytes -> option uuid_request) (info : bytes) (tlsPin obfs : string)
  : ServiceAPI hy := {|
  Payload := list hyInbound;
  ParsePeerRequest raw := fun s => (hy_ParsePeerRequest (unmarshal raw), s);
  HandshakePayload res := fun s => (hy_HandshakePayload info tlsPin obfs res, s);
  Info _ := info
|}.

Lemma hy_api_laws unmarshal info tlsPin obfs :
  ServiceAPILaws hy (ServiceLaws0 := hy_laws) (ServiceAPI0 := hy_api_of unmarshal info tlsPin obfs).
Proof.
  split; simpl.
  - intros s raw r s' Hs [= <- <-]; split_and!; try done; unfold hy_ParsePeerRequest.
    destruct (UUIDPeerRequest _) as [|id] eqn:E; [done|]; apply UUIDPeerRequest_length in E; by intros ->.
  - by intros s res r s' Hs [= <- <-].
Qed.

(** Runs of the service. *)
Inductive hy_reach : hy -> Prop :=
  | hy_start a : hy_reach (hy_New a)
  | hy_adds s d r s' : hy_reach s -> hy_AddPeer d s = (r, s') -> hy_reach s'
  | hy_removes s d r s' : hy_reach s -> hy_RemovePeer d s = (r, s') -> hy_reach s'
  | hy_reads s r s' : hy_reach s -> hy_Peers s = (r, s') -> hy_reach s'.

Lemma hy_reach_inv s : hy_reach s -> hy_inv s.
Proof.
  induction 1 as [a|s d r s' _ IH H|s d r s' _ IH H|s r s' _ IH H];
    [apply tables_empty|by eapply hy_inv_add|by eapply hy_inv_remove|by eapply hy_inv_peers].
Qed.

(** C24. The authentication hook admits exactly the registered peers: however
    peers came and went, a client is let in if and only if the server asked with
    the canonical uuid of a peer registered now, and the traffic of the
    connection is filed under that peer's session key and no other.  A removed
    peer is refused even if kicking its open connection failed. *)
Theorem handleAuth_exact s post auth key : hy_reach s ->
  (auth_OK (handleAuth post auth s) = true ∧ auth_ID (handleAuth post auth s) = key) <->
  post = true ∧ ∃ d, length d = UUIDLen ∧ auth = Some (FormatUUID d) ∧ key = Base64.EncodeToString d
    ∧ hy_HasPeer d s = true.
Proof.
  intros Hs%hy_reach_inv; unfold handleAuth, hy_HasPeer, PeerSet_Has, peerKey.
  destruct post; simpl; [|by split; intros []]; destruct auth as [auth|]; simpl;
    [|split; [by intros []|by intros (_ & d & _ & [=] & _)]].
  split.
  - destruct (byAuth s !! auth) as [k|] eqn:E; simpl; [intros [_ <-]|by intros []]; split; [done|].
    apply (ta_name _ _ _ Hs) in E as (d & Hl & -> & -> & Hin); exists d; by rewrite bool_decide_eq_true.
  - intros (_ & d & Hl & [= ->] & -> & Hin%bool_decide_eq_true).
    by rewrite (tables_name _ _ _ _ Hl Hs Hin).
Qed.
End Hysteria.
