(* ===== verification/Wire.v ===== *)
(** The messages the node exchanges with xray's control API:
    src/services/xray/wire.go.

    The encoding primitives are the protowire package's, a parameter with its
    documented round trips as laws; what is verified is how the source composes
    them.  [wire] and [fields] are the reference encoding and decoding of a
    message as a list of fields, and [decodeRequest] reads a request the way its
    receiver does, field by number. *)
From S2P Require Import Prelude Codec.
Set Default Proof Using "Type*".

Definition VarintType : Z := 0.
Definition BytesType : Z := 2.

(** protowire: the consuming functions answer the bytes used, negative on error. *)
Class Protowire := {
  AppendTag : bytes -> Z -> Z -> bytes;
  AppendVarint : bytes -> Z -> bytes;
  AppendBytes : bytes -> bytes -> bytes;
  AppendString : bytes -> string -> bytes;
  ConsumeTag : bytes -> Z * Z * Z;
  ConsumeVarint : bytes -> Z * Z;
  ConsumeBytes : bytes -> bytes * Z;
  ConsumeString : bytes -> string * Z;
  ConsumeFieldValue : Z -> Z -> bytes -> Z;
  ParseError : Z -> gerror   (* the error of a negative count *)
}.

Definition len (b : bytes) : Z := Z.of_nat (length b).
Definition str (s : string) : bytes := String.list_byte_of_string s.
Definition known_type (typ : Z) : Prop := typ = VarintType ∨ typ = BytesType.
Definition valid_number (num : Z) : Prop := 1 <= num < 2 ^ 29.

Class ProtowireLaws `{!Protowire} := {
  tag_append b num typ : AppendTag b num typ = b ++ AppendTag [] num typ;
  varint_append b v : AppendVarint b v = b ++ AppendVarint [] v;
  bytes_append b m : AppendBytes b m = b ++ AppendBytes [] m;
  string_append b s : AppendString b s = AppendBytes b (str s);
  tag_round num typ r : valid_number num -> known_type typ ->
    ConsumeTag (AppendTag [] num typ ++ r) = (num, typ, len (AppendTag [] num typ));
  varint_round v r : is_uint64 v -> ConsumeVarint (AppendVarint [] v ++ r) = (v, len (AppendVarint [] v));
  bytes_round m r : len m <= max_int64 -> ConsumeBytes (AppendBytes [] m ++ r) = (m, len (AppendBytes [] m));
  string_consume b : ConsumeString b = (String.string_of_list_byte (ConsumeBytes b).1, (ConsumeBytes b).2);
  skip_varint num b : ConsumeFieldValue num VarintType b = (ConsumeVarint b).2;
  skip_bytes num b : ConsumeFieldValue num BytesType b = (ConsumeBytes b).2;
  tag_size b : (ConsumeTag b).2 < 0 ∨ 0 < (ConsumeTag b).2 <= len b;
  varint_size b : (ConsumeVarint b).2 < 0 ∨ 0 <= (ConsumeVarint b).2 <= len b;
  bytes_size b : (ConsumeBytes b).2 < 0 ∨ 0 <= (ConsumeBytes b).2 <= len b;
  value_size num typ b : ConsumeFieldValue num typ b < 0 ∨ 0 <= ConsumeFieldValue num typ b <= len b;
  bytes_grow m : len m <= len (AppendBytes [] m)
}.

(** [b[n:]]. *)
Definition from (n : Z) (b : bytes) : bytes := drop (Z.to_nat n) b.

Section Wire.
Context {PW : Protowire}.

(** * The encoders *)
Definition appendString (b : bytes) (num : Z) (s : string) : bytes :=
  if bool_decide (s = ""%string) then b else AppendString (AppendTag b num BytesType) s.
Definition appendMessage (b : bytes) (num : Z) (m : bytes) : bytes :=
  AppendBytes (AppendTag b num BytesType) m.
Definition appendBool (b : bytes) (num : Z) (v : bool) : bytes :=
  if negb v then b else AppendVarint (AppendTag b num VarintType) 1.

Definition typedMessage (typeName : string) (value : bytes) : bytes :=
  appendMessage (appendString [] 1 typeName) 2 value.
Definition vlessAccount (id flow encryption : string) : bytes :=
  appendString (appendString (appendString [] 1 id) 2 flow) 3 encryption.
Definition user (email : string) (account : bytes) : bytes :=
  appendMessage (appendString [] 2 email) 3 account.
Definition alterInboundRequest (tag : string) (operation : bytes) : bytes :=
  appendMessage (appendString [] 1 tag) 2 operation.

Definition typeAddUserOperation : string := "xray.app.proxyman.command.AddUserOperation".
Definition typeRemoveUserOperation : string := "xray.app.proxyman.command.RemoveUserOperation".
Definition typeVLESSAccount : string := "xray.proxy.vless.Account".
(** [rawCodec] passes a message through as it is; a value that is not one of ours is refused. *)
Inductive grpcMessage := RawMessage (b : bytes) | OtherMessage (type : string).
Definition rawCodec_Marshal (v : grpcMessage) : result bytes :=
  match v with RawMessage m => inr m | OtherMessage t => inl ("rawCodec: unexpected " +:+ t)%string end.
Definition rawCodec_Unmarshal (data : bytes) (v : grpcMessage) : result grpcMessage :=
  match v with RawMessage _ => inr (RawMessage data) | OtherMessage t => inl ("rawCodec: unexpected " +:+ t)%string end.
(** [invoke]: the connection is given the codec, the request and an empty reply. *)
Definition wire_invoke {A} (Invoke : (grpcMessage -> result bytes) -> (bytes -> grpcMessage -> result grpcMessage) ->
    string -> grpcMessage -> grpcMessage -> M A gerror grpcMessage) (method : string) (req : bytes) : M A gerror bytes :=
  out ← Invoke rawCodec_Marshal rawCodec_Unmarshal method (RawMessage req) (RawMessage []);
  mret (match out with RawMessage b => b | OtherMessage _ => [] end).
Lemma rawCodec_back m b : rawCodec_Marshal m = inr b -> rawCodec_Unmarshal b m = inr m.
Proof. by destruct m; [intros [= ->]|]. Qed.

Definition methodAlterInbound : string := "/xray.app.proxyman.command.HandlerService/AlterInbound".
Definition methodQueryStats : string := "/xray.app.stats.command.StatsService/QueryStats".

Definition addUserRequest (tag email uuid flow : string) : bytes :=
  let account := typedMessage typeVLESSAccount (vlessAccount uuid flow "none") in
  let operation := appendMessage [] 1 (user email account) in
  alterInboundRequest tag (typedMessage typeAddUserOperation operation).
Definition removeUserRequest (tag email : string) : bytes :=
  let operation := appendString [] 1 email in
  alterInboundRequest tag (typedMessage typeRemoveUserOperation operation).
Definition queryStatsRequest (pattern : string) (reset : bool) : bytes :=
  appendBool (appendString [] 1 pattern) 2 reset.

(** * The decoders

    [None]: the loop's fuel ran out. *)
Fixpoint parseStat_loop (fuel : nat) (b : bytes) (name : string) (value : Z)
  : option (result (string * Z)) :=
  match fuel with
  | O => None
  | S fuel =>
    if (length b =? 0)%nat then Some (inr (name, value)) else
    let '(num, typ, n) := ConsumeTag b in
    if n <? 0 then Some (inl (ParseError n)) else
    let b := from n b in
    if (num =? 1) && (typ =? BytesType) then
      let '(s, n) := ConsumeString b in
      if n <? 0 then Some (inl (ParseError n)) else parseStat_loop fuel (from n b) s value
    else if (num =? 2) && (typ =? VarintType) then
      let '(v, n) := ConsumeVarint b in
      if n <? 0 then Some (inl (ParseError n)) else parseStat_loop fuel (from n b) name (wrap64 v)
    else
      let n := ConsumeFieldValue num typ b in
      if n <? 0 then Some (inl (ParseError n)) else parseStat_loop fuel (from n b) name value
  end.
Definition parseStat (b : bytes) : option (result (string * Z)) :=
  parseStat_loop (S (length b)) b "" 0.

Fixpoint parseQueryStats_loop (fuel : nat) (b : bytes) (stats : gmap string Z)
  : option (result (gmap string Z)) :=
  match fuel with
  | O => None
  | S fuel =>
    if (length b =? 0)%nat then Some (inr stats) else
    let '(num, typ, n) := ConsumeTag b in
    if n <? 0 then Some (inl (ParseError n)) else
    let b := from n b in
    if negb (num =? 1) || negb (typ =? BytesType) then
      let n := ConsumeFieldValue num typ b in
      if n <? 0 then Some (inl (ParseError n)) else parseQueryStats_loop fuel (from n b) stats
    else
      let '(stat, n) := ConsumeBytes b in
      if n <? 0 then Some (inl (ParseError n)) else
      match parseStat stat with
      | Some (inr (name, value)) => parseQueryStats_loop fuel (from n b) (<[name := value]> stats)
      | Some (inl err) => Some (inl err)
      | None => None
      end
  end.
Definition parseQueryStatsResponse (b : bytes) : option (result (gmap string Z)) :=
  parseQueryStats_loop (S (length b)) b ∅.

(** * Messages as lists of fields *)
Definition field : Type := Z * (Z + bytes).
Definition wire_field (f : field) : bytes :=
  match f.2 with
  | inl v => AppendVarint (AppendTag [] f.1 VarintType) v
  | inr m => AppendBytes (AppendTag [] f.1 BytesType) m
  end.
Definition wire (fs : list field) : bytes := concat (wire_field <$> fs).

Definition valid_field (f : field) : Prop :=
  valid_number f.1 ∧ match f.2 with inl v => is_uint64 v | inr m => len m <= max_int64 end.

(** A field holding the default is left out. *)
Definition opt_string (num : Z) (s : string) : list field :=
  if bool_decide (s = ""%string) then [] else [(num, inr (str s))].

Fixpoint fields_loop (fuel : nat) (b : bytes) : option (list field) :=
  match fuel with
  | O => None
  | S fuel =>
    if (length b =? 0)%nat then Some [] else
    let '(num, typ, n) := ConsumeTag b in
    if n <? 0 then None else
    let b := from n b in
    if typ =? BytesType then
      let '(m, n) := ConsumeBytes b in
      if n <? 0 then None else cons (num, inr m) <$> fields_loop fuel (from n b)
    else if typ =? VarintType then
      let '(v, n) := ConsumeVarint b in
      if n <? 0 then None else cons (num, inl v) <$> fields_loop fuel (from n b)
    else None
  end.
Definition fields (b : bytes) : option (list field) := fields_loop (S (length b)) b.

(** The value of a field: its last occurrence, or the default. *)
Definition bytes_field (num : Z) (fs : list field) : bytes :=
  foldl (fun acc (f : field) => match f.2 with inr m => if f.1 =? num then m else acc | inl _ => acc end) [] fs.
Definition bool_field (num : Z) (fs : list field) : bool :=
  foldl (fun acc (f : field) => match f.2 with inl v => if f.1 =? num then negb (v =? 0) else acc | inr _ => acc end) false fs.

(** What the receiver of AlterInbound reads. *)
Inductive request :=
  | AddUser (tag email uuid flow encryption : bytes)
  | RemoveUser (tag email : bytes).

Definition decodeRequest (b : bytes) : option request :=
  req ← fields b;
  op ← fields (bytes_field 2 req);
  value ← fields (bytes_field 2 op);
  if bool_decide (bytes_field 1 op = str typeAddUserOperation) then
    usr ← fields (bytes_field 1 value);
    account ← fields (bytes_field 3 usr);
    if bool_decide (bytes_field 1 account = str typeVLESSAccount) then
      vless ← fields (bytes_field 2 account);
      Some (AddUser (bytes_field 1 req) (bytes_field 2 usr)
        (bytes_field 1 vless) (bytes_field 2 vless) (bytes_field 3 vless))
    else None
  else if bool_decide (bytes_field 1 op = str typeRemoveUserOperation) then
    Some (RemoveUser (bytes_field 1 req) (bytes_field 1 value))
  else None.

Definition decodeQuery (b : bytes) : option (bytes * bool) :=
  req ← fields b; Some (bytes_field 1 req, bool_field 2 req).

(** * Proofs *)
Context {HW : ProtowireLaws}.

Lemma from_app a r : from (len a) (a ++ r) = r.
Proof. unfold from, len; by rewrite Nat2Z.id, drop_app_length. Qed.

Lemma len_nonneg b : 0 <= len b.
Proof. unfold len; lia. Qed.

Lemma len_from n b : 0 <= n <= len b -> length (from n b) = (length b - Z.to_nat n)%nat.
Proof. intros _; apply length_drop. Qed.

Lemma wire_app fs fs' : wire (fs ++ fs') = wire fs ++ wire fs'.
Proof. unfold wire; by rewrite fmap_app, concat_app. Qed.

Lemma wire_bytes num m r : wire ((num, inr m) :: r) = AppendTag [] num BytesType ++ AppendBytes [] m ++ wire r.
Proof. unfold wire; cbn; unfold wire_field; cbn; by rewrite bytes_append, <- app_assoc. Qed.
Lemma wire_varint num v r : wire ((num, inl v) :: r) = AppendTag [] num VarintType ++ AppendVarint [] v ++ wire r.
Proof. unfold wire; cbn; unfold wire_field; cbn; by rewrite varint_append, <- app_assoc. Qed.

Lemma varint_known : known_type VarintType.
Proof. by left. Qed.
Lemma bytes_known : known_type BytesType.
Proof. by right. Qed.

(** A tag takes at least a byte. *)
Lemma tag_pos num typ : valid_number num -> known_type typ ->
  0 < len (AppendTag [] num typ).
Proof.
  intros Hn Ht; pose proof (tag_round num typ [] Hn Ht) as H.
  pose proof (tag_size (AppendTag [] num typ ++ [])) as Hs; rewrite H in Hs; cbn in Hs.
  pose proof (len_nonneg (AppendTag [] num typ)); lia.
Qed.

Lemma tag_not_nil num typ r : valid_number num -> known_type typ ->
  (length (AppendTag [] num typ ++ r) =? 0)%nat = false.
Proof. intros Hn Ht; pose proof (tag_pos _ _ Hn Ht) as H; unfold len in H; rewrite length_app; apply Nat.eqb_neq; lia. Qed.

Lemma len_ltb b : (len b <? 0) = false.
Proof. pose proof (len_nonneg b); by apply Z.ltb_ge. Qed.

(** The head of every decoding loop, on an encoded field. *)
Ltac eat_tag Hn Ht :=
  rewrite (tag_not_nil _ _ _ Hn Ht), (tag_round _ _ _ Hn Ht); cbn -[from parseStat]; rewrite len_ltb, from_app.

Ltac shorter Hf Hn Ht := pose proof (tag_pos _ _ Hn Ht); unfold len in *; rewrite !length_app in Hf; lia.

Lemma fields_loop_wire fs fuel : Forall valid_field fs -> (length (wire fs) < fuel)%nat ->
  fields_loop fuel (wire fs) = Some fs.
Proof.
  intros Hv; revert fuel; induction Hv as [|[num [v|m]] fs [Hn Hx] Hv IH]; intros [|fuel] Hf; [lia|done|lia| |lia|].
  all: cbn in Hn, Hx; cbn [fields_loop].
  - rewrite wire_varint in *; eat_tag Hn varint_known.
    rewrite varint_round, len_ltb, from_app, IH; [done| |done].
    shorter Hf Hn varint_known.
  - rewrite wire_bytes in *; eat_tag Hn bytes_known.
    rewrite bytes_round, len_ltb, from_app, IH; [done| |done].
    shorter Hf Hn bytes_known.
Qed.

Lemma fields_wire fs : Forall valid_field fs -> fields (wire fs) = Some fs.
Proof. intros Hv; apply fields_loop_wire; [done|lia]. Qed.

(** ** The requests as lists of fields *)
Lemma appendString_wire b num s : appendString b num s = b ++ wire (opt_string num s).
Proof.
  unfold appendString, opt_string; case_bool_decide; [by rewrite app_nil_r|].
  by rewrite string_append, bytes_append, tag_append, wire_bytes, app_nil_r, <- app_assoc.
Qed.
Lemma appendMessage_wire b num m : appendMessage b num m = b ++ wire [(num, inr m)].
Proof. unfold appendMessage; by rewrite bytes_append, tag_append, wire_bytes, app_nil_r, <- app_assoc. Qed.
Lemma appendBool_wire b num v : appendBool b num v = b ++ wire (if v then [(num, inl 1)] else []).
Proof.
  unfold appendBool; destruct v; cbn [negb]; [|by rewrite app_nil_r].
  by rewrite varint_append, tag_append, wire_varint, app_nil_r, <- app_assoc.
Qed.

(** A message no longer than the memory has only valid fields. *)
Definition plain_field (f : field) : Prop :=
  valid_number f.1 ∧ match f.2 with inl v => is_uint64 v | inr _ => True end.

Lemma valid_fields fs : Forall plain_field fs -> len (wire fs) <= max_int64 -> Forall valid_field fs.
Proof.
  induction 1 as [|[num [v|m]] fs [Hn Hx] Hf IH]; intros Hl; [constructor|..];
    rewrite ?wire_varint, ?wire_bytes in Hl; unfold len in Hl; rewrite !length_app in Hl.
  - constructor; [done|]; apply IH; unfold len; lia.
  - pose proof (bytes_grow m) as Hg; unfold len in Hg.
    constructor; [split; [done|]; cbn; unfold len; lia|]; apply IH; unfold len; lia.
Qed.

Lemma fields_plain fs : Forall plain_field fs -> len (wire fs) <= max_int64 -> fields (wire fs) = Some fs.
Proof. intros Hp Hl; by apply fields_wire, valid_fields. Qed.

Lemma len_nested num m fs : len (wire (fs ++ [(num, inr m)])) <= max_int64 -> len m <= max_int64.
Proof.
  rewrite wire_app, wire_bytes; pose proof (bytes_grow m) as Hg.
  unfold len in *; rewrite !length_app; lia.
Qed.

Lemma opt_string_plain num s : valid_number num -> Forall plain_field (opt_string num s).
Proof. intros Hn; unfold opt_string; case_bool_decide; repeat constructor; apply Hn. Qed.

(** Reading back an optional string: the one with the number, and no other. *)
Lemma bytes_field_opt num num' s fs :
  bytes_field num (opt_string num' s ++ fs) =
  foldl (fun acc (f : field) => match f.2 with inr m => if f.1 =? num then m else acc | inl _ => acc end)
    (if num' =? num then str s else []) fs.
Proof.
  unfold opt_string; case_bool_decide as E; cbn; [subst|done].
  destruct (num' =? num); done.
Qed.

Ltac plain := repeat apply Forall_app_2; repeat first
  [apply opt_string_plain | apply Forall_cons_2 | apply Forall_nil_2 | split | done | unfold valid_number, is_uint64; cbn; lia].

(** Decode the next message and read its fields. *)
Ltac read := rewrite fields_plain by (done || plain); cbn [mbind option_bind];
  rewrite ?bytes_field_opt; cbn [foldl fst snd Z.eqb Pos.eqb].

Lemma typedMessage_wire name value : typedMessage name value = wire (opt_string 1 name ++ [(2, inr value)]).
Proof. unfold typedMessage; by rewrite appendMessage_wire, appendString_wire, wire_app. Qed.
Lemma alterInbound_wire tag op : alterInboundRequest tag op = wire (opt_string 1 tag ++ [(2, inr op)]).
Proof. unfold alterInboundRequest; by rewrite appendMessage_wire, appendString_wire, wire_app. Qed.
Lemma user_wire email account : user email account = wire (opt_string 2 email ++ [(3, inr account)]).
Proof. unfold user; by rewrite appendMessage_wire, appendString_wire, wire_app. Qed.
Lemma vless_wire id flow enc : vlessAccount id flow enc = wire (opt_string 1 id ++ opt_string 2 flow ++ opt_string 3 enc).
Proof. unfold vlessAccount; rewrite !appendString_wire, !wire_app; by rewrite app_assoc. Qed.

Lemma query_wire pattern reset :
  queryStatsRequest pattern reset = wire (opt_string 1 pattern ++ if reset then [(2, inl 1)] else []).
Proof. unfold queryStatsRequest; by rewrite appendBool_wire, appendString_wire, wire_app. Qed.

Lemma vless_read id flow enc : let fs := opt_string 1 id ++ opt_string 2 flow ++ opt_string 3 enc in
  bytes_field 1 fs = str id ∧ bytes_field 2 fs = str flow ∧ bytes_field 3 fs = str enc.
Proof.
  cbv zeta; rewrite !bytes_field_opt; unfold opt_string.
  split_and!; repeat case_bool_decide; subst; done.
Qed.

(** C25. What xray reads is what the node meant: decoding a request field by
    number gives back the inbound's tag, the user's session key, uuid and flow
    for an addition, the tag and the key for a removal, and the pattern and the
    reset flag of a statistics query, whatever the strings, the empty ones (left
    out of the encoding) included. *)
Theorem requests_decode tag email uuid flow pattern reset :
  len (addUserRequest tag email uuid flow) <= max_int64 ->
  len (removeUserRequest tag email) <= max_int64 ->
  len (queryStatsRequest pattern reset) <= max_int64 ->
  decodeRequest (addUserRequest tag email uuid flow)
    = Some (AddUser (str tag) (str email) (str uuid) (str flow) (str "none"))
  ∧ decodeRequest (removeUserRequest tag email) = Some (RemoveUser (str tag) (str email))
  ∧ decodeQuery (queryStatsRequest pattern reset) = Some (str pattern, reset).
Proof.
  intros Ha Hr Hq; split_and!.
  - unfold addUserRequest in *; cbv zeta in *.
    rewrite appendMessage_wire, alterInbound_wire, !typedMessage_wire, user_wire, vless_wire in *.
    cbn [app] in *; pose proof (len_nested _ _ _ Ha) as Ha1; pose proof (len_nested _ _ _ Ha1) as Ha2.
    pose proof (len_nested _ _ [] Ha2) as Ha3; pose proof (len_nested _ _ _ Ha3) as Ha4.
    pose proof (len_nested _ _ _ Ha4) as Ha5.
    unfold decodeRequest; read; read; read; rewrite bool_decide_true by done.
    cbn [bytes_field foldl fst snd Z.eqb Pos.eqb]; read; read; rewrite bool_decide_true by done.
    rewrite fields_plain by (done || plain); cbn [mbind option_bind].
    by destruct (vless_read uuid flow "none") as (-> & -> & ->).
  - unfold removeUserRequest in *; cbv zeta in *.
    rewrite appendString_wire, alterInbound_wire, typedMessage_wire in *; cbn [app] in *.
    pose proof (len_nested _ _ _ Hr) as Hr1; pose proof (len_nested _ _ _ Hr1) as Hr2.
    unfold decodeRequest; read; read; read; rewrite bool_decide_false, bool_decide_true by done.
    rewrite <- (app_nil_r (opt_string 1 email)); by rewrite bytes_field_opt.
  - rewrite query_wire in *; unfold decodeQuery; rewrite fields_plain by (done || (destruct reset; plain)); cbn [mbind option_bind].
    rewrite bytes_field_opt; unfold opt_string; case_bool_decide; subst; by destruct reset.
Qed.

(** ** The statistics reply *)

(** The loops finish: every turn eats a tag. *)
Lemma from_shorter n b : n < 0 ∨ 0 <= n <= len b -> (n <? 0) = false -> (length (from n b) <= length b)%nat.
Proof. intros H Hn%Z.ltb_ge; rewrite len_from by lia; lia. Qed.

Lemma from_tag_shorter b num typ n fuel : ConsumeTag b = (num, typ, n) -> (n <? 0) = false ->
  (length b < S fuel)%nat -> (length (from n b) < fuel)%nat.
Proof.
  intros Ht Hn%Z.ltb_ge Hf; pose proof (tag_size b) as Hs; rewrite Ht in Hs; cbn in Hs.
  rewrite len_from by lia; unfold len in *; lia.
Qed.

Lemma parseStat_loop_total fuel b name value : (length b < fuel)%nat -> parseStat_loop fuel b name value ≠ None.
Proof.
  revert b name value; induction fuel as [|fuel IH]; intros b name value Hf; [lia|cbn -[from]].
  destruct (length b =? 0)%nat; [done|].
  destruct (ConsumeTag b) as [[num typ] n] eqn:Ht; destruct (n <? 0) eqn:Hn; [done|].
  pose proof (from_tag_shorter _ _ _ _ _ Ht Hn Hf) as Hl; destruct (_ && _).
  - rewrite string_consume; pose proof (bytes_size (from n b)) as Hs.
    destruct (_.2 <? 0) eqn:Hc; [done|]; apply IH; pose proof (from_shorter _ _ Hs Hc); lia.
  - destruct (_ && _).
    + pose proof (varint_size (from n b)) as Hs; destruct (ConsumeVarint (from n b)) as [v k]; cbn in Hs.
      destruct (k <? 0) eqn:Hc; [done|]; apply IH; pose proof (from_shorter _ _ Hs Hc); lia.
    + pose proof (value_size num typ (from n b)) as Hs.
      destruct (ConsumeFieldValue _ _ _ <? 0) eqn:Hc; [done|]; apply IH; pose proof (from_shorter _ _ Hs Hc); lia.
Qed.

Lemma parseQueryStats_loop_total fuel b stats : (length b < fuel)%nat -> parseQueryStats_loop fuel b stats ≠ None.
Proof.
  revert b stats; induction fuel as [|fuel IH]; intros b stats Hf; [lia|cbn -[from parseStat]].
  destruct (length b =? 0)%nat; [done|].
  destruct (ConsumeTag b) as [[num typ] n] eqn:Ht; destruct (n <? 0) eqn:Hn; [done|].
  pose proof (from_tag_shorter _ _ _ _ _ Ht Hn Hf) as Hl; destruct (_ || _).
  - pose proof (value_size num typ (from n b)) as Hs.
    destruct (ConsumeFieldValue _ _ _ <? 0) eqn:Hc; [done|]; apply IH; pose proof (from_shorter _ _ Hs Hc); lia.
  - pose proof (bytes_size (from n b)) as Hs; destruct (ConsumeBytes (from n b)) as [stat k]; cbn in Hs.
    destruct (k <? 0) eqn:Hc; [done|].
    pose proof (parseStat_loop_total (S (length stat)) stat "" 0 ltac:(lia)) as Hp.
    fold (parseStat stat) in Hp; destruct (parseStat stat) as [[err|[name value]]|]; [done| |by destruct Hp].
    apply IH; pose proof (from_shorter _ _ Hs Hc); lia.
Qed.

(** What a list of fields means to each parser. *)
Definition stat_step (acc : string * Z) (f : field) : string * Z :=
  match f.2 with
  | inr m => if f.1 =? 1 then (String.string_of_list_byte m, acc.2) else acc
  | inl v => if f.1 =? 2 then (acc.1, wrap64 v) else acc
  end.
Definition stat_of (fs : list field) : string * Z := foldl stat_step (""%string, 0) fs.

(** A reply holds statistics and fields the node does not know. *)
Definition item : Type := list field + field.
Definition item_field (i : item) : field :=
  match i with inl fs => (1, inr (wire fs)) | inr f => f end.
Definition valid_item (i : item) : Prop :=
  match i with
  | inl fs => Forall plain_field fs
  | inr f => plain_field f ∧ (f.1 ≠ 1 ∨ ∃ v, f.2 = inl v)
  end.
Definition item_step (stats : gmap string Z) (i : item) : gmap string Z :=
  match i with
  | inl fs => <[(stat_of fs).1 := (stat_of fs).2]> stats
  | inr _ => stats
  end.

Lemma parseStat_loop_wire fs fuel name value : Forall valid_field fs -> (length (wire fs) < fuel)%nat ->
  parseStat_loop fuel (wire fs) name value = Some (inr (foldl stat_step (name, value) fs)).
Proof.
  intros Hv; revert fuel name value; induction Hv as [|[num [v|m]] fs [Hn Hx] Hv IH];
    intros [|fuel] name value Hf; [lia|done|lia| |lia|]; cbn in Hn, Hx; cbn [parseStat_loop].
  - rewrite wire_varint in *; eat_tag Hn varint_known; rewrite andb_false_r, andb_true_r.
    rewrite skip_varint, varint_round by done; cbn [fst snd]; rewrite len_ltb, from_app.
    cbn [foldl stat_step fst snd]; destruct (num =? 2); apply IH; shorter Hf Hn varint_known.
  - rewrite wire_bytes in *; eat_tag Hn bytes_known; rewrite andb_false_r, andb_true_r.
    rewrite skip_bytes, string_consume, bytes_round by done; cbn [fst snd]; rewrite len_ltb, from_app.
    cbn [foldl stat_step fst snd]; destruct (num =? 1); apply IH; shorter Hf Hn bytes_known.
Qed.

Lemma parseStat_wire fs : Forall plain_field fs -> len (wire fs) <= max_int64 ->
  parseStat (wire fs) = Some (inr (stat_of fs)).
Proof. intros Hp Hl; apply parseStat_loop_wire; [by apply valid_fields|lia]. Qed.

Lemma parseQueryStats_loop_wire items fuel stats : Forall valid_item items ->
  len (wire (item_field <$> items)) <= max_int64 -> (length (wire (item_field <$> items)) < fuel)%nat ->
  parseQueryStats_loop fuel (wire (item_field <$> items)) stats = Some (inr (foldl item_step stats items)).
Proof.
  intros Hv Hl; assert (Hw : Forall valid_field (item_field <$> items)).
  { apply valid_fields; [|done]; apply Forall_fmap; eapply Forall_impl; [exact Hv|].
    intros [fs|f]; cbn; [intros _; split; [unfold valid_number; cbn; lia|done]|by intros []]. }
  clear Hl; revert fuel stats Hw; induction Hv as [|[fs|[num [v|m]]] items Hi Hv IH]; intros fuel stats Hw Hf;
    (destruct fuel as [|fuel]; [lia|]); [done|..]; cbn [fmap list_fmap item_field] in *;
    apply Forall_cons in Hw as [[Hn Hx] Hw]; cbn [fst snd] in Hn, Hx; cbn [parseQueryStats_loop].
  - rewrite wire_bytes in *; eat_tag Hn bytes_known; rewrite bytes_round by done; cbn [fst snd].
    rewrite len_ltb, from_app, parseStat_wire by done; cbn [foldl item_step].
    destruct (stat_of fs) as [name value]; apply IH; [done|shorter Hf Hn bytes_known].
  - rewrite wire_varint in *; eat_tag Hn varint_known; rewrite orb_true_r, skip_varint, varint_round by done.
    cbn [fst snd]; rewrite len_ltb, from_app; apply IH; [done|shorter Hf Hn varint_known].
  - destruct Hi as [_ [Hne|[v [=]]]]; cbn [fst] in Hne; apply Z.eqb_neq in Hne.
    rewrite wire_bytes in *; eat_tag Hn bytes_known; rewrite Hne; cbn [negb orb]; rewrite skip_bytes, bytes_round by done.
    cbn [fst snd]; rewrite len_ltb, from_app; apply IH; [done|shorter Hf Hn bytes_known].
Qed.

(** C26. The statistics reply is read for what it says: every input is decided
    (the loops never run out, whatever the bytes), and on a reply that is a
    sequence of statistics and of fields the node does not know, in any order,
    the result maps each name to the last value the reply gives it, as a signed
    64-bit number, and skips the rest. *)
Theorem parseQueryStatsResponse_correct :
  (forall b, parseQueryStatsResponse b ≠ None)
  ∧ forall items, Forall valid_item items -> len (wire (item_field <$> items)) <= max_int64 ->
    parseQueryStatsResponse (wire (item_field <$> items)) = Some (inr (foldl item_step ∅ items)).
Proof.
  split; [intros b; apply parseQueryStats_loop_total; lia|].
  intros items Hv Hl; apply parseQueryStats_loop_wire; [done..|lia].
Qed.
End Wire.
