(* ===== verification/XRay.v ===== *)
(** The XRAY service: src/services/xray/xray.go, handshake.go, and the data of
    src/services/xray/types/config.go they use.

    The proxy is a child process driven over gRPC; the connection is a parameter
    ([GRPC]), the messages are the ones of Wire.v. *)
From S2P Require Import Prelude Codec Uuid Types Admission AdmissionProofs Guard Handshake HandshakeProofs Keyed Wire.
Set Default Proof Using "Type*".

(** A gRPC connection to a port of loopback. *)
Class GRPC (A : Type) := {
  NewClient : Z -> M A gerror unit;
  CloseConn : A -> A;
  Invoke : string -> bytes -> M A gerror bytes
}.

(** ** Data *)
Record VLESSConfig := mkVLESS { vless_ListenPort : Z; vless_Security : string; vless_Flow : bool }.
Record RealityConfig := mkReality {
  re_ServerName : string; re_PrivateKey : string; re_PublicKey : string;
  re_ShortID : string; re_Fingerprint : string }.
Record XConfig := mkXConfig { xc_VLESS : VLESSConfig; xc_Reality : RealityConfig; xc_APIPort : Z }.

(** src/types/service.go *)
Record Inbound := mkInbound {
  in_Port : Z; in_ProxyProtocol : Z; in_TransportProtocol : Z; in_TransportSecurity : Z;
  in_TLSPin : string; in_Flow : Z; in_RealityServerName : string; in_RealityShortID : string;
  in_RealityPublicKey : string; in_RealityFingerprint : string }.
Definition ProxyProtocolVLESS : Z := 1.
Definition ProxyProtocolVMess : Z := 2.
Definition TransportProtocolTCP : Z := 1.
Definition TransportSecurityNone : Z := 1.
Definition TransportSecurityTLS : Z := 2.
Definition TransportSecurityReality : Z := 3.
Definition FlowNone : Z := 1.
Definition FlowVision : Z := 2.

Record XPublicInbound := mkXPublic {
  xp_Port : string; xp_ProxyProtocol : Z; xp_TransportProtocol : Z; xp_TransportSecurity : Z;
  xp_Flow : Z; xp_Method : string; xp_Key : string; xp_TLSPin : string; xp_RealityServerName : string;
  xp_RealityShortID : string; xp_RealityPublicKey : string; xp_RealityFingerprint : string }.

Record xray (A : Type) := mkXRay {
  x_info : bytes;
  x_config : XConfig;
  x_peers : PeerSet_t;
  x_tlsPin : string;
  x_conn : bool;            (* a connection is open *)
  x_api : A
}.
Arguments mkXRay {A}. Arguments x_info {A}. Arguments x_config {A}. Arguments x_peers {A}.
Arguments x_tlsPin {A}. Arguments x_conn {A}. Arguments x_api {A}.

Definition proxyVLESS : byte := x01.
Definition flowVision : string := "xtls-rprx-vision".
Definition SecurityTLS : string := "tls".
Definition SecurityReality : string := "reality".
Definition InboundTag : string := "vless".
Definition notFound (err : gerror) : bool := Str.contains (Str.of_string "not found") (Str.of_string err).

(** The counters' names (xray's, keyed by the user's email). *)
Definition upName (key : string) : string := "user>>>" +:+ key +:+ ">>>traffic>>>uplink".
Definition downName (key : string) : string := "user>>>" +:+ key +:+ ">>>traffic>>>downlink".

Section XRay.
Context {A : Type} {HG : GRPC A} {PW : Protowire}.
Abbreviation xr := (xray A).

Definition x_modify (f : xr -> xr) : M xr gerror unit := fun s => (inr tt, f s).
Definition x_with_peers (p : PeerSet_t) (s : xr) : xr :=
  mkXRay (x_info s) (x_config s) p (x_tlsPin s) (x_conn s) (x_api s).
Definition x_on_api {B} (m : M A gerror B) : M xr gerror B := fun s =>
  let '(r, a) := m (x_api s) in (r, mkXRay (x_info s) (x_config s) (x_peers s) (x_tlsPin s) (x_conn s) a).

Definition xr_New (a : A) : xr :=
  mkXRay (replicate 5 x00) (mkXConfig (mkVLESS 0 "" false) (mkReality "" "" "" "" "") 0) PeerSet_New "" false a.

(** The last step of Init: what the node tells about the listener. *)
Definition x_initInfo (s : xr) : xr :=
  let security := if bool_decide (vless_Security (xc_VLESS (x_config s)) = SecurityTLS)
                  then TransportSecurityTLS else TransportSecurityReality in
  mkXRay (BE.uint16 (vless_ListenPort (xc_VLESS (x_config s)))
            ++ [proxyVLESS; byte_of_Z TransportProtocolTCP; byte_of_Z security])
    (x_config s) (x_peers s) (x_tlsPin s) (x_conn s) (x_api s).

Definition x_clientConn : M xr gerror unit :=
  conn ← gets x_conn;
  if (conn : bool) then mret tt else
  port ← gets (fun s => xc_APIPort (x_config s));
  x_on_api (NewClient port) ≫= fun _ =>
  x_modify (fun s => mkXRay (x_info s) (x_config s) (x_peers s) (x_tlsPin s) true (x_api s)).

(** Stop, short of the process. *)
Definition x_closeConn (s : xr) : xr :=
  if x_conn s then mkXRay (x_info s) (x_config s) (x_peers s) (x_tlsPin s) false (CloseConn (x_api s)) else s.

Definition x_checkPeerData (data : bytes) : M xr gerror unit :=
  throw_if (negb (length data =? 1 + UUIDLen)%nat || negb (bool_decide (head data = Some proxyVLESS)))
    "peer data must be the VLESS byte followed by a 16-byte uuid"%string.

Definition xr_AddPeer (data : bytes) : M xr gerror bytes :=
  x_checkPeerData data ≫= fun _ =>
  x_clientConn ≫= fun _ =>
  let id := copy16 (drop 1 data) in
  vflow ← gets (fun s => vless_Flow (xc_VLESS (x_config s)));
  let flow := if (vflow : bool) then flowVision else ""%string in
  let key := Base64.EncodeToString data in
  x_on_api (Invoke methodAlterInbound (addUserRequest InboundTag key (FormatUUID id) flow)) ≫= fun _ =>
  x_modify (fun s => x_with_peers (PeerSet_Put key (x_peers s)) s) ≫= fun _ =>
  mret [].

Definition xr_HasPeer (data : bytes) (s : xr) : bool := PeerSet_Has (Base64.EncodeToString data) (x_peers s).

Definition xr_RemovePeer (data : bytes) : M xr gerror unit :=
  x_checkPeerData data ≫= fun _ =>
  x_clientConn ≫= fun _ =>
  let key := Base64.EncodeToString data in
  res ← attempt (x_on_api (Invoke methodAlterInbound (removeUserRequest InboundTag key)));
  match res with
  | inl err => throw_if (negb (notFound err)) err
  | inr _ => mret tt
  end ≫= fun _ =>
  x_modify (fun s => x_with_peers (PeerSet_Delete key (x_peers s)) s).

Definition xr_Peers : M xr gerror (list Peer) :=
  x_clientConn ≫= fun _ =>
  res ← x_on_api (Invoke methodQueryStats (queryStatsRequest "user>>>" false));
  match parseQueryStatsResponse res with
  | Some (inr counters) =>
      gets (fun s => (fun key => mkPeer key (default 0 (counters !! upName key)) (default 0 (counters !! downName key)))
                       <$> PeerSet_Keys (x_peers s))
  | Some (inl err) => throw err
  | None => throw ""%string   (* never: [parseQueryStatsResponse] always answers *)
  end.

Definition xr_PeerCount (s : xr) : Z := PeerSet_Len (x_peers s).

Definition xr_service : Service xr := {|
  AddPeer := xr_AddPeer; HasPeer := xr_HasPeer; RemovePeer := xr_RemovePeer;
  Peers := xr_Peers; PeerCount := xr_PeerCount
|}.

(** ** The handshake *)
Definition xr_ListenPort (s : xr) : Z := BE.get (take 2 (x_info s)).

Definition xr_ParsePeerRequest (req : option uuid_request) : result bytes :=
  match UUIDPeerRequest req with
  | inl _ => inl "invalid peer request"%string
  | inr id => inr ([proxyVLESS] ++ id)
  end.

Definition xr_inbound (s : xr) : Inbound :=
  let security := byte_to_Z (nth 4 (x_info s) x00) in
  let re := xc_Reality (x_config s) in
  let flow := if vless_Flow (xc_VLESS (x_config s)) then FlowVision else FlowNone in
  let entry pin sn sid pk fp :=
    mkInbound (xr_ListenPort s) ProxyProtocolVLESS TransportProtocolTCP security pin flow sn sid pk fp in
  if security =? TransportSecurityTLS then entry (x_tlsPin s) "" "" "" ""
  else if security =? TransportSecurityReality then
    entry "" (re_ServerName re) (re_ShortID re) (re_PublicKey re) (re_Fingerprint re)
  else entry "" "" "" "" "".

Definition xr_HandshakePayload (res : bytes) (s : xr) : list Inbound := [xr_inbound s].

(** The codes and the flow; everything else blank. *)
Definition xr_PublicMetadata (s : xr) : list XPublicInbound :=
  let i := xr_inbound s in
  [mkXPublic "" (in_ProxyProtocol i) (in_TransportProtocol i) (in_TransportSecurity i) (in_Flow i)
     "" "" "" "" "" "" ""].

(** The decoder of the request is a parameter. *)
Definition xr_api (unmarshal : bytes -> option uuid_request) : ServiceAPI xr := {|
  Payload := list Inbound;
  ParsePeerRequest raw := fun s => (xr_ParsePeerRequest (unmarshal raw), s);
  HandshakePayload res := fun s => (inr (xr_HandshakePayload res s), s);
  Info := x_info
|}.

(** * What the operations do *)

(** Nothing but the named step touches the peers. *)
Lemma x_clientConn_frame s r s' : x_clientConn s = (r, s') -> x_peers s' = x_peers s.
Proof.
  unfold x_clientConn, gets, x_on_api, x_modify, mbind, M_bind, mret, M_ret; simpl.
  destruct (x_conn s); [by intros [= <- <-]|].
  destruct (NewClient _ _) as [[e|[]] a]; by intros [= <- <-].
Qed.

Lemma x_on_api_frame {B} (m : M A gerror B) s r s' : x_on_api m s = (r, s') -> x_peers s' = x_peers s.
Proof. unfold x_on_api; destruct (m (x_api s)) as [r' a]; by intros [= <- <-]. Qed.

Lemma x_modify_inv f s r s' : x_modify f s = (r, s') -> r = inr tt ∧ s' = f s.
Proof. by intros [= <- <-]. Qed.

Ltac frames := repeat match goal with
  | H : x_clientConn _ = _ |- _ => apply x_clientConn_frame in H
  | H : x_on_api _ _ = _ |- _ => apply x_on_api_frame in H
  | H : x_modify _ _ = _ |- _ => let E := fresh "E" in apply x_modify_inv in H as [E ?]; simplify_eq
  end; cbn in *; congruence.

Lemma xr_AddPeer_keys d s r s' : xr_AddPeer d s = (r, s') ->
  x_peers s' = if r is inr _ then PeerSet_Put (Base64.EncodeToString d) (x_peers s) else x_peers s.
Proof. intros H; unfold xr_AddPeer, x_checkPeerData in H; minv H; frames. Qed.

Lemma xr_RemovePeer_keys d s r s' : xr_RemovePeer d s = (r, s') ->
  x_peers s' = if r is inr _ then PeerSet_Delete (Base64.EncodeToString d) (x_peers s) else x_peers s.
Proof. intros H; unfold xr_RemovePeer, x_checkPeerData in H; minv H; frames. Qed.

Lemma xr_Peers_keys s r s' : xr_Peers s = (r, s') -> x_peers s' = x_peers s.
Proof. intros H; unfold xr_Peers in H; minv H; frames. Qed.

#[local] Existing Instance xr_service.
Definition xr_J (s : xr) : Prop := True.

#[export] Instance xr_keyed : KeyedService (S := xr) x_peers xr_J.
Proof.
  split; try done; simpl.
  - intros s d r s' H%xr_AddPeer_keys; by rewrite H; destruct r.
  - intros s d r s' H%xr_RemovePeer_keys; rewrite H; destruct r; [by right|by left].
  - intros s r s'; apply xr_Peers_keys.
Qed.

Definition xr_laws : ServiceLaws xr := keyed_laws x_peers xr_J.

(** ** Peer data *)
Lemma xr_parse_data req d : xr_ParsePeerRequest req = inr d ->
  ∃ id, length id = UUIDLen ∧ d = proxyVLESS :: id.
Proof.
  unfold xr_ParsePeerRequest; destruct (UUIDPeerRequest req) as [e|id] eqn:E; [done|].
  intros [= <-]; exists id; split; [by eapply UUIDPeerRequest_length|done].
Qed.

Context (unmarshal : bytes -> option uuid_request).
#[local] Existing Instance xr_laws.
#[local] Instance xr_api' : ServiceAPI xr := xr_api unmarshal.

Lemma xr_api_laws : ServiceAPILaws xr.
Proof.
  split; simpl.
  - intros s raw r s' Hs [= <- <-]; split_and!; try done.
    destruct (xr_ParsePeerRequest _) as [|d] eqn:E; [done|]; by apply xr_parse_data in E as (id & _ & ->).
  - by intros s res r s' Hs [= <- <-].
Qed.

(** * Metering *)

(** What the proxy reports when it counts [(upload, download)] per user: two
    statistics a user, zero values left out of the encoding. *)
Definition stat_fields (name : string) (value : Z) : list field :=
  opt_string 1 name ++ (if value =? 0 then [] else [(2, inl (value mod 2 ^ 64))]).
Definition user_items (u : string * (Z * Z)) : list item :=
  [inl (stat_fields (upName u.1) u.2.1); inl (stat_fields (downName u.1) u.2.2)].
Definition report (users : list (string * (Z * Z))) : list item := concat (user_items <$> users).
Definition named (u : string * (Z * Z)) : list (string * Z) := [(upName u.1, u.2.1); (downName u.1, u.2.2)].

Lemma stat_of_fields name value : is_int64 value -> stat_of (stat_fields name value) = (name, value).
Proof.
  intros Hv; unfold stat_of, stat_fields; rewrite foldl_app.
  assert (foldl stat_step (""%string, 0) (opt_string 1 name) = (name, 0)) as ->.
  { unfold opt_string; case_bool_decide as E; cbn; [by rewrite E|].
    unfold stat_step; cbn; by rewrite String.string_of_list_byte_of_string. }
  destruct (Z.eqb_spec value 0) as [->|]; [done|]; cbn; unfold stat_step; cbn; f_equal.
  unfold wrap64, is_int64, min_int64, max_int64 in *.
  rewrite Z.add_mod_idemp_l by lia; rewrite Z.mod_small by lia; lia.
Qed.

(** The statistics of a reply, by name. *)
Definition statistics (items : list item) : list (string * Z) :=
  omap (fun i => match i with inl fs => Some (stat_of fs) | inr _ => None end) items.
Lemma items_step items stats : foldl item_step stats items = foldl (fun m p => <[p.1 := p.2]> m) stats (statistics items).
Proof. revert stats; induction items as [|[fs|f] items IH]; intros stats; cbn; [done|apply IH..]. Qed.
Lemma report_statistics users : Forall (fun u => is_int64 u.2.1 ∧ is_int64 u.2.2) users ->
  statistics (report users) = concat (named <$> users).
Proof.
  induction 1 as [|[k [u d]] users [Hu Hd] _ IH]; [done|].
  cbn in Hu, Hd; unfold report, statistics in *; cbn -[stat_fields]; by rewrite !stat_of_fields, IH.
Qed.

Lemma name_inj suffix k k' :
  ("user>>>" +:+ k +:+ suffix = "user>>>" +:+ k' +:+ suffix)%string -> k = k'.
Proof. intros H%(inj (String.append _)); by apply Str.string_app_inv_tail in H. Qed.

Lemma up_down_names k k' : upName k ≠ downName k'.
Proof.
  intros H%(inj (String.append _)); apply (f_equal (reverse ∘ Str.of_string)) in H; cbn [compose] in H.
  rewrite !Str.of_string_app, !reverse_app in H; cbn in H; discriminate.
Qed.

Lemma named_names users x : x ∈ (concat (named <$> users)).*1 ->
  ∃ k, k ∈ users.*1 ∧ (x = upName k ∨ x = downName k).
Proof.
  induction users as [|[k c] users IH]; cbn; [by intros ?%elem_of_nil|].
  rewrite !elem_of_cons; intros [->|[->|H]]; [exists k; split; [constructor|auto]..|].
  destruct (IH H) as (k' & Hk & Hx); exists k'; split; [by constructor|done].
Qed.

(** Counters of different users never share a name. *)
Lemma NoDup_named users : NoDup users.*1 -> NoDup (concat (named <$> users)).*1.
Proof.
  induction users as [|[k c] users IH]; cbn; [constructor|]; intros [Hk Hn]%NoDup_cons.
  assert (Hfresh : forall x, x ∈ (concat (named <$> users)).*1 -> x ≠ upName k ∧ x ≠ downName k).
  { intros x (k' & Hk' & [->| ->])%named_names; split.
    - by intros ->%name_inj.
    - apply up_down_names.
    - intros E; by apply (up_down_names k k').
    - by intros ->%name_inj. }
  repeat constructor; [|intros H; by destruct (Hfresh _ H)|by apply IH].
  rewrite elem_of_cons; intros [E|H]; [by apply (up_down_names k k)|by destruct (Hfresh _ H)].
Qed.

Lemma foldl_insert_notin (kvs : list (string * Z)) (m : gmap string Z) k : k ∉ kvs.*1 ->
  foldl (fun m p => <[p.1 := p.2]> m) m kvs !! k = m !! k.
Proof.
  revert m; induction kvs as [|[k' v] kvs IH]; intros m Hk; [done|]; cbn in *.
  apply not_elem_of_cons in Hk as [Hne Hk]; by rewrite IH, lookup_insert_ne.
Qed.

Lemma foldl_insert_in (kvs : list (string * Z)) (m : gmap string Z) k v : NoDup kvs.*1 -> (k, v) ∈ kvs ->
  foldl (fun m p => <[p.1 := p.2]> m) m kvs !! k = Some v.
Proof.
  revert m; induction kvs as [|[k' v'] kvs IH]; intros m Hn Hk; [by apply elem_of_nil in Hk|]; cbn in *.
  apply NoDup_cons in Hn as [Hn1 Hn]; apply elem_of_cons in Hk as [[= -> ->]|Hk]; [|by apply IH].
  by rewrite foldl_insert_notin, lookup_insert_eq.
Qed.

Lemma named_in users k u d : (k, (u, d)) ∈ users ->
  (upName k, u) ∈ concat (named <$> users) ∧ (downName k, d) ∈ concat (named <$> users).
Proof.
  induction users as [|[k' c] users IH]; cbn; [by intros ?%elem_of_nil|].
  rewrite !elem_of_cons; intros [[= <- <-]|H]; [auto|]; destruct (IH H); auto.
Qed.

(** What a user's counters read as: its own, or zero when it has none. *)
Definition counted (users : list (string * (Z * Z))) (key : string) : Z * Z :=
  default (0, 0) ((list_to_map users : gmap string (Z * Z)) !! key).

Lemma counted_report items users key : items ≡ₚ report users ->
  NoDup users.*1 -> Forall (fun u => is_int64 u.2.1 ∧ is_int64 u.2.2) users ->
  let stats := foldl item_step ∅ items in
  default 0 (stats !! upName key) = (counted users key).1
  ∧ default 0 (stats !! downName key) = (counted users key).2.
Proof.
  intros Hp Hn Hu; cbv zeta; rewrite items_step; unfold counted.
  assert (statistics items ≡ₚ concat (named <$> users)) as Hs by (rewrite <- report_statistics by done; unfold statistics; by rewrite Hp).
  assert (NoDup (statistics items).*1) as Hnn by (rewrite Hs; by apply NoDup_named).
  destruct ((list_to_map users : gmap string (Z * Z)) !! key) as [[u d]|] eqn:E; cbn.
  - apply elem_of_list_to_map in E as (H1 & H2)%named_in; [|done].
    by rewrite !(foldl_insert_in _ _ _ _ Hnn) by (by rewrite Hs).
  - apply not_elem_of_list_to_map in E; rewrite !foldl_insert_notin; [done|..]; rewrite Hs.
    all: intros (k & Hk & [H|H])%named_names.
    + symmetry in H; by apply up_down_names in H.
    + by apply name_inj in H as ->.
    + by apply name_inj in H as ->.
    + by apply up_down_names in H.
Qed.

Lemma report_valid users : Forall valid_item (report users).
Proof.
  unfold report; induction users as [|u users IH]; cbn -[stat_fields]; [constructor|].
  assert (Hs : forall name value, Forall plain_field (stat_fields name value)).
  { intros name value; apply Forall_app_2; [apply opt_string_plain; unfold valid_number; lia|].
    destruct (value =? 0); [apply Forall_nil_2|].
    apply Forall_singleton; split; cbn [fst snd]; [unfold valid_number; lia|].
    by apply Z.mod_pos_bound. }
  by repeat (constructor; [apply Hs|]).
Qed.

Context {HW : ProtowireLaws}.

(** C27. The node meters every user by that user's own counters: when the proxy
    answers with the statistics of its users, listed in any order, the peers reported
    are exactly the registered ones, once each, with the upload and download the
    proxy counted for that session key (zero for a peer it has not counted yet),
    and never another user's. *)
Theorem xr_peers_metered s users reply a :
  x_conn s = true -> NoDup users.*1 -> Forall (fun u => is_int64 u.2.1 ∧ is_int64 u.2.2) users ->
  reply ≡ₚ report users -> len (wire (item_field <$> reply)) <= max_int64 ->
  Invoke methodQueryStats (queryStatsRequest "user>>>" false) (x_api s)
    = (inr (wire (item_field <$> reply)), a) ->
  ∃ items s', xr_Peers s = (inr items, s') ∧ x_peers s' = x_peers s
    ∧ NoDup (p_Key <$> items)
    ∧ (forall p, p ∈ items <-> p_Key p ∈ x_peers s ∧ (p_Upload p, p_Download p) = counted users (p_Key p)).
Proof.
  intros Hc Hn Hu Hr Hl Hi; unfold xr_Peers, x_clientConn, gets, x_on_api, mbind, M_bind, mret, M_ret.
  rewrite Hc, Hi; unfold parseQueryStatsResponse.
  rewrite parseQueryStats_loop_wire by (done || lia || (rewrite Hr; apply report_valid)).
  eexists _, _; split; [done|]; split; [done|]; cbn [x_peers PeerSet_Keys]; split.
  - rewrite <- list_fmap_compose; cbn [compose]; rewrite list_fmap_id; apply NoDup_elements.
  - intros [k up down]; cbn [p_Key p_Upload p_Download].
    destruct (counted_report reply users k Hr Hn Hu) as [E1 E2]; rewrite list_elem_of_fmap; split.
    + intros (k' & [= -> -> ->] & Hk%elem_of_elements); split; [done|].
      by rewrite E1, E2; destruct (counted users k').
    + intros [Hk Hx]; exists k; split; [|by apply elem_of_elements].
      rewrite E1, E2; by destruct (counted users k); injection Hx as -> ->.
Qed.
End XRay.
