(* ===== verification/V2Ray.v ===== *)
(** The V2Ray service: src/services/v2ray/v2ray.go, handshake.go, and
    src/services/v2ray/types/peer.go, proxy.go, transport.go, config.go.

    The proxy's control API is spoken through v2ray-core's generated client, a
    parameter ([V2API]); the request it carries is a value here. *)
From S2P Require Import Prelude Codec Uuid Types Admission AdmissionProofs Guard Handshake HandshakeProofs Keyed Wire XRay.
Set Default Proof Using "Type*".

(** ** types/peer.go *)
Record V2Peers_Peer := V2Peers_mkP { V2Peers_Email : string }.
Definition V2Peers_Empty (p : V2Peers_Peer) : bool := bool_decide (V2Peers_Email p = ""%string).
Abbreviation V2Peers_t := (gmap string V2Peers_Peer).
Definition V2Peers_New : V2Peers_t := ∅.
Definition V2Peers_Get (key : string) (m : V2Peers_t) : V2Peers_Peer := default (V2Peers_mkP "") (m !! key).
Definition V2Peers_Put (v : V2Peers_Peer) (m : V2Peers_t) : V2Peers_t :=
  match m !! V2Peers_Email v with Some _ => m | None => <[V2Peers_Email v := v]> m end.
Definition V2Peers_Delete (v : string) (m : V2Peers_t) : V2Peers_t := delete v m.
Definition V2Peers_Len (m : V2Peers_t) : Z := Z.of_nat (size m).

(** ** types/proxy.go, types/transport.go *)
Definition Proxy_String (p : byte) : string :=
  match p with x01 => "vmess" | _ => "" end.
Definition Proxy_Tag : byte -> string := Proxy_String.
Definition Proxy_IsValid (p : byte) : bool := negb (bool_decide (Proxy_String p = ""%string)).

Definition Transport_String (t : byte) : string :=
  match t with
  | x01 => "tcp" | x02 => "mkcp" | x03 => "websocket" | x04 => "http" | x05 => "domainsocket"
  | x06 => "quic" | x07 => "gun" | x08 => "grpc" | _ => "" end.
Definition Transport_IsValid (t : byte) : bool := negb (bool_decide (Transport_String t = ""%string)).
Definition NewTransportFromString (v : string) : byte :=
  if bool_decide (v = "tcp"%string) then x01
  else if bool_decide (v = "mkcp"%string) then x02
  else if bool_decide (v = "websocket"%string) then x03
  else if bool_decide (v = "httpt"%string) then x04
  else if bool_decide (v = "domainsocket"%string) then x05
  else if bool_decide (v = "quic"%string) then x06
  else if bool_decide (v = "gun"%string) then x07
  else if bool_decide (v = "grpc"%string) then x08
  else x00.

Lemma Transport_cases t : Transport_IsValid t = true -> t ∈ [x01; x02; x03; x04; x05; x06; x07; x08].
Proof.
  destruct t; intros H; first [discriminate (eq_sym H)|apply (bool_decide_unpack (_ ∈ _)); vm_compute; exact I].
Qed.

(** The transport a configuration names is the transport the node announces:
    every name that is accepted is the name of the byte it is read as, and every
    byte that has a name is read back from it - except the fourth, whose name
    [http] is refused and which only the misspelt [httpt] selects. *)
Theorem transport_names :
  (forall v, Transport_IsValid (NewTransportFromString v) = true -> v ≠ "httpt"%string ->
     Transport_String (NewTransportFromString v) = v)
  ∧ (forall t, Transport_IsValid t = true -> t ≠ x04 ->
     NewTransportFromString (Transport_String t) = t)
  ∧ Transport_IsValid (NewTransportFromString "http") = false
  ∧ Transport_String (NewTransportFromString "httpt") = "http"%string.
Proof.
  split_and!; [|..|done|done].
  - intros v; unfold NewTransportFromString; repeat case_bool_decide; subst; by vm_compute.
  - intros t Ht; apply Transport_cases in Ht; rewrite !elem_of_cons in Ht.
    destruct Ht as [->|[->|[->|[->|[->|[->|[->|[->|Ht]]]]]]]]; try done; by apply elem_of_nil in Ht.
Qed.

(** ** types/config.go *)
Record VMessConfig := mkVMess { vm_ListenPort : Z; vm_TLS : bool; vm_Transport : string }.
Record V2Config := mkV2Config { vc_VMess : VMessConfig; vc_APIPort : Z }.

Definition VMess_Validate (c : VMessConfig) : result unit :=
  if vm_ListenPort c =? 0 then inl "listen_port cannot be zero"%string
  else if bool_decide (vm_Transport c = ""%string) then inl "transport cannot be empty"%string
  else if negb (Transport_IsValid (NewTransportFromString (vm_Transport c)))
  then inl ("invalid transport " +:+ vm_Transport c)%string
  else inr tt.
Definition V2API_Validate (port : Z) : result unit :=
  if port =? 0 then inl "port cannot be zero"%string else inr tt.
Definition V2Config_Validate (c : V2Config) : result unit :=
  match VMess_Validate (vc_VMess c) with
  | inl e => inl ("invalid section vmess: " +:+ e)%string
  | inr _ =>
    match V2API_Validate (vc_APIPort c) with
    | inl e => inl ("invalid section api: " +:+ e)%string
    | inr _ =>
      if vc_APIPort c =? vm_ListenPort (vc_VMess c)
      then inl "api port must differ from the vmess listen_port"%string
      else inr tt
    end
  end.

(** ** The control API *)
Inductive v2account := VMessAccount (id : string).   (* alterId 0, automatic security *)
Inductive v2operation :=
  | AddUserOperation (email : string) (account : option v2account)
  | RemoveUserOperation (email : string).

Class V2API (A : Type) := {
  v2NewClient : Z -> M A gerror unit;
  v2Close : A -> A;
  AlterInbound : string -> v2operation -> M A gerror unit;
  GetStats : string -> M A gerror (option Z)              (* the statistic, if the reply has one *)
}.

Record v2ray (A : Type) := mkV2Ray {
  v_info : bytes; v_config : V2Config; v_peers : V2Peers_t; v_tlsPin : string; v_conn : bool; v_api : A }.
Arguments mkV2Ray {A}. Arguments v_info {A}. Arguments v_config {A}. Arguments v_peers {A}.
Arguments v_tlsPin {A}. Arguments v_conn {A}. Arguments v_api {A}.

Section V2Ray.
(** [uuid.UUID.String] of v2ray-core. *)
Context {A : Type} {HA : V2API A} (uuid_String : bytes -> string).
Abbreviation v2 := (v2ray A).

Definition v_modify (f : v2 -> v2) : M v2 gerror unit := fun s => (inr tt, f s).
Definition v_with_peers (p : V2Peers_t) (s : v2) : v2 :=
  mkV2Ray (v_info s) (v_config s) p (v_tlsPin s) (v_conn s) (v_api s).
Definition v_on_api {B} (m : M A gerror B) : M v2 gerror B := fun s =>
  let '(r, a) := m (v_api s) in (r, mkV2Ray (v_info s) (v_config s) (v_peers s) (v_tlsPin s) (v_conn s) a).

Definition v2_New (a : A) : v2 := mkV2Ray (replicate 4 x00) (mkV2Config (mkVMess 0 false "") 0) V2Peers_New "" false a.

(** Proxy.Account: no account for a proxy the service does not run. *)
Definition Proxy_Account (p : byte) (uid : bytes) : option v2account :=
  match p with x01 => Some (VMessAccount (uuid_String uid)) | _ => None end.

(** The last step of Init. *)
Definition v_initInfo (s : v2) : v2 :=
  let c := vc_VMess (v_config s) in
  mkV2Ray (BE.uint16 (vm_ListenPort c)
      ++ [NewTransportFromString (vm_Transport c); if vm_TLS c then x01 else x00])
    (v_config s) (v_peers s) (v_tlsPin s) (v_conn s) (v_api s).

Definition v_clientConn : M v2 gerror unit :=
  conn ← gets v_conn;
  if (conn : bool) then mret tt else
  port ← gets (fun s => vc_APIPort (v_config s));
  v_on_api (v2NewClient port) ≫= fun _ =>
  v_modify (fun s => mkV2Ray (v_info s) (v_config s) (v_peers s) (v_tlsPin s) true (v_api s)).

Definition v_closeConn (s : v2) : v2 :=
  if v_conn s then mkV2Ray (v_info s) (v_config s) (v_peers s) (v_tlsPin s) false (v2Close (v_api s)) else s.

Definition v2_AddPeer (data : bytes) : M v2 gerror bytes :=
  throw_if (negb (length data =? 1 + 16)%nat) "data length must be 17 bytes"%string ≫= fun _ =>
  v_clientConn ≫= fun _ =>
  let email := Base64.EncodeToString data in
  let proxy := default x00 (head data) in
  v_on_api (AlterInbound (Proxy_Tag proxy) (AddUserOperation email (Proxy_Account proxy (drop 1 data)))) ≫= fun _ =>
  v_modify (fun s => v_with_peers (V2Peers_Put (V2Peers_mkP email) (v_peers s)) s) ≫= fun _ =>
  mret [].

Definition v2_HasPeer (data : bytes) (s : v2) : bool :=
  negb (V2Peers_Empty (V2Peers_Get (Base64.EncodeToString data) (v_peers s))).

Definition v2_RemovePeer (data : bytes) : M v2 gerror unit :=
  throw_if (negb (length data =? 1 + 16)%nat) "data length must be 17 bytes"%string ≫= fun _ =>
  v_clientConn ≫= fun _ =>
  let email := Base64.EncodeToString data in
  let proxy := default x00 (head data) in
  res ← attempt (v_on_api (AlterInbound (Proxy_Tag proxy) (RemoveUserOperation email)));
  match res with
  | inl err => throw_if (negb (notFound err)) err
  | inr _ => mret tt
  end ≫= fun _ =>
  v_modify (fun s => v_with_peers (V2Peers_Delete email (v_peers s)) s).

(** One counter; a counter the proxy does not have yet reads as zero. *)
Definition getStat (name : string) : M v2 gerror Z :=
  res ← attempt (v_on_api (GetStats name));
  match res with
  | inl err => throw_if (negb (notFound err)) err ≫= fun _ => mret 0
  | inr stat => mret (default 0 stat)
  end.

(** The callback of [Iterate], over the keys of the table. *)
Fixpoint v2_iterate (keys : list string) : M v2 gerror (list Peer) :=
  match keys with
  | [] => mret []
  | key :: keys =>
      up ← getStat (upName key);
      down ← getStat (downName key);
      items ← v2_iterate keys;
      mret (mkPeer key up down :: items)
  end.

Definition v2_Peers : M v2 gerror (list Peer) :=
  v_clientConn ≫= fun _ =>
  keys ← gets (fun s => (map_to_list (v_peers s)).*1);
  v2_iterate keys.

Definition v2_PeerCount (s : v2) : Z := V2Peers_Len (v_peers s).

Definition v2_service : Service v2 := {|
  AddPeer := v2_AddPeer; HasPeer := v2_HasPeer; RemovePeer := v2_RemovePeer;
  Peers := v2_Peers; PeerCount := v2_PeerCount
|}.

(** ** The handshake *)
Definition v2_ListenPort (s : v2) : Z := BE.get (take 2 (v_info s)).

Definition v2_ParsePeerRequest (req : option uuid_request) : result bytes :=
  match UUIDPeerRequest req with
  | inl _ => inl "invalid peer request"%string
  | inr id => inr ([x01] ++ id)
  end.

Definition transportProtocolCode (b : byte) : Z :=
  if bool_decide (Transport_String b = "tcp"%string) then TransportProtocolTCP else byte_to_Z b.

Definition v2_inbound (s : v2) : Inbound :=
  let tls := negb (bool_decide (nth 3 (v_info s) x00 = x00)) in
  mkInbound (v2_ListenPort s) ProxyProtocolVMess (transportProtocolCode (nth 2 (v_info s) x00))
    (if tls then TransportSecurityTLS else TransportSecurityNone)
    (if tls then v_tlsPin s else "") 0 "" "" "" "".

Definition v2_HandshakePayload (res : bytes) (s : v2) : list Inbound := [v2_inbound s].

Record V2PublicInbound := mkV2Public {
  vp_Port : string; vp_ProxyProtocol : Z; vp_TransportProtocol : Z; vp_TransportSecurity : Z; vp_TLSPin : string }.
Definition v2_PublicMetadata (s : v2) : list V2PublicInbound :=
  let i := v2_inbound s in
  [mkV2Public "" (in_ProxyProtocol i) (in_TransportProtocol i) (in_TransportSecurity i) ""].

Definition v2_api (unmarshal : bytes -> option uuid_request) : ServiceAPI v2 := {|
  Payload := list Inbound;
  ParsePeerRequest raw := fun s => (v2_ParsePeerRequest (unmarshal raw), s);
  HandshakePayload res := fun s => (inr (v2_HandshakePayload res s), s);
  Info := v_info
|}.

(** * What the operations do *)
Lemma v_on_api_frame {B} (m : M A gerror B) s r s' : v_on_api m s = (r, s') -> v_peers s' = v_peers s.
Proof. unfold v_on_api; destruct (m (v_api s)) as [r' a]; by intros [= <- <-]. Qed.

Lemma v_modify_inv f s r s' : v_modify f s = (r, s') -> r = inr tt ∧ s' = f s.
Proof. by intros [= <- <-]. Qed.

Lemma v_clientConn_frame s r s' : v_clientConn s = (r, s') -> v_peers s' = v_peers s.
Proof.
  unfold v_clientConn, gets, v_on_api, v_modify, mbind, M_bind, mret, M_ret; simpl.
  destruct (v_conn s); [by intros [= <- <-]|].
  destruct (v2NewClient _ _) as [[e|[]] a]; by intros [= <- <-].
Qed.

Lemma getStat_frame name s r s' : getStat name s = (r, s') -> v_peers s' = v_peers s.
Proof. intros H; unfold getStat in H; minv H; by eapply v_on_api_frame. Qed.

Lemma v2_iterate_frame keys s r s' : v2_iterate keys s = (r, s') -> v_peers s' = v_peers s.
Proof.
  revert s r; induction keys as [|k keys IH]; intros s r H; cbn [v2_iterate] in H; minv H; try done;
    repeat match goal with
    | H : getStat _ _ = _ |- _ => apply getStat_frame in H
    | H : v2_iterate _ _ = _ |- _ => apply IH in H
    end; congruence.
Qed.

Ltac v_frames := repeat match goal with
  | H : v_clientConn _ = _ |- _ => apply v_clientConn_frame in H
  | H : v_on_api _ _ = _ |- _ => apply v_on_api_frame in H
  | H : v2_iterate _ _ = _ |- _ => apply v2_iterate_frame in H
  | H : v_modify _ _ = _ |- _ => let E := fresh "E" in apply v_modify_inv in H as [E ?]; simplify_eq
  end; cbn in *; congruence.

Lemma v2_AddPeer_peers d s r s' : v2_AddPeer d s = (r, s') ->
  v_peers s' = if r is inr _ then V2Peers_Put (V2Peers_mkP (Base64.EncodeToString d)) (v_peers s) else v_peers s.
Proof. intros H; unfold v2_AddPeer in H; minv H; v_frames. Qed.

Lemma v2_RemovePeer_peers d s r s' : v2_RemovePeer d s = (r, s') ->
  v_peers s' = if r is inr _ then V2Peers_Delete (Base64.EncodeToString d) (v_peers s) else v_peers s.
Proof. intros H; unfold v2_RemovePeer in H; minv H; v_frames. Qed.

Lemma v2_Peers_peers s r s' : v2_Peers s = (r, s') -> v_peers s' = v_peers s.
Proof. intros H; unfold v2_Peers in H; minv H; v_frames. Qed.

(** A table files each peer under its own email. *)
Definition v2_inv (s : v2) : Prop := forall k v, v_peers s !! k = Some v -> V2Peers_Email v = k.
Definition v2_keys (s : v2) : gset string := dom (v_peers s).

Lemma V2Peers_Put_dom e (m : gmap string V2Peers_Peer) :
  dom (V2Peers_Put (V2Peers_mkP e) m : gmap string V2Peers_Peer) =@{gset string} {[e]} ∪ dom m.
Proof.
  unfold V2Peers_Put; cbn [V2Peers_Email]; destruct (m !! e) as [v|] eqn:E; [|by rewrite dom_insert_L].
  assert (e ∈ dom m) by (apply elem_of_dom; eauto); set_solver.
Qed.

#[local] Existing Instance v2_service.
#[export] Instance v2_keyed : KeyedService (S := v2) v2_keys v2_inv.
Proof.
  split; simpl; unfold v2_keys, v2_inv.
  - intros s d r s' ->%v2_AddPeer_peers; destruct r; [done|apply V2Peers_Put_dom].
  - intros s d r s' ->%v2_RemovePeer_peers; destruct r; [by right|left]; unfold V2Peers_Delete.
    by rewrite dom_delete_L.
  - by intros s r s' ->%v2_Peers_peers.
  - intros s d Hd _ HJ; unfold v2_HasPeer, V2Peers_Empty, V2Peers_Get.
    destruct (v_peers s !! Base64.EncodeToString d) as [v|] eqn:E; cbn.
    + rewrite (HJ _ _ E); rewrite bool_decide_false by (by rewrite Base64.encode_empty).
      symmetry; apply bool_decide_eq_true, elem_of_dom; eauto.
    + symmetry; apply bool_decide_eq_false, not_elem_of_dom; done.
  - intros s; unfold v2_PeerCount, V2Peers_Len; by rewrite size_dom.
  - intros s d r s' HJ _ ->%v2_AddPeer_peers; destruct r; [done|]; unfold V2Peers_Put; cbn.
    destruct (v_peers s !! Base64.EncodeToString d); [done|].
    intros k v [[<- <-]|[_ H]]%lookup_insert_Some; [done|auto].
  - intros s d r s' HJ _ ->%v2_RemovePeer_peers; destruct r; [done|]; unfold V2Peers_Delete.
    intros k v [_ H]%lookup_delete_Some; auto.
  - by intros s r s' HJ _ ->%v2_Peers_peers.
Qed.

Definition v2_laws : ServiceLaws v2 := keyed_laws v2_keys v2_inv.

Context (unmarshal : bytes -> option uuid_request).
#[local] Existing Instance v2_laws.
#[local] Instance v2_api' : ServiceAPI v2 := v2_api unmarshal.

Lemma v2_api_laws : ServiceAPILaws v2.
Proof.
  split; simpl.
  - intros s raw r s' Hs [= <- <-]; split_and!; try done; unfold v2_ParsePeerRequest.
    by destruct (UUIDPeerRequest _).
  - by intros s res r s' Hs [= <- <-].
Qed.
End V2Ray.
