(* ===== verification/Management.v ===== *)
(** The client of OpenVPN's management interface:
    src/services/openvpn/management.go.

    One connection carries two streams: replies to the commands the node runs,
    which the server answers in order, and notifications (lines starting with
    [>]), which may fall between any two lines.  [read_line] is the body of the
    reading goroutine's loop; [enqueue] is what [run] does under the lock, where
    the command is appended to the queue and written in one go.

    The second half puts the client beside a server ([msys]) and follows them
    through every interleaving. *)
From S2P Require Import Prelude Codec.
Set Default Proof Using "Type*".

Abbreviation line := Str.chars.
Definition lit (s : string) : line := Str.of_string s.
Definition HasPrefix (s : line) (p : string) : bool := Str.has_prefix (lit p) s.
Definition TrimPrefix (s : line) (p : string) : line := Str.trim_prefix (lit p) s.

(** [n, _ := strconv.ParseInt(s, 10, 64)]: zero for what is not a number, the
    nearest value for what does not fit. *)
Module Lax.
Definition digit (c : ascii) : option Z :=
  let n := Z.of_N (N_of_ascii c) in if (48 <=? n) && (n <=? 57) then Some (n - 48) else None.
(** [None]: a syntax error; an overflow answers the largest value at once. *)
Fixpoint ParseUint (acc : Z) (s : line) : option Z :=
  match s with
  | [] => Some acc
  | c :: s =>
      match digit c with
      | None => None
      | Some d => if 2 ^ 64 - 1 <? acc * 10 + d then Some (2 ^ 64 - 1) else ParseUint (acc * 10 + d) s
      end
  end.
Definition ParseInt (s : line) : Z :=
  let '(neg, body) := match s with
    | "-"%char :: r => (true, r)
    | "+"%char :: r => (false, r)
    | _ => (false, s)
    end in
  match body with
  | [] => 0
  | _ => match ParseUint 0 body with
         | None => 0
         | Some un =>
             if negb neg && (2 ^ 63 <=? un) then 2 ^ 63 - 1
             else if neg && (2 ^ 63 <? un) then - 2 ^ 63
             else if (neg : bool) then - un else un
         end
  end.
End Lax.

(** * The client's state *)
Record clientEvent := mkEvent { ev_kind : line; ev_cid : line; ev_kid : line; ev_env : gmap line line }.

(** A command waiting for its reply; [pc_id] is the identity of the waiter. *)
Record pendingCommand := mkPending { pc_id : nat; pc_multi : bool; pc_lines : list line }.

Record management := mkManagement {
  pending : list pendingCommand;
  event : option clientEvent;              (* the notification being assembled *)
  answered : list (nat * list line)        (* waiters woken, oldest first, with their lines *)
}.

(** What finishing a notification does. *)
Inductive action :=
  | ClientAuth (cid kid : line)
  | ClientDeny (cid kid : line)
  | Disconnected (commonName : line) (received sent : Z).

Definition newManagement : management := mkManagement [] None [].
Definition enqueue (id : nat) (multi : bool) (m : management) : management :=
  mkManagement (pending m ++ [mkPending id multi []]) (event m) (answered m).

(** * Notifications *)
Definition env_get (ev : clientEvent) (k : string) : line := default [] (ev_env ev !! lit k).
Definition eq_lit (s : line) (k : string) : bool := bool_decide (s = lit k).

Definition event_name (ev : clientEvent) : line :=
  let cn := env_get ev "common_name" in
  if bool_decide (cn = []) then env_get ev "X509_0_CN" else cn.

Definition finishEvent (onConnect : line -> bool) (ev : clientEvent) : list action :=
  let cn := event_name ev in
  if eq_lit (ev_kind ev) "CONNECT" || eq_lit (ev_kind ev) "REAUTH" then
    if onConnect cn then [ClientAuth (ev_cid ev) (ev_kid ev)] else [ClientDeny (ev_cid ev) (ev_kid ev)]
  else if eq_lit (ev_kind ev) "DISCONNECT" then
    [Disconnected cn (Lax.ParseInt (env_get ev "bytes_received")) (Lax.ParseInt (env_get ev "bytes_sent"))]
  else [].

Definition handleEvent (onConnect : line -> bool) (current : option clientEvent) (l : line)
  : option clientEvent * list action :=
  if negb (HasPrefix l ">CLIENT:") then (current, []) else
  let body := TrimPrefix l ">CLIENT:" in
  let '(kind, rest, _) := Str.cut ","%char body in
  if eq_lit kind "CONNECT" || eq_lit kind "REAUTH" || eq_lit kind "ESTABLISHED" || eq_lit kind "DISCONNECT" then
    let '(cid, kid, _) := Str.cut ","%char rest in (Some (mkEvent kind cid kid ∅), [])
  else if eq_lit kind "ENV" then
    match current with
    | None => (None, [])
    | Some ev =>
        if eq_lit rest "END" then (None, finishEvent onConnect ev) else
        let '(k, v, ok) := Str.cut "="%char rest in
        if (ok : bool) then (Some (mkEvent (ev_kind ev) (ev_cid ev) (ev_kid ev) (<[k := v]> (ev_env ev))), [])
        else (Some ev, [])
    end
  else (current, []).

(** * The reader *)
Definition finished (multi : bool) (l : line) : bool :=
  HasPrefix l "SUCCESS:" || HasPrefix l "ERROR:" || (multi && eq_lit l "END").

Definition read_line (onConnect : line -> bool) (l : line) (m : management) : management * list action :=
  if HasPrefix l ">" then
    let '(ev, acts) := handleEvent onConnect (event m) l in
    (mkManagement (pending m) ev (answered m), acts)
  else
    match pending m with
    | [] => (m, [])
    | p :: rest =>
        let lines := pc_lines p ++ [l] in
        if finished (pc_multi p) l
        then (mkManagement rest (event m) (answered m ++ [(pc_id p, lines)]), [])
        else (mkManagement (mkPending (pc_id p) (pc_multi p) lines :: rest) (event m) (answered m), [])
    end.

(** What [run] makes of its reply: a reply that ends with an error is one. *)
Definition run_result (lines : list line) : result (list line) :=
  match last lines with
  | Some l => if HasPrefix l "ERROR:" then inl (Str.to_string l) else inr lines
  | None => inr lines
  end.

(** * The status table *)
Record clientStatus := mkStatus { cs_commonName : line; cs_received : Z; cs_sent : Z; cs_cid : line }.

Definition tab : ascii := Ascii.ascii_of_nat 9.
Definition status_row (l : line) : option clientStatus :=
  let fields := Str.split tab l in
  if (length fields <? 11)%nat || negb (bool_decide (head fields = Some (lit "CLIENT_LIST"))) then None
  else Some (mkStatus (nth 1 fields []) (Lax.ParseInt (nth 5 fields [])) (Lax.ParseInt (nth 6 fields [])) (nth 10 fields [])).
Definition parse_status (lines : list line) : list clientStatus := omap status_row lines.

Section Commands.
(** [run]: a command's reply, or an error (the server's, a timeout, a closed
    connection). *)
Class Management (A : Type) := mrun : string -> bool -> M A gerror (list line).
Context {A : Type} {HM : Management A}.

Definition status : M A gerror (list clientStatus) :=
  lines ← mrun "status 3" true;
  mret (parse_status lines).

Definition not_found (err : gerror) : bool := Str.contains (lit "not found") (lit err).
Definition kill_command (cid : line) : string := "client-kill " +:+ Str.to_string cid +:+ " RESTART,session-ended".

Fixpoint kill_rows (commonName : line) (rows : list clientStatus) : M A gerror unit :=
  match rows with
  | [] => mret tt
  | row :: rows =>
      if negb (bool_decide (cs_commonName row = commonName)) then kill_rows commonName rows else
      res ← attempt (mrun (kill_command (cs_cid row)) false);
      match res with
      | inl err => throw_if (negb (not_found err)) err
      | inr _ => mret tt
      end ≫= fun _ => kill_rows commonName rows
  end.
Definition kill (commonName : line) : M A gerror unit :=
  rows ← status;
  kill_rows commonName rows.
End Commands.

(** * The client beside its server

    The server receives the commands in the order they were written and answers
    them one after the other; [replies] records what it decided to answer to
    each.  A notification may come at any moment, and whom the node admits
    ([onConnect]) may change between any two lines.  A command whose write fails is
    in the queue all the same; the buffered writer then refuses every later one. *)
Definition is_event (l : line) : bool := HasPrefix l ">".

(** The protocol of the interface: what closes a reply, and a reply, which is some
    lines that do not close it and then one that does. *)
Definition closes (multi : bool) (l : line) : Prop :=
  (∃ text, l = lit "SUCCESS:" ++ text) ∨ (∃ text, l = lit "ERROR:" ++ text) ∨ multi = true ∧ l = lit "END".
Fixpoint wf_reply (multi : bool) (ls : list line) : Prop :=
  match ls with
  | [] => False
  | [l] => is_event l = false ∧ closes multi l
  | l :: rest => is_event l = false ∧ ¬ closes multi l ∧ wf_reply multi rest
  end.

Record msys := mkSys {
  client : management;
  unsent : list (nat * list line);     (* per command received: the lines still to send *)
  replies : list (nat * list line);    (* per command: the whole reply, oldest first *)
  failed : list nat                    (* commands whose write failed *)
}.

Inductive mstep : msys -> msys -> Prop :=
  | step_run s id multi reply : failed s = [] -> wf_reply multi reply ->
      mstep s (mkSys (enqueue id multi (client s)) (unsent s ++ [(id, reply)]) (replies s ++ [(id, reply)]) [])
  | step_failed s id multi :
      mstep s (mkSys (enqueue id multi (client s)) (unsent s) (replies s) (failed s ++ [id]))
  | step_reply s onConnect id l rest q : unsent s = (id, l :: rest) :: q ->
      mstep s (mkSys (read_line onConnect l (client s)).1
        (match rest with [] => q | _ => (id, rest) :: q end) (replies s) (failed s))
  | step_event s onConnect l : is_event l = true ->
      mstep s (mkSys (read_line onConnect l (client s)).1 (unsent s) (replies s) (failed s)).

Inductive mreach : msys -> Prop :=
  | mreach_init : mreach (mkSys newManagement [] [] [])
  | mreach_step s s' : mreach s -> mstep s s' -> mreach s'.

(** A waiting command, the lines the server still owes it, and its reply. *)
Definition waits (p : pendingCommand) (u h : nat * list line) : Prop :=
  pc_id p = u.1 ∧ h.1 = u.1 ∧ h.2 = pc_lines p ++ u.2 ∧ wf_reply (pc_multi p) u.2.

(** The commands that failed are at the end of the queue. *)
Definition msys_inv (s : msys) : Prop :=
  ∃ live dead outs, pending (client s) = live ++ dead ∧ pc_id <$> dead = failed s
    ∧ replies s = answered (client s) ++ outs ∧ Forall3 waits live (unsent s) outs.

Lemma finished_closes multi l : finished multi l = true <-> closes multi l.
Proof.
  unfold finished, closes, HasPrefix, eq_lit; rewrite !orb_true_iff, andb_true_iff, bool_decide_eq_true, !Str.has_prefix_spec; tauto.
Qed.
Lemma wf_reply_head multi l rest : wf_reply multi (l :: rest) ->
  is_event l = false ∧ (if finished multi l then rest = [] else wf_reply multi rest).
Proof.
  destruct rest as [|l' rest]; cbn; [intros [-> ->%finished_closes]; done|].
  intros (-> & Hc & ?); destruct (finished multi l) eqn:E; [by apply finished_closes in E|done].
Qed.

Lemma read_event_line onConnect l m : is_event l = true ->
  pending (read_line onConnect l m).1 = pending m ∧ answered (read_line onConnect l m).1 = answered m.
Proof. unfold is_event, read_line; intros ->; by destruct (handleEvent _ _ _). Qed.

Lemma mstep_inv s s' : msys_inv s -> mstep s s' -> msys_inv s'.
Proof.
  intros (live & dead & outs & Hp & Hf & Hr & Hw) Hs;
    destruct Hs as [s id multi reply Hok Hwf|s id multi|s onConnect id l rest q Hu|s onConnect l Hl].
  - rewrite Hok in Hf; apply fmap_nil_inv in Hf as ->; rewrite app_nil_r in Hp.
    exists (live ++ [mkPending id multi []]), [], (outs ++ [(id, reply)]); cbn; rewrite Hp, Hr, app_nil_r, app_assoc; split_and!; [done..|].
    apply Forall3_app; [done|]; constructor; [|constructor]; by split_and!.
  - exists live, (dead ++ [mkPending id multi []]), outs; cbn; rewrite Hp, fmap_app, Hf, app_assoc; by split_and!.
  - rewrite Hu in Hw; inversion Hw as [|p u h ps us hs (Hi & Hh & Hl & Hwf) Hrest Ep Eu Eo]; subst.
    cbn in *; apply wf_reply_head in Hwf as [He Hfin]; unfold msys_inv; cbn.
    unfold read_line; unfold is_event in He; rewrite He, Hp; cbn [app].
    destruct (finished (pc_multi p) l); cbn.
    + subst rest; exists ps, dead, hs; cbn; split_and!; [done|done| |done].
      rewrite Hr, <- app_assoc; cbn; destruct h as [h1 h2]; cbn in *; by subst.
    + exists (mkPending (pc_id p) (pc_multi p) (pc_lines p ++ [l]) :: ps), dead, (h :: hs); split_and!; [done..|].
      destruct rest as [|l' rest]; [done|]; constructor; [|done].
      split_and!; cbn [pc_id pc_lines pc_multi fst snd]; [done..|by rewrite <- app_assoc|done].
  - exists live, dead, outs; destruct (read_event_line onConnect l (client s) Hl) as [Hp' Ha]; cbn; by rewrite Hp', Ha.
Qed.

Lemma mreach_inv s : mreach s -> msys_inv s.
Proof.
  induction 1 as [|s s' _ IH Hs]; [exists [], [], []; split_and!; [done..|constructor]|by eapply mstep_inv].
Qed.

(** C28. Every command gets its own reply: whatever the interleaving of commands,
    reply lines, notifications and failed writes, the waiters woken so far are the
    oldest ones, each with exactly the lines the server answered to it; every
    command is answered, waiting or failed; and once the server has nothing left
    to send only those whose write failed are without an answer. *)
Theorem replies_routed s : mreach s ->
  (answered (client s)) `prefix_of` (replies s)
  ∧ (length (replies s) + length (failed s) = length (answered (client s)) + length (pending (client s)))%nat
  ∧ (unsent s = [] -> answered (client s) = replies s ∧ pc_id <$> pending (client s) = failed s).
Proof.
  intros (live & dead & outs & Hp & Hf & Hr & Hw)%mreach_inv; split_and!; [by exists outs|..].
  - rewrite Hr, Hp, <- Hf, !length_app, length_fmap, (Forall3_length_lr _ _ _ _ Hw); lia.
  - intros Hu; rewrite Hu in Hw; inversion Hw; subst; rewrite Hr, Hp, app_nil_r; done.
Qed.

(** ** [run] as its caller sees it

    The select wakes for the reply, for the end of the connection, or for the timeout. *)
Inductive wake := Replied | ConnClosed (e : gerror) | TimedOut.
Definition run_wait (s : msys) (id : nat) (command : string) (wk : wake) : option (result (list line)) :=
  match wk with
  | Replied => (fun found => run_result found.2.2) <$> list_find (fun a => a.1 = id) (answered (client s))
  | ConnClosed e => Some (inl ("management connection closed: " +:+ e)%string)
  | TimedOut => Some (inl ("management command " +:+ quoted command +:+ " timed out")%string)
  end.

(** What a command returns is the server's answer to it, in full; it is an error when
    the server said so, when the connection ended or when the time was up, and none of
    these touches the reply of another command. *)
Theorem run_told s id command wk lines : mreach s -> run_wait s id command wk = Some (inr lines) ->
  (id, lines) ∈ replies s ∧ wk = Replied.
Proof.
  intros (live & dead & outs & _ & _ & Hr & _)%mreach_inv; destruct wk; cbn; [|done|done].
  destruct (list_find _ _) as [[i [id' ls]]|] eqn:E; [|done]; cbn.
  apply list_find_Some in E as (E & Hid & _); cbn in Hid; subst id'; unfold run_result.
  intros [= H]; split; [|done]; rewrite Hr; apply elem_of_app; left.
  destruct (last ls) as [l|]; [destruct (HasPrefix l "ERROR:"); [done|]|]; injection H as <-; by eapply list_elem_of_lookup_2.
Qed.

(** * Dialling

    The socket is tried every 200 milliseconds until the deadline; [None] when the
    fuel runs out. *)
Class DialHost (W : Type) := {
  DialTimeout : string -> Z -> M W gerror unit;
  dial_clock : W -> Z;
  dial_Sleep : Z -> W -> W
}.
Definition dial_millisecond : Z := 1000000.
Section Dial.
Context {W : Type} `{!DialHost W}.
Fixpoint dial_loop (fuel : nat) (socket : string) (deadline : Z) (w : W) : option ((gerror + unit) * W) :=
  match fuel with
  | O => None
  | S fuel =>
      match DialTimeout socket (1000 * dial_millisecond) w with
      | (inr _, w1) => Some (inr tt, w1)
      | (inl err, w1) =>
          if deadline <? dial_clock w1
          then Some (inl ("management interface at " +:+ socket +:+ ": " +:+ err)%string, w1)
          else dial_loop fuel socket deadline (dial_Sleep (200 * dial_millisecond) w1)
      end
  end.
Definition dial_fuel (timeout : Z) : nat := Z.to_nat (timeout / (200 * dial_millisecond) + 2).
Definition dialManagement (socket : string) (timeout : Z) (w : W) : option ((gerror + unit) * W) :=
  dial_loop (dial_fuel timeout) socket (dial_clock w + timeout) w.

(** Time passes while the socket is tried, and at least as long as one sleeps. *)
Class DialLaws := {
  dial_forward p t w r w' : DialTimeout p t w = (r, w') -> dial_clock w <= dial_clock w';
  dial_sleeps d w : dial_clock w + d <= dial_clock (dial_Sleep d w)
}.
Context {DL : DialLaws}.

Lemma dial_ends fuel socket deadline w : (0 < fuel)%nat ->
  deadline < dial_clock w + 200 * dial_millisecond * (Z.of_nat fuel - 1) -> is_Some (dial_loop fuel socket deadline w).
Proof.
  revert w; induction fuel as [|fuel IH]; intros w Hf Hd; [lia|]; cbn [dial_loop].
  destruct (DialTimeout _ _ w) as [[err|[]] w1] eqn:E; [|done]; apply dial_forward in E.
  destruct (Z.ltb_spec deadline (dial_clock w1)); [done|].
  pose proof (dial_sleeps (200 * dial_millisecond) w1); unfold dial_millisecond in *; apply IH; [|lia].
  destruct fuel; lia.
Qed.
Lemma dial_inv fuel socket deadline w r w' : dial_loop fuel socket deadline w = Some (r, w') ->
  ∃ w1, match r with
        | inr _ => DialTimeout socket (1000 * dial_millisecond) w1 = (inr tt, w')
        | inl e => deadline < dial_clock w' ∧ ∃ err, DialTimeout socket (1000 * dial_millisecond) w1 = (inl err, w')
            ∧ e = ("management interface at " +:+ socket +:+ ": " +:+ err)%string
        end.
Proof using Type.
  clear DL; revert w; induction fuel as [|fuel IH]; intros w; cbn [dial_loop]; [done|].
  destruct (DialTimeout _ _ w) as [[err|[]] w1] eqn:E; [|by intros [= <- <-]; exists w].
  destruct (Z.ltb_spec deadline (dial_clock w1)); [|by apply IH]; intros [= <- <-]; exists w; eauto.
Qed.

(** Attaching to the server ends: with a connection that was made, or, when the
    deadline has passed, with the last error. *)
Theorem dialManagement_decides socket timeout w : 0 <= timeout ->
  ∃ r w', dialManagement socket timeout w = Some (r, w') ∧
  ∃ w1, match r with
        | inr _ => DialTimeout socket (1000 * dial_millisecond) w1 = (inr tt, w')
        | inl e => dial_clock w + timeout < dial_clock w' ∧ ∃ err, DialTimeout socket (1000 * dial_millisecond) w1 = (inl err, w')
            ∧ e = ("management interface at " +:+ socket +:+ ": " +:+ err)%string
        end.
Proof.
  intros Ht; unfold dialManagement, dial_fuel.
  pose proof (Z.div_mod timeout (200 * dial_millisecond)) as Hdm; pose proof (Z.mod_pos_bound timeout (200 * dial_millisecond)) as Hm.
  pose proof (Z.div_pos timeout (200 * dial_millisecond)); unfold dial_millisecond in *.
  edestruct dial_ends as [[r w'] E]; [| |exists r, w'; split; [exact E|by eapply dial_inv]]; unfold dial_millisecond in *; lia.
Qed.
End Dial.

(** * Notifications are assembled *)

(** Feeding lines to the reader, collecting what it does. *)
Fixpoint read_lines (onConnect : line -> bool) (ls : list line) (m : management) : management * list action :=
  match ls with
  | [] => (m, [])
  | l :: ls =>
      let '(m1, a1) := read_line onConnect l m in
      let '(m2, a2) := read_lines onConnect ls m1 in (m2, a1 ++ a2)
  end.

Definition is_client (l : line) : bool := HasPrefix l ">CLIENT:".
Definition comma : ascii := ","%char.
Definition equals : ascii := "="%char.
Definition header_line (kind : string) (cid kid : line) : line :=
  lit ">CLIENT:" ++ lit kind ++ comma :: cid ++ comma :: kid.
Definition env_line (kv : line * line) : line := lit ">CLIENT:ENV," ++ kv.1 ++ equals :: kv.2.
Definition end_line : line := lit ">CLIENT:ENV,END".
Definition block (kind : string) (cid kid : line) (env : list (line * line)) : list line :=
  header_line kind cid kid :: (env_line <$> env) ++ [end_line].
Definition env_map (env : list (line * line)) (m : gmap line line) : gmap line line :=
  foldl (fun m kv => <[kv.1 := kv.2]> m) m env.

Lemma trim_client r : HasPrefix (lit ">CLIENT:" ++ r) ">CLIENT:" = true
  ∧ TrimPrefix (lit ">CLIENT:" ++ r) ">CLIENT:" = r ∧ is_event (lit ">CLIENT:" ++ r) = true.
Proof. done. Qed.

(** A line that is not about clients does not touch the one being assembled. *)
Lemma read_other oc l m : is_client l = false ->
  event (read_line oc l m).1 = event m ∧ (read_line oc l m).2 = [].
Proof.
  unfold is_client, read_line; intros Hc; destruct (HasPrefix l ">").
  - unfold handleEvent; by rewrite Hc.
  - destruct (pending m) as [|p q]; [done|]; by destruct (finished _ _).
Qed.

Definition event_kinds : list string := ["CONNECT"; "REAUTH"; "ESTABLISHED"; "DISCONNECT"]%string.

Lemma handle_header oc cur kind cid kid : kind ∈ event_kinds -> comma ∉ cid ->
  handleEvent oc cur (header_line kind cid kid) = (Some (mkEvent (lit kind) cid kid ∅), []).
Proof.
  intros Hk Hc; unfold handleEvent, header_line.
  destruct (trim_client (lit kind ++ comma :: cid ++ comma :: kid)) as (-> & -> & _); cbn [negb].
  assert (Hn : (comma ∉ lit kind) ∧ (eq_lit (lit kind) "CONNECT" || eq_lit (lit kind) "REAUTH"
    || eq_lit (lit kind) "ESTABLISHED" || eq_lit (lit kind) "DISCONNECT") = true).
  { unfold event_kinds in Hk; rewrite !elem_of_cons in Hk.
    destruct Hk as [->|[->|[->|[->|Hk]]]]; [..|by apply elem_of_nil in Hk];
      (split; [apply (bool_decide_unpack (comma ∉ _)); vm_compute; exact I|vm_compute; reflexivity]). }
  destruct Hn as [Hn E]; rewrite (Str.cut_app _ _ _ Hn), E, (Str.cut_app _ _ _ Hc); done.
Qed.

Lemma handle_env oc ev kv : equals ∉ kv.1 ->
  handleEvent oc (Some ev) (env_line kv)
  = (Some (mkEvent (ev_kind ev) (ev_cid ev) (ev_kid ev) (<[kv.1 := kv.2]> (ev_env ev))), []).
Proof.
  intros Hk; unfold handleEvent, env_line.
  change (lit ">CLIENT:ENV,") with (lit ">CLIENT:" ++ lit "ENV" ++ [comma]); rewrite <- !app_assoc; cbn [app].
  destruct (trim_client (lit "ENV" ++ comma :: kv.1 ++ equals :: kv.2)) as (-> & -> & _); cbn [negb].
  rewrite Str.cut_app by (apply (bool_decide_unpack (comma ∉ _)); vm_compute; exact I).
  assert (eq_lit (kv.1 ++ equals :: kv.2) "END" = false) as ->.
  { apply bool_decide_eq_false; intros E.
    assert (equals ∈ lit "END") as Hin by (rewrite <- E; apply elem_of_app; right; constructor).
    revert Hin; apply (bool_decide_unpack (equals ∉ _)); vm_compute; exact I. }
  by rewrite (Str.cut_app _ _ _ Hk).
Qed.

Lemma handle_end oc ev : handleEvent oc (Some ev) end_line = (None, finishEvent oc ev).
Proof. done. Qed.

(** Reading a client line: only the event being assembled moves. *)
Lemma read_client oc l m : is_client l = true ->
  let '(ev, acts) := handleEvent oc (event m) l in
  event (read_line oc l m).1 = ev ∧ (read_line oc l m).2 = acts.
Proof.
  unfold is_client, read_line; intros Hc; assert (HasPrefix l ">" = true) as ->.
  { apply Str.has_prefix_spec in Hc as [r ->]; done. }
  by destruct (handleEvent oc (event m) l).
Qed.

Lemma read_lines_cons oc l ls m : read_lines oc (l :: ls) m =
  let '(m2, a2) := read_lines oc ls (read_line oc l m).1 in (m2, (read_line oc l m).2 ++ a2).
Proof. cbn; by destruct (read_line oc l m); destruct (read_lines _ _ _). Qed.

Lemma read_others oc ls m : List.filter is_client ls = [] ->
  event (read_lines oc ls m).1 = event m ∧ (read_lines oc ls m).2 = [].
Proof.
  revert m; induction ls as [|l ls IH]; intros m; [done|]; cbn [List.filter].
  destruct (is_client l) eqn:Hc; [done|]; intros Hf; rewrite read_lines_cons.
  destruct (read_other oc l m Hc) as [He ->]; destruct (IH (read_line oc l m).1 Hf) as [IH1 IH2].
  destruct (read_lines _ _ _); cbn in *; by rewrite IH1.
Qed.

(** The rest of a block, among other lines, from an event being assembled. *)
Lemma read_env oc env ls m ev : Forall (fun kv => equals ∉ kv.1) env -> event m = Some ev ->
  List.filter is_client ls = (env_line <$> env) ++ [end_line] ->
  event (read_lines oc ls m).1 = None
  ∧ (read_lines oc ls m).2
    = finishEvent oc (mkEvent (ev_kind ev) (ev_cid ev) (ev_kid ev) (env_map env (ev_env ev))).
Proof.
  revert env m ev; induction ls as [|l ls IH]; intros env m ev Henv Hev Hf; [by destruct env|].
  rewrite read_lines_cons; cbn [List.filter] in Hf; destruct (is_client l) eqn:Hc.
  - pose proof (read_client oc l m Hc) as Hr; rewrite Hev in Hr.
    destruct env as [|kv env]; injection Hf as -> Hf.
    + rewrite handle_end in Hr; destruct Hr as [Hr ->].
      destruct (read_others oc ls (read_line oc end_line m).1 Hf) as [H1 H2].
      destruct (read_lines _ _ _); cbn in *; rewrite H1, H2, app_nil_r; by destruct ev.
    + apply Forall_cons in Henv as [Hk Henv]; rewrite (handle_env _ _ _ Hk) in Hr; destruct Hr as [Hr ->].
      destruct (IH env _ _ Henv Hr Hf) as [H1 H2]; destruct (read_lines _ _ _); done.
  - destruct (read_other oc l m Hc) as [He ->]; rewrite Hev in He.
    destruct (IH env _ _ Henv He Hf) as [H1 H2]; by destruct (read_lines _ _ _).
Qed.

Lemma finish_kind oc kind ev : kind ∈ event_kinds -> ev_kind ev = lit kind -> finishEvent oc ev =
    if bool_decide (kind ∈ ["CONNECT"; "REAUTH"]%string) then
      [if oc (event_name ev) then ClientAuth (ev_cid ev) (ev_kid ev) else ClientDeny (ev_cid ev) (ev_kid ev)]
    else if bool_decide (kind = "DISCONNECT"%string) then
      [Disconnected (event_name ev) (Lax.ParseInt (env_get ev "bytes_received")) (Lax.ParseInt (env_get ev "bytes_sent"))]
    else [].
Proof.
  intros Hk Hev; unfold finishEvent; rewrite Hev.
  assert ((eq_lit (lit kind) "CONNECT" || eq_lit (lit kind) "REAUTH") = bool_decide (kind ∈ ["CONNECT"; "REAUTH"]%string)
    ∧ eq_lit (lit kind) "DISCONNECT" = bool_decide (kind = "DISCONNECT"%string)) as [-> ->].
  { unfold event_kinds in Hk; rewrite !elem_of_cons in Hk.
    destruct Hk as [->|[->|[->|[->|Hk]]]]; [..|by apply elem_of_nil in Hk]; split; vm_compute; reflexivity. }
  case_bool_decide; [|done]; by destruct (oc _).
Qed.

(** A client notification is decided once and on its own terms: wherever the
    lines of its block fall among reply lines and other notifications, and
    whatever was being assembled before, the end of the block produces exactly
    the answer to that client - for a connection, admission of the client id it
    came with if and only if the name in its environment is one the node admits,
    refusal otherwise; for a disconnection, its final counters under its name. *)
Theorem event_decided oc kind cid kid env ls m :
  kind ∈ event_kinds -> comma ∉ cid -> Forall (fun kv => equals ∉ kv.1) env ->
  List.filter is_client ls = block kind cid kid env ->
  event (read_lines oc ls m).1 = None
  ∧ (read_lines oc ls m).2 =
    let ev := mkEvent (lit kind) cid kid (env_map env ∅) in
    if bool_decide (kind ∈ ["CONNECT"; "REAUTH"]%string) then
      [if oc (event_name ev) then ClientAuth cid kid else ClientDeny cid kid]
    else if bool_decide (kind = "DISCONNECT"%string) then
      [Disconnected (event_name ev) (Lax.ParseInt (env_get ev "bytes_received")) (Lax.ParseInt (env_get ev "bytes_sent"))]
    else [].
Proof.
  intros Hk Hc Henv; unfold block.
  revert m; induction ls as [|l ls IH]; intros m Hf; [done|]; rewrite read_lines_cons.
  cbn [List.filter] in Hf; destruct (is_client l) eqn:Hl.
  - injection Hf as -> Hf; pose proof (read_client oc _ m Hl) as Hr.
    rewrite (handle_header _ _ _ _ _ Hk Hc) in Hr; destruct Hr as [Hr ->].
    destruct (read_env oc env ls _ _ Henv Hr Hf) as [H1 H2]; destruct (read_lines _ _ _); cbn [fst snd app] in *.
    split; [done|]; rewrite H2; by rewrite (finish_kind _ kind).
  - destruct (read_other oc l m Hl) as [_ ->]; destruct (IH (read_line oc l m).1 Hf) as [H1 H2].
    by destruct (read_lines _ _ _).
Qed.
