(* ===== verification/OpenVPN.v ===== *)
(** The OpenVPN service: src/services/openvpn/openvpn.go (peers, admission of
    connections, traffic), handshake.go, and the static key file of pki.go.

    The server asks the node, over the management interface of Management.v,
    whether a certificate's common name may connect ([ov_admit]) and reports the
    final counters of a connection that ended ([disconnected]).  Issuing a
    certificate is a parameter. *)
From S2P Require Import Prelude Codec Uuid Types Admission AdmissionProofs Guard Handshake HandshakeProofs Keyed UuidTables Management.
Set Default Proof Using "Type*".

Record otraffic := mkTraffic { t_upload : Z; t_download : Z }.

(** Certificate (DER) and key (PKCS#8 DER) for a common name. *)
Class PKI (A : Type) := issueClient : string -> M A gerror (bytes * bytes).

Record openvpn (A : Type) := mkOVPN {
  byCN : gmap string string;         (* common name -> session key *)
  closed : gmap string otraffic;     (* session key -> traffic of ended connections *)
  o_peers : PeerSet_t;
  o_mgmt : bool;                     (* attached to the server *)
  o_pki : bool;                      (* initialised *)
  o_ext : A                          (* the server and the certificate authority *)
}.
Arguments mkOVPN {A}. Arguments byCN {A}. Arguments closed {A}. Arguments o_peers {A}.
Arguments o_mgmt {A}. Arguments o_pki {A}. Arguments o_ext {A}.

Section OpenVPN.
Context {A : Type} {HM : Management A} {HP : PKI A}.
Abbreviation ov := (openvpn A).

Definition o_modify (f : ov -> ov) : M ov gerror unit := fun s => (inr tt, f s).
Definition o_on_ext {B} (m : M A gerror B) : M ov gerror B := fun s =>
  let '(r, a) := m (o_ext s) in (r, mkOVPN (byCN s) (closed s) (o_peers s) (o_mgmt s) (o_pki s) a).
Definition o_with (cns : gmap string string) (cl : gmap string otraffic) (ps : PeerSet_t) (s : ov) : ov :=
  mkOVPN cns cl ps (o_mgmt s) (o_pki s) (o_ext s).

Definition ov_New (a : A) : ov := mkOVPN ∅ ∅ PeerSet_New false false a.

(** The management-client-auth decision. *)
Definition ov_admit (commonName : string) (s : ov) : bool := bool_decide (is_Some (byCN s !! commonName)).

Definition addTraffic (c : otraffic) (received sent : Z) : otraffic :=
  mkTraffic (wrap64 (t_upload c + received)) (wrap64 (t_download c + sent)).

Definition disconnected (commonName : string) (received sent : Z) (s : ov) : ov :=
  match byCN s !! commonName with
  | None => s
  | Some key =>
      let c := default (mkTraffic 0 0) (closed s !! key) in
      o_with (byCN s) (<[key := addTraffic c received sent]> (closed s)) (o_peers s) s
  end.

Definition o_checkPeerData (data : bytes) : M ov gerror unit :=
  throw_if (negb (length data =? UUIDLen)%nat) "peer data must be a 16-byte uuid"%string.

(** A 4-byte big-endian length, the certificate, the key. *)
Definition peerResult (certDER keyDER : bytes) : bytes :=
  BE.uint32 (Z.of_nat (length certDER)) ++ certDER ++ keyDER.

Definition ov_AddPeer (data : bytes) : M ov gerror bytes :=
  o_checkPeerData data ≫= fun _ =>
  pki ← gets o_pki;
  throw_if (negb pki) "openvpn was not initialised"%string ≫= fun _ =>
  let cn := FormatUUID (copy16 data) in
  let key := Base64.EncodeToString data in
  pair ← o_on_ext (issueClient cn);
  o_modify (fun s => o_with (<[cn := key]> (byCN s))
    (match closed s !! key with Some _ => closed s | None => <[key := mkTraffic 0 0]> (closed s) end)
    (o_peers s) s) ≫= fun _ =>
  o_modify (fun s => o_with (byCN s) (closed s) (PeerSet_Put key (o_peers s)) s) ≫= fun _ =>
  mret (peerResult pair.1 pair.2).

Definition ov_HasPeer (data : bytes) (s : ov) : bool := PeerSet_Has (Base64.EncodeToString data) (o_peers s).

Definition ov_RemovePeer (data : bytes) : M ov gerror unit :=
  o_checkPeerData data ≫= fun _ =>
  let cn := FormatUUID (copy16 data) in
  let key := Base64.EncodeToString data in
  o_modify (fun s => o_with (delete cn (byCN s)) (delete key (closed s)) (o_peers s) s) ≫= fun _ =>
  o_modify (fun s => o_with (byCN s) (closed s) (PeerSet_Delete key (o_peers s)) s) ≫= fun _ =>
  mgmt ← gets o_mgmt;
  if negb mgmt then mret tt else o_on_ext (kill (lit cn)).

(** The live table: the last row of a name wins. *)
Definition liveMap (rows : list clientStatus) : gmap string clientStatus :=
  foldl (fun m row => <[Str.to_string (cs_commonName row) := row]> m) ∅ rows.

(** A peer's report: its ended connections, then the live one of each of its
    names. *)
Definition usage (cns : gmap string string) (cl : gmap string otraffic) (live : gmap string clientStatus)
    (key : string) : otraffic :=
  foldl (fun c cn => match live !! cn with
                     | Some row => addTraffic c (cs_received row) (cs_sent row)
                     | None => c
                     end)
    (default (mkTraffic 0 0) (cl !! key))
    (List.filter (fun cn => bool_decide (cns !! cn = Some key)) (elements (dom cns))).

Definition ov_Peers : M ov gerror (list Peer) :=
  mgmt ← gets o_mgmt;
  live ← (if (mgmt : bool) then rows ← o_on_ext Management.status; mret (liveMap rows) else mret ∅);
  gets (fun s => (fun key => let c := usage (byCN s) (closed s) live key in
                    mkPeer key (t_upload c) (t_download c)) <$> PeerSet_Keys (o_peers s)).

Definition ov_PeerCount (s : ov) : Z := PeerSet_Len (o_peers s).

Definition ov_service : Service ov := {|
  AddPeer := ov_AddPeer; HasPeer := ov_HasPeer; RemovePeer := ov_RemovePeer;
  Peers := ov_Peers; PeerCount := ov_PeerCount
|}.

(** ** The handshake *)
Record ovPayload := mkOvPayload {
  op_Port : Z; op_Protocol : string; op_CA : bytes; op_TLS : bytes; op_Cert : bytes; op_Key : bytes }.

Definition ov_ParsePeerRequest (req : option uuid_request) : result bytes :=
  match UUIDPeerRequest req with
  | inl _ => inl "invalid peer request"%string
  | inr id => inr id
  end.

Definition ov_HandshakePayload (port : Z) (proto : string) (caDER tlsCrypt : bytes) (res : bytes) (s : ov)
  : result ovPayload :=
  if (length res <? 4)%nat then inl "unexpected openvpn peer result"%string else
  let certLen := Z.to_nat (BE.get (take 4 res)) in
  if (certLen =? 0)%nat || (length res <? 4 + certLen)%nat
  then inl "unexpected openvpn peer result length"%string else
  if negb (o_pki s) then inl "openvpn was not initialised"%string else
  inr (mkOvPayload port proto caDER tlsCrypt (take certLen (drop 4 res)) (drop (4 + certLen) res)).

(** What the root document shows: the transport, nothing of a session. *)
Definition transportTCP : byte := x02.
Definition ov_PublicMetadata (info : bytes) : list (Z * string * bytes * bytes) :=
  [(0, if bool_decide (nth 2 info x00 = transportTCP) then "tcp"%string else "udp"%string, [], [])].

Definition ov_api_of (unmarshal : bytes -> option uuid_request) (info : bytes) (proto : string)
    (caDER tlsCrypt : bytes) : ServiceAPI ov := {|
  Payload := ovPayload;
  ParsePeerRequest raw := fun s => (ov_ParsePeerRequest (unmarshal raw), s);
  HandshakePayload res := fun s => (ov_HandshakePayload (BE.get (take 2 info)) proto caDER tlsCrypt res s, s);
  Info _ := info
|}.

(** * The invariant *)
Definition ov_inv (s : ov) : Prop := tables_agree (byCN s) (closed s) (o_peers s).

(** What the operations do, read off their branches. *)
Lemma o_on_ext_frame {B} (m : M A gerror B) s r s' : o_on_ext m s = (r, s') ->
  ∃ a, m (o_ext s) = (r, a) ∧ s' = mkOVPN (byCN s) (closed s) (o_peers s) (o_mgmt s) (o_pki s) a.
Proof. unfold o_on_ext; destruct (m (o_ext s)) as [r' a]; intros [= <- <-]; eauto. Qed.

Lemma ov_AddPeer_inv d s r s' : ov_AddPeer d s = (r, s') ->
  (∃ e a, r = inl e ∧ s' = mkOVPN (byCN s) (closed s) (o_peers s) (o_mgmt s) (o_pki s) a)
  ∨ (∃ cert key a, r = inr (peerResult cert key) ∧ length d = UUIDLen ∧ o_pki s = true
      ∧ issueClient (FormatUUID d) (o_ext s) = (inr (cert, key), a)
      ∧ s' = mkOVPN (<[FormatUUID d := Base64.EncodeToString d]> (byCN s))
          (match closed s !! Base64.EncodeToString d with
           | Some _ => closed s | None => <[Base64.EncodeToString d := mkTraffic 0 0]> (closed s) end)
          (PeerSet_Put (Base64.EncodeToString d) (o_peers s)) (o_mgmt s) (o_pki s) a).
Proof.
  unfold ov_AddPeer, o_checkPeerData, throw_if, o_modify, gets, o_on_ext, throw, mbind, M_bind, mret, M_ret.
  destruct (Nat.eqb_spec (length d) UUIDLen) as [Hl|]; cbn [negb];
    [|intros [= <- <-]; left; exists "peer data must be a 16-byte uuid"%string, (o_ext s); by destruct s].
  destruct (o_pki s) eqn:Hp; cbn [negb];
    [|intros [= <- <-]; left; exists "openvpn was not initialised"%string, (o_ext s); destruct s; by cbn in *; subst].
  rewrite (copy16_id d) by done; destruct (issueClient (FormatUUID d) (o_ext s)) as [[e|[cert key]] a] eqn:Hi;
    cbn -[FormatUUID]; intros [= <- <-]; [left; exists e, a; by rewrite Hp|right; exists cert, key, a; unfold o_with; cbn -[FormatUUID]; by rewrite Hp].
Qed.

Lemma ov_RemovePeer_inv d s r s' : ov_RemovePeer d s = (r, s') ->
  (∃ e, r = inl e ∧ s' = s) ∨ (length d = UUIDLen ∧ ∃ a,
    s' = mkOVPN (delete (FormatUUID d) (byCN s)) (delete (Base64.EncodeToString d) (closed s))
          (PeerSet_Delete (Base64.EncodeToString d) (o_peers s)) (o_mgmt s) (o_pki s) a).
Proof.
  unfold ov_RemovePeer, o_checkPeerData, throw_if, o_modify, gets, o_on_ext, throw, mbind, M_bind, mret, M_ret.
  destruct (Nat.eqb_spec (length d) UUIDLen) as [Hl|]; cbn [negb]; [|intros [= <- <-]; left; eexists; done].
  rewrite (copy16_id d) by done; intros H; right; split; [done|]; revert H; cbn -[FormatUUID].
  destruct (o_mgmt s) eqn:Hm; cbn -[FormatUUID].
  - destruct (kill _ _) as [r' a]; intros [= <- <-]; exists a; by rewrite Hm.
  - intros [= <- <-]; exists (o_ext s); unfold o_with; cbn -[FormatUUID]; by rewrite Hm.
Qed.

Lemma ov_Peers_inv s r s' : ov_Peers s = (r, s') ->
  ∃ a, s' = mkOVPN (byCN s) (closed s) (o_peers s) (o_mgmt s) (o_pki s) a.
Proof.
  unfold ov_Peers, gets, o_on_ext, mbind, M_bind, mret, M_ret.
  destruct (o_mgmt s) eqn:Hm; cbn.
  - destruct (Management.status _) as [[e|rows] a]; intros [= <- <-]; exists a; by rewrite Hm.
  - intros [= <- <-]; exists (o_ext s); destruct s; by cbn in *; subst.
Qed.

Lemma disconnected_inv cn r t s : ov_inv s -> ov_inv (disconnected cn r t s).
Proof.
  intros Hs; unfold disconnected; destruct (byCN s !! cn) as [k|] eqn:E; [|done].
  apply (tables_traffic _ (closed s)); [|done]; cbn.
  rewrite dom_insert_L; apply (ta_name _ _ _ Hs) in E as (d & _ & _ & _ & Hin).
  rewrite (ta_traffic _ _ _ Hs); set_solver.
Qed.

#[local] Existing Instance ov_service.
#[export] Instance ov_keyed : KeyedService (S := ov) o_peers ov_inv.
Proof.
  split; simpl.
  - by intros s d r s' [(e & a & -> & ->)|(c & k & a & -> & _ & _ & _ & ->)]%ov_AddPeer_inv.
  - intros s d r s' [(e & -> & ->)|(_ & a & ->)]%ov_RemovePeer_inv; [by right|by left].
  - by intros s r s' [a ->]%ov_Peers_inv.
  - done.
  - done.
  - intros s d r s' HJ _ [(e & a & _ & ->)|(c & k & a & _ & Hl & _ & _ & ->)]%ov_AddPeer_inv; [done|by apply tables_add].
  - intros s d r s' HJ _ [(e & _ & ->)|(Hl & a & ->)]%ov_RemovePeer_inv; [done|by apply tables_forget].
  - by intros s r s' HJ _ [a ->]%ov_Peers_inv.
Qed.
Definition ov_laws : ServiceLaws ov := keyed_laws o_peers ov_inv.

Lemma ov_api_laws unmarshal info proto caDER tlsCrypt :
  ServiceAPILaws ov (ServiceLaws0 := ov_laws) (ServiceAPI0 := ov_api_of unmarshal info proto caDER tlsCrypt).
Proof.
  split; simpl.
  - intros s raw r s' Hs [= <- <-]; split_and!; try done; unfold ov_ParsePeerRequest.
    destruct (UUIDPeerRequest _) as [|id] eqn:E; [done|]; apply UUIDPeerRequest_length in E; by intros ->.
  - by intros s res r s' Hs [= <- <-].
Qed.

(** * Runs of the service *)
Inductive ov_reach : ov -> Prop :=
  | ov_start a : ov_reach (ov_New a)
  | ov_host s mgmt pki a : ov_reach s ->                     (* Init, Start, Stop, and the world *)
      ov_reach (mkOVPN (byCN s) (closed s) (o_peers s) mgmt pki a)
  | ov_adds s d r s' : ov_reach s -> ov_AddPeer d s = (r, s') -> ov_reach s'
  | ov_removes s d r s' : ov_reach s -> ov_RemovePeer d s = (r, s') -> ov_reach s'
  | ov_reads s r s' : ov_reach s -> ov_Peers s = (r, s') -> ov_reach s'
  | ov_ends s cn received sent : ov_reach s -> ov_reach (disconnected cn received sent s).

Lemma ov_reach_inv s : ov_reach s -> ov_inv s.
Proof.
  induction 1 as [a|s m p a _ IH|s d r s' _ IH H|s d r s' _ IH H|s r s' _ IH H|s cn r t _ IH].
  - apply tables_empty.
  - exact IH.
  - apply ov_AddPeer_inv in H as [(e & a & _ & ->)|(c & k & a & _ & Hl & _ & _ & ->)]; [done|by apply tables_add].
  - apply ov_RemovePeer_inv in H as [(e & _ & ->)|(Hl & a & ->)]; [done|by apply tables_forget].
  - by apply ov_Peers_inv in H as [a ->].
  - by apply disconnected_inv.
Qed.

(** A connection is admitted exactly for the certificates of the peers
    registered now: however peers came, went and disconnected, a common name is
    accepted if and only if it is the canonical uuid of a registered peer. *)
Theorem ov_admit_exact s cn : ov_reach s ->
  ov_admit cn s = true <-> ∃ d, length d = UUIDLen ∧ cn = FormatUUID d ∧ ov_HasPeer d s = true.
Proof.
  intros Hs%ov_reach_inv; unfold ov_admit, ov_HasPeer, PeerSet_Has; rewrite bool_decide_eq_true; split.
  - intros [k (d & Hl & -> & -> & Hin)%(ta_name _ _ _ Hs)]; exists d; by rewrite bool_decide_eq_true.
  - intros (d & Hl & -> & Hin%bool_decide_eq_true); exists (Base64.EncodeToString d); by eapply tables_name.
Qed.

Lemma singleton_list {B} (l : list B) x : NoDup l -> (forall y, y ∈ l <-> y = x) -> l = [x].
Proof.
  intros Hn Hl; destruct l as [|y l]; [by pose proof (proj2 (Hl x) eq_refl) as ?%elem_of_nil|].
  assert (y = x) as -> by (apply Hl; constructor).
  destruct l as [|z l]; [done|]; assert (z = x) as -> by (apply Hl; constructor; constructor).
  apply NoDup_cons in Hn as [Hn _]; by destruct Hn; constructor.
Qed.

(** A registered peer has one name, so one live connection counts for it. *)
Lemma usage_registered cns cl peers live d : length d = UUIDLen -> tables_agree cns cl peers ->
  Base64.EncodeToString d ∈ peers ->
  usage cns cl live (Base64.EncodeToString d) =
  let banked := default (mkTraffic 0 0) (cl !! Base64.EncodeToString d) in
  match live !! FormatUUID d with
  | Some row => addTraffic banked (cs_received row) (cs_sent row)
  | None => banked
  end.
Proof.
  intros Hl HT Hin; unfold usage; rewrite (singleton_list (List.filter _ _) (FormatUUID d)); [done|..].
  - rewrite <- (map_id (List.filter _ _)); apply (NoDup_fmap_filter id).
    rewrite list_fmap_id; apply NoDup_elements.
  - intros cn; rewrite list_elem_of_In, filter_In, <- list_elem_of_In, elem_of_elements, bool_decide_eq_true; split.
    + intros [_ H]; by eapply tables_name_unique.
    + intros ->; pose proof (tables_name _ _ _ _ Hl HT Hin) as E; split; [by apply elem_of_dom|done].
Qed.

(** A connection's end loses no traffic: when a client leaves with its final
    counters, what the node reports for its session afterwards, without the live
    connection, is what it reported with it, and no other session's report
    moves; a client that reconnects starts its counters again on top of it. *)
Theorem ov_usage_kept s d live row : ov_reach s -> length d = UUIDLen -> ov_HasPeer d s = true ->
  live !! FormatUUID d = Some row ->
  let s' := disconnected (FormatUUID d) (cs_received row) (cs_sent row) s in
  forall d', length d' = UUIDLen -> ov_HasPeer d' s = true ->
  usage (byCN s') (closed s') (delete (FormatUUID d) live) (Base64.EncodeToString d')
  = usage (byCN s) (closed s) live (Base64.EncodeToString d').
Proof.
  intros Hr Hl Hp%bool_decide_eq_true Hrow s' d' Hl' Hp'%bool_decide_eq_true.
  pose proof (ov_reach_inv _ Hr) as Hs; pose proof (disconnected_inv (FormatUUID d) (cs_received row) (cs_sent row) _ Hs) as Hs'.
  assert (o_peers s' = o_peers s ∧ closed s' = <[Base64.EncodeToString d :=
    addTraffic (default (mkTraffic 0 0) (closed s !! Base64.EncodeToString d)) (cs_received row) (cs_sent row)]> (closed s)) as [Ep Ec].
  { unfold s', disconnected; by rewrite (tables_name _ _ _ _ Hl Hs Hp). }
  fold s' in Hs'; unfold ov_inv in Hs', Hs; rewrite (usage_registered _ _ _ _ _ Hl' Hs') by (by rewrite Ep).
  rewrite (usage_registered _ _ _ _ _ Hl' Hs Hp'), Ec; cbv zeta.
  destruct (decide (d' = d)) as [->|Hne].
  - by rewrite lookup_delete_eq, lookup_insert_eq, Hrow.
  - rewrite lookup_delete_ne, lookup_insert_ne; [done|by intros E%(inj _)|].
    intros E%FormatUUID_inj; [done|done..].
Qed.

(** The client receives the certificate and the key that were issued for its
    uuid, whole and apart: what AddPeer packs, the handshake unpacks. *)
Theorem ov_payload_roundtrip d s res s' port proto ca tls :
  ov_AddPeer d s = (inr res, s') ->
  ∃ cert key a, issueClient (FormatUUID d) (o_ext s) = (inr (cert, key), a)
    ∧ ((0 < length cert)%nat -> Z.of_nat (length cert) < 2 ^ 32 ->
       ov_HandshakePayload port proto ca tls res s' = inr (mkOvPayload port proto ca tls cert key)).
Proof.
  intros [(e & a & [=] & _)|(cert & key & a & [= ->] & Hl & Hpki & Hi & ->)]%ov_AddPeer_inv.
  exists cert, key, a; split; [done|]; intros Hc0 Hc; unfold ov_HandshakePayload, peerResult, BE.uint32; cbn [o_pki].
  rewrite !length_app, BE.put_length, take_app_length' by (by rewrite BE.put_length).
  rewrite BE.get_put, Z.mod_small, Nat2Z.id by (change (256 ^ Z.of_nat 4) with (2 ^ 32); lia).
  rewrite drop_app_length' by (by rewrite BE.put_length).
  rewrite <- drop_drop, drop_app_length' by (by rewrite BE.put_length).
  rewrite take_app_length, drop_app_length, Hpki.
  destruct (Nat.ltb_spec (4 + (length cert + length key)) 4); [lia|].
  destruct (Nat.eqb_spec (length cert) 0); [lia|].
  by destruct (Nat.ltb_spec (4 + (length cert + length key)) (4 + length cert)); [lia|].
Qed.
End OpenVPN.
