(* ===== verification/StaticKey.v ===== *)
(** The tls-crypt key file of the OpenVPN service: [staticKeyFile] and
    [parseStaticKeyFile] of src/services/openvpn/pki.go.

    The node writes the file once and reads it back at every start; a client of a
    node whose key changed could not connect any more. *)
From S2P Require Import Prelude Codec.
Set Default Proof Using "Type*".
Import Str.

Definition tlsCryptKeyLen : nat := 256.
Definition nl : ascii := Ascii.ascii_of_nat 10.
Definition isSpace (c : ascii) : bool :=
  let n := Z.of_N (N_of_ascii c) in ((9 <=? n) && (n <=? 13)) || (n =? 32).

(** [strings.TrimSpace], on ASCII. *)
Fixpoint trim_left (s : chars) : chars :=
  match s with
  | [] => []
  | c :: r => if isSpace c then trim_left r else s
  end.
Definition TrimSpace (s : chars) : chars := reverse (trim_left (reverse (trim_left s))).

Definition keyHeader : list chars :=
  [of_string "#"; of_string "# 2048 bit OpenVPN static key"; of_string "#";
   of_string "-----BEGIN OpenVPN Static key V1-----"].
Definition keyFooter : chars := of_string "-----END OpenVPN Static key V1-----".

(** The loop over the hex digits, 32 at a time; [None]: a slice out of range. *)
Fixpoint hexLines (fuel : nat) (h : chars) : option (list chars) :=
  match fuel with
  | O => None
  | S fuel =>
    if (length h =? 0)%nat then Some [] else
    if (length h <? 32)%nat then None else
    cons (take 32 h) <$> hexLines fuel (drop 32 h)
  end.

Definition unlines (ls : list chars) : chars := concat ((fun l => l ++ [nl]) <$> ls).

Definition staticKeyFile (key : bytes) : option chars :=
  let h := Hex.encode key in
  lines ← hexLines (S (length h)) h;
  Some (unlines (keyHeader ++ lines ++ [keyFooter])).

Fixpoint scanKey (lines : list chars) (inside : bool) (h : chars) : chars :=
  match lines with
  | [] => h
  | l :: lines =>
      let l := TrimSpace l in
      if has_prefix (of_string "-----BEGIN") l then scanKey lines true h
      else if has_prefix (of_string "-----END") l then scanKey lines false h
      else if inside && negb (bool_decide (l = [])) && negb (has_prefix (of_string "#") l)
      then scanKey lines inside (h ++ l)
      else scanKey lines inside h
  end.

Definition parseStaticKeyFile (data : chars) : result bytes :=
  match Hex.decode (scanKey (split nl data) false []) with
  | Some key => if (length key =? tlsCryptKeyLen)%nat then inr key
                else inl "tc.key is not a 2048 bit OpenVPN static key"%string
  | None => inl "tc.key is not a 2048 bit OpenVPN static key"%string
  end.

(** * Hex lines *)
Definition hexchar (c : ascii) : Prop := Hex.value c ≠ None.

Lemma hexchar_plain c : hexchar c -> isSpace c = false ∧ c ≠ "-"%char ∧ c ≠ "#"%char ∧ c ≠ nl.
Proof.
  unfold hexchar; destruct c as [[] [] [] [] [] [] [] []]; vm_compute; intros H;
    first [by destruct H|repeat split; intros [=]].
Qed.

Lemma encode_hexchar d : Forall hexchar (Hex.encode d).
Proof.
  induction d as [|b d IH]; [constructor|]; rewrite Hex.encode_cons.
  destruct (Hex.nibbles b) as (H1 & H2 & _); unfold hexchar.
  repeat constructor; [by rewrite (proj1 (Hex.digit_ok _ H1))|by rewrite (proj1 (Hex.digit_ok _ H2))|done].
Qed.

Definition hexline (l : chars) : Prop := l ≠ [] ∧ Forall hexchar l.

Lemma trim_left_plain l : Forall hexchar l -> trim_left l = l.
Proof. destruct 1 as [|c l Hc]; [done|]; cbn; by destruct (hexchar_plain c Hc) as [-> _]. Qed.

Lemma TrimSpace_plain l : Forall hexchar l -> TrimSpace l = l.
Proof.
  intros Hl; unfold TrimSpace; rewrite (trim_left_plain l Hl), (trim_left_plain (reverse l)).
  - apply reverse_involutive.
  - by apply Forall_reverse.
Qed.

Lemma has_prefix_ne p c0 c l : c ≠ c0 -> has_prefix (c0 :: p) (c :: l) = false.
Proof. intros Hc; apply not_true_iff_false; by intros [r [= -> _]]%has_prefix_spec. Qed.

Lemma scan_hexline l ls h : hexline l -> scanKey (l :: ls) true h = scanKey ls true (h ++ l).
Proof.
  intros [Hn Hl]; cbn [scanKey]; rewrite (TrimSpace_plain l Hl); destruct Hl as [|c l Hc Hl]; [done|].
  destruct (hexchar_plain c Hc) as (_ & Hd & Hh & _).
  change (of_string "#") with ("#"%char :: []); rewrite (has_prefix_ne _ _ _ _ Hh).
  change (of_string "-----BEGIN") with ("-"%char :: of_string "----BEGIN").
  change (of_string "-----END") with ("-"%char :: of_string "----END").
  by rewrite !(has_prefix_ne _ _ _ _ Hd), bool_decide_false.
Qed.

Lemma scan_hexlines lines ls h : Forall hexline lines -> scanKey (lines ++ ls) true h = scanKey ls true (h ++ concat lines).
Proof.
  intros Hl; revert h; induction Hl as [|l lines Hx _ IH]; intros h; cbn [app concat]; [by rewrite app_nil_r|].
  by rewrite scan_hexline, IH, app_assoc.
Qed.

Lemma hexLines_spec fuel h : (length h < fuel)%nat -> (32 | length h)%nat -> Forall hexchar h ->
  ∃ lines, hexLines fuel h = Some lines ∧ concat lines = h ∧ Forall hexline lines.
Proof.
  revert h; induction fuel as [|fuel IH]; intros h Hf [k Hk] Hh; [lia|]; cbn [hexLines].
  destruct (Nat.eqb_spec (length h) 0) as [E|E]; [apply length_zero_iff_nil in E as ->; eexists; split_and!; [done..|constructor]|].
  destruct (Nat.ltb_spec (length h) 32); [lia|].
  destruct (IH (drop 32 h)) as (lines & -> & Hc & Hx).
  - rewrite length_drop; lia.
  - exists (k - 1)%nat; rewrite length_drop; lia.
  - by apply Forall_drop.
  - eexists; split_and!; [done|cbn; by rewrite Hc, take_drop|]; constructor; [|done].
    split; [|by apply Forall_take]; intros E0%(f_equal length); rewrite length_take in E0; change (length (@nil ascii)) with 0%nat in E0; lia.
Qed.

Lemma split_unlines ls : Forall (fun l => nl ∉ l) ls -> split nl (unlines ls) = ls ++ [[]].
Proof.
  intros Hl; induction Hl as [|l ls Hx _ IH]; [done|]; unfold unlines in *; cbn.
  by rewrite <- app_assoc; cbn; rewrite split_cons, IH.
Qed.

(** The tls-crypt key survives the disk: the file written for a key of the
    right length reads back as that key. *)
Theorem static_key_roundtrip key : length key = tlsCryptKeyLen ->
  ∃ file, staticKeyFile key = Some file ∧ parseStaticKeyFile file = inr key.
Proof.
  intros Hk; unfold staticKeyFile.
  destruct (hexLines_spec (S (length (Hex.encode key))) (Hex.encode key)) as (lines & -> & Hc & Hx).
  - lia.
  - rewrite Hex.encode_length, Hk; by exists 16%nat.
  - apply encode_hexchar.
  - eexists; split; [done|]; unfold parseStaticKeyFile; rewrite split_unlines.
    + assert (forall ls, scanKey (keyHeader ++ ls) false [] = scanKey ls true []) as Hhead by done.
      rewrite <- !app_assoc, Hhead, scan_hexlines, Hc by done.
      change (scanKey ([keyFooter] ++ [[]]) true ?h) with h; cbn [app].
      by rewrite Hex.hex_decode_encode, Hk.
    + repeat apply Forall_app_2.
      * repeat constructor; apply (bool_decide_unpack (nl ∉ _)); vm_compute; exact I.
      * eapply Forall_impl; [exact Hx|]; intros l [_ Hl] Hin; rewrite Forall_forall in Hl.
        by destruct (hexchar_plain _ (Hl _ Hin)) as (_ & _ & _ & ?).
      * repeat constructor; apply (bool_decide_unpack (nl ∉ _)); vm_compute; exact I.
Qed.
