(* ===== verification/Egress.v ===== *)
(** The node's firewall: src/services/common/egress.go and nat.go.

    Clients of a tunnel must not reach the host or the networks around it.  The
    node owns chains of its own, fills them and jumps to them from the built-in
    chains.  [iptables] is a parameter ([IPTables]): a command that fails changes
    nothing, one that succeeds does what the manual says ([effect]).  EgressPolicy.v
    says what a rule matches, so that its theorems speak of packets. *)
From stdpp Require Import pretty.
From S2P Require Import Prelude Codec Guard StaticKey.
Set Default Proof Using "Type*".

(** [strconv.Itoa]. *)
Definition Itoa (n : Z) : string := pretty n.

(** * Policy *)
Definition BlockedNetworksV4 : list string :=
  ["0.0.0.0/8"; "10.0.0.0/8"; "100.64.0.0/10"; "127.0.0.0/8"; "169.254.0.0/16"; "172.16.0.0/12";
   "192.0.0.0/24"; "192.168.0.0/16"; "198.18.0.0/15"; "224.0.0.0/4"; "240.0.0.0/4"]%string.
Definition BlockedNetworksV6 : list string := ["::/128"; "::1/128"; "fc00::/7"; "fe80::/10"; "ff00::/8"]%string.
Definition BlockedNetworks : list string := BlockedNetworksV4 ++ BlockedNetworksV6.
Definition SMTPPort : Z := 25.

(** An address is its bytes: 4 or 16 of them. *)
Record Egress := mkEgress { AllowSMTP : bool; APIPort : Z; Resolver : option bytes }.
Definition Egress0 : Egress := mkEgress false 0 None.

(** * Chains *)
Abbreviation rule := (list string).
Record family := mkFamily { f_tool : string; f_v6 : bool; f_blocked : list string }.
Definition family4 : family := mkFamily "iptables" false BlockedNetworksV4.
Definition family6 : family := mkFamily "ip6tables" true BlockedNetworksV6.
Definition families (ipv6 : bool) : list family := family4 :: (if ipv6 then [family6] else []).

(** The rules are [(chain, rule)], appended in order; the jumps are
    [(built-in chain, rule)]. *)
Record chains := mkChains {
  ch_names : list string;
  ch_rules : family -> list (string * rule);
  ch_jumps : list (string * rule)
}.

(** What a command does to the chains of a tool's filter table (iptables(8)):
    [None] when it must fail. *)
Fixpoint remove_one (r : rule) (l : list rule) : list rule :=
  match l with
  | [] => []
  | x :: l => if decide (x = r) then l else x :: remove_one r l
  end.
Definition referenced (c : string) (t : gmap string (list rule)) : bool :=
  bool_decide (map_Exists (fun _ rules => Exists (fun r => suffix ["-j"%string; c] r) rules) t).
Definition effect (args : list string) (t : gmap string (list rule)) : option (gmap string (list rule)) :=
  match args with
  | "-N"%string :: c :: [] => if t !! c is Some _ then None else Some (<[c := []]> t)
  | "-F"%string :: c :: [] => if t !! c is Some _ then Some (<[c := []]> t) else None
  | "-X"%string :: c :: [] =>
      if t !! c is Some [] then if referenced c t then None else Some (delete c t) else None
  | "-A"%string :: c :: r => if t !! c is Some l then Some (<[c := l ++ [r]]> t) else None
  | "-I"%string :: c :: "1"%string :: r => if t !! c is Some l then Some (<[c := r :: l]> t) else None
  | "-C"%string :: c :: r => if t !! c is Some l then if decide (r ∈ l) then Some t else None else None
  | "-D"%string :: c :: r =>
      if t !! c is Some l then if decide (r ∈ l) then Some (<[c := remove_one r l]> t) else None else None
  | _ => None
  end.

Class IPTables (F : Type) := {
  RunCommand : string -> list string -> M F gerror unit;   (* also RunQuiet: the same command *)
  table : F -> string -> gmap string (list rule)           (* a tool's filter table *)
}.
Class IPTablesLaws (F : Type) `{!IPTables F} := {
  command_ok tool args s s' : head args ≠ Some "-t"%string -> RunCommand tool args s = (inr tt, s') ->
    effect args (table s tool) = Some (table s' tool) ∧ forall tool', tool' ≠ tool -> table s' tool' = table s tool';
  command_err tool args s e s' : RunCommand tool args s = (inl e, s') -> forall tool', table s' tool' = table s tool';
  (* another table *)
  command_other tool args s r s' : head args = Some "-t"%string -> RunCommand tool args s = (r, s') ->
    forall tool', table s' tool' = table s tool'
}.
(** A tool that fails only where it must. *)
Definition obeys {F} `{!IPTables F} (tool : string) : Prop :=
  forall args s, head args ≠ Some "-t"%string -> is_Some (effect args (table s tool)) ->
    (RunCommand tool args s).1 = inr tt.

Section Chains.
Context {F : Type} `{!IPTables F} (ipv6 : bool).

Definition run (tool : string) (args : list string) : M F gerror unit :=
  or_throw (RunCommand tool args) (fun e => tool +:+ " " +:+ String.concat " " args +:+ ": " +:+ e)%string.

Definition newChain (tool chain : string) : M F gerror unit :=
  res ← attempt (RunCommand tool ["-N"%string; chain]);
  match res with
  | inl _ => run tool ["-F"%string; chain]
  | inr _ => mret tt
  end.

Definition addJump (tool : string) (jump : string * rule) : M F gerror unit :=
  res ← attempt (RunCommand tool ("-C"%string :: jump.1 :: jump.2));
  match res with
  | inr _ => mret tt
  | inl _ => run tool ("-I"%string :: jump.1 :: "1"%string :: jump.2)
  end.

Definition chains_up_family (c : chains) (f : family) : M F gerror unit :=
  each (ch_names c) (newChain (f_tool f)) ≫= fun _ =>
  each (ch_rules c f) (fun r => run (f_tool f) ("-A"%string :: r.1 :: r.2)) ≫= fun _ =>
  each (ch_jumps c) (addJump (f_tool f)).
Definition chains_up (c : chains) : M F gerror unit := each (families ipv6) (chains_up_family c).

(** Failures are ignored. *)
Definition quietly (tool : string) (args : list string) : M F gerror unit :=
  attempt (RunCommand tool args) ≫= fun (_ : gerror + unit) => mret tt.
Definition chains_down (c : chains) : M F gerror unit :=
  each (families ipv6) (fun f =>
    each (ch_jumps c) (fun j => quietly (f_tool f) ("-D"%string :: j.1 :: j.2)) ≫= fun _ =>
    each (ch_names c) (fun chain =>
      quietly (f_tool f) ["-F"%string; chain] ≫= fun _ => quietly (f_tool f) ["-X"%string; chain])).
End Chains.

(** * The tunnel's chains *)
Section Rules.
(** [net.IP.String]. *)
Context (IPString : bytes -> string).
Local Open Scope string_scope.

Definition inFamily (f : family) (ip : option bytes) : bool :=
  match ip with
  | None => false
  | Some ip => Bool.eqb (negb (bool_decide (is_Some (To4 ip)))) (f_v6 f)
  end.

Definition ForwardChain (i : string) : string := "DVPND-FWD-" +:+ i.
Definition InputChain (i : string) : string := "DVPND-IN-" +:+ i.

Definition forwardRules (i : string) (policy : Egress) (f : family) : list rule :=
  [["-o"; i; "-j"; "DROP"]]
  ++ ((fun cidr => ["-d"; cidr; "-j"; "DROP"]) <$> f_blocked f)
  ++ (if AllowSMTP policy then [] else [["-p"; "tcp"; "--dport"; Itoa SMTPPort; "-j"; "DROP"]]).
Definition inputRules (policy : Egress) (f : family) : list rule :=
  [["-m"; "conntrack"; "--ctstate"; "RELATED,ESTABLISHED"; "-j"; "ACCEPT"]]
  ++ (if inFamily f (Resolver policy) then
        (fun proto => ["-d"; IPString (default [] (Resolver policy)); "-p"; proto; "--dport"; "53"; "-j"; "ACCEPT"])
          <$> ["udp"; "tcp"]
      else [])
  ++ (if (APIPort policy =? 0)%Z then [] else [["-p"; "tcp"; "--dport"; Itoa (APIPort policy); "-j"; "ACCEPT"]])
  ++ [["-j"; "DROP"]].

Definition tunnelChains (i : string) (policy : Egress) : chains := mkChains
  [ForwardChain i; InputChain i]
  (fun f => ((fun r => (ForwardChain i, r)) <$> forwardRules i policy f)
            ++ ((fun r => (InputChain i, r)) <$> inputRules policy f))%list
  [("FORWARD", ["-i"; i; "-j"; ForwardChain i]); ("INPUT", ["-i"; i; "-j"; InputChain i])].

(** * The proxy account's chain *)
Definition ProxyChain : string := "DVPND-PROXY".

(** The resolvers of resolv.conf; [None]: it cannot be read. *)
Definition nameserver (ParseIP : string -> option bytes) (l : Str.chars) : option bytes :=
  let fields := List.filter (fun w => negb (bool_decide (w = []))) (Str.split " "%char
                  ((fun c => if isSpace c then " "%char else c) <$> l)) in
  match fields with
  | kw :: addr :: _ =>
      if bool_decide (kw = Str.of_string "nameserver")
      then ParseIP (Str.to_string (Str.cut "%"%char addr).1.1) else None
  | _ => None
  end.
Definition nameservers (ParseIP : string -> option bytes) (raw : option string) : list bytes :=
  match raw with
  | None => []
  | Some raw => omap (nameserver ParseIP) (Str.split nl (Str.of_string raw))
  end.

Definition proxyRules (LoopbackPorts : list Z) (resolvers : list bytes) (policy : Egress) (f : family) : list rule :=
  [["-m"; "conntrack"; "--ctstate"; "RELATED,ESTABLISHED"; "-j"; "ACCEPT"]]
  ++ (if f_v6 f then [] else
        (fun port => ["-o"; "lo"; "-d"; "127.0.0.1"; "-p"; "tcp"; "--dport"; Itoa port; "-j"; "ACCEPT"]) <$> LoopbackPorts)
  ++ (resolvers ≫= fun ip => if inFamily f (Some ip) then
        (fun proto => ["-p"; proto; "-m"; "conntrack"; "--ctorigdst"; IPString ip; "--ctorigdstport"; "53"; "-j"; "ACCEPT"])
          <$> ["udp"; "tcp"] else [])
  ++ ((fun cidr => ["-d"; cidr; "-j"; "REJECT"]) <$> f_blocked f)
  ++ (if (APIPort policy =? 0)%Z then [] else
        [["-m"; "addrtype"; "--dst-type"; "LOCAL"; "-p"; "tcp"; "--dport"; Itoa (APIPort policy); "-j"; "ACCEPT"]])
  ++ [["-m"; "addrtype"; "--dst-type"; "LOCAL"; "-j"; "REJECT"]]
  ++ (if AllowSMTP policy then [] else [["-p"; "tcp"; "--dport"; Itoa SMTPPort; "-j"; "REJECT"]]).

Definition proxyChains (UID : Z) (LoopbackPorts : list Z) (resolvers : list bytes) (policy : Egress) : chains :=
  mkChains [ProxyChain] (fun f => (fun r => (ProxyChain, r)) <$> proxyRules LoopbackPorts resolvers policy f)
    [("OUTPUT", ["-m"; "owner"; "--uid-owner"; Itoa UID; "-j"; ProxyChain])].

(** * Masquerading: nat.go *)
Definition natRules (i uplink action : string) : list (list string) :=
  ["iptables"; "ip6tables"] ≫= fun tool =>
    [[tool; action; "FORWARD"; "-i"; i; "-j"; "ACCEPT"];
     [tool; action; "FORWARD"; "-o"; i; "-m"; "conntrack"; "--ctstate"; "RELATED,ESTABLISHED"; "-j"; "ACCEPT"];
     [tool; "-t"; "nat"; action; "POSTROUTING"; "-o"; uplink; "-j"; "MASQUERADE"]].

Section Nat.
Context {F : Type} `{!IPTables F}.
Definition nat_Up (i uplink : string) : M F gerror unit :=
  each (natRules i uplink "-A") (fun r =>
    or_throw (RunCommand (default "" (head r)) (drop 1 r)) (fun e => String.concat " " r +:+ ": " +:+ e)).
Definition nat_Down (i uplink : string) : M F gerror unit :=
  each (natRules i uplink "-D") (fun r => quietly (default "" (head r)) (drop 1 r)).
End Nat.
End Rules.
