(* ===== verification/EgressProofs.v ===== *)
(** The commands of Egress.v: what a start that went through has put in the
    tables, and that taking the chains down after a start, however far it got,
    leaves the host's tables as they were. *)
From S2P Require Import Prelude Codec Guard StaticKey Egress.
Set Default Proof Using "Type*".

Section Up.
Context {F : Type} `{!IPTables F} {HL : IPTablesLaws F} (ipv6 : bool).
Implicit Types (s : F) (t : gmap string (list rule)).

(** A command's outcome, on the table of its own tool and on the others. *)
Lemma command_inv tool args s r s' : head args ≠ Some "-t"%string -> RunCommand tool args s = (r, s') ->
  (if r is inr _ then effect args (table s tool) = Some (table s' tool) else table s' tool = table s tool)
  ∧ forall tool', tool' ≠ tool -> table s' tool' = table s tool'.
Proof.
  intros Ha H; destruct r as [e|[]]; [|by apply command_ok].
  pose proof (command_err _ _ _ _ _ H); auto.
Qed.

Lemma tool_run_inv tool args s r s' : head args ≠ Some "-t"%string -> run tool args s = (r, s') ->
  (if r is inr _ then effect args (table s tool) = Some (table s' tool) else table s' tool = table s tool)
  ∧ forall tool', tool' ≠ tool -> table s' tool' = table s tool'.
Proof.
  unfold run, or_throw; destruct (RunCommand tool args s) as [r0 s0] eqn:E; intros Ha.
  apply command_inv in E; [|done]; destruct r0; by intros [= <- <-].
Qed.

Lemma newChain_ok tool c s s' : newChain tool c s = (inr tt, s') ->
  table s' tool = <[c := []]> (table s tool) ∧ forall tool', tool' ≠ tool -> table s' tool' = table s tool'.
Proof.
  unfold newChain, attempt, mbind, M_bind, mret, M_ret.
  destruct (RunCommand tool ["-N"%string; c] s) as [r s1] eqn:E; apply command_inv in E as [E Ef]; [|done].
  destruct r as [e|[]].
  - intros [H Hf]%tool_run_inv; [|done]; cbn in H; rewrite E in H.
    destruct (table s tool !! c); [|done]; injection H as <-.
    split; [done|]; intros tool' Ht; by rewrite Hf, Ef.
  - intros [= <-]; cbn in E; by destruct (table s tool !! c); [done|]; injection E as <-.
Qed.

Lemma append_ok tool c r s s' : run tool ("-A"%string :: c :: r) s = (inr tt, s') ->
  table s' tool = alter (fun l => l ++ [r]) c (table s tool)
  ∧ forall tool', tool' ≠ tool -> table s' tool' = table s tool'.
Proof.
  intros [H Hf]%tool_run_inv; [|done]; split; [|done]; cbn in H.
  destruct (table s tool !! c) as [l|] eqn:E; [|done]; injection H as <-.
  apply map_eq; intros c'; destruct (decide (c' = c)) as [->|Hne].
  - by rewrite lookup_insert_eq, lookup_alter_eq, E.
  - by rewrite lookup_insert_ne, lookup_alter_ne.
Qed.

(** A jump is there afterwards; it is new at the top, or it was there before. *)
Definition jumped (r : rule) (l l' : list rule) : Prop := l' = r :: l ∨ (l' = l ∧ r ∈ l).

Lemma addJump_ok tool b r s s' : addJump tool (b, r) s = (inr tt, s') ->
  (∃ l l', table s tool !! b = Some l ∧ jumped r l l' ∧ table s' tool = <[b := l']> (table s tool))
  ∧ forall tool', tool' ≠ tool -> table s' tool' = table s tool'.
Proof.
  unfold addJump, attempt, mbind, M_bind, mret, M_ret; cbn [fst snd].
  destruct (RunCommand tool ("-C"%string :: b :: r) s) as [res s1] eqn:E; apply command_inv in E as [E Ef]; [|done].
  destruct res as [e|[]].
  - intros [H Hf]%tool_run_inv; [|done]; cbn in H; rewrite E in H.
    destruct (table s tool !! b) as [l|] eqn:El; [|done]; injection H as <-; split.
    + exists l, (r :: l); split_and!; [done|by left|done].
    + intros tool' Ht; by rewrite Hf, Ef.
  - intros [= <-]; cbn in E; destruct (table s tool !! b) as [l|] eqn:El; [|done].
    destruct (decide (r ∈ l)); [|done]; injection E as <-; split; [|done].
    exists l, l; split_and!; [done|by right|by rewrite insert_id].
Qed.

(** ** Loops of commands on one tool *)
Lemma each_table {X} (g : X -> gmap string (list rule) -> gmap string (list rule)) (l : list X) tool
    (f : X -> M F gerror unit) s s' :
  (forall x s s', f x s = (inr tt, s') -> table s' tool = g x (table s tool)
     ∧ forall tool', tool' ≠ tool -> table s' tool' = table s tool') ->
  each l f s = (inr tt, s') ->
  table s' tool = foldl (fun t x => g x t) (table s tool) l
  ∧ forall tool', tool' ≠ tool -> table s' tool' = table s tool'.
Proof.
  intros Hf; revert s; induction l as [|x l IH]; intros s; cbn; [by intros [= ->]|].
  unfold mbind, M_bind; destruct (f x s) as [[e|[]] s1] eqn:E; [done|]; intros H.
  apply Hf in E as [<- Ef]; apply IH in H as [-> Hf']; split; [done|].
  intros tool' Ht; by rewrite Hf', Ef.
Qed.

Lemma lookup_empties names t c :
  foldl (fun t c => <[c := []]> t) t names !! c = if decide (c ∈ names) then Some [] else t !! c.
Proof.
  revert t; induction names as [|n names IH]; intros t; cbn; [by rewrite decide_False by apply not_elem_of_nil|].
  rewrite IH; destruct (decide (c = n)) as [->|Hne].
  - rewrite lookup_insert_eq, (decide_True (P := n ∈ n :: names)) by constructor; by case_decide.
  - rewrite lookup_insert_ne by done; apply decide_ext; rewrite elem_of_cons; naive_solver.
Qed.

(** The rules of one chain, in order. *)
Definition rules_of (c : string) (rs : list (string * rule)) : list rule :=
  (List.filter (fun p => bool_decide (p.1 = c)) rs).*2.

Lemma lookup_filled rs t c :
  foldl (fun t (p : string * rule) => alter (fun l => l ++ [p.2]) p.1 t) t rs !! c
  = (fun l => l ++ rules_of c rs) <$> t !! c.
Proof.
  revert t; induction rs as [|[c' r] rs IH]; intros t; cbn.
  - unfold rules_of; cbn; destruct (t !! c); cbn; [by rewrite app_nil_r|done].
  - rewrite IH; unfold rules_of; cbn; case_bool_decide as E; cbn.
    + subst; rewrite lookup_alter_eq; destruct (t !! c); cbn; [by rewrite <- app_assoc|done].
    + by rewrite lookup_alter_ne.
Qed.

(** ** A family's chains, once up *)
Record wf_chains (c : chains) (f : family) : Prop := {
  wf_jumps : NoDup (ch_jumps c).*1;
  wf_builtin b : b ∈ (ch_jumps c).*1 -> b ∉ ch_names c;
  wf_rules p : p ∈ ch_rules c f -> p.1 ∈ ch_names c
}.

Lemma rules_of_foreign k rs : (forall p : string * rule, p ∈ rs -> p.1 ≠ k) -> rules_of k rs = [].
Proof.
  unfold rules_of; induction rs as [|p rs IH]; intros H; cbn; [done|].
  rewrite bool_decide_eq_false_2 by (apply H; by left); apply IH; intros q Hq; apply H; by right.
Qed.

(** The jumps leave every chain but their own alone. *)
Lemma jumps_ok tool jumps s s' : NoDup jumps.*1 -> each jumps (addJump tool) s = (inr tt, s') ->
  (forall b r, (b, r) ∈ jumps -> ∃ l l', table s tool !! b = Some l ∧ jumped r l l' ∧ table s' tool !! b = Some l')
  ∧ (forall k, k ∉ jumps.*1 -> table s' tool !! k = table s tool !! k)
  ∧ forall tool', tool' ≠ tool -> table s' tool' = table s tool'.
Proof.
  revert s; induction jumps as [|[b r] jumps IH]; intros s Hnd; cbn.
  { intros [= <-]; split_and!; [|done..]; intros ?? []%not_elem_of_nil. }
  unfold mbind, M_bind; destruct (addJump tool (b, r) s) as [[e|[]] s1] eqn:E; [done|]; intros H.
  apply addJump_ok in E as [(l & l' & El & Hj & E) Ef].
  cbn in Hnd; apply NoDup_cons in Hnd as [Hb Hnd]; apply IH in H as (Hjs & Hk & Hf); [|done]; split_and!.
  - intros b' r' [[= -> ->]|Hin]%elem_of_cons.
    + exists l, l'; rewrite Hk, E, lookup_insert_eq by done; done.
    + destruct (Hjs _ _ Hin) as (m & m' & Hm & ?); exists m, m'; split; [|done].
      rewrite E, lookup_insert_ne in Hm; [done|]; intros ->; apply Hb; by apply (list_elem_of_fmap_2 fst) in Hin.
  - intros k [Hne Hk']%not_elem_of_cons; rewrite Hk, E, lookup_insert_ne; done.
  - intros tool' Ht; by rewrite Hf, Ef.
Qed.

(** The chains hold their rules, the jumps are in, and nothing else changed. *)
Definition chain_facts (c : chains) (f : family) (t t' : gmap string (list rule)) : Prop :=
  (forall n, n ∈ ch_names c -> t' !! n = Some (rules_of n (ch_rules c f)))
  ∧ (forall b r, (b, r) ∈ ch_jumps c -> ∃ l l', t !! b = Some l ∧ jumped r l l' ∧ t' !! b = Some l')
  ∧ (forall k, k ∉ ch_names c -> k ∉ (ch_jumps c).*1 -> t' !! k = t !! k).

Lemma chains_up_family_facts c f s s' : wf_chains c f -> chains_up_family c f s = (inr tt, s') ->
  chain_facts c f (table s (f_tool f)) (table s' (f_tool f))
  ∧ forall tool, tool ≠ f_tool f -> table s' tool = table s tool.
Proof.
  intros Hwf; unfold chains_up_family; intros H; minv H; rename Hm into H1, Hm0 into H2; destruct a, a0.
  apply (each_table (fun (c : string) => <[c := []]>) _ (f_tool f)) in H1 as [H1 Hf1]; [|intros; by apply newChain_ok].
  apply (each_table (fun p : string * rule => alter (fun l => l ++ [p.2]) p.1) _ (f_tool f)) in H2 as [H2 Hf2]; [|intros; by apply append_ok].
  apply jumps_ok in H as (Hj & Hk & Hf); [|by apply Hwf].
  assert (forall k, k ∉ ch_names c -> table s1 (f_tool f) !! k = table s (f_tool f) !! k) as Hout.
  { intros k Hk'; rewrite H2, lookup_filled, H1, lookup_empties, decide_False by done.
    rewrite rules_of_foreign; [destruct (table s (f_tool f) !! k); cbn; [by rewrite app_nil_r|done]|].
    intros p Hp <-; by apply Hk', (wf_rules _ _ Hwf). }
  split; [split_and!|].
  - intros n Hn; rewrite Hk by (intros Hb; by apply (wf_builtin _ _ Hwf) in Hb).
    rewrite H2, lookup_filled, H1, lookup_empties, decide_True by done; done.
  - intros b r Hin; destruct (Hj _ _ Hin) as (l & l' & Hl & ?); exists l, l'; rewrite <- Hout; [done|].
    apply (wf_builtin _ _ Hwf); by apply (list_elem_of_fmap_2 fst) in Hin.
  - intros k Hn Hb; by rewrite Hk, Hout.
  - intros tool Ht; by rewrite Hf, Hf2, Hf1.
Qed.

Lemma families_tools : NoDup (f_tool <$> families ipv6).
Proof. destruct ipv6; apply (bool_decide_unpack (NoDup _)); by vm_compute. Qed.

(** What one turn does to its own tool's table is what the loop leaves there. *)
Lemma each_family (fs : list family) (g : family -> M F gerror unit) (R : family -> gmap string (list rule) ->
    gmap string (list rule) -> Prop) s s' :
  NoDup (f_tool <$> fs) ->
  (forall f s s', f ∈ fs -> g f s = (inr tt, s') -> R f (table s (f_tool f)) (table s' (f_tool f))
     ∧ forall tool, tool ≠ f_tool f -> table s' tool = table s tool) ->
  each fs g s = (inr tt, s') ->
  (forall f, f ∈ fs -> R f (table s (f_tool f)) (table s' (f_tool f)))
  ∧ forall tool, tool ∉ (f_tool <$> fs) -> table s' tool = table s tool.
Proof.
  revert s; induction fs as [|f fs IH]; intros s Hnd Hg; cbn.
  { intros [= <-]; split; [|done]; by intros ? []%not_elem_of_nil. }
  unfold mbind, M_bind; destruct (g f s) as [[e|[]] s1] eqn:E; [done|]; intros H.
  cbn in Hnd; apply NoDup_cons in Hnd as [Hf Hnd].
  apply Hg in E as [HR Hfr]; [|by left]; apply IH in H as [Hin Hout]; [|done|intros; apply Hg; [by right|done]].
  split.
  - intros f' [->|Hf']%elem_of_cons; [by rewrite Hout|].
    rewrite <- Hfr; [by apply Hin|]; intros Heq; apply Hf; rewrite <- Heq; by apply list_elem_of_fmap_2.
  - intros tool [Ht Hfs]%not_elem_of_cons; by rewrite Hout, Hfr.
Qed.
End Up.

(** * Taking it down *)
Section Down.
Context {F : Type} `{!IPTables F} {HL : IPTablesLaws F} (ipv6 : bool).
Implicit Types (s : F) (t : gmap string (list rule)).

(** The tool's removals fail only where they must; what adds may fail at any time. *)
Definition removes (tool : string) : Prop := forall args s,
  head args ∈ [Some "-D"; Some "-F"; Some "-X"]%string -> is_Some (effect args (table s tool)) ->
  (RunCommand tool args s).1 = inr tt.

(** A table with none of the node's chains or jumps, and no rule that calls one. *)
Record clean (c : chains) t : Prop := {
  clean_names n : n ∈ ch_names c -> t !! n = None;
  clean_jumps b j l : (b, j) ∈ ch_jumps c -> t !! b = Some l -> j ∉ l;
  clean_refs n k l r : n ∈ ch_names c -> t !! k = Some l -> r ∈ l -> ~ suffix ["-j"%string; n] r
}.
Definition unref (c : chains) (f : family) : Prop := forall n p,
  n ∈ ch_names c -> p ∈ ch_rules c f -> ~ suffix ["-j"%string; n] p.2.

(** What a start may have left of the node in a table. *)
Definition maybe (jumps : list (string * rule)) t0 t k : Prop :=
  t !! k = t0 !! k ∨ ∃ j, (k, j) ∈ jumps ∧ t !! k = cons j <$> t0 !! k.
Record dirty (c : chains) t0 t (jumps : list (string * rule)) : Prop := {
  dirty_out k : k ∉ ch_names c -> maybe jumps t0 t k;
  dirty_own n m l r : n ∈ ch_names c -> m ∈ ch_names c -> t !! n = Some l -> r ∈ l -> ~ suffix ["-j"%string; m] r
}.

Lemma quietly_inv tool args s r s' : head args ≠ Some "-t"%string -> quietly tool args s = (r, s') ->
  r = inr tt
  ∧ (effect args (table s tool) = Some (table s' tool) ∨ table s' tool = table s tool)
  ∧ (removes tool -> head args ∈ [Some "-D"; Some "-F"; Some "-X"]%string ->
       table s' tool = default (table s tool) (effect args (table s tool)))
  ∧ forall tool', tool' ≠ tool -> table s' tool' = table s tool'.
Proof.
  unfold quietly, attempt, mbind, M_bind, mret, M_ret.
  destruct (RunCommand tool args s) as [res s1] eqn:E; intros Ha [= <- <-].
  pose proof (command_inv _ _ _ _ _ Ha E) as [Heff Hf]; split_and!; [done| | |done].
  - destruct res; auto.
  - intros Hr Hh; destruct (effect args (table s tool)) as [t|] eqn:Et; cbn.
    + specialize (Hr args s Hh); rewrite Et, E in Hr; cbn in Hr; destruct res as [e|[]]; [by discriminate Hr|].
      by injection Heff.
    + by destruct res.
Qed.

Lemma drop_jump tool b j s r s' : removes tool -> quietly tool ("-D"%string :: b :: j) s = (r, s') ->
  r = inr tt
  ∧ (forall k, k ≠ b -> table s' tool !! k = table s tool !! k)
  ∧ (table s' tool !! b = (fun l => if decide (j ∈ l) then remove_one j l else l) <$> table s tool !! b)
  ∧ forall tool', tool' ≠ tool -> table s' tool' = table s tool'.
Proof.
  intros Hr (-> & _ & H & Hf)%quietly_inv; [|done].
  specialize (H Hr ltac:(by left)); cbn in H; split_and!; [done|..|done]; rewrite H.
  - intros k Hk; destruct (table s tool !! b); [|done]; case_decide; [by apply lookup_insert_ne|done].
  - destruct (table s tool !! b) eqn:E; cbn; [case_decide; cbn; [by rewrite lookup_insert_eq|done]|done].
Qed.

Lemma drop_jumps tool (jumps : list (string * rule)) (K : string -> Prop) t0 s r s' :
  removes tool -> NoDup jumps.*1 -> (forall b j l, (b, j) ∈ jumps -> t0 !! b = Some l -> j ∉ l) ->
  (forall k, K k -> maybe jumps t0 (table s tool) k) ->
  each jumps (fun j => quietly tool ("-D"%string :: j.1 :: j.2)) s = (r, s') ->
  r = inr tt ∧ (forall k, K k -> table s' tool !! k = t0 !! k)
  ∧ (forall k, k ∉ jumps.*1 -> table s' tool !! k = table s tool !! k)
  ∧ forall tool', tool' ≠ tool -> table s' tool' = table s tool'.
Proof.
  intros Hr; revert s; induction jumps as [|[b j] jumps IH]; intros s Hnd Hc HK; cbn.
  { intros [= <- <-]; split_and!; [done| |done..]; intros k [E|(j & []%not_elem_of_nil & _)]%HK; done. }
  unfold mbind, M_bind; destruct (quietly _ _ s) as [r1 s1] eqn:E; cbn [fst snd] in E.
  cbn in Hnd; apply NoDup_cons in Hnd as [Hb Hnd].
  apply drop_jump in E as (-> & Hk & Hbt & Hf); [|done]; intros H; apply IH in H as (-> & Ht & Ho & Hf'); [|done|..].
  - split_and!; [done..| |].
    + intros k [Hkb Hkj]%not_elem_of_cons; rewrite Ho, Hk; done.
    + intros tool' Htl; rewrite Hf', Hf; done.
  - intros b' j' l Hin; apply Hc; by right.
  - intros k HKk; destruct (decide (k = b)) as [->|Hne].
    + left; rewrite Hbt; specialize (Hc b j); destruct (HK b HKk) as [->|(j' & Hin & ->)].
      * destruct (t0 !! b) as [l|]; cbn; [|done]; rewrite decide_False; [done|by apply Hc; [left|]].
      * assert (j' = j) as -> by (apply elem_of_cons in Hin as [[= ->]|Hin%(list_elem_of_fmap_2 fst)]; done).
        destruct (t0 !! b) as [l|]; cbn; [|done]; rewrite decide_True by left; cbn; by rewrite decide_True.
    + destruct (HK k HKk) as [Hs|(j' & Hin & Hs)]; [left|right; exists j']; rewrite Hk; try done.
      apply elem_of_cons in Hin as [[= ? ?]|Hin]; done.
Qed.

Lemma drop_chain tool n s r s' : removes tool ->
  (forall k l q, k ≠ n -> table s tool !! k = Some l -> q ∈ l -> ~ suffix ["-j"%string; n] q) ->
  (quietly tool ["-F"%string; n] ≫= fun _ => quietly tool ["-X"%string; n]) s = (r, s') ->
  r = inr tt ∧ table s' tool = delete n (table s tool) ∧ forall tool', tool' ≠ tool -> table s' tool' = table s tool'.
Proof.
  intros Hr Hn; unfold mbind, M_bind; destruct (quietly _ _ s) as [r1 s1] eqn:E.
  apply quietly_inv in E as (-> & _ & E & Hf); [|done]; intros (-> & _ & H & Hf')%quietly_inv; [|done].
  specialize (E Hr ltac:(by right; left)); specialize (H Hr ltac:(by do 2 right; left)).
  split_and!; [done| |intros tool' Ht; by rewrite Hf', Hf].
  cbn in E, H; rewrite H, E; destruct (table s tool !! n) as [l|] eqn:El; cbn; [|by rewrite El, delete_id].
  rewrite lookup_insert_eq; unfold referenced; rewrite bool_decide_eq_false_2; cbn; [by rewrite delete_insert_eq|].
  intros (k & q & Hk & (q0 & Hq & Hs)%Exists_exists); destruct (decide (k = n)) as [->|Hne].
  - rewrite lookup_insert_eq in Hk; simplify_eq; by apply not_elem_of_nil in Hq.
  - rewrite lookup_insert_ne in Hk by done; by eapply Hn.
Qed.

Lemma drop_chains tool names s r s' : removes tool ->
  (forall n k l q, n ∈ names -> table s tool !! k = Some l -> q ∈ l -> ~ suffix ["-j"%string; n] q) ->
  each names (fun n => quietly tool ["-F"%string; n] ≫= fun _ => quietly tool ["-X"%string; n]) s = (r, s') ->
  r = inr tt ∧ (forall k, table s' tool !! k = if decide (k ∈ names) then None else table s tool !! k)
  ∧ forall tool', tool' ≠ tool -> table s' tool' = table s tool'.
Proof.
  intros Hr; revert s; induction names as [|n names IH]; intros s Hn; cbn.
  { intros [= <- <-]; split_and!; [done| |done]; intros k; by rewrite decide_False by apply not_elem_of_nil. }
  intros H; apply bind_inv in H as [(e & E & ->)|(x & s1 & E & H)];
    apply drop_chain in E as (? & Es & Hf); try (done || (intros; eapply Hn; [by left|done..])).
  apply IH in H as (-> & Ht & Hf'); [split_and!; [done| |intros tool' Htl; by rewrite Hf', Hf]|].
  - intros k; rewrite Ht, Es; destruct (decide (k = n)) as [->|Hne].
    + rewrite lookup_delete_eq, (decide_True (P := n ∈ n :: names)) by left; by case_decide.
    + rewrite lookup_delete_ne by done; apply decide_ext; rewrite elem_of_cons; naive_solver.
  - intros n' k l q Hin; rewrite Es; intros [_ Hk]%lookup_delete_Some; apply (Hn n' k); [by right|done].
Qed.

(** ** A start, however far it got *)
Lemma newChain_any tool c s r s' : newChain tool c s = (r, s') ->
  (table s' tool = table s tool ∨ table s' tool = <[c := []]> (table s tool))
  ∧ forall tool', tool' ≠ tool -> table s' tool' = table s tool'.
Proof.
  destruct r as [e|[]]; [|intros []%newChain_ok; auto].
  unfold newChain, attempt, mbind, M_bind, mret, M_ret.
  destruct (RunCommand _ _ s) as [res s1] eqn:E; apply command_inv in E as [E Ef]; [|done].
  destruct res; [|done]; intros [H Hf]%tool_run_inv; [|done]; rewrite H, E; split; [by left|].
  intros tool' Ht; by rewrite Hf, Ef.
Qed.

Lemma addJump_any tool b j s r s' : addJump tool (b, j) s = (r, s') ->
  (table s' tool = table s tool ∨ ∃ l, table s tool !! b = Some l ∧ table s' tool = <[b := j :: l]> (table s tool))
  ∧ forall tool', tool' ≠ tool -> table s' tool' = table s tool'.
Proof.
  destruct r as [e|[]].
  - unfold addJump, attempt, mbind, M_bind, mret, M_ret; cbn [fst snd].
    destruct (RunCommand _ _ s) as [res s1] eqn:E; apply command_inv in E as [E Ef]; [|done].
    destruct res; [|done]; intros [H Hf]%tool_run_inv; [|done]; rewrite H, E; split; [by left|].
    intros tool' Ht; by rewrite Hf, Ef.
  - intros [(l & l' & Hl & [->|[-> _]] & H) Hf]%addJump_ok; split; try done; [right; eauto|].
    left; by rewrite H, insert_id.
Qed.

(** Only the node's own chains have changed, and they call none of each other. *)
Definition own_only (c : chains) t0 t : Prop := dirty c t0 t [].

Lemma own_only_insert (c : chains) t0 t n l : own_only c t0 t -> n ∈ ch_names c ->
  (forall q m, q ∈ l -> m ∈ ch_names c -> ~ suffix ["-j"%string; m] q) -> own_only c t0 (<[n := l]> t).
Proof.
  intros [Ho Hs] Hn Hl; split.
  - intros k Hk; destruct (Ho k Hk) as [E|(j & []%not_elem_of_nil & _)]; left.
    rewrite lookup_insert_ne; [done|congruence].
  - intros n' m l' q Hn' Hm; destruct (decide (n' = n)) as [->|Hne].
    + rewrite lookup_insert_eq; intros [= <-]; eauto.
    + rewrite lookup_insert_ne by done; eauto.
Qed.

Lemma own_only_refl c t : clean c t -> own_only c t t.
Proof. intros Hc; split; [by left|]; intros n m l r Hn _ Hl; rewrite (clean_names _ _ Hc) in Hl; done. Qed.

Lemma jumps_any (c : chains) tool jumps t0 s r s' :
  NoDup jumps.*1 -> (forall p, p ∈ jumps -> p ∈ ch_jumps c ∧ p.1 ∉ ch_names c) ->
  dirty c t0 (table s tool) (ch_jumps c) -> (forall p, p ∈ jumps -> table s tool !! p.1 = t0 !! p.1) ->
  each jumps (addJump tool) s = (r, s') ->
  dirty c t0 (table s' tool) (ch_jumps c) ∧ forall tool', tool' ≠ tool -> table s' tool' = table s tool'.
Proof.
  revert s; induction jumps as [|[b j] jumps IH]; intros s Hnd Hin Hd Hsame; cbn; [by intros [= _ <-]|].
  intros H; cbn in Hnd; apply NoDup_cons in Hnd as [Hb Hnd].
  assert (forall r s', addJump tool (b, j) s = (r, s') -> dirty c t0 (table s' tool) (ch_jumps c)
    ∧ (forall k, k ≠ b -> table s' tool !! k = table s tool !! k)
    ∧ forall tool', tool' ≠ tool -> table s' tool' = table s tool') as Hstep.
  { intros r1 s1 [E Hf]%addJump_any; destruct (Hin (b, j)) as [Hj Hn]; [by left|]; cbn in Hn.
    specialize (Hsame (b, j) ltac:(by left)); cbn in Hsame.
    destruct E as [->|(l & Hl & ->)]; [done|]; split_and!; [split|intros; by apply lookup_insert_ne|done].
    - intros k Hk; destruct (decide (k = b)) as [->|Hne].
      + right; exists j; split; [done|]; by rewrite lookup_insert_eq, <- Hsame, Hl.
      + unfold maybe; rewrite lookup_insert_ne by done; by apply (dirty_out _ _ _ _ Hd).
    - intros n m l' q Hn' Hm; rewrite lookup_insert_ne by congruence; by apply (dirty_own _ _ _ _ Hd). }
  apply bind_inv in H as [(e & E & ->)|(x & s1 & E & H)]; [by apply Hstep in E as (? & _ & ?)|].
  apply Hstep in E as (Hd1 & Hk & Hf); apply IH in H as [Hd' Hf']; [|done|intros; apply Hin; by right|done|].
  - split; [done|]; intros tool' Ht; by rewrite Hf', Hf.
  - intros p Hp; rewrite Hk; [apply Hsame; by right|]; intros <-; by apply Hb, list_elem_of_fmap_2.
Qed.

(** The two loops that make and fill the chains. *)
Lemma own_chains_any {X} (c : chains) (f : family) (l : list X) (g : X -> M F gerror unit) t0 s r s' :
  (forall x u r u', x ∈ l -> own_only c t0 (table u (f_tool f)) -> g x u = (r, u') ->
     own_only c t0 (table u' (f_tool f)) ∧ forall tool, tool ≠ f_tool f -> table u' tool = table u tool) ->
  own_only c t0 (table s (f_tool f)) -> each l g s = (r, s') ->
  own_only c t0 (table s' (f_tool f)) ∧ forall tool, tool ≠ f_tool f -> table s' tool = table s tool.
Proof.
  intros Hg Hs; apply (each_keeps (fun u => own_only c t0 (table u (f_tool f))
    ∧ forall tool, tool ≠ f_tool f -> table u tool = table s tool)); [|done].
  intros x u r1 u' Hx [Hu Hf] E; destruct (Hg _ _ _ _ Hx Hu E) as [? Hf']; split; [done|].
  intros tool Ht; by rewrite Hf', Hf.
Qed.

Lemma up_family_any c f s r s' : wf_chains c f -> unref c f -> clean c (table s (f_tool f)) ->
  chains_up_family c f s = (r, s') ->
  dirty c (table s (f_tool f)) (table s' (f_tool f)) (ch_jumps c)
  ∧ forall tool, tool ≠ f_tool f -> table s' tool = table s tool.
Proof.
  intros Hwf Hu Hc; unfold chains_up_family; set (t0 := table s (f_tool f)).
  assert (forall t, own_only c t0 t -> dirty c t0 t (ch_jumps c)) as Hweak.
  { intros t [Ho Hs]; split; [|done]; intros k [E|(j & []%not_elem_of_nil & _)]%Ho; by left. }
  assert (forall r s1, each (ch_names c) (newChain (f_tool f)) s = (r, s1) -> own_only c t0 (table s1 (f_tool f))
    ∧ forall tool, tool ≠ f_tool f -> table s1 tool = table s tool) as Hnew.
  { intros r1 s1; apply own_chains_any; [|by apply own_only_refl]; intros n u r2 u' Hn Hi [E Hf]%newChain_any.
    destruct E as [E|E]; rewrite E; [done|split; [|done]]; apply own_only_insert; [done..|]; intros ?? []%not_elem_of_nil. }
  assert (forall r s1 s2, own_only c t0 (table s1 (f_tool f)) ->
    each (ch_rules c f) (fun q => run (f_tool f) ("-A"%string :: q.1 :: q.2)) s1 = (r, s2) ->
    own_only c t0 (table s2 (f_tool f)) ∧ forall tool, tool ≠ f_tool f -> table s2 tool = table s1 tool) as Hfill.
  { intros r1 s1 s2; apply own_chains_any; intros q u r2 u' Hq Hi [E Hf]%tool_run_inv; [|done]; split; [|done].
    destruct r2; [by rewrite E|]; cbn in E; destruct (table u _ !! q.1) as [l|] eqn:El; [|done]; injection E as <-.
    apply own_only_insert; [done|by apply (wf_rules _ _ Hwf)|]; intros x m Hx Hm.
    apply elem_of_app in Hx as [Hx| ->%list_elem_of_singleton]; [|by apply Hu].
    eapply (dirty_own _ _ _ _ Hi); [by apply (wf_rules _ _ Hwf)|done..]. }
  intros H; apply bind_inv in H as [(e & E & ->)|(x & s1 & E & H)]; apply Hnew in E as [H1 Hf1]; [auto|].
  apply bind_inv in H as [(e & E & ->)|(y & s2 & E & H)]; apply Hfill in E as [H2 Hf2]; try done.
  - split; [auto|]; intros tool Ht; by rewrite Hf2, Hf1.
  - eapply jumps_any in H as [Hd Hf]; [split; [exact Hd|]|apply Hwf| |by apply Hweak|].
    + intros tool Ht; by rewrite Hf, Hf2, Hf1.
    + intros p Hp; split; [done|]; apply (wf_builtin _ _ Hwf); by apply list_elem_of_fmap_2.
    + intros p Hp; destruct (dirty_out _ _ _ _ H2 p.1) as [|(j & []%not_elem_of_nil & _)]; [|done].
      apply (wf_builtin _ _ Hwf); by apply list_elem_of_fmap_2.
Qed.

Lemma down_family c f t0 s r s' : wf_chains c f -> removes (f_tool f) -> clean c t0 ->
  dirty c t0 (table s (f_tool f)) (ch_jumps c) ->
  (each (ch_jumps c) (fun j => quietly (f_tool f) ("-D"%string :: j.1 :: j.2)) ≫= fun _ =>
   each (ch_names c) (fun n => quietly (f_tool f) ["-F"%string; n] ≫= fun _ => quietly (f_tool f) ["-X"%string; n])) s
    = (r, s') ->
  r = inr tt ∧ table s' (f_tool f) = t0 ∧ forall tool, tool ≠ f_tool f -> table s' tool = table s tool.
Proof.
  intros Hwf Hr Hc Hd H; apply bind_inv in H as [(e & E & ->)|(x & s1 & E & H)];
    eapply (drop_jumps _ _ (fun k => k ∉ ch_names c)) in E as (Hx & Ht & Hk & Hf);
    try (done || apply Hwf || apply Hd || apply Hc).
  assert (forall n l q m, n ∈ ch_names c -> m ∈ ch_names c -> table s1 (f_tool f) !! n = Some l -> q ∈ l ->
    ~ suffix ["-j"%string; m] q) as Hown.
  { intros n l q m Hn Hm Hl; rewrite Hk in Hl; [by apply (dirty_own _ _ _ _ Hd n m l)|].
    intros Hb; by apply (wf_builtin _ _ Hwf) in Hb. }
  apply drop_chains in H as (-> & Ht' & Hf'); [|done|].
  - split_and!; [done| |intros tool Htl; by rewrite Hf', Hf].
    apply map_eq; intros k; rewrite Ht'; case_decide as Hn; [by rewrite (clean_names _ _ Hc)|by apply Ht].
  - intros n k l q Hn Hl; destruct (decide (k ∈ ch_names c)) as [Hkn|Hkn]; [by eapply Hown|].
    rewrite Ht in Hl by done; by eapply (clean_refs _ _ Hc).
Qed.

Lemma up_any c (fs : list family) s r s' : NoDup (f_tool <$> fs) ->
  (forall f, f ∈ fs -> wf_chains c f ∧ unref c f ∧ clean c (table s (f_tool f))) ->
  each fs (chains_up_family c) s = (r, s') ->
  (forall f, f ∈ fs -> dirty c (table s (f_tool f)) (table s' (f_tool f)) (ch_jumps c))
  ∧ forall tool, tool ∉ (f_tool <$> fs) -> table s' tool = table s tool.
Proof.
  revert s; induction fs as [|f fs IH]; intros s Hnd Hfs; cbn.
  { intros [= _ <-]; split; [|done]; by intros ? []%not_elem_of_nil. }
  cbn in Hnd; apply NoDup_cons in Hnd as [Hf Hnd]; destruct (Hfs f) as (Hwf & Hu & Hc); [by left|].
  assert (forall g, g ∈ fs -> f_tool g ≠ f_tool f) as Hne.
  { intros g Hg E; apply Hf; rewrite <- E; by apply list_elem_of_fmap_2. }
  intros H; apply bind_inv in H as [(e & E & ->)|(x & s1 & E & H)];
    apply up_family_any in E as [Hd Hfr]; try done.
  - split; [|intros tool [? _]%not_elem_of_cons; auto].
    intros g [->|Hg]%elem_of_cons; [done|]; rewrite Hfr by auto.
    split; [by left|]; intros n m l q Hn _ Hl; destruct (Hfs g) as (_ & _ & Hcg); [by right|].
    by rewrite (clean_names _ _ Hcg) in Hl.
  - apply IH in H as [Hin Hout]; [|done|].
    + split; [|intros tool [? ?]%not_elem_of_cons; rewrite Hout; auto].
      intros g [->|Hg]%elem_of_cons; [by rewrite Hout|]; rewrite <- Hfr by auto; by apply Hin.
    + intros g Hg; rewrite Hfr by auto; apply Hfs; by right.
Qed.

Lemma down_all c (t0 : string -> gmap string (list rule)) (fs : list family) s r s' : NoDup (f_tool <$> fs) ->
  (forall f, f ∈ fs -> wf_chains c f ∧ removes (f_tool f) ∧ clean c (t0 (f_tool f))
     ∧ dirty c (t0 (f_tool f)) (table s (f_tool f)) (ch_jumps c)) ->
  each fs (fun f =>
    each (ch_jumps c) (fun j => quietly (f_tool f) ("-D"%string :: j.1 :: j.2)) ≫= fun _ =>
    each (ch_names c) (fun n => quietly (f_tool f) ["-F"%string; n] ≫= fun _ => quietly (f_tool f) ["-X"%string; n])) s
    = (r, s') ->
  r = inr tt ∧ (forall f, f ∈ fs -> table s' (f_tool f) = t0 (f_tool f))
  ∧ forall tool, tool ∉ (f_tool <$> fs) -> table s' tool = table s tool.
Proof.
  revert s; induction fs as [|f fs IH]; intros s Hnd Hfs; cbn [each].
  { intros [= <- <-]; split_and!; [done| |done]; by intros ? []%not_elem_of_nil. }
  cbn in Hnd; apply NoDup_cons in Hnd as [Hf Hnd]; destruct (Hfs f) as (Hwf & Hr & Hc & Hd); [by left|].
  intros H; apply bind_inv in H as [(e & E & ->)|(x & s1 & E & H)];
    eapply down_family in E as (Hx & Ht & Hfr); try done.
  apply IH in H as (-> & Hin & Hout); [split_and!; [done|..]|done|].
  - intros g [->|Hg]%elem_of_cons; [by rewrite Hout|by apply Hin].
  - intros tool [? ?]%not_elem_of_cons; rewrite Hout; auto.
  - intros g Hg; rewrite Hfr by (intros E; apply Hf; rewrite <- E; by apply list_elem_of_fmap_2); apply Hfs; by right.
Qed.

Lemma up_down c c' s : ch_names c' = ch_names c -> ch_jumps c' = ch_jumps c ->
  (forall f, f ∈ families ipv6 -> wf_chains c f ∧ unref c f ∧ removes (f_tool f)
     ∧ clean c (table s (f_tool f))) ->
  forall tool, table (chains_down ipv6 c' (chains_up ipv6 c s).2).2 tool = table s tool.
Proof.
  intros En Ej Hfs tool; destruct (chains_up ipv6 c s) as [r s1] eqn:E1; cbn [snd].
  destruct (chains_down ipv6 c' s1) as [r2 s2] eqn:E2; cbn [snd].
  apply up_any in E1 as [Hd Ho]; [|apply families_tools|intros f Hf; naive_solver].
  unfold chains_down in E2; rewrite En, Ej in E2.
  apply (down_all c (table s)) in E2 as (_ & Hin & Hout); [|apply families_tools|naive_solver].
  destruct (decide (tool ∈ (f_tool <$> families ipv6))) as [(f & -> & Hf)%list_elem_of_fmap|Hn]; [by apply Hin|].
  by rewrite Hout, Ho.
Qed.

End Down.
