(* ===== verification/EgressPolicy.v ===== *)
(** What the firewall means for packets: the verdict of the tunnel's and of the
    proxy account's chains, once they are up, and that both leave no trace. *)
From Stdlib Require Import Btauto.
From S2P Require Import Prelude Codec Guard StaticKey Egress EgressProofs.
Set Default Proof Using "Type*".

(** * Packets

What the kernel does with a packet (iptables(8), iptables-extensions(8)): a rule
is the conjunction of its matches, and a chain is walked to the first rule that
selects the packet; a chain of one's own returns to its caller at its end. *)
Class Netfilter (P : Type) := {
  in_iface : P -> string;
  out_iface : P -> string;
  proto : P -> string;
  dport : P -> Z;
  dst_in : string -> P -> bool;        (* its destination is in a network, or is an address *)
  established : P -> bool;             (* conntrack's RELATED,ESTABLISHED *)
  origdst : P -> string;               (* the destination before translation *)
  origdport : P -> Z;
  local_dst : P -> bool;               (* addrtype LOCAL *)
  owner : P -> Z;
  selects : rule -> P -> bool
}.
Class NetfilterLaws (P : Type) `{!Netfilter P} := {
  select_target t p : selects ["-j"; t]%string p = true;
  select_in i r p : selects ("-i" :: i :: r)%string p = bool_decide (in_iface p = i) && selects r p;
  select_out i r p : selects ("-o" :: i :: r)%string p = bool_decide (out_iface p = i) && selects r p;
  select_dst d r p : selects ("-d" :: d :: r)%string p = dst_in d p && selects r p;
  select_proto n r p : selects ("-p" :: n :: r)%string p = bool_decide (proto p = n) && selects r p;
  select_dport n r p : selects ("--dport" :: Itoa n :: r)%string p = (dport p =? n)%Z && selects r p;
  select_module m r p : selects ("-m" :: m :: r)%string p = selects r p;
  select_state r p : selects ("--ctstate" :: "RELATED,ESTABLISHED" :: r)%string p = established p && selects r p;
  select_origdst d r p : selects ("--ctorigdst" :: d :: r)%string p = bool_decide (origdst p = d) && selects r p;
  select_origdport n r p : selects ("--ctorigdstport" :: Itoa n :: r)%string p = (origdport p =? n)%Z && selects r p;
  select_local r p : selects ("--dst-type" :: "LOCAL" :: r)%string p = local_dst p && selects r p;
  select_owner n r p : selects ("--uid-owner" :: Itoa n :: r)%string p = (owner p =? n)%Z && selects r p
}.

Inductive verdict := ACCEPT | DROP | REJECT.
Definition verdict_of (t : string) : option verdict :=
  if decide (t = "ACCEPT"%string) then Some ACCEPT else if decide (t = "DROP"%string) then Some DROP
  else if decide (t = "REJECT"%string) then Some REJECT else None.
Definition target (r : rule) : string := default ""%string (last r).

(** [walk t p l v]: in the table [t], the rules [l] decide the packet [p] as [v];
    [None]: the end is reached. *)
Inductive walk {P} `{!Netfilter P} (t : gmap string (list rule)) (p : P) : list rule -> option verdict -> Prop :=
  | walk_end : walk t p [] None
  | walk_skip r l v : selects r p = false -> walk t p l v -> walk t p (r :: l) v
  | walk_decide r l v : selects r p = true -> verdict_of (target r) = Some v -> walk t p (r :: l) (Some v)
  | walk_call r l c v : selects r p = true -> verdict_of (target r) = None -> t !! target r = Some c ->
      walk t p c (Some v) -> walk t p (r :: l) (Some v)
  | walk_return r l c v : selects r p = true -> verdict_of (target r) = None -> t !! target r = Some c ->
      walk t p c None -> walk t p l v -> walk t p (r :: l) v.

(** What a rule selects, by its matches. *)
Ltac rule_matches :=
  repeat first [rewrite select_target | rewrite select_in | rewrite select_out | rewrite select_dst
    | rewrite select_proto | rewrite select_dport | rewrite select_module | rewrite select_state
    | rewrite select_origdst | rewrite select_origdport | rewrite select_local | rewrite select_owner
    | rewrite andb_true_r].

Section Packets.
Context {P : Type} `{!Netfilter P} {HN : NetfilterLaws P} (IPString : bytes -> string).
Implicit Types (p : P) (t : gmap string (list rule)).

(** A chain that calls no other decides by its first matching rule. *)
Definition first_match p (l : list rule) : option verdict :=
  match List.find (fun r => selects r p) l with
  | Some r => verdict_of (target r)
  | None => None
  end.
Definition leaves (l : list rule) : Prop := Forall (fun r => is_Some (verdict_of (target r))) l.

Lemma walk_leaves t p l v : leaves l -> walk t p l v <-> v = first_match p l.
Proof.
  unfold first_match; intros Hl; split.
  - induction 1; inversion Hl; subst; cbn; [done|..]; repeat match goal with H : selects _ _ = _ |- _ => rewrite H end;
      [auto|done|..]; destruct (verdict_of _) eqn:?; naive_solver.
  - intros ->; induction Hl as [|r l [v' Hr] _ IH]; cbn; [constructor|].
    destruct (selects r p) eqn:E; [|by apply walk_skip]; rewrite Hr; by constructor.
Qed.

(** A jump at the top of a chain to a chain of that kind. *)
Lemma walk_jump t p j rest c v : verdict_of (target j) = None -> t !! target j = Some c -> leaves c ->
  walk t p (j :: rest) v <->
  if selects j p then match first_match p c with Some d => v = Some d | None => walk t p rest v end
  else walk t p rest v.
Proof.
  intros Hj Hc Hl; destruct (selects j p) eqn:Es; split.
  - inversion 1; subst; try congruence; simplify_eq; match goal with H : walk _ _ c _ |- _ => apply walk_leaves in H as <- end; done.
  - destruct (first_match p c) as [d|] eqn:Ef; [intros ->|intros H].
    + eapply walk_call; [done..|]; by apply walk_leaves.
    + eapply walk_return; [done..| |done]; by apply walk_leaves.
  - inversion 1; subst; congruence.
  - by apply walk_skip.
Qed.

Lemma first_match_app p l k :
  first_match p (l ++ k) = if existsb (fun r => selects r p) l then first_match p l else first_match p k.
Proof.
  unfold first_match; induction l as [|r l IH]; cbn; [done|]; destruct (selects r p); cbn; [done|exact IH].
Qed.

(** Rules with one and the same target. *)
Lemma first_match_same p l v : Forall (fun r => verdict_of (target r) = Some v) l ->
  first_match p l = if existsb (fun r => selects r p) l then Some v else None.
Proof. unfold first_match; induction 1; cbn; [done|]; destruct (selects _ p); cbn; auto. Qed.

Lemma first_match_seg p l k v : Forall (fun r => verdict_of (target r) = Some v) l ->
  first_match p (l ++ k) = if existsb (fun r => selects r p) l then Some v else first_match p k.
Proof. intros H; rewrite first_match_app, (first_match_same p l v H); by destruct (existsb _ l). Qed.

(** ** The policy the tunnel's chains carry out *)
Definition forbidden (i : string) (policy : Egress) (f : family) p : bool :=
  bool_decide (out_iface p = i) || existsb (fun net => dst_in net p) (f_blocked f)
  || negb (AllowSMTP policy) && bool_decide (proto p = "tcp"%string) && (dport p =? SMTPPort)%Z.
Definition welcome (policy : Egress) (f : family) p : bool :=
  established p
  || inFamily f (Resolver policy) && dst_in (IPString (default [] (Resolver policy))) p
     && (bool_decide (proto p = "udp"%string) || bool_decide (proto p = "tcp"%string)) && (dport p =? 53)%Z
  || negb (APIPort policy =? 0)%Z && bool_decide (proto p = "tcp"%string) && (dport p =? APIPort policy)%Z.

Lemma existsb_fmap {A B} (g : A -> B) (q : B -> bool) l : existsb q (g <$> l) = existsb (fun x => q (g x)) l.
Proof. induction l as [|x l IH]; cbn; [done|by rewrite <- IH]. Qed.

Lemma existsb_ext {A} (q q' : A -> bool) l : (forall x, q x = q' x) -> existsb q l = existsb q' l.
Proof. intros H; induction l; cbn; congruence. Qed.

Lemma forwardRules_policy i policy f p :
  first_match p (forwardRules i policy f) = if forbidden i policy f p then Some DROP else None.
Proof.
  rewrite (first_match_same p _ DROP).
  - unfold forwardRules; rewrite !existsb_app, existsb_fmap, (existsb_ext _ (fun net => dst_in net p)).
    2: { intros d; by rule_matches. }
    unfold forbidden; destruct (AllowSMTP policy); cbn [existsb]; rule_matches; rewrite ?orb_false_r, ?orb_assoc; done.
  - unfold forwardRules; rewrite !Forall_app; split_and!; [by constructor|by apply Forall_fmap, Forall_true|].
    destruct (AllowSMTP policy); by constructor.
Qed.

(** ** The policy the proxy account's chain carries out *)
Definition proxy_fate (ports : list Z) (resolvers : list bytes) (policy : Egress) (f : family) p : option verdict :=
  let tcp := bool_decide (proto p = "tcp"%string) in
  if established p then Some ACCEPT
  else if negb (f_v6 f) && bool_decide (out_iface p = "lo"%string) && dst_in "127.0.0.1" p && tcp
          && existsb (fun port => dport p =? port)%Z ports then Some ACCEPT
  else if existsb (fun ip => inFamily f (Some ip) && bool_decide (origdst p = IPString ip)) resolvers
          && (bool_decide (proto p = "udp"%string) || tcp) && (origdport p =? 53)%Z then Some ACCEPT
  else if existsb (fun net => dst_in net p) (f_blocked f) then Some REJECT
  else if negb (APIPort policy =? 0)%Z && local_dst p && tcp && (dport p =? APIPort policy)%Z then Some ACCEPT
  else if local_dst p then Some REJECT
  else if negb (AllowSMTP policy) && tcp && (dport p =? SMTPPort)%Z then Some REJECT
  else None.

Lemma existsb_factor {A} (q : A -> bool) b l : existsb (fun x => q x && b) l = existsb q l && b.
Proof. induction l as [|x l IH]; cbn; [done|]; rewrite IH; btauto. Qed.

Lemma existsb_bind {A B} (g : A -> list B) (q : B -> bool) l : existsb q (l ≫= g) = existsb (fun x => existsb q (g x)) l.
Proof. induction l as [|x l IH]; cbn; [done|by rewrite existsb_app, <- IH]. Qed.

Lemma loopback_selected ports f p :
  existsb (fun r => selects r p) (if f_v6 f then [] else
    (fun port => ["-o"; "lo"; "-d"; "127.0.0.1"; "-p"; "tcp"; "--dport"; Itoa port; "-j"; "ACCEPT"]%string) <$> ports)
  = negb (f_v6 f) && bool_decide (out_iface p = "lo"%string) && dst_in "127.0.0.1" p
    && bool_decide (proto p = "tcp"%string) && existsb (fun port => dport p =? port)%Z ports.
Proof.
  destruct (f_v6 f); cbn [negb existsb]; [done|]; rewrite existsb_fmap.
  rewrite (existsb_ext _ (fun port => (dport p =? port)%Z && (bool_decide (out_iface p = "lo"%string)
    && dst_in "127.0.0.1" p && bool_decide (proto p = "tcp"%string)))) by (intros port; rule_matches; btauto).
  rewrite (existsb_factor (fun port => dport p =? port)%Z); btauto.
Qed.

Lemma resolver_selected resolvers f p :
  existsb (fun r => selects r p) (resolvers ≫= fun ip => if inFamily f (Some ip) then
    (fun pr => ["-p"; pr; "-m"; "conntrack"; "--ctorigdst"; IPString ip; "--ctorigdstport"; Itoa 53; "-j"; "ACCEPT"]%string)
      <$> ["udp"; "tcp"]%string else [])
  = existsb (fun ip => inFamily f (Some ip) && bool_decide (origdst p = IPString ip)) resolvers
    && (bool_decide (proto p = "udp"%string) || bool_decide (proto p = "tcp"%string)) && (origdport p =? 53)%Z.
Proof.
  rewrite existsb_bind, (existsb_ext _ (fun ip => (inFamily f (Some ip) && bool_decide (origdst p = IPString ip))
    && ((bool_decide (proto p = "udp"%string) || bool_decide (proto p = "tcp"%string)) && (origdport p =? 53)%Z))).
  2: { intros ip; destruct (inFamily f (Some ip)); cbn [existsb fmap list_fmap]; rule_matches; btauto. }
  by rewrite (existsb_factor (fun ip => inFamily f (Some ip) && bool_decide (origdst p = IPString ip))), andb_assoc.
Qed.

Lemma proxyRules_policy ports resolvers policy f p :
  first_match p (proxyRules IPString ports resolvers policy f) = proxy_fate ports resolvers policy f p.
Proof.
  unfold proxyRules, proxy_fate; change "53"%string with (Itoa 53).
  rewrite (first_match_seg p _ _ ACCEPT) by (by repeat constructor); cbn [existsb]; rule_matches; rewrite orb_false_r.
  destruct (established p); [done|].
  rewrite (first_match_seg p _ _ ACCEPT), loopback_selected
    by (destruct (f_v6 f); [constructor|by apply Forall_fmap, Forall_true]).
  destruct (_ && existsb _ ports); [done|].
  rewrite (first_match_seg p _ _ ACCEPT), resolver_selected.
  2: { apply Forall_bind, Forall_true; intros ip; unfold compose; cbv beta; destruct (inFamily f (Some ip)); [apply Forall_fmap|]; by repeat constructor. }
  destruct (_ && _ && _); [done|].
  rewrite (first_match_seg p _ _ REJECT) by (by apply Forall_fmap, Forall_true).
  rewrite existsb_fmap, (existsb_ext _ (fun net => dst_in net p)) by (intros d; by rule_matches).
  destruct (existsb _ (f_blocked f)); [done|].
  rewrite (first_match_seg p _ _ ACCEPT) by (destruct (_ =? 0)%Z; by repeat constructor).
  rewrite (first_match_seg p _ _ REJECT) by (by repeat constructor).
  rewrite (first_match_same p _ REJECT) by (destruct (AllowSMTP policy); by repeat constructor).
  destruct (APIPort policy =? 0)%Z, (AllowSMTP policy); cbn [existsb negb andb]; rule_matches;
    rewrite ?orb_false_r, ?andb_assoc; done.
Qed.

Lemma inputRules_policy policy f p :
  first_match p (inputRules IPString policy f) = Some (if welcome policy f p then ACCEPT else DROP).
Proof.
  unfold inputRules; rewrite !app_assoc, first_match_app.
  rewrite (first_match_same p _ ACCEPT).
  - rewrite !existsb_app; change "53"%string with (Itoa 53); unfold welcome.
    assert (first_match p [["-j"; "DROP"]%string] = Some DROP) as -> by (unfold first_match; cbn; by rewrite select_target).
    match goal with |- (if ?a then _ else _) = Some (if ?b then _ else _) =>
      assert (a = b) as ->; [|by destruct b] end.
    destruct (inFamily f (Resolver policy)), (APIPort policy =? 0)%Z; cbn [existsb fmap list_fmap];
      rule_matches; cbn [negb]; btauto.
  - rewrite !Forall_app; split_and!; [by constructor|destruct (inFamily _ _)|destruct (_ =? 0)%Z]; repeat constructor.
Qed.
End Packets.

(** * The tunnel *)
Section Tunnel.
Context {F : Type} `{!IPTables F} {HL : IPTablesLaws F} (ipv6 : bool).
Context {P : Type} `{!Netfilter P} {HN : NetfilterLaws P} (IPString : bytes -> string).
Variables (i : string) (policy : Egress).

Definition jumpF : rule := ["-i"; i; "-j"; ForwardChain i]%string.
Definition jumpI : rule := ["-i"; i; "-j"; InputChain i]%string.

Lemma rules_of_fmap c c' (l : list rule) :
  rules_of c ((fun r => (c', r)) <$> l) = if decide (c' = c) then l else [].
Proof.
  unfold rules_of; induction l as [|r l IH]; cbn; [by case_decide|].
  case_bool_decide; cbn; rewrite IH; case_decide; done.
Qed.

Lemma rules_of_app c l k : rules_of c (l ++ k) = rules_of c l ++ rules_of c k.
Proof. unfold rules_of; by rewrite List.filter_app, fmap_app. Qed.

Lemma tunnel_wf f : wf_chains (tunnelChains IPString i policy) f.
Proof.
  split; cbn [ch_jumps ch_names ch_rules tunnelChains fmap list_fmap fst].
  - apply (bool_decide_unpack (NoDup _)); by vm_compute.
  - intros b Hb; rewrite !elem_of_cons in *; destruct Hb as [->|[->|Hb]]; [by intros [E|[E|[]%not_elem_of_nil]]..|by apply not_elem_of_nil in Hb].
  - intros q; unfold tunnelChains; cbn [ch_rules]; rewrite elem_of_app, !list_elem_of_fmap, !elem_of_cons; intros [(r & -> & _)|(r & -> & _)]; auto.
Qed.

Lemma tunnel_rules f :
  rules_of (ForwardChain i) (ch_rules (tunnelChains IPString i policy) f) = forwardRules i policy f
  ∧ rules_of (InputChain i) (ch_rules (tunnelChains IPString i policy) f) = inputRules IPString policy f.
Proof.
  cbn [ch_rules tunnelChains]; rewrite !rules_of_app, !rules_of_fmap, !decide_True by done; rewrite !decide_False by done.
  by rewrite app_nil_r, decide_True.
Qed.

Lemma leaves_forward f : leaves (forwardRules i policy f).
Proof.
  unfold leaves, forwardRules; rewrite !Forall_app; split_and!; [by repeat constructor| |].
  - apply Forall_fmap, Forall_true; by eexists.
  - destruct (AllowSMTP policy); by repeat constructor.
Qed.

Lemma leaves_input f : leaves (inputRules IPString policy f).
Proof.
  unfold leaves, inputRules; rewrite !Forall_app; split_and!; [|destruct (inFamily _ _)|destruct (_ =? 0)%Z|];
    repeat (constructor; try by eexists).
Qed.

(** The chain is clear of the jump, or begins with it. *)
Definition clear_of (j : rule) (l : list rule) : Prop := j ∉ l ∨ head l = Some j.

Lemma jumped_clear j l l' : jumped j l l' -> clear_of j l -> ∃ rest, l' = j :: rest ∧ (rest = l ∨ l = j :: rest).
Proof.
  intros [->|[-> Hj]] [Hc|Hc]; [by eauto..|done|].
  destruct l as [|j' rest]; simplify_eq/=; eauto.
Qed.

(** C37. The tunnel's firewall carries out the egress policy exactly.  Once
    [TunnelEgress.Up] has succeeded, on every address family the kernel has, the
    jump to the node's chain is the first rule of FORWARD and the host's own rules
    follow as they were: a packet that came in on the tunnel is dropped when it
    goes back into the tunnel, to a blocked network, or to TCP port 25 without
    leave, and is otherwise left to the host's rules.  INPUT decides every such
    packet: replies, DNS to the resolver and the API port are accepted, all else
    is dropped.  Packets from elsewhere are not touched. *)
Theorem tunnel_policy_exact s s' f lF lI :
  chains_up ipv6 (tunnelChains IPString i policy) s = (inr tt, s') -> f ∈ families ipv6 ->
  table s (f_tool f) !! "FORWARD"%string = Some lF -> clear_of jumpF lF ->
  table s (f_tool f) !! "INPUT"%string = Some lI -> clear_of jumpI lI ->
  let t' := table s' (f_tool f) in
  ∃ restF restI,
    t' !! "FORWARD"%string = Some (jumpF :: restF) ∧ (restF = lF ∨ lF = jumpF :: restF)
    ∧ t' !! "INPUT"%string = Some (jumpI :: restI) ∧ (restI = lI ∨ lI = jumpI :: restI)
    ∧ forall p : P,
        (forall v, walk t' p (jumpF :: restF) v <->
           if bool_decide (in_iface p = i) && forbidden i policy f p then v = Some DROP else walk t' p restF v)
        ∧ (forall v, walk t' p (jumpI :: restI) v <->
             if bool_decide (in_iface p = i) then v = Some (if welcome IPString policy f p then ACCEPT else DROP)
             else walk t' p restI v).
Proof.
  intros H Hf HF HcF HI HcI t'.
  eapply (each_family (families ipv6) _ (fun f t t' => chain_facts (tunnelChains IPString i policy) f t t')) in H as [H _];
    [|apply families_tools|intros g u u' _; apply chains_up_family_facts, tunnel_wf].
  destruct (H _ Hf) as (Hn & Hj & _).
  destruct (Hj "FORWARD"%string jumpF) as (l & l' & Hl & Hjl & HF'); [by left|]; simplify_eq.
  destruct (Hj "INPUT"%string jumpI) as (k & k' & Hk & Hjk & HI'); [by right; left|]; simplify_eq.
  apply jumped_clear in Hjl as (restF & -> & ?); [|done]; apply jumped_clear in Hjk as (restI & -> & ?); [|done].
  exists restF, restI; split_and!; [done..|]; intros p.
  destruct (tunnel_rules f) as [HrF HrI].
  split; intros v.
  - rewrite (walk_jump _ _ jumpF restF (forwardRules i policy f)), forwardRules_policy;
      [|done|rewrite <- HrF; apply Hn; by left|apply leaves_forward].
    unfold jumpF; rule_matches; destruct (bool_decide _), (forbidden _ _ _ _); done.
  - rewrite (walk_jump _ _ jumpI restI (inputRules IPString policy f)), inputRules_policy;
      [|done|rewrite <- HrI; apply Hn; by right; left|apply leaves_input].
    unfold jumpI; rule_matches; done.
Qed.
End Tunnel.

(** * The proxy account *)
Section Proxy.
Context {F : Type} `{!IPTables F} {HL : IPTablesLaws F} (ipv6 : bool).
Context {P : Type} `{!Netfilter P} {HN : NetfilterLaws P} (IPString : bytes -> string).
Variables (uid : Z) (ports : list Z) (resolvers : list bytes) (policy : Egress).

Definition jumpO : rule := ["-m"; "owner"; "--uid-owner"; Itoa uid; "-j"; ProxyChain]%string.

Lemma proxy_wf f : wf_chains (proxyChains IPString uid ports resolvers policy) f.
Proof.
  split; cbn [ch_jumps ch_names ch_rules proxyChains fmap list_fmap fst].
  - apply NoDup_singleton.
  - intros b ->%list_elem_of_singleton; by apply (bool_decide_unpack (_ ∉ _)).
  - intros q; unfold proxyChains; cbn [ch_rules]; rewrite list_elem_of_fmap; intros (r & -> & _); by left.
Qed.

Lemma leaves_proxy f : leaves (proxyRules IPString ports resolvers policy f).
Proof.
  unfold leaves, proxyRules; rewrite !Forall_app; split_and!.
  - by repeat constructor.
  - destruct (f_v6 f); [constructor|apply Forall_fmap, Forall_true; by eexists].
  - apply Forall_bind, Forall_true; intros ip; unfold compose; cbv beta; destruct (inFamily f (Some ip)); [apply Forall_fmap|]; repeat (constructor; try by eexists).
  - apply Forall_fmap, Forall_true; by eexists.
  - destruct (_ =? 0)%Z; by repeat constructor.
  - by repeat constructor.
  - destruct (AllowSMTP policy); by repeat constructor.
Qed.

(** C38. The proxy account's firewall carries out the egress policy in its order.
    Once [ProxyEgress.Up] has succeeded, the jump is the first rule of OUTPUT and
    the host's rules follow as they were; a packet the account sends is accepted
    when it is a reply, goes to one of the daemon's loopback ports or is DNS to one
    of the host's resolvers, then rejected when it goes to a blocked network, then
    accepted on the API port of the host, rejected on any other address of the
    host and on TCP port 25 without leave, and otherwise left to the host's
    rules.  Packets of other accounts are not touched. *)
Theorem proxy_policy_exact s s' f l :
  chains_up ipv6 (proxyChains IPString uid ports resolvers policy) s = (inr tt, s') -> f ∈ families ipv6 ->
  table s (f_tool f) !! "OUTPUT"%string = Some l -> clear_of jumpO l ->
  let t' := table s' (f_tool f) in
  ∃ rest, t' !! "OUTPUT"%string = Some (jumpO :: rest) ∧ (rest = l ∨ l = jumpO :: rest)
    ∧ forall (p : P) v, walk t' p (jumpO :: rest) v <->
        match (if (owner p =? uid)%Z then proxy_fate IPString ports resolvers policy f p else None) with
        | Some d => v = Some d
        | None => walk t' p rest v
        end.
Proof.
  intros H Hf Hl Hc t'.
  eapply (each_family (families ipv6) _
    (fun f t t' => chain_facts (proxyChains IPString uid ports resolvers policy) f t t')) in H as [H _];
    [|apply families_tools|intros g u u' _; apply chains_up_family_facts, proxy_wf].
  destruct (H _ Hf) as (Hn & Hj & _).
  destruct (Hj "OUTPUT"%string jumpO) as (k & k' & Hk & Hjk & HO'); [by left|]; simplify_eq.
  apply jumped_clear in Hjk as (rest & -> & ?); [|done]; exists rest; split_and!; [done..|]; intros p v.
  rewrite (walk_jump _ _ jumpO rest (proxyRules IPString ports resolvers policy f)), proxyRules_policy.
  - unfold jumpO; rule_matches; by destruct (owner p =? uid)%Z.
  - done.
  - etrans; [apply Hn; by left|]; cbn [ch_rules proxyChains]; rewrite rules_of_fmap; by rewrite decide_True.
  - apply leaves_proxy.
Qed.
End Proxy.

(** * Leaving no trace *)
Section Restore.
Context {F : Type} `{!IPTables F} {HL : IPTablesLaws F} (ipv6 : bool) (IPString : bytes -> string).

Lemma leaf_unref (r : rule) n : is_Some (verdict_of (target r)) -> verdict_of n = None -> ~ suffix ["-j"%string; n] r.
Proof.
  unfold target; intros Hr Hn [k ->]; change ["-j"%string; n] with (["-j"%string] ++ [n]) in Hr.
  rewrite app_assoc, last_snoc in Hr; cbn in Hr; rewrite Hn in Hr; by destruct Hr.
Qed.

Lemma tunnel_unref i policy f : unref (tunnelChains IPString i policy) f.
Proof.
  intros n q Hn; unfold tunnelChains; cbn [ch_rules]; rewrite elem_of_app, !list_elem_of_fmap.
  assert (verdict_of n = None) as Hv.
  { cbn in Hn; rewrite !elem_of_cons in Hn; by destruct Hn as [->|[->|[]%not_elem_of_nil]]. }
  intros [(r & -> & Hr)|(r & -> & Hr)]; cbn [snd]; apply leaf_unref; try done.
  - by eapply Forall_forall in Hr; [|apply leaves_forward].
  - by eapply Forall_forall in Hr; [|apply leaves_input].
Qed.

Lemma proxy_unref uid ports resolvers policy f : unref (proxyChains IPString uid ports resolvers policy) f.
Proof.
  intros n q Hn; unfold proxyChains; cbn [ch_rules]; rewrite list_elem_of_fmap; intros (r & -> & Hr).
  apply leaf_unref; [by eapply Forall_forall in Hr; [|apply leaves_proxy]|].
  by apply list_elem_of_singleton in Hn as ->.
Qed.

(** C39. The firewalls leave no trace: on a host whose tables hold nothing of the
    node, [Up], however far it gets and whichever of its commands fail, followed
    by [Down] leaves every table of every tool exactly as it was, for the tunnel's
    chains and for the proxy account's.  [Down] renders the chains under the zero
    policy, and for the proxy with the resolvers of that moment. *)
Theorem firewall_leaves_no_trace i uid ports resolvers resolvers' policy c c0 s :
  (c, c0) ∈ [(tunnelChains IPString i policy, tunnelChains IPString i Egress0);
             (proxyChains IPString uid ports resolvers policy, proxyChains IPString uid ports resolvers' Egress0)] ->
  (forall f, f ∈ families ipv6 -> removes (f_tool f) ∧ clean c (table s (f_tool f))) ->
  forall tool, table (chains_down ipv6 c0 (chains_up ipv6 c s).2).2 tool = table s tool.
Proof.
  intros Hin Hfs; rewrite !elem_of_cons in Hin; destruct Hin as [[= -> ->]|[[= -> ->]|[]%not_elem_of_nil]];
    apply up_down; try done; intros f Hf; destruct (Hfs f Hf); split_and!; try done.
  - apply tunnel_wf.
  - apply tunnel_unref.
  - apply proxy_wf.
  - apply proxy_unref.
Qed.
End Restore.
