(* ===== verification/Runtime.v ===== *)
(** Where the protocol daemons read their files and which account they run as:
    src/services/common/runtime.go.

    The daemons that parse hostile traffic run as the proxy account when the node is
    root and the account exists; what the node writes for them is readable by that
    account's group and nobody else.  The disk, the environment and the account
    database are a parameter ([Disk]). *)
From S2P Require Import Prelude Codec Types Guard WireGuard.
Set Default Proof Using "Type*".
Local Open Scope string_scope.

Definition ProxyUserName : string := "dvpnd-proxy".
Record ProxyUser := mkProxyUser { pu_Name : string; pu_Group : string; pu_UID : Z; pu_GID : Z }.
Record Runtime := mkRuntime { rt_Dir : string; rt_Proxy : option ProxyUser }.

(** An entry of [user.Lookup], its numbers still text. *)
Record osUser := mkOsUser { ou_Uid : string; ou_Gid : string; ou_Username : string }.
(** What the disk holds at a path. *)
Record entry := mkEntry { en_data : string; en_mode : Z; en_gid : Z }.

Class Disk (F : Type) := {
  user_Lookup : string -> M F gerror osUser;
  user_LookupGroupId : string -> M F gerror string;
  Getenv : string -> F -> string;
  os_MkdirAll : string -> Z -> M F gerror unit;
  os_Chmod : string -> Z -> M F gerror unit;
  os_Chown : string -> Z -> Z -> M F gerror unit;
  os_WriteFile : string -> string -> Z -> M F gerror unit;
  os_ReadFile : string -> M F gerror string;
  Join : string -> string -> string;
  inode : F -> string -> option entry
}.

(** An operation that leaves what the disk holds alone, everywhere or but for one path. *)
Definition keeps_disk {F A} `{!Disk F} (m : M F gerror A) : Prop := forall s p, inode (m s).2 p = inode s p.
Definition keeps_but {F A} `{!Disk F} (path : string) (m : M F gerror A) : Prop :=
  forall s p, p ≠ path -> inode (m s).2 p = inode s p.

(** A name that is one component of a path. *)
Definition plain (name : string) : Prop := ("/"%char ∉ Str.of_string name) ∧ (name ∉ [""; "."; ".."]).
Class DiskLaws (F : Type) `{!Disk F} := {
  lookup_keeps n : keeps_disk (user_Lookup n);
  group_keeps g : keeps_disk (user_LookupGroupId g);
  read_keeps p : keeps_disk (os_ReadFile p);
  read_gets p s d s' : os_ReadFile p s = (inr d, s') -> ∃ e, inode s p = Some e ∧ en_data e = d;
  mkdir_makes p m s s' : os_MkdirAll p m s = (inr tt, s') -> is_Some (inode s' p);
  chmod_keeps p m : keeps_but p (os_Chmod p m);
  chmod_sets p m s s' : os_Chmod p m s = (inr tt, s') ->
    ∃ e, inode s p = Some e ∧ inode s' p = Some (mkEntry (en_data e) m (en_gid e));
  chown_keeps p u g : keeps_but p (os_Chown p u g);
  chown_sets p u g s s' : os_Chown p u g s = (inr tt, s') ->
    ∃ e, inode s p = Some e ∧ inode s' p = Some (mkEntry (en_data e) (en_mode e) g);
  write_keeps p d m : keeps_but p (os_WriteFile p d m);
  write_sets p d m s s' : os_WriteFile p d m s = (inr tt, s') -> ∃ e, inode s' p = Some e ∧ en_data e = d;
  join_base d d' a b : plain a -> plain b -> Join d a = Join d' b -> a = b
}.

Section Ops.
Context {F : Type} `{!Disk F}.

Definition invalid (s : string) : gerror := "strconv.ParseUint: parsing " +:+ s +:+ ": invalid syntax".
Definition lookupProxyUser : M F gerror ProxyUser :=
  u ← user_Lookup ProxyUserName;
  match Num.ParseUint32 (Str.of_string (ou_Uid u)), Num.ParseUint32 (Str.of_string (ou_Gid u)) with
  | None, _ => throw (invalid (ou_Uid u))
  | _, None => throw (invalid (ou_Gid u))
  | Some uid, Some gid =>
      g ← user_LookupGroupId (ou_Gid u);
      mret (mkProxyUser (ou_Username u) g uid gid)
  end.

Definition runtimeDir (home : string) (euid : Z) (s : F) : string :=
  let dirs := Getenv "RUNTIME_DIRECTORY" s in
  if negb (bool_decide (dirs = "")) then Str.to_string (Str.cut ":" (Str.of_string dirs)).1.1
  else if (euid =? 0)%Z then "/run/dvpnd"
  else Join home "run".
Definition PrepareRuntime (home : string) (euid : Z) (daemon : bool) : M F gerror Runtime :=
  proxy ← (if (euid =? 0)%Z && daemon
           then attempt lookupProxyUser ≫= fun u => mret (if u is inr u then Some u else None)
           else mret None);
  dir ← (fun s => (inr (runtimeDir home euid s), s));
  os_MkdirAll dir 448 ≫= fun _ =>                                 (* 0o700 *)
  match proxy with
  | None => os_Chmod dir 448 ≫= fun _ => mret (mkRuntime dir None)
  | Some u =>
      or_throw (os_Chown dir 0 (pu_GID u)) (fun e => "runtime directory " +:+ dir +:+ ": " +:+ e) ≫= fun _ =>
      os_Chmod dir 488 ≫= fun _ => mret (mkRuntime dir (Some u))     (* 0o750 *)
  end.

(** 0o600, or 0o640 for the account's group. *)
Definition fileMode (rt : Runtime) : Z := if rt_Proxy rt is Some _ then 416 else 384.
Definition rt_WriteFile (rt : Runtime) (name data : string) : M F gerror string :=
  let path := Join (rt_Dir rt) name in
  os_WriteFile path data (fileMode rt) ≫= fun _ =>
  (match rt_Proxy rt with Some u => os_Chown path 0 (pu_GID u) | None => mret tt end) ≫= fun _ =>
  os_Chmod path (fileMode rt) ≫= fun _ => mret path.
Definition rt_TLSFiles (rt : Runtime) (home : string) : M F gerror (string * string) :=
  crt ← os_ReadFile (Join home "tls.crt");
  cert ← rt_WriteFile rt "tls.crt" crt;
  k ← os_ReadFile (Join home "tls.key");
  key ← rt_WriteFile rt "tls.key" k;
  mret (cert, key).
End Ops.

(** ** The child's credentials *)
Record SysProcAttr := mkAttr { at_Uid : Z; at_Gid : Z; at_Groups : list Z; at_AmbientCaps : list Z }.
Definition capNetBindService : Z := 10.
Definition proxyAttr (rt : Runtime) (listenPort : Z) : option SysProcAttr :=
  match rt_Proxy rt with
  | None => None
  | Some u => Some (mkAttr (pu_UID u) (pu_GID u) [] (if (listenPort <? 1024)%Z then [capNetBindService] else []))
  end.

(** * Who can read what the node writes *)
Section Proofs.
Context {F : Type} `{!Disk F} {DL : DiskLaws F}.
Implicit Types (s : F).

(** The permissions a daemon's file has: the owner's, and the group's when it is the proxy account's. *)
Definition confined (rt : Runtime) (data : string) (e : option entry) : Prop :=
  ∃ g, e = Some (mkEntry data (fileMode rt) g) ∧ forall u, rt_Proxy rt = Some u -> g = pu_GID u.

Lemma keeps_bind {A B} path (m : M F gerror A) (f : A -> M F gerror B) :
  keeps_but path m -> (forall a, keeps_but path (f a)) -> keeps_but path (m ≫= f).
Proof using Type.
  intros Hm Hf s p Hp; unfold mbind, M_bind; pose proof (Hm s p Hp) as E; destruct (m s) as [[e|a] s1]; [done|].
  cbn in *; by rewrite Hf.
Qed.
Lemma keeps_ret {A} path (a : A) : keeps_but path (mret a : M F gerror A).
Proof using Type. done. Qed.
Lemma keeps_all {A} path (m : M F gerror A) : keeps_disk m -> keeps_but path m.
Proof using Type. intros H s p _; apply H. Qed.
Lemma kept {A} path (m : M F gerror A) s r s' p : keeps_but path m -> m s = (r, s') -> p ≠ path -> inode s' p = inode s p.
Proof using Type. intros H E Hp; pose proof (H s p Hp) as K; by rewrite E in K. Qed.

Lemma kept_all {A} (m : M F gerror A) s r s' p : keeps_disk m -> m s = (r, s') -> inode s' p = inode s p.
Proof using Type. intros H E; pose proof (H s p) as K; by rewrite E in K. Qed.

Lemma rt_WriteFile_keeps rt name data : keeps_but (Join (rt_Dir rt) name) (rt_WriteFile rt name data).
Proof.
  apply keeps_bind; [apply write_keeps|intros _]; apply keeps_bind; [|intros _; apply keeps_bind; [apply chmod_keeps|done]].
  destruct (rt_Proxy rt); [apply chown_keeps|apply keeps_ret].
Qed.
Lemma rt_WriteFile_confined rt name data s path s' : rt_WriteFile rt name data s = (inr path, s') ->
  path = Join (rt_Dir rt) name ∧ confined rt data (inode s' path).
Proof.
  intros H; apply bind_inv in H as [(? & _ & ?)|([] & s1 & H1 & H)]; [done|].
  apply write_sets in H1 as (e1 & E1 & <-).
  apply bind_inv in H as [(? & _ & ?)|([] & s2 & H2 & H)]; [done|].
  apply bind_inv in H as [(? & _ & ?)|([] & s3 & H3 & [[= ->] ->]%ret_inv)]; [done|].
  apply chmod_sets in H3 as (e2 & E2 & E3); split; [done|]; rewrite E3.
  destruct (rt_Proxy rt) as [u|] eqn:Eu.
  - apply chown_sets in H2 as (e & Ee & E); simplify_eq; cbn; exists (pu_GID u); unfold fileMode; rewrite Eu.
    split; [done|]; intros u' [= <-]; done.
  - apply ret_inv in H2 as [_ ->]; rewrite E1 in E2; injection E2 as <-; exists (en_gid e1); unfold fileMode; rewrite Eu; split; [done|]; by intros ? [=].
Qed.

Lemma TLSFiles_paths rt home s cert key s' : rt_TLSFiles rt home s = (inr (cert, key), s') ->
  cert = Join (rt_Dir rt) "tls.crt" ∧ key = Join (rt_Dir rt) "tls.key".
Proof.
  intros H; apply bind_inv in H as [(? & _ & ?)|(crt & s1 & H1 & H)]; [done|].
  apply bind_inv in H as [(? & _ & ?)|(cert' & s2 & H2 & H)]; [done|].
  apply bind_inv in H as [(? & _ & ?)|(k & s3 & H3 & H)]; [done|].
  apply bind_inv in H as [(? & _ & ?)|(key' & s4 & H4 & [[= -> ->] ->]%ret_inv)]; [done|].
  split; [by apply rt_WriteFile_confined in H2 as [-> _]|by apply rt_WriteFile_confined in H4 as [-> _]].
Qed.

(** A daemon's TLS files are the node's: when the copies were made, they hold what
    the home held, readable by the owner and the proxy account's group alone. *)
Theorem TLSFiles_confined rt home s cert key s' : rt_TLSFiles rt home s = (inr (cert, key), s') ->
  ∃ c k, inode s (Join home "tls.crt") = Some c ∧ inode s (Join home "tls.key") = Some k
  ∧ confined rt (en_data c) (inode s' cert) ∧ confined rt (en_data k) (inode s' key).
Proof.
  assert (plain "tls.crt" ∧ plain "tls.key") as [Pc Pk].
  { split; (split; [|by apply (bool_decide_unpack (_ ∉ _))]); apply (bool_decide_unpack (_ ∉ _)); vm_compute; done. }
  intros H; apply bind_inv in H as [(? & _ & ?)|(crt & s1 & H1 & H)]; [done|].
  apply bind_inv in H as [(? & _ & ?)|(cert' & s2 & H2 & H)]; [done|].
  apply bind_inv in H as [(? & _ & ?)|(k & s3 & H3 & H)]; [done|].
  apply bind_inv in H as [(? & _ & ?)|(key' & s4 & H4 & [[= -> ->] ->]%ret_inv)]; [done|].
  pose proof (read_gets _ _ _ _ H1) as (c & Ec & <-); pose proof (read_gets _ _ _ _ H3) as (k' & Ek & <-).
  destruct (rt_WriteFile_confined _ _ _ _ _ _ H2) as [-> Hc], (rt_WriteFile_confined _ _ _ _ _ _ H4) as [-> Hk].
  assert (Join home "tls.key" ≠ Join (rt_Dir rt) "tls.crt" ∧ Join (rt_Dir rt) "tls.crt" ≠ Join (rt_Dir rt) "tls.key") as [N1 N2].
  { split; intros E%join_base; done. }
  exists c, k'; split_and!; [done| | |done].
  - by rewrite <- Ek, (kept _ _ _ _ _ _ (rt_WriteFile_keeps _ _ _) H2 N1), (kept_all _ _ _ _ _ (read_keeps _) H1).
  - by rewrite (kept _ _ _ _ _ _ (rt_WriteFile_keeps _ _ _) H4 N2), (kept_all _ _ _ _ _ (read_keeps _) H3).
Qed.

Lemma lookupProxyUser_keeps : keeps_disk (lookupProxyUser (F := F)).
Proof.
  intros s p; unfold lookupProxyUser, mbind, M_bind; pose proof (lookup_keeps ProxyUserName s p) as E1.
  destruct (user_Lookup ProxyUserName s) as [[e|u] s1]; [done|]; cbn in E1.
  destruct (Num.ParseUint32 (Str.of_string (ou_Uid u))), (Num.ParseUint32 (Str.of_string (ou_Gid u))); try done.
  cbv beta; pose proof (group_keeps (ou_Gid u) s1 p) as E2; destruct (user_LookupGroupId (ou_Gid u) s1) as [[e|g] s2]; cbn in *; congruence.
Qed.

(** The runtime directory is closed to everyone else: the owner alone enters it, or
    the owner and the group of the proxy account, which is used only by a root node
    whose protocol runs a daemon. *)
Theorem PrepareRuntime_confined home euid daemon s rt s' : PrepareRuntime home euid daemon s = (inr rt, s') ->
  ∃ e, inode s' (rt_Dir rt) = Some e
  ∧ match rt_Proxy rt with
    | None => en_mode e = 448%Z
    | Some u => en_mode e = 488%Z ∧ en_gid e = pu_GID u ∧ euid = 0%Z ∧ daemon = true
        ∧ ∃ t t', lookupProxyUser t = (inr u, t')
    end.
Proof.
  intros H; apply bind_inv in H as [(? & _ & ?)|(proxy & s1 & H1 & H)]; [done|].
  assert (forall u, proxy = Some u -> euid = 0%Z ∧ daemon = true ∧ ∃ t t', lookupProxyUser t = (inr u, t')) as Hproxy.
  { intros u ->; destruct ((euid =? 0)%Z && daemon) eqn:E; [|by apply ret_inv in H1 as [? _]].
    apply andb_true_iff in E as [?%Z.eqb_eq ->]; split_and!; [done..|].
    apply bind_inv in H1 as [(? & _ & ?)|(x & s2 & (y & Hl & [= ->])%attempt_inv & [Hx _]%ret_inv)]; [done|].
    destruct y as [e|u']; [done|]; injection Hx as ->; eauto. }
  apply bind_inv in H as [(? & _ & ?)|(dir & s2 & _ & H)]; [done|].
  apply bind_inv in H as [(? & _ & ?)|([] & s3 & _ & H)]; [done|].
  destruct proxy as [u|].
  - apply bind_inv in H as [(? & _ & ?)|([] & s4 & H4 & H)]; [done|].
    apply bind_inv in H as [(? & _ & ?)|([] & s5 & H5 & [[= ->] ->]%ret_inv)]; [done|].
    apply chmod_sets in H5 as (e & Ee & E5); exists (mkEntry (en_data e) 488 (en_gid e)); cbn; split; [done|].
    unfold or_throw in H4; destruct (os_Chown dir 0 (pu_GID u) s3) as [[|[]] t] eqn:E4; [done|]; injection H4 as ->.
    apply chown_sets in E4 as (e0 & _ & E4); simplify_eq; cbn; destruct (Hproxy u eq_refl) as (? & ? & ?); done.
  - apply bind_inv in H as [(? & _ & ?)|([] & s4 & H4 & [[= ->] ->]%ret_inv)]; [done|].
    apply chmod_sets in H4 as (e & Ee & E4); by exists (mkEntry (en_data e) 448 (en_gid e)).
Qed.
End Proofs.
