(* ===== verification/Lifecycle.v ===== *)
(** Starting and stopping around the firewall: [Start] and [Stop] of
    src/services/openvpn/openvpn.go and [EnsureForwarding] of
    src/services/wireguard/wireguard.go.

    A service puts its firewall up before anything listens and takes it down when
    a later step fails.  Child processes, sockets and files are a parameter
    ([Host]): none of them touches the filter tables. *)
From S2P Require Import Prelude Codec Guard StaticKey Egress EgressProofs EgressPolicy.
Set Default Proof Using "Type*".

Class Host (F : Type) := {
  ReadFile : string -> M F gerror string;
  WriteFile : string -> string -> M F gerror unit;
  StartProcess : string -> list string -> M F gerror unit;
  StopProcess : M F gerror unit;
  dialManagement : string -> M F gerror unit;
  closeManagement : M F gerror unit
}.
(** An operation that leaves the filter tables alone. *)
Definition no_table {F A} `{!IPTables F} (m : M F gerror A) : Prop :=
  forall s r s', m s = (r, s') -> forall tool, table s' tool = table s tool.
Class HostLaws (F : Type) `{!IPTables F, !Host F} := {
  read_tables p : no_table (ReadFile p);
  write_tables p d : no_table (WriteFile p d);
  start_tables n a : no_table (StartProcess n a);
  stop_tables : no_table StopProcess;
  dial_tables p : no_table (dialManagement p);
  close_tables : no_table closeManagement
}.

Section Ops.
Context {F : Type} `{!IPTables F, !Host F} (ipv6 : bool) (IPString : bytes -> string).
Local Open Scope string_scope.

(** ** Forwarding *)
Definition forwardingSwitches : list (string * string * bool) :=
  [("/proc/sys/net/ipv4/ip_forward", "net.ipv4.ip_forward", true);
   ("/proc/sys/net/ipv6/conf/all/forwarding", "net.ipv6.conf.all.forwarding", false)].
Definition EnsureForwarding : M F gerror unit :=
  each forwardingSwitches (fun sw =>
    let '(path, name, required) := sw in
    cur ← attempt (ReadFile path);
    if (if cur is inr text then bool_decide (TrimSpace (Str.of_string text) = Str.of_string "1") else false) then mret tt else
    wrote ← attempt (WriteFile path ("1" +:+ String "010"%char ""));
    match wrote with
    | inr _ => mret tt
    | inl e => (* the other switch only warns *)
        throw_if required (name +:+ " is off and cannot be enabled (" +:+ e +:+ "); set it on the host, or pass --sysctl "
          +:+ name +:+ "=1 to the container runtime")
    end).

(** What runs after a failed step, its own failures ignored. *)
Definition ignored {A} (m : M F gerror A) : M F gerror unit := attempt m ≫= fun (_ : gerror + A) => mret tt.
Definition or_undo {A} (m : M F gerror A) (undo : M F gerror unit) : M F gerror A := fun s =>
  match m s with
  | (inl e, s') => (inl e, (undo s').2)
  | (inr a, s') => (inr a, s')
  end.

(** ** OpenVPN: an interface, the uplink, and the policy in force *)
Section OpenVPN.
Context (i uplink configPath socketPath : string) (policy : Egress).
Definition egress_Up : M F gerror unit := chains_up ipv6 (tunnelChains IPString i policy).
Definition egress_Down : M F gerror unit := chains_down ipv6 (tunnelChains IPString i Egress0).

Definition ov_Start : M F gerror unit :=
  EnsureForwarding ≫= fun _ =>
  or_undo egress_Up egress_Down ≫= fun _ =>
  or_undo (StartProcess "openvpn" ["--config"; configPath]) egress_Down ≫= fun _ =>
  or_undo (dialManagement socketPath) (ignored StopProcess ≫= fun _ => egress_Down) ≫= fun _ =>
  or_undo (nat_Up i uplink)
    (ignored closeManagement ≫= fun _ => ignored StopProcess ≫= fun _ => nat_Down i uplink ≫= fun _ => egress_Down).

(** [started] says whether there is a process to stop. *)
Definition ov_Stop (started attached : bool) : M F gerror unit :=
  throw_if (negb started) "openvpn was not started" ≫= fun _ =>
  (if attached then ignored closeManagement else mret tt) ≫= fun _ =>
  err ← attempt StopProcess;
  nat_Down i uplink ≫= fun _ => egress_Down ≫= fun _ =>
  match err with inl e => throw e | inr _ => mret tt end.
End OpenVPN.
End Ops.

(** * What is left behind *)
Section Proofs.
Context {F : Type} `{!IPTables F, !Host F} {HL : IPTablesLaws F} {HH : HostLaws F} (ipv6 : bool) (IPString : bytes -> string).
Implicit Types (s : F) (t : gmap string (list rule)).

Lemma no_table_bind {A B} (m : M F gerror A) (f : A -> M F gerror B) :
  no_table m -> (forall a, no_table (f a)) -> no_table (m ≫= f).
Proof using Type.
  intros Hm Hf s r s' H tool; apply bind_inv in H as [(e & H & _)|(a & s1 & H1 & H)]; [by apply Hm in H|].
  rewrite (Hf _ _ _ _ H); by apply Hm in H1.
Qed.
Lemma no_table_attempt {A} (m : M F gerror A) : no_table m -> no_table (attempt m : M F gerror (gerror + A)).
Proof using Type. intros Hm s r s' (x & H & _)%attempt_inv; by apply Hm in H. Qed.
Lemma no_table_ret {A} (a : A) : no_table (mret a : M F gerror A).
Proof using Type. by intros s r s' [_ ->]%ret_inv. Qed.
Lemma no_table_each {A} (l : list A) (f : A -> M F gerror unit) : (forall x, no_table (f x)) -> no_table (each l f).
Proof using Type. intros Hf; induction l; cbn; [apply no_table_ret|by apply no_table_bind]. Qed.
Lemma no_table_ignored {A} (m : M F gerror A) : no_table m -> no_table (ignored m).
Proof using Type. intros; apply no_table_bind; [by apply no_table_attempt|intros; apply no_table_ret]. Qed.
Lemma no_table_throw_if b e : no_table (throw_if b e : M F gerror unit).
Proof using Type. by intros s r s' [-> _]%throw_if_inv. Qed.

Lemma forwarding_tables : no_table (EnsureForwarding (F := F)).
Proof.
  apply no_table_each; intros [[path name] required].
  apply no_table_bind; [apply no_table_attempt, read_tables|]; intros cur.
  destruct (if cur is inr text then _ else _); [apply no_table_ret|].
  apply no_table_bind; [apply no_table_attempt, write_tables|]; intros [e|]; [apply no_table_throw_if|apply no_table_ret].
Qed.

(** ** Masquerading *)
Section Nat.
Context (i uplink : string).
Definition nat1 : rule := ["-i"; i; "-j"; "ACCEPT"]%string.
Definition nat2 : rule := ["-o"; i; "-m"; "conntrack"; "--ctstate"; "RELATED,ESTABLISHED"; "-j"; "ACCEPT"]%string.
Definition forward_more (ps : list rule) t : gmap string (list rule) := alter (fun l => l ++ ps) "FORWARD"%string t.

Lemma append_any tool r (g : gerror -> gerror) s res s' :
  or_throw (RunCommand tool ("-A"%string :: "FORWARD"%string :: r)) g s = (res, s') ->
  table s' tool = forward_more (if res is inr _ then [r] else []) (table s tool)
  ∧ forall tool', tool' ≠ tool -> table s' tool' = table s tool'.
Proof.
  unfold or_throw; destruct (RunCommand tool _ s) as [r0 s0] eqn:E; apply command_inv in E as [E Hf]; [|done].
  destruct r0 as [e|[]]; intros [= <- <-]; (split; [|done]); unfold forward_more.
  - rewrite E; symmetry; apply map_eq; intros k; rewrite lookup_alter; case_decide as Hk; [subst|done].
    destruct (table s tool !! "FORWARD"%string); cbn; [by rewrite app_nil_r|done].
  - cbn in E; destruct (table s tool !! "FORWARD"%string) as [l|] eqn:El; [|done]; injection E as <-.
    apply map_eq; intros k; rewrite lookup_alter; case_decide as Hk; [subst; by rewrite lookup_insert_eq, El|].
    by rewrite lookup_insert_ne.
Qed.

Lemma each_app {A} (l k : list A) (f : A -> M F gerror unit) s :
  each (l ++ k) f s = (each l f ≫= fun _ => each k f) s.
Proof using Type.
  revert s; induction l as [|x l IH]; intros s; cbn; [done|]; unfold mbind, M_bind in *.
  destruct (f x s) as [[e|[]] s1]; [done|apply IH].
Qed.

Definition natCmds (action tool : string) : list (list string) :=
  [tool :: action :: "FORWARD" :: nat1; tool :: action :: "FORWARD" :: nat2;
   [tool; "-t"; "nat"; action; "POSTROUTING"; "-o"; uplink; "-j"; "MASQUERADE"]]%string.
Lemma natRules_split action : natRules i uplink action = natCmds action "iptables" ++ natCmds action "ip6tables".
Proof using Type. done. Qed.

(** How far a start got with one tool. *)
Definition nat_steps : list (list rule) := [[]; [nat1]; [nat1; nat2]].

Lemma forward_more_app ps qs t : forward_more qs (forward_more ps t) = forward_more (ps ++ qs) t.
Proof.
  apply map_eq; intros k; unfold forward_more; rewrite !lookup_alter; case_decide; [|done].
  destruct (t !! _); cbn; [by rewrite app_assoc|done].
Qed.
Lemma forward_more_nil t : forward_more [] t = t.
Proof.
  apply map_eq; intros k; unfold forward_more; rewrite lookup_alter; case_decide as Hk; [subst|done].
  destruct (t !! "FORWARD"%string); cbn; [by rewrite app_nil_r|done].
Qed.

Lemma nat_up_tool tool s res s' :
  each (natCmds "-A" tool) (fun r => or_throw (RunCommand (default "" (head r)) (drop 1 r))
    (fun e => String.concat " " r +:+ ": " +:+ e)%string) s = (res, s') ->
  ∃ ps, ps ∈ nat_steps ∧ (res = inr tt -> ps = [nat1; nat2])
    ∧ table s' tool = forward_more ps (table s tool) ∧ forall tool', tool' ≠ tool -> table s' tool' = table s tool'.
Proof.
  cbn [each natCmds head default drop]; change (id tool) with tool; intros H.
  apply bind_inv in H as [(e & H1 & ->)|([] & s1 & H1 & H)]; apply append_any in H1 as [E1 F1].
  { exists []; split_and!; [by left|done|done|done]. }
  apply bind_inv in H as [(e & H2 & ->)|([] & s2 & H2 & H)]; apply append_any in H2 as [E2 F2].
  { exists [nat1]; rewrite E2, E1, forward_more_nil; split_and!; [by right; left|done|done|].
    intros tool' Ht; by rewrite F2, F1. }
  assert (forall tool', table s' tool' = table s2 tool') as F3.
  { apply bind_inv in H as [(e & H3 & ->)|([] & s3 & H3 & [_ ->]%ret_inv)]; unfold or_throw in H3;
      destruct (RunCommand tool _ s2) as [[e0|[]] s4] eqn:E3; simplify_eq; intros tool';
      by refine (command_other _ _ _ _ _ _ E3 tool'). }
  exists [nat1; nat2]; rewrite F3, E2, E1, forward_more_app; split_and!; [by do 2 right; left|done|done|].
  intros tool' Ht; by rewrite F3, F2, F1.
Qed.

Lemma remove_one_mid r (l k : list rule) : r ∉ l -> remove_one r (l ++ r :: k) = l ++ k.
Proof using Type.
  induction l as [|x l IH]; cbn; intros Hn; [by rewrite decide_True|].
  apply not_elem_of_cons in Hn as [Hx Hn]; rewrite decide_False by congruence; by rewrite IH.
Qed.

(** A table without the masquerading rules. *)
Definition nat_clean t : Prop := forall l, t !! "FORWARD"%string = Some l -> (nat1 ∉ l) ∧ (nat2 ∉ l).

Lemma nat_down_tool tool t ps s res s' : removes tool -> nat_clean t -> ps ∈ nat_steps ->
  table s tool = forward_more ps t ->
  each (natCmds "-D" tool) (fun r => quietly (default "" (head r)) (drop 1 r))%string s = (res, s') ->
  res = inr tt ∧ table s' tool = t ∧ forall tool', tool' ≠ tool -> table s' tool' = table s tool'.
Proof.
  intros Hr Hc Hps E; cbn [each natCmds head default drop]; change (id tool) with tool; intros H.
  apply bind_inv in H as [(e & H1 & ->)|([] & s1 & H1 & H)]; apply drop_jump in H1 as (Hx & K1 & B1 & F1); try done.
  apply bind_inv in H as [(e & H2 & ->)|([] & s2 & H2 & H)]; apply drop_jump in H2 as (Hy & K2 & B2 & F2); try done.
  assert (res = inr tt ∧ forall tool', table s' tool' = table s2 tool') as [-> F3].
  { unfold quietly in H; minv H; split; [done|]; intros tool'.
    match goal with H : RunCommand _ _ s2 = _ |- _ => by refine (command_other _ _ _ _ _ _ H tool') end. }
  split_and!; [done| |intros tool' Ht; by rewrite F3, F2, F1].
  rewrite F3; apply map_eq; intros k; destruct (decide (k = "FORWARD"%string)) as [->|Hk].
  - rewrite B2, B1, E; unfold forward_more; rewrite lookup_alter_eq.
    destruct (t !! "FORWARD"%string) as [l|] eqn:El; cbn; [|done]; destruct (Hc l El) as [N1 N2]; f_equal.
    assert (nat1 ≠ nat2) by done.
    unfold nat_steps in Hps; rewrite !elem_of_cons in Hps; destruct Hps as [->|[->|[->|[]%not_elem_of_nil]]].
    + rewrite app_nil_r, (decide_False (P := nat1 ∈ l)), decide_False by done; done.
    + rewrite (decide_True (P := nat1 ∈ l ++ [nat1])) by set_solver; rewrite remove_one_mid, app_nil_r, decide_False by done; done.
    + rewrite (decide_True (P := nat1 ∈ l ++ [nat1; nat2])) by set_solver; rewrite remove_one_mid by done.
      rewrite decide_True by set_solver.
      by rewrite remove_one_mid, app_nil_r.
  - rewrite K2, K1, E by done; unfold forward_more; by rewrite lookup_alter_ne.
Qed.

(** Both tools. *)
Definition masqueraded (p4 p6 : list rule) s s' : Prop :=
  table s' "iptables"%string = forward_more p4 (table s "iptables"%string)
  ∧ table s' "ip6tables"%string = forward_more p6 (table s "ip6tables"%string)
  ∧ forall tool, tool ≠ "iptables"%string -> tool ≠ "ip6tables"%string -> table s' tool = table s tool.

Lemma nat_up_any s res s' : nat_Up i uplink s = (res, s') ->
  ∃ p4 p6, p4 ∈ nat_steps ∧ p6 ∈ nat_steps ∧ masqueraded p4 p6 s s'
    ∧ (res = inr tt -> p4 = [nat1; nat2] ∧ p6 = [nat1; nat2]).
Proof.
  unfold nat_Up; rewrite natRules_split; intros H; rewrite each_app in H.
  apply bind_inv in H as [(e & H & ->)|([] & s1 & H1 & H)].
  - apply nat_up_tool in H as (ps & Hps & _ & E & Hf); exists ps, []; split_and!; [done|by left| |done].
    split_and!; [done|by rewrite forward_more_nil, Hf|intros; by apply Hf].
  - apply nat_up_tool in H1 as (ps & Hps & Hfull & E & Hf); apply nat_up_tool in H as (qs & Hqs & Hfull' & E' & Hf').
    exists ps, qs; split_and!; [done|done| |by auto].
    split_and!; [by rewrite Hf', E|by rewrite E', Hf|intros; by rewrite Hf', Hf].
Qed.

Lemma nat_down_restores p4 p6 s s1 : removes "iptables" -> removes "ip6tables" ->
  nat_clean (table s "iptables"%string) -> nat_clean (table s "ip6tables"%string) ->
  p4 ∈ nat_steps -> p6 ∈ nat_steps -> masqueraded p4 p6 s s1 ->
  (nat_Down i uplink s1).1 = inr tt ∧ forall tool, table (nat_Down i uplink s1).2 tool = table s tool.
Proof.
  intros R4 R6 C4 C6 H4 H6 (E4 & E6 & Eo); destruct (nat_Down i uplink s1) as [res s'] eqn:H; cbn.
  unfold nat_Down in H; rewrite natRules_split, each_app in H.
  apply bind_inv in H as [(e & H & ->)|([] & s2 & H1 & H)].
  { eapply (nat_down_tool "iptables") in H as (? & _); [done|done|exact C4|exact H4|exact E4]. }
  eapply (nat_down_tool "iptables") in H1 as (_ & T4 & F4); [|done|exact C4|exact H4|done].
  eapply (nat_down_tool "ip6tables") in H as (-> & T6 & F6); [|done|exact C6|exact H6|by rewrite F4].
  split; [done|]; intros tool; destruct (decide (tool = "ip6tables"%string)) as [->|N6]; [done|].
  rewrite F6 by done; destruct (decide (tool = "iptables"%string)) as [->|N4]; [done|].
  by rewrite F4, Eo.
Qed.
End Nat.

(** ** The tunnel's firewall, possibly half up *)
Lemma or_undo_inv {A} (m : M F gerror A) u s r s' : or_undo m u s = (r, s') ->
  (∃ e s1, m s = (inl e, s1) ∧ r = inl e ∧ s' = (u s1).2) ∨ (∃ a, m s = (inr a, s') ∧ r = inr a).
Proof using Type. unfold or_undo; destruct (m s) as [[e|a] s1]; intros [= <- <-]; eauto 6. Qed.

Section Around.
Context (c c0 : chains) (Hn : ch_names c0 = ch_names c) (Hj : ch_jumps c0 = ch_jumps c).
Context (Hc : forall f, f ∈ families ipv6 -> wf_chains c f ∧ unref c f ∧ removes (f_tool f)).

(** What the node may have left in the tables of [s]. *)
Definition held s s1 : Prop :=
  (forall f, f ∈ families ipv6 -> dirty c (table s (f_tool f)) (table s1 (f_tool f)) (ch_jumps c))
  ∧ forall tool, tool ∉ (f_tool <$> families ipv6) -> table s1 tool = table s tool.

Lemma held_same s s1 s2 : (forall tool, table s2 tool = table s1 tool) -> held s s1 -> held s s2.
Proof using Type. intros E [H1 H2]; split; intros; rewrite E; auto. Qed.

Lemma up_held s r s1 : (forall f, f ∈ families ipv6 -> clean c (table s (f_tool f))) ->
  chains_up ipv6 c s = (r, s1) -> held s s1.
Proof using HL Hc. intros Hs H; apply up_any in H; [done|apply families_tools|naive_solver]. Qed.

Lemma down_held s s1 : (forall f, f ∈ families ipv6 -> clean c (table s (f_tool f))) -> held s s1 ->
  (chains_down ipv6 c0 s1).1 = inr tt ∧ forall tool, table (chains_down ipv6 c0 s1).2 tool = table s tool.
Proof using HL Hn Hj Hc.
  intros Hs [Hd Ho]; destruct (chains_down ipv6 c0 s1) as [r s2] eqn:E; cbn [fst snd].
  unfold chains_down in E; rewrite Hn, Hj in E.
  apply (down_all c (table s)) in E as (-> & Hin & Hout); [|apply families_tools|naive_solver].
  split; [done|]; intros tool.
  destruct (decide (tool ∈ (f_tool <$> families ipv6))) as [(f & -> & Hf)%list_elem_of_fmap|N]; [by apply Hin|].
  by rewrite Hout, Ho.
Qed.
End Around.

(** Steps of an undo that leave the tables alone. *)
Lemma undo_ignored {A} (m : M F gerror A) (k : M F gerror unit) (s : F) (Q : F -> Prop) : no_table m ->
  (forall u : F, (forall tool, table u tool = table s tool) -> Q (k u).2) -> Q ((ignored m ≫= fun _ => k) s).2.
Proof using Type.
  intros Hm HQ; unfold ignored, attempt, mbind, M_bind; destruct (m s) as [r t] eqn:E; cbn.
  apply HQ; by apply Hm in E.
Qed.
Lemma undo_stop (k : M F gerror unit) (s : F) (Q : F -> Prop) :
  (forall u : F, (forall tool, table u tool = table s tool) -> Q (k u).2) -> Q ((ignored StopProcess ≫= fun _ => k) s).2.
Proof. apply undo_ignored, stop_tables. Qed.
Lemma undo_close (k : M F gerror unit) (s : F) (Q : F -> Prop) :
  (forall u : F, (forall tool, table u tool = table s tool) -> Q (k u).2) -> Q ((ignored closeManagement ≫= fun _ => k) s).2.
Proof. apply undo_ignored, close_tables. Qed.
Lemma undo_seq {B} (m : M F gerror unit) (k : M F gerror B) s : (m s).1 = inr tt -> (m ≫= fun _ => k) s = k (m s).2.
Proof using Type. unfold mbind, M_bind; destruct (m s) as [[e|[]] t]; done. Qed.

Lemma family_tool f : f ∈ families ipv6 -> f_tool f = "iptables"%string ∨ f_tool f = "ip6tables"%string.
Proof using Type. unfold families; destruct ipv6; rewrite ?elem_of_cons, elem_of_nil; naive_solver. Qed.

(** The firewall up: the jumps in front of the host's rules, the chains filled. *)
Definition up_place (i : string) (policy : Egress) (s s' : F) (f : family) : Prop :=
  ∃ lF lI, table s (f_tool f) !! "FORWARD"%string = Some lF ∧ table s (f_tool f) !! "INPUT"%string = Some lI
    ∧ table s' (f_tool f) !! "FORWARD"%string = Some (jumpF i :: lF)
    ∧ table s' (f_tool f) !! "INPUT"%string = Some (jumpI i :: lI)
    ∧ table s' (f_tool f) !! ForwardChain i = Some (forwardRules i policy f)
    ∧ table s' (f_tool f) !! InputChain i = Some (inputRules IPString policy f).
Lemma up_in_place i policy s s1 : (forall f, f ∈ families ipv6 -> clean (tunnelChains IPString i policy) (table s (f_tool f))) ->
  chains_up ipv6 (tunnelChains IPString i policy) s = (inr tt, s1) -> forall f, f ∈ families ipv6 -> up_place i policy s s1 f.
Proof.
  intros Hcl H f Hf; eapply (each_family (families ipv6) _ (fun f t t' => chain_facts (tunnelChains IPString i policy) f t t')) in H as [H _];
    [|apply families_tools|intros g u u' _; apply chains_up_family_facts, tunnel_wf].
  destruct (H _ Hf) as (Hn & Hj & _); destruct (tunnel_rules IPString i policy f) as [HrF HrI].
  destruct (Hcl f Hf) as [_ Hcj _].
  destruct (Hj "FORWARD"%string (jumpF i)) as (lF & l' & HlF & [->|[_ Hin]] & HF'); [by left| |by destruct (Hcj _ _ _ ltac:(by left) HlF)].
  destruct (Hj "INPUT"%string (jumpI i)) as (lI & l'' & HlI & [->|[_ Hin]] & HI'); [by right; left| |by destruct (Hcj _ _ _ ltac:(by right; left) HlI)].
  exists lF, lI; split_and!; [done..| |]; [rewrite <- HrF|rewrite <- HrI]; apply Hn; cbn; set_solver.
Qed.

(** ** OpenVPN *)
Section OpenVPN.
Set Default Proof Using "All".
Context (i uplink configPath socketPath : string) (policy : Egress).
Abbreviation C := (tunnelChains IPString i policy).
Abbreviation start := (ov_Start (F := F) ipv6 IPString i uplink configPath socketPath policy).
Abbreviation down := (egress_Down (F := F) ipv6 IPString i).
Abbreviation tools := ["iptables"; "ip6tables"]%string.
Context (R4 : removes (F := F) "iptables") (R6 : removes (F := F) "ip6tables").

Lemma tunnel_hyp f : f ∈ families ipv6 -> wf_chains C f ∧ unref C f ∧ removes (F := F) (f_tool f).
Proof.
  intros Hf; split_and!; [apply tunnel_wf|apply tunnel_unref|by destruct (family_tool f Hf) as [-> | ->]].
Qed.

Lemma families_in f : f ∈ families ipv6 -> f_tool f ∈ tools.
Proof. intros [-> | ->]%family_tool; set_solver. Qed.

Context (s0 : F) (Hclean : forall tool, tool ∈ tools -> clean C (table s0 tool) ∧ nat_clean i (table s0 tool)).

Lemma clean_families f : f ∈ families ipv6 -> clean C (table s0 (f_tool f)).
Proof. intros Hf; by apply Hclean, families_in. Qed.

(** The firewall adds none of the masquerading rules. *)
Lemma held_nat_clean s1 tool : tool ∈ tools -> held C s0 s1 -> nat_clean i (table s1 tool).
Proof.
  intros Ht [Hd Ho] l Hl; destruct (Hclean tool Ht) as [_ Hnc].
  destruct (decide (tool ∈ (f_tool <$> families ipv6))) as [(f & -> & Hf)%list_elem_of_fmap|N].
  2: { rewrite Ho in Hl by done; by apply Hnc. }
  destruct (dirty_out _ _ _ _ (Hd f Hf) "FORWARD"%string) as [E|(j & Hj & E)].
  - cbn; rewrite !elem_of_cons; by intros [?|[?|[]%not_elem_of_nil]].
  - rewrite E in Hl; by apply Hnc.
  - rewrite E in Hl; destruct (table s0 (f_tool f) !! "FORWARD"%string) as [l0|] eqn:E0; [|done]; injection Hl as <-.
    destruct (Hnc l0 E0) as [N1 N2]; cbn in Hj; rewrite !elem_of_cons in Hj.
    destruct Hj as [[= ->]|[[=]|[]%not_elem_of_nil]]; rewrite !not_elem_of_cons; split; by split.
Qed.

Lemma down_done s1 : held C s0 s1 -> (down s1).1 = inr tt ∧ forall tool, table (down s1).2 tool = table s0 tool.
Proof.
  intros H; apply (down_held C (tunnelChains IPString i Egress0)); [done|done|apply tunnel_hyp|apply clean_families|done].
Qed.

(** What a stop does to the tables, from wherever the masquerading got to. *)
Lemma unwind s1 s2 p4 p6 : held C s0 s1 -> p4 ∈ nat_steps i -> p6 ∈ nat_steps i -> masqueraded p4 p6 s1 s2 ->
  (nat_Down i uplink s2).1 = inr tt ∧ (down (nat_Down i uplink s2).2).1 = inr tt
  ∧ forall tool, table (down (nat_Down i uplink s2).2).2 tool = table s0 tool.
Proof.
  intros Hh H4 H6 Hm.
  assert (nat_clean i (table s1 "iptables"%string) ∧ nat_clean i (table s1 "ip6tables"%string)) as [C4 C6].
  { split; apply held_nat_clean; try done; [left|right; left]. }
  destruct (nat_down_restores i uplink p4 p6 s1 s2) as [Hr Ht]; [done..|].
  destruct (down_done (nat_Down i uplink s2).2) as [Hd Ht']; [|done].
  by apply (held_same C s0 s1).
Qed.

Lemma start_in_place s1 : chains_up ipv6 C s0 = (inr tt, s1) -> forall f, f ∈ families ipv6 -> up_place i policy s0 s1 f.
Proof. intros H f Hf; by apply up_in_place; [apply clean_families| |]. Qed.

(** The start after forwarding is on, from the first step that touches a table. *)
Lemma start_tail r s' :
  (or_undo (egress_Up ipv6 IPString i policy) down ≫= fun _ =>
   or_undo (StartProcess "openvpn" ["--config"%string; configPath]) down ≫= fun _ =>
   or_undo (dialManagement socketPath) (ignored StopProcess ≫= fun _ => down) ≫= fun _ =>
   or_undo (nat_Up i uplink) (ignored closeManagement ≫= fun _ => ignored StopProcess ≫= fun _ =>
     nat_Down i uplink ≫= fun _ => down)) s0 = (r, s') ->
  (∃ e, r = inl e ∧ forall tool, table s' tool = table s0 tool)
  ∨ ∃ s1, r = inr tt ∧ chains_up ipv6 C s0 = (inr tt, s1) ∧ held C s0 s1
      ∧ masqueraded [nat1 i; nat2 i] [nat1 i; nat2 i] s1 s'.
Proof.
  intros H; apply bind_inv in H as [(e & H & ->)|([] & s1 & H1 & H)].
  { apply or_undo_inv in H as [(e' & t & Hu & _ & ->)|(? & _ & ?)]; [left; exists e; split; [done|]|done].
    apply down_done; by eapply (up_held C tunnel_hyp); [apply clean_families|]. }
  apply or_undo_inv in H1 as [(? & ? & _ & ? & _)|([] & Hup & _)]; [done|].
  assert (held C s0 s1) as Hh by (by eapply (up_held C tunnel_hyp); [apply clean_families|]).
  assert (forall s2, (forall tool, table s2 tool = table s1 tool) -> forall tool, table (down s2).2 tool = table s0 tool) as Hdown.
  { intros s2 E; apply down_done; by apply (held_same C s0 s1). }
  apply bind_inv in H as [(e & H & ->)|([] & s2 & H2 & H)].
  { apply or_undo_inv in H as [(e' & t & Hu & _ & ->)|(? & _ & ?)]; [left; exists e; split; [done|]|done].
    apply Hdown; by apply start_tables in Hu. }
  apply or_undo_inv in H2 as [(? & ? & _ & ? & _)|([] & Hp & _)]; [done|]; pose proof (start_tables _ _ _ _ _ Hp) as E2.
  apply bind_inv in H as [(e & H & ->)|([] & s3 & H3 & H)].
  { apply or_undo_inv in H as [(e' & t & Hu & _ & ->)|(? & _ & ?)]; [left; exists e; split; [done|]|done].
    pose proof (dial_tables _ _ _ _ Hu) as E3; apply undo_stop; intros t' Et; apply Hdown; intros tool; by rewrite Et, E3. }
  apply or_undo_inv in H3 as [(? & ? & _ & ? & _)|([] & Hdial & _)]; [done|]; pose proof (dial_tables _ _ _ _ Hdial) as E3.
  assert (forall tool, table s3 tool = table s1 tool) as E31 by (intros; by rewrite E3, E2).
  apply or_undo_inv in H as [(e & t & Hu & -> & ->)|([] & Hu & ->)]; apply nat_up_any in Hu as (p4 & p6 & H4 & H6 & Hm & Hfull).
  - left; exists e; split; [done|]; apply undo_close; intros t1 E1; apply undo_stop; intros t2 E2'.
    destruct (unwind s1 t2 p4 p6 Hh H4 H6) as (Hr & _ & Ht); [|by rewrite (undo_seq _ _ _ Hr)].
    destruct Hm as (M4 & M6 & Mo); split_and!; [by rewrite E2', E1, M4, E31|by rewrite E2', E1, M6, E31|].
    intros; by rewrite E2', E1, Mo, E31.
  - right; exists s1; destruct (Hfull eq_refl) as [-> ->]; split_and!; [done..|].
    destruct Hm as (M4 & M6 & Mo); split_and!; [by rewrite M4, E31|by rewrite M6, E31|intros; by rewrite Mo, E31].
Qed.

(** Stopping, from the tables a start left. *)
Lemma stop_restores s1 s' attached : held C s0 s1 -> masqueraded [nat1 i; nat2 i] [nat1 i; nat2 i] s1 s' ->
  forall tool, table (ov_Stop (F := F) ipv6 IPString i uplink true attached s').2 tool = table s0 tool.
Proof.
  intros Hh (M4 & M6 & Mo); destruct (ov_Stop ipv6 IPString i uplink true attached s') as [r s2] eqn:H; cbn.
  apply bind_inv in H as [(e & [_ [[? _]|[_ ?]]]%throw_if_inv & _)|(_ & sa & [-> _]%throw_if_inv & H)]; [done|done|].
  assert (no_table (F := F) (if attached then ignored closeManagement else mret tt)) as Hclose.
  { destruct attached; [apply no_table_ignored, close_tables|apply no_table_ret]. }
  apply bind_inv in H as [(e & H & ->)|([] & sb & Hb%Hclose & H)].
  { destruct attached; [|by apply ret_inv in H as [??]].
    apply bind_inv in H as [(e' & (? & _ & ?)%attempt_inv & _)|(? & ? & _ & [? _]%ret_inv)]; done. }
  apply bind_inv in H as [(e & (? & _ & ?)%attempt_inv & _)|(err & sc & Hc & H)]; [done|].
  apply (no_table_attempt _ stop_tables) in Hc.
  destruct (unwind s1 sc [nat1 i; nat2 i] [nat1 i; nat2 i] Hh) as (Hr & Hd & Ht).
  1,2: by do 2 right; left.
  { split_and!; [by rewrite Hc, Hb, M4|by rewrite Hc, Hb, M6|intros; by rewrite Hc, Hb, Mo]. }
  rewrite (undo_seq _ _ _ Hr), (undo_seq _ _ _ Hd) in H.
  intros tool; rewrite <- Ht; destruct err; [by injection H as <- <-|by apply ret_inv in H as [_ ->]].
Qed.
End OpenVPN.

(** ** The promise of a start and of the stop after it *)
Definition in_place (i : string) (policy : Egress) (s s' : F) (f : family) : Prop :=
  ∃ lF lI, table s (f_tool f) !! "FORWARD"%string = Some lF ∧ table s (f_tool f) !! "INPUT"%string = Some lI
    ∧ table s' (f_tool f) !! "FORWARD"%string = Some (jumpF i :: lF ++ [nat1 i; nat2 i])
    ∧ table s' (f_tool f) !! "INPUT"%string = Some (jumpI i :: lI)
    ∧ table s' (f_tool f) !! ForwardChain i = Some (forwardRules i policy f)
    ∧ table s' (f_tool f) !! InputChain i = Some (inputRules IPString policy f).

Lemma masqueraded_at ps f s s' k : f ∈ families ipv6 -> masqueraded ps ps s s' ->
  table s' (f_tool f) !! k = forward_more ps (table s (f_tool f)) !! k.
Proof.
  intros Hf (M4 & M6 & _).
  by destruct (family_tool f Hf) as [-> | ->]; rewrite ?M4, ?M6.
Qed.

(** The filter tables: as they were after a failed start, the policy first after a
    successful one, and restored by the stop. *)
Lemma ov_filter_tables i uplink configPath socketPath policy s r s' :
  removes (F := F) "iptables" -> removes (F := F) "ip6tables" ->
  (forall tool, tool ∈ ["iptables"; "ip6tables"]%string ->
    clean (tunnelChains IPString i policy) (table s tool) ∧ nat_clean i (table s tool)) ->
  ov_Start ipv6 IPString i uplink configPath socketPath policy s = (r, s') ->
  match r with
  | inl _ => forall tool, table s' tool = table s tool
  | inr _ => (forall f, f ∈ families ipv6 -> in_place i policy s s' f)
      ∧ forall attached s1, (forall tool, table s1 tool = table s' tool) ->
          forall tool, table (ov_Stop ipv6 IPString i uplink true attached s1).2 tool = table s tool
  end.
Proof.
  intros R4 R6 Hs H; apply bind_inv in H as [(e & H & ->)|([] & s0 & Hfw%forwarding_tables & H)].
  { by apply forwarding_tables in H. }
  assert (forall tool, tool ∈ ["iptables"; "ip6tables"]%string ->
    clean (tunnelChains IPString i policy) (table s0 tool) ∧ nat_clean i (table s0 tool)) as Hs0.
  { intros tool Ht; rewrite Hfw; by apply Hs. }
  apply (start_tail i uplink configPath socketPath policy R4 R6 s0 Hs0) in H as [(e & -> & Ht)|(s2 & -> & Hup & Hh & Hm)].
  { intros tool; by rewrite Ht. }
  split.
  - intros f Hf.
    destruct (start_in_place i uplink configPath socketPath policy R4 R6 s0 Hs0 s2 Hup f Hf) as (lF & lI & EF & EI & TF & TI & CF & CI).
    rewrite Hfw in EF, EI; exists lF, lI; rewrite !(masqueraded_at _ _ _ _ _ Hf Hm); unfold forward_more.
    rewrite lookup_alter_eq, TF, !lookup_alter_ne by done; done.
  - intros attached s1 E tool; rewrite <- Hfw; eapply (stop_restores i uplink configPath socketPath policy R4 R6 s0 Hs0); [exact Hh|].
    destruct Hm as (M4 & M6 & Mo); split_and!; [by rewrite E|by rewrite E|intros; rewrite E; by apply Mo].
Qed.
End Proofs.
