(* ===== verification/OpenVPNLife.v ===== *)
(** OpenVPN from start to stop, with the nat table and the server process: what
    [ov_Start] and [ov_Stop] of Lifecycle.v do to both tables of either tool, and
    under which tables the server is launched and stopped. *)
From S2P Require Import Prelude Codec Guard StaticKey Egress EgressProofs EgressPolicy Lifecycle.
Set Default Proof Using "Type*".

(** * The nat table

    A command for it starts with [-t nat]; what follows acts on its chains as on
    those of the filter table. *)
Class NatTable (F : Type) := { nat_table : F -> string -> gmap string (list rule) }.

(** The operation leaves this of the host as it is. *)
Definition spares {F X A} (obs : F -> X) (m : M F gerror A) : Prop := forall s r s', m s = (r, s') -> obs s' = obs s.
Abbreviation no_nat m := (forall tool, spares (fun s => nat_table s tool) m).

Class NatLaws (F : Type) `{!IPTables F, !NatTable F, !Host F} := {
  nat_ok tool args s s' : RunCommand tool ("-t" :: "nat" :: args)%string s = (inr tt, s') ->
    effect args (nat_table s tool) = Some (nat_table s' tool)
    ∧ forall tool', tool' ≠ tool -> nat_table s' tool' = nat_table s tool';
  nat_err tool args s e s' : RunCommand tool args s = (inl e, s') -> forall tool', nat_table s' tool' = nat_table s tool';
  (* the filter table *)
  nat_other tool args : head args ≠ Some "-t"%string -> no_nat (RunCommand tool args);
  nat_read p : no_nat (ReadFile p);
  nat_write p d : no_nat (WriteFile p d);
  nat_start n a : no_nat (StartProcess n a);
  nat_stop : no_nat StopProcess;
  nat_dial p : no_nat (dialManagement p);
  nat_close : no_nat closeManagement
}.

(** ** Observations an operation leaves alone *)
Section Spares.
Context {F X : Type} (obs : F -> X).

Lemma spares_bind {A B} (m : M F gerror A) (f : A -> M F gerror B) :
  spares obs m -> (forall a, spares obs (f a)) -> spares obs (m ≫= f).
Proof.
  intros Hm Hf s r s' H; apply bind_inv in H as [(e & H & _)|(a & s1 & H1 & H)]; [by apply Hm in H|].
  rewrite (Hf _ _ _ _ H); by apply Hm in H1.
Qed.
Lemma spares_attempt {A} (m : M F gerror A) : spares obs m -> spares obs (attempt m : M F gerror (gerror + A)).
Proof. intros Hm s r s' (x & H & _)%attempt_inv; by apply Hm in H. Qed.
Lemma spares_ret {A} (a : A) : spares obs (mret a : M F gerror A).
Proof. by intros s r s' [_ ->]%ret_inv. Qed.
Lemma spares_each {A} (l : list A) (f : A -> M F gerror unit) : (forall x, spares obs (f x)) -> spares obs (each l f).
Proof. intros Hf; induction l; cbn; [apply spares_ret|by apply spares_bind]. Qed.
Lemma spares_throw_if b e : spares obs (throw_if b e : M F gerror unit).
Proof. by intros s r s' [-> _]%throw_if_inv. Qed.
Lemma spares_or_throw {A} (m : M F gerror A) g : spares obs m -> spares obs (or_throw m g).
Proof.
  intros Hm s r s'; unfold or_throw; destruct (m s) as [[e|a] s1] eqn:E; intros [= <- <-]; by apply Hm in E.
Qed.
End Spares.

Section Firewall.
Context {F X : Type} `{!IPTables F, !Host F} (ipv6 : bool) (IPString : bytes -> string) (obs : F -> X).
Context (Hcmd : forall tool args, head args ≠ Some "-t"%string -> spares obs (RunCommand tool args)).

Lemma quietly_spares tool args : spares obs (RunCommand tool args) -> spares obs (quietly tool args).
Proof using Type. intros; apply spares_bind; [by apply spares_attempt|intros; apply spares_ret]. Qed.
Lemma up_spares i policy : spares obs (egress_Up ipv6 IPString i policy).
Proof.
  apply spares_each; intros f; apply spares_bind; [|intros _; apply spares_bind; [|intros _]]; apply spares_each; intros x.
  - apply spares_bind; [by apply spares_attempt, Hcmd|]; intros [e|]; [by apply spares_or_throw, Hcmd|apply spares_ret].
  - by apply spares_or_throw, Hcmd.
  - apply spares_bind; [by apply spares_attempt, Hcmd|]; intros [e|]; [by apply spares_or_throw, Hcmd|apply spares_ret].
Qed.
Lemma down_spares i : spares obs (egress_Down ipv6 IPString i).
Proof.
  apply spares_each; intros f; apply spares_bind; [|intros _]; apply spares_each; intros x.
  - by apply quietly_spares, Hcmd.
  - apply spares_bind; [|intros _]; by apply quietly_spares, Hcmd.
Qed.
Lemma forwarding_spares : (forall p, spares obs (ReadFile p)) -> (forall p d, spares obs (WriteFile p d)) ->
  spares obs (EnsureForwarding (F := F)).
Proof using Type.
  intros Hr Hw; apply spares_each; intros [[path name] required].
  apply spares_bind; [apply spares_attempt, Hr|]; intros cur.
  destruct (if cur is inr text then _ else _); [apply spares_ret|].
  apply spares_bind; [apply spares_attempt, Hw|]; intros [e|]; [apply spares_throw_if|apply spares_ret].
Qed.
End Firewall.

(** ** The steps of a start and of a stop *)
Section Stages.
Context {F : Type} `{!IPTables F, !Host F} (ipv6 : bool) (IPString : bytes -> string).
Context (i uplink configPath socketPath : string) (policy : Egress).
Abbreviation start := (ov_Start (F := F) ipv6 IPString i uplink configPath socketPath policy).
Abbreviation up := (egress_Up (F := F) ipv6 IPString i policy).
Abbreviation down := (egress_Down (F := F) ipv6 IPString i).
Abbreviation launch := (StartProcess (F := F) "openvpn" ["--config"%string; configPath]).
Implicit Types (s : F).

Definition always (m : M F gerror unit) : Prop := forall s, (m s).1 = inr tt.
Lemma always_bind m (k : M F gerror unit) : always m -> always k -> always (m ≫= fun _ => k).
Proof. intros Hm Hk s; rewrite (undo_seq _ _ _ (Hm s)); apply Hk. Qed.
Lemma always_each {A} (l : list A) (f : A -> M F gerror unit) : (forall x, always (f x)) -> always (each l f).
Proof. intros Hf; induction l; cbn; [by intros s|by apply always_bind]. Qed.
Lemma always_quietly tool args : always (quietly tool args).
Proof. intros s; unfold quietly, attempt, mbind, M_bind; by destruct (RunCommand _ _ s). Qed.
Lemma nat_Down_ok : always (nat_Down i uplink).
Proof. apply always_each; intros; apply always_quietly. Qed.
Lemma egress_Down_ok : always down.
Proof.
  apply always_each; intros f; apply always_bind; apply always_each; intros x; [apply always_quietly|].
  apply always_bind; apply always_quietly.
Qed.

(** How far a start got, state by state. *)
Inductive started (s : F) : (gerror + unit) -> F -> Prop :=
  | no_forwarding e s' : EnsureForwarding s = (inl e, s') -> started s (inl e) s'
  | no_firewall s0 e s1 : EnsureForwarding s = (inr tt, s0) -> up s0 = (inl e, s1) -> started s (inl e) (down s1).2
  | no_server s0 s1 e s2 : EnsureForwarding s = (inr tt, s0) -> up s0 = (inr tt, s1) -> launch s1 = (inl e, s2) ->
      started s (inl e) (down s2).2
  | no_management s0 s1 s2 e s3 r s4 : EnsureForwarding s = (inr tt, s0) -> up s0 = (inr tt, s1) -> launch s1 = (inr tt, s2) ->
      dialManagement socketPath s2 = (inl e, s3) -> StopProcess s3 = (r, s4) -> started s (inl e) (down s4).2
  | no_nat_rules s0 s1 s2 s3 e s4 rc s5 rs s6 : EnsureForwarding s = (inr tt, s0) -> up s0 = (inr tt, s1) -> launch s1 = (inr tt, s2) ->
      dialManagement socketPath s2 = (inr tt, s3) -> nat_Up i uplink s3 = (inl e, s4) ->
      closeManagement s4 = (rc, s5) -> StopProcess s5 = (rs, s6) -> started s (inl e) (down (nat_Down i uplink s6).2).2
  | all_up s0 s1 s2 s3 s' : EnsureForwarding s = (inr tt, s0) -> up s0 = (inr tt, s1) -> launch s1 = (inr tt, s2) ->
      dialManagement socketPath s2 = (inr tt, s3) -> nat_Up i uplink s3 = (inr tt, s') -> started s (inr tt) s'.

Lemma ignored_then {A} (m : M F gerror A) (k : M F gerror unit) s : (ignored m ≫= fun _ => k) s = k (m s).2.
Proof. unfold ignored, attempt, mbind, M_bind; by destruct (m s) as [r s1]. Qed.

Lemma ov_Start_stages s r s' : start s = (r, s') -> started s r s'.
Proof.
  unfold ov_Start; intros H; apply bind_inv in H as [(e & H & ->)|([] & s0 & H0 & H)]; [by constructor|].
  apply bind_inv in H as [(e & H & ->)|([] & s1 & H1 & H)];
    [apply or_undo_inv in H as [(e' & t & Hu & [= <-] & ->)|(? & _ & ?)]; [by eapply no_firewall|done]|].
  apply or_undo_inv in H1 as [(? & ? & _ & ? & _)|([] & H1 & _)]; [done|].
  apply bind_inv in H as [(e & H & ->)|([] & s2 & H2 & H)];
    [apply or_undo_inv in H as [(e' & t & Hu & [= <-] & ->)|(? & _ & ?)]; [by eapply no_server|done]|].
  apply or_undo_inv in H2 as [(? & ? & _ & ? & _)|([] & H2 & _)]; [done|].
  apply bind_inv in H as [(e & H & ->)|([] & s3 & H3 & H)].
  { apply or_undo_inv in H as [(e' & t & Hu & [= <-] & ->)|(? & _ & ?)]; [|done]; rewrite ignored_then.
    eapply no_management; [done..|apply surjective_pairing]. }
  apply or_undo_inv in H3 as [(? & ? & _ & ? & _)|([] & H3 & _)]; [done|].
  apply or_undo_inv in H as [(e & t & Hu & -> & ->)|([] & Hu & ->)]; [|by eapply all_up].
  rewrite !ignored_then, (undo_seq _ _ _ (nat_Down_ok _)).
  eapply no_nat_rules; [done..|apply surjective_pairing|apply surjective_pairing].
Qed.

Lemma ov_Stop_stages (attached : bool) s :
  let '(r, s') := StopProcess (if attached then (closeManagement s).2 else s) in
  ov_Stop ipv6 IPString i uplink true attached s = (r, (down (nat_Down i uplink s').2).2).
Proof.
  set (sb := if attached then _ else _); destruct (StopProcess sb) as [r s'] eqn:E.
  assert (forall k : M F gerror unit, ((if attached then ignored closeManagement else mret tt) ≫= fun _ => k) s = k sb) as Hc.
  { intros k; unfold sb; destruct attached; [apply ignored_then|done]. }
  etrans; [apply Hc|]; unfold mbind at 1, M_bind at 1, attempt; rewrite E.
  rewrite (undo_seq _ _ _ (nat_Down_ok _)), (undo_seq _ _ _ (egress_Down_ok _)); by destruct r as [|[]].
Qed.
End Stages.

(** ** Masquerading in the nat table *)
Section Masquerade.
Context {F : Type} `{!IPTables F, !NatTable F, !Host F} {NL : NatLaws F} (i uplink : string).
Implicit Types (s : F) (t : gmap string (list rule)).

Definition masquerade : rule := ["-o"; uplink; "-j"; "MASQUERADE"]%string.
Definition post_more (ps : list rule) t : gmap string (list rule) := alter (fun l => l ++ ps) "POSTROUTING"%string t.
(** A nat table without the rule. *)
Definition post_clean t : Prop := forall l, t !! "POSTROUTING"%string = Some l -> masquerade ∉ l.
(** Deleting a rule that is there works. *)
Definition removes_nat (tool : string) : Prop := forall args s, head args = Some "-D"%string ->
  is_Some (effect args (nat_table s tool)) -> (RunCommand tool ("-t" :: "nat" :: args)%string s).1 = inr tt.

Abbreviation nat_steps := [[]; [masquerade]].
Lemma post_more_nil t : post_more [] t = t.
Proof using Type.
  apply map_eq; intros k; unfold post_more; rewrite lookup_alter; case_decide as Hk; [subst|done].
  destruct (t !! "POSTROUTING"%string); cbn; [by rewrite app_nil_r|done].
Qed.

Lemma masquerade_up tool s res s' :
  each (natCmds i uplink "-A" tool) (fun r => or_throw (RunCommand (default "" (head r)) (drop 1 r))
    (fun e => String.concat " " r +:+ ": " +:+ e)%string) s = (res, s') ->
  ∃ ps, ps ∈ nat_steps ∧ (res = inr tt -> ps = [masquerade]) ∧ nat_table s' tool = post_more ps (nat_table s tool)
    ∧ forall tool', tool' ≠ tool -> nat_table s' tool' = nat_table s tool'.
Proof.
  cbn [each natCmds head default drop]; change (id tool) with tool; intros H.
  assert (forall chain r g, no_nat (or_throw (RunCommand tool ("-A"%string :: chain :: r)) g)) as Hk.
  { intros chain r g t; by apply spares_or_throw, nat_other. }
  apply bind_inv in H as [(e & H1 & ->)|([] & s1 & H1 & H)]; pose proof (fun x : string => Hk _ _ _ x _ _ _ H1) as E1.
  { exists []; rewrite post_more_nil; split_and!; [by left|done|apply E1|intros; apply E1]. }
  apply bind_inv in H as [(e & H2 & ->)|([] & s2 & H2 & H)]; pose proof (fun x : string => Hk _ _ _ x _ _ _ H2) as E2.
  { exists []; rewrite post_more_nil; split_and!; [by left|done|by rewrite E2, E1|intros; by rewrite E2, E1]. }
  cbn beta in E1, E2; apply bind_inv in H as [(e & H3 & ->)|([] & s3 & H3 & [-> ->]%ret_inv)]; unfold or_throw in H3;
    destruct (RunCommand tool _ s2) as [[e0|[]] s4] eqn:E3; simplify_eq.
  - exists []; rewrite post_more_nil; pose proof (nat_err _ _ _ _ _ E3) as E4.
    split_and!; [by left|done|by rewrite E4, E2, E1|intros; by rewrite E4, E2, E1].
  - exists [masquerade]; apply nat_ok in E3 as [E3 Ho]; split_and!; [by right; left|done| |intros; by rewrite Ho, E2, E1].
    rewrite E2, E1 in E3; cbn in E3; unfold post_more.
    destruct (nat_table s tool !! "POSTROUTING"%string) as [l|] eqn:El; [|done]; injection E3 as <-.
    apply map_eq; intros k; rewrite lookup_alter; case_decide as Hd; [subst; by rewrite lookup_insert_eq, El|].
    by rewrite lookup_insert_ne.
Qed.

Lemma delete_masquerade t1 ps t : post_clean t -> ps ∈ nat_steps -> t1 = post_more ps t ->
  effect ("-D" :: "POSTROUTING" :: masquerade)%string t1 = None ∧ post_more ps t = t
  ∨ effect ("-D" :: "POSTROUTING" :: masquerade)%string t1 = Some t.
Proof using Type.
  clear NL.
  intros Hc Hps ->; unfold effect; unfold post_more at 1 4; rewrite !lookup_alter_eq.
  destruct (t !! "POSTROUTING"%string) as [l|] eqn:El; cbn [fmap option_fmap option_map].
  - specialize (Hc l El); rewrite !elem_of_cons in Hps; destruct Hps as [->|[->|[]%not_elem_of_nil]].
    + left; rewrite app_nil_r, decide_False by done; split; [done|apply post_more_nil].
    + right; rewrite decide_True by set_solver; rewrite remove_one_mid, app_nil_r by done; f_equal.
      apply map_eq; intros k; unfold post_more; destruct (decide (k = "POSTROUTING"%string)) as [->|Hk].
      * by rewrite lookup_insert_eq, El.
      * by rewrite lookup_insert_ne, lookup_alter_ne by congruence.
  - left; split; [done|]; apply map_eq; intros k; unfold post_more; rewrite lookup_alter; case_decide as Hk; [subst; by rewrite El|done].
Qed.

Lemma masquerade_down tool t ps s res s' : removes_nat tool -> post_clean t -> ps ∈ nat_steps ->
  nat_table s tool = post_more ps t ->
  each (natCmds i uplink "-D" tool) (fun r => quietly (default "" (head r)) (drop 1 r))%string s = (res, s') ->
  nat_table s' tool = t ∧ forall tool', tool' ≠ tool -> nat_table s' tool' = nat_table s tool'.
Proof.
  intros Hr Hc Hps E; cbn [each natCmds head default drop]; change (id tool) with tool; intros H.
  assert (forall chain r, no_nat (quietly tool ("-D"%string :: chain :: r))) as Hk.
  { intros chain r t'; by apply quietly_spares, nat_other. }
  apply bind_inv in H as [(e & H1 & ->)|([] & s1 & H1 & H)]; pose proof (fun x : string => Hk _ _ x _ _ _ H1) as E1;
    [by pose proof (always_quietly tool ("-D" :: "FORWARD" :: nat1 i)%string s) as Ha; rewrite H1 in Ha|].
  apply bind_inv in H as [(e & H2 & ->)|([] & s2 & H2 & H)]; pose proof (fun x : string => Hk _ _ x _ _ _ H2) as E2;
    [by pose proof (always_quietly tool ("-D" :: "FORWARD" :: nat2 i)%string s1) as Ha; rewrite H2 in Ha|].
  cbn beta in E1, E2; unfold quietly, attempt, mbind, M_bind in H.
  change [_; _; _; _; "-o"; uplink; _; _]%string with ("-t" :: "nat" :: "-D" :: "POSTROUTING" :: masquerade)%string in H.
  destruct (RunCommand tool _ s2) as [r3 s3] eqn:E3.
  assert (s' = s3) as -> by (destruct r3 as [|[]]; by injection H as _ <-).
  destruct (delete_masquerade (nat_table s2 tool) ps t) as [[Heff Hsame]|Heff]; [done|done|by rewrite E2, E1|..].
  - destruct r3 as [e|[]]; [|apply nat_ok in E3 as [E3 _]; congruence].
    pose proof (nat_err _ _ _ _ _ E3) as E4; split; [by rewrite E4, E2, E1, E|intros; by rewrite E4, E2, E1].
  - pose proof (Hr ("-D" :: "POSTROUTING" :: masquerade)%string s2 eq_refl ltac:(by rewrite Heff)) as Hok; rewrite E3 in Hok.
    cbn in Hok; subst r3; apply nat_ok in E3 as [E3 Ho]; split; [congruence|intros; by rewrite Ho, E2, E1].
Qed.

(** Both tools. *)
Definition nat_added p4 p6 s s' : Prop :=
  nat_table s' "iptables"%string = post_more p4 (nat_table s "iptables"%string)
  ∧ nat_table s' "ip6tables"%string = post_more p6 (nat_table s "ip6tables"%string)
  ∧ forall tool, tool ≠ "iptables"%string -> tool ≠ "ip6tables"%string -> nat_table s' tool = nat_table s tool.

Lemma nat_Up_masquerades s res s' : nat_Up i uplink s = (res, s') ->
  ∃ p4 p6, p4 ∈ nat_steps ∧ p6 ∈ nat_steps ∧ nat_added p4 p6 s s'
    ∧ (res = inr tt -> p4 = [masquerade] ∧ p6 = [masquerade]).
Proof.
  unfold nat_Up; rewrite natRules_split; intros H; rewrite each_app in H.
  apply bind_inv in H as [(e & H & ->)|([] & s1 & H1 & H)].
  - apply masquerade_up in H as (ps & Hps & _ & E & Hf); exists ps, []; split_and!; [done|by left| |done].
    split_and!; [done|by rewrite post_more_nil, Hf|intros; by apply Hf].
  - apply masquerade_up in H1 as (ps & Hps & Hfull & E & Hf); apply masquerade_up in H as (qs & Hqs & Hfull' & E' & Hf').
    exists ps, qs; split_and!; [done|done| |by auto].
    split_and!; [by rewrite Hf', E|by rewrite E', Hf|intros; by rewrite Hf', Hf].
Qed.

Lemma nat_Down_restores p4 p6 s s1 : removes_nat "iptables" -> removes_nat "ip6tables" ->
  (forall tool, tool ∈ ["iptables"; "ip6tables"]%string -> post_clean (nat_table s tool)) ->
  p4 ∈ nat_steps -> p6 ∈ nat_steps -> nat_added p4 p6 s s1 ->
  forall tool, nat_table (nat_Down i uplink s1).2 tool = nat_table s tool.
Proof.
  intros R4 R6 Hc H4 H6 (E4 & E6 & Eo); pose proof (nat_Down_ok i uplink s1) as Hok.
  destruct (nat_Down i uplink s1) as [res s'] eqn:H; cbn in Hok |- *; subst res.
  unfold nat_Down in H; rewrite natRules_split, each_app in H.
  apply bind_inv in H as [(? & _ & ?)|([] & s2 & H1 & H)]; [done|].
  eapply (masquerade_down "iptables") in H1 as (T4 & F4); [|done|apply Hc; by left|exact H4|done].
  eapply (masquerade_down "ip6tables") in H as (T6 & F6); [|done|apply Hc; by right; left|exact H6|by rewrite F4].
  intros tool; destruct (decide (tool = "ip6tables"%string)) as [->|N6]; [done|].
  rewrite F6 by done; destruct (decide (tool = "iptables"%string)) as [->|N4]; [done|].
  by rewrite F4, Eo.
Qed.
End Masquerade.

(** What a start and a stop do to the nat tables. *)
Section NatLife.
Context {F : Type} `{!IPTables F, !NatTable F, !Host F} {NL : NatLaws F} (ipv6 : bool) (IPString : bytes -> string).
Context (i uplink configPath socketPath : string) (policy : Egress).
Implicit Types (s : F).
Abbreviation tools := ["iptables"; "ip6tables"]%string.
Abbreviation rule1 := [masquerade uplink].

Lemma up_no_nat : no_nat (egress_Up ipv6 IPString i policy).
Proof. intros x; apply up_spares; intros; by apply nat_other. Qed.
Lemma down_no_nat s tool : nat_table (egress_Down ipv6 IPString i s).2 tool = nat_table s tool.
Proof.
  destruct (egress_Down ipv6 IPString i s) as [r s'] eqn:E; cbn.
  by refine (down_spares ipv6 IPString (fun s => nat_table s tool) _ i _ _ _ E); intros; apply nat_other.
Qed.
Lemma forwarding_no_nat : no_nat (EnsureForwarding (F := F)).
Proof. intros x; apply forwarding_spares; intros; [apply nat_read|apply nat_write]. Qed.

Context (Hrm : forall tool, tool ∈ tools -> removes_nat (F := F) tool).

Lemma started_nat s r s' : (forall tool, tool ∈ tools -> post_clean uplink (nat_table s tool)) ->
  started ipv6 IPString i uplink configPath socketPath policy s r s' ->
  match r with
  | inl _ => forall tool, nat_table s' tool = nat_table s tool
  | inr _ => nat_added rule1 rule1 s s'
  end.
Proof.
  intros Hc H; destruct H as [e s' H0|s0 e s1 H0 H1|s0 s1 e s2 H0 H1 H2|s0 s1 s2 e s3 r s4 H0 H1 H2 H3 H4
    |s0 s1 s2 s3 e s4 rc s5 rs s6 H0 H1 H2 H3 H4 H5 H6|s0 s1 s2 s3 s' H0 H1 H2 H3 H4];
    pose proof (fun x => forwarding_no_nat x _ _ _ H0) as E0; cbn beta in E0; [done|..];
    pose proof (fun x => up_no_nat x _ _ _ H1) as E1; cbn beta in E1;
    [intros; by rewrite down_no_nat, E1|..]; pose proof (fun x => nat_start _ _ x _ _ _ H2) as E2; cbn beta in E2;
    [intros; by rewrite down_no_nat, E2, E1|..]; pose proof (fun x => nat_dial _ x _ _ _ H3) as E3; cbn beta in E3;
    [pose proof (fun x => nat_stop x _ _ _ H4) as E4; intros; by rewrite down_no_nat, E4, E3, E2, E1|..];
    assert (forall x, nat_table s3 x = nat_table s x) as E by (intros; by rewrite E3, E2, E1);
    apply nat_Up_masquerades in H4 as (p4 & p6 & M4 & M6 & (T4 & T6 & To) & Hfull).
  - pose proof (fun x => nat_close x _ _ _ H5) as E5; pose proof (fun x => nat_stop x _ _ _ H6) as E6; cbn beta in *.
    intros tool; rewrite down_no_nat.
    apply (nat_Down_restores i uplink p4 p6); [apply Hrm; by left|apply Hrm; by right; left|done..|].
    split_and!; [by rewrite E6, E5, T4, E|by rewrite E6, E5, T6, E|intros; by rewrite E6, E5, To, E].
  - destruct (Hfull eq_refl) as [-> ->]; split_and!; [by rewrite T4, E|by rewrite T6, E|intros; by rewrite To, E].
Qed.

Lemma stopped_nat s s1 attached : (forall tool, tool ∈ tools -> post_clean uplink (nat_table s tool)) ->
  nat_added rule1 rule1 s s1 ->
  forall tool, nat_table (ov_Stop ipv6 IPString i uplink true attached s1).2 tool = nat_table s tool.
Proof.
  intros Hc (T4 & T6 & To) tool; pose proof (ov_Stop_stages ipv6 IPString i uplink attached s1) as Hst.
  assert (forall x, nat_table (if attached then (closeManagement s1).2 else s1) x = nat_table s1 x) as Hcl.
  { intros x; destruct attached; [|done]; destruct (closeManagement s1) as [r s2] eqn:E; by apply (nat_close x) in E. }
  destruct (StopProcess (if attached then _ else _)) as [r s'] eqn:E; pose proof (fun x => nat_stop x _ _ _ E) as Es; cbn beta in Es.
  rewrite Hst; cbn [snd]; rewrite down_no_nat.
  apply (nat_Down_restores i uplink rule1 rule1); [apply Hrm; by left|apply Hrm; by right; left|done|by right; left|by right; left|].
  split_and!; [by rewrite Es, Hcl..|intros; by rewrite Es, Hcl, To].
Qed.
End NatLife.

(** * A host that remembers

    The service runs on a host that keeps a log: each launch and each stop of the
    server, its outcome, and the state of the host in which it was asked for. *)
Inductive happened := Launched (name : string) (args : list string) (ok : bool) | Halted (ok : bool).
Definition watched (F : Type) : Type := F * list (F * happened).
Definition went {A} (r : gerror + A) : bool := if r is inr _ then true else false.

Section Watched.
Context {F : Type} `{!IPTables F, !NatTable F, !Host F} {HL : IPTablesLaws F} {HH : HostLaws F} {NL : NatLaws F}.

Definition unlogged {A} (m : M F gerror A) : M (watched F) gerror A := fun '(s, l) => let '(r, s') := m s in (r, (s', l)).
#[export] Instance watched_IPTables : IPTables (watched F) := {
  RunCommand tool args := unlogged (RunCommand tool args); table w := table w.1 }.
#[export] Instance watched_NatTable : NatTable (watched F) := { nat_table w := nat_table w.1 }.
#[export] Instance watched_Host : Host (watched F) := {
  ReadFile p := unlogged (ReadFile p);
  WriteFile p d := unlogged (WriteFile p d);
  StartProcess n a '(s, l) := let '(r, s') := StartProcess n a s in (r, (s', l ++ [(s, Launched n a (went r))]));
  StopProcess '(s, l) := let '(r, s') := StopProcess s in (r, (s', l ++ [(s, Halted (went r))]));
  dialManagement p := unlogged (dialManagement p);
  closeManagement := unlogged closeManagement
}.

Lemma unlogged_inv {A} (m : M F gerror A) w r w' : unlogged m w = (r, w') -> m w.1 = (r, w'.1) ∧ w'.2 = w.2.
Proof using Type. destruct w as [s l]; cbn; destruct (m s) as [x s']; by intros [= <- <-]. Qed.
Lemma unlogged_spares {X A} (obs : F -> X) (m : M F gerror A) : spares obs m -> spares (fun w : watched F => obs w.1) (unlogged m).
Proof using Type. intros Hm w r w' [H _]%unlogged_inv; by apply Hm in H. Qed.
Lemma unlogged_log {A} (m : M F gerror A) : spares snd (unlogged m).
Proof using Type. by intros w r w' [_ H]%unlogged_inv. Qed.
Lemma launch_inv n a (w : watched F) r w' : StartProcess n a w = (r, w') ->
  StartProcess n a w.1 = (r, w'.1) ∧ w'.2 = w.2 ++ [(w.1, Launched n a (went r))].
Proof using Type. destruct w as [s l]; cbn; destruct (StartProcess n a s) as [x s']; by intros [= <- <-]. Qed.
Lemma halt_inv (w : watched F) r w' : StopProcess w = (r, w') ->
  StopProcess w.1 = (r, w'.1) ∧ w'.2 = w.2 ++ [(w.1, Halted (went r))].
Proof using Type. destruct w as [s l]; cbn; destruct (StopProcess s) as [x s']; by intros [= <- <-]. Qed.

#[export] Instance watched_laws : IPTablesLaws (watched F).
Proof using HL.
  split; cbn; intros tool args w.
  - intros w' Ha [H _]%unlogged_inv; by apply command_ok.
  - intros e w' [H _]%unlogged_inv; by eapply command_err.
  - intros r w' Ha [H _]%unlogged_inv; by eapply command_other.
Qed.
#[export] Instance watched_HostLaws : HostLaws (watched F).
Proof using HH.
  split; cbn; intros; intros w r w' H tool.
  - apply unlogged_inv in H as [H _]; by apply (read_tables _ _ _ _ H).
  - apply unlogged_inv in H as [H _]; by apply (write_tables _ _ _ _ _ H).
  - apply launch_inv in H as [H _]; by apply (start_tables _ _ _ _ _ H).
  - apply halt_inv in H as [H _]; by apply (stop_tables _ _ _ H).
  - apply unlogged_inv in H as [H _]; by apply (dial_tables _ _ _ _ H).
  - apply unlogged_inv in H as [H _]; by apply (close_tables _ _ _ H).
Qed.
#[export] Instance watched_NatLaws : NatLaws (watched F).
Proof using NL.
  split; cbn.
  - intros tool args w w' [H _]%unlogged_inv; by apply nat_ok.
  - intros tool args w e w' [H _]%unlogged_inv; by eapply nat_err.
  - intros tool args Ha x; by apply (unlogged_spares (fun s => nat_table s x)), nat_other.
  - intros p x; apply (unlogged_spares (fun s => nat_table s x)), nat_read.
  - intros p d x; apply (unlogged_spares (fun s => nat_table s x)), nat_write.
  - intros n a x w r w' [H _]%launch_inv; by apply (nat_start _ _ x) in H.
  - intros x w r w' [H _]%halt_inv; by apply (nat_stop x) in H.
  - intros p x; apply (unlogged_spares (fun s => nat_table s x)), nat_dial.
  - intros x; apply (unlogged_spares (fun s => nat_table s x)), nat_close.
Qed.
End Watched.

(** * The promise *)
Section Life.
Context {F : Type} `{!IPTables F, !NatTable F, !Host F} {HL : IPTablesLaws F} {HH : HostLaws F} {NL : NatLaws F}.
Context (ipv6 : bool) (IPString : bytes -> string) (i uplink configPath socketPath : string) (policy : Egress).
Implicit Types (w : watched F) (v : F).
Abbreviation start := (ov_Start (F := watched F) ipv6 IPString i uplink configPath socketPath policy).
Abbreviation stop := (ov_Stop (F := watched F) ipv6 IPString i uplink true).
Abbreviation C := (tunnelChains IPString i policy).
Abbreviation tools := ["iptables"; "ip6tables"]%string.

(** Both tables of every tool are the same. *)
Definition same_tables v v' : Prop := forall tool, table v' tool = table v tool ∧ nat_table v' tool = nat_table v tool.

(** The firewall stands: whatever comes in from the tunnel meets the policy first. *)
Definition guarded v : Prop := forall f, f ∈ families ipv6 -> ∃ restF restI,
  table v (f_tool f) !! "FORWARD"%string = Some (jumpF i :: restF)
  ∧ table v (f_tool f) !! "INPUT"%string = Some (jumpI i :: restI)
  ∧ table v (f_tool f) !! ForwardChain i = Some (forwardRules i policy f)
  ∧ table v (f_tool f) !! InputChain i = Some (inputRules IPString policy f).

(** What became of the server in a start that failed: never launched, could not be
    launched, or launched and then stopped. *)
Abbreviation launched := (Launched "openvpn" ["--config"%string; configPath]).
Definition undone (l : list happened) : Prop := l = [] ∨ l = [launched false] ∨ ∃ ok, l = [launched true; Halted ok].

Lemma same_tables_guarded v v' : (forall tool, table v' tool = table v tool) -> guarded v -> guarded v'.
Proof. intros E H f Hf; destruct (H f Hf) as (a & b & Hg); exists a, b; by rewrite E. Qed.
Lemma masqueraded_guarded p4 p6 v v' : masqueraded p4 p6 v v' -> guarded v -> guarded v'.
Proof.
  intros (M4 & M6 & _) H f Hf; destruct (H f Hf) as (a & b & HF & HI & CF & CI).
  assert (∃ ps, table v' (f_tool f) = forward_more ps (table v (f_tool f))) as [ps E].
  { destruct (family_tool ipv6 f Hf) as [-> | ->]; eauto. }
  exists (a ++ ps), b; rewrite E; unfold forward_more; rewrite lookup_alter_eq, !lookup_alter_ne, HF by done; done.
Qed.
Lemma up_guarded w0 w1 : (forall tool, tool ∈ tools -> clean C (table w0.1 tool)) ->
  egress_Up ipv6 IPString i policy w0 = (inr tt, w1) -> guarded w1.1.
Proof.
  intros Hc Hup f Hf; destruct (up_in_place (F := watched F) ipv6 IPString i policy w0 w1) with f
    as (lF & lI & _ & _ & HF & HI & CF & CI); [|done|done|by exists lF, lI].
  intros g Hg; apply Hc; destruct (family_tool ipv6 g Hg) as [-> | ->]; set_solver.
Qed.

(** The log of the steps that are not the server's. *)
Lemma command_log tool args : spares snd (RunCommand (F := watched F) tool args).
Proof. apply unlogged_log. Qed.
Lemma down_log w : (egress_Down ipv6 IPString i w).2.2 = w.2.
Proof.
  destruct (egress_Down ipv6 IPString i w) as [r w'] eqn:E; cbn.
  refine (down_spares ipv6 IPString snd _ i _ _ _ E); intros; apply command_log.
Qed.
Lemma nat_Down_log w : (nat_Down i uplink w).2.2 = w.2.
Proof.
  destruct (nat_Down i uplink w) as [r w'] eqn:E; cbn; refine (spares_each snd _ _ _ _ _ _ E).
  intros x; apply quietly_spares, command_log.
Qed.
Lemma nat_Up_log : spares snd (nat_Up (F := watched F) i uplink).
Proof. apply spares_each; intros x; apply spares_or_throw, command_log. Qed.
Lemma forwarding_log : spares snd (EnsureForwarding (F := watched F)).
Proof. apply forwarding_spares; intros; apply unlogged_log. Qed.
Lemma up_log : spares snd (egress_Up (F := watched F) ipv6 IPString i policy).
Proof. apply up_spares; intros; apply command_log. Qed.

Lemma started_log w r w' : (forall tool, tool ∈ tools -> clean C (table w.1 tool)) ->
  started ipv6 IPString i uplink configPath socketPath policy w r w' ->
  ∃ new, w'.2 = w.2 ++ new ∧ Forall (fun ev => guarded ev.1) new
    ∧ match r with inl _ => undone new.*2 | inr _ => new.*2 = [launched true] end.
Proof.
  intros Hc H; destruct H as [e w' H0|w0 e w1 H0 H1|w0 w1 e w2 H0 H1 H2|w0 w1 w2 e w3 r w4 H0 H1 H2 H3 H4
    |w0 w1 w2 w3 e w4 rc w5 rs w6 H0 H1 H2 H3 H4 H5 H6|w0 w1 w2 w3 w' H0 H1 H2 H3 H4];
    pose proof (forwarding_log _ _ _ H0) as L0.
  { exists []; rewrite app_nil_r; split_and!; [done|constructor|by left]. }
  all: pose proof (forwarding_tables _ _ _ H0) as T0; pose proof (up_log _ _ _ H1) as L1.
  { exists []; rewrite app_nil_r, down_log, L1, L0; split_and!; [done|constructor|by left]. }
  all: assert (guarded w1.1) as G by (eapply up_guarded; [|exact H1]; intros tool Ht; specialize (T0 tool); cbn in T0; rewrite T0; auto).
  all: pose proof (start_tables _ _ _ _ _ H2) as T2; apply launch_inv in H2 as [_ L2]; rewrite L1, L0 in L2.
  { eexists; rewrite down_log, L2; split_and!; [done|by repeat constructor|by right; left]. }
  all: pose proof (dial_tables _ _ _ _ H3) as T3; pose proof (unlogged_log _ _ _ _ H3) as L3.
  all: assert (guarded w3.1) as G3 by (apply (same_tables_guarded w1.1); [|done]; intros tool; etrans; [apply T3|apply T2]).
  - apply halt_inv in H4 as [_ L4]; rewrite L3, L2, <- app_assoc in L4.
    eexists; rewrite down_log, L4; split_and!; [done|by repeat constructor|right; right; by eexists].
  - pose proof (nat_Up_log _ _ _ H4) as L4; apply nat_up_any in H4 as (p4 & p6 & _ & _ & Hm & _).
    pose proof (close_tables _ _ _ H5) as T5; pose proof (unlogged_log _ _ _ _ H5) as L5.
    apply halt_inv in H6 as [_ L6]; rewrite L5, L4, L3, L2, <- app_assoc in L6.
    eexists; rewrite down_log, nat_Down_log, L6; split_and!; [done| |right; right; by eexists].
    repeat constructor; [done|]; apply (same_tables_guarded w4.1); [apply T5|]; by apply (masqueraded_guarded p4 p6 w3.1).
  - pose proof (nat_Up_log _ _ _ H4) as L4; eexists; rewrite L4, L3, L2; split_and!; [done|by repeat constructor|done].
Qed.

Lemma stopped_log w attached : guarded w.1 -> let '(r, w') := stop attached w in
  ∃ v ok, w'.2 = w.2 ++ [(v, Halted ok)] ∧ guarded v ∧ (ok = true <-> r = inr tt).
Proof.
  intros G; pose proof (ov_Stop_stages ipv6 IPString i uplink attached w) as Hst.
  assert (guarded (if attached then (closeManagement w).2 else w).1 ∧ (if attached then (closeManagement w).2 else w).2 = w.2) as [G' L'].
  { destruct attached; [|done]; destruct (closeManagement w) as [r w'] eqn:E; pose proof (close_tables _ _ _ E) as T.
    apply unlogged_log in E; split; [by apply (same_tables_guarded w.1)|done]. }
  set (wb := if attached then _ else _) in *; destruct (StopProcess wb) as [r w'] eqn:E; apply halt_inv in E as [_ L].
  rewrite Hst, down_log, nat_Down_log, L, L'; exists wb.1, (went r); split_and!; [done|done|].
  destruct r as [|[]]; cbn; split; congruence.
Qed.

Lemma removes_watched tool : removes (F := F) tool -> removes (F := watched F) tool.
Proof.
  intros Hr args [v l] Hh Hi; specialize (Hr args v Hh Hi); cbn; by destruct (RunCommand tool args v).
Qed.
Lemma removes_nat_watched tool : removes_nat (F := F) tool -> removes_nat (F := watched F) tool.
Proof.
  intros Hr args [v l] Hh Hi; specialize (Hr args v Hh Hi); cbn; by destruct (RunCommand tool _ v).
Qed.
Lemma in_place_guarded v v' : (forall f, f ∈ families ipv6 -> in_place IPString i policy v v' f) -> guarded v'.
Proof. intros H f Hf; destruct (H f Hf) as (lF & lI & _ & _ & HF & HI & CF & CI); eauto 8. Qed.

(** C33. OpenVPN serves behind its firewall and leaves nothing behind.  On tables that
    hold none of its rules, a start that fails at any step (forwarding, the firewall,
    the server, the management socket, masquerading) leaves the filter table and the
    nat table of every tool as it found them, and the server was not launched, could
    not be launched, or has been stopped.  A start that succeeds launched the server,
    once; in each family the jump to the policy's chains is first in FORWARD and
    INPUT with the host's own rules after it, so that the ACCEPT rules of masquerading
    come after the policy, the chains hold the policy's rules, and both nat tables end
    in the MASQUERADE rule of the uplink; a later stop asks the server to stop once,
    fails exactly when that fails, and restores both tables of every tool in any case.
    Whenever the server is launched or stopped, in a start that fails too, the
    firewall stands. *)
Theorem openvpn_lifecycle w r w' :
  (forall tool, tool ∈ tools -> removes (F := F) tool ∧ removes_nat (F := F) tool) ->
  (forall tool, tool ∈ tools -> clean C (table w.1 tool) ∧ nat_clean i (table w.1 tool)
     ∧ post_clean uplink (nat_table w.1 tool)) ->
  start w = (r, w') ->
  ∃ new, w'.2 = w.2 ++ new ∧ Forall (fun ev => guarded ev.1) new
  ∧ match r with
    | inl _ => undone new.*2 ∧ same_tables w.1 w'.1
    | inr _ => new.*2 = [launched true]
        ∧ (forall f, f ∈ families ipv6 -> in_place IPString i policy w.1 w'.1 f)
        ∧ nat_added [masquerade uplink] [masquerade uplink] w.1 w'.1
        ∧ forall attached w1, same_tables w'.1 w1.1 -> let '(rs, w2) := stop attached w1 in
            same_tables w.1 w2.1
            ∧ ∃ v ok, w2.2 = w1.2 ++ [(v, Halted ok)] ∧ guarded v ∧ (ok = true <-> rs = inr tt)
    end.
Proof.
  intros Hrm Hc H; pose proof (ov_Start_stages _ _ _ _ _ _ _ _ _ _ H) as Hst.
  destruct (started_log w r w') as (new & Hl & Hg & Hres); [intros; by apply Hc|done|].
  assert (forall tool, tool ∈ tools -> removes_nat (F := watched F) tool) as Hrn.
  { intros tool Ht; by apply removes_nat_watched, Hrm. }
  pose proof (started_nat ipv6 IPString i uplink configPath socketPath policy Hrn w r w' ltac:(intros; by apply Hc) Hst) as Hnat.
  apply ov_filter_tables in H; [|apply removes_watched, Hrm; by left|apply removes_watched, Hrm; by right; left|intros; split; by apply Hc].
  exists new; split_and!; [done|done|]; destruct r as [e|[]]; [split; [done|]; intros tool; split; [apply H|apply Hnat]|].
  destruct H as [Hin Hstop]; split_and!; [done|done|done|].
  intros attached w1 Hs; pose proof (stopped_log w1 attached) as Hlog.
  specialize (Hstop attached w1 ltac:(intros; apply Hs)).
  pose proof (stopped_nat ipv6 IPString i uplink Hrn w w1 attached ltac:(intros; by apply Hc)) as Hsn.
  destruct (stop attached w1) as [rs w2]; split.
  - intros tool; split; [apply Hstop|apply Hsn].
    destruct Hnat as (N4 & N6 & No); split_and!; [etrans; [apply Hs|done]..|intros; etrans; [apply Hs|by apply No]].
  - apply Hlog, (same_tables_guarded w'.1); [intros; apply Hs|by apply (in_place_guarded w.1)].
Qed.
End Life.
