(* ===== verification/Settings.v ===== *)
(** The package variables the services read: the egress policy, the runtime and the
    daemons' verbosity of src/services/common (egress.go, runtime.go, process.go), set by
    the start command before the service's Init, and the firewall brought up from them.

    Each is guarded by a lock of its own or atomic, so a call is one step on the state. *)
From S2P Require Import Prelude Codec Types Guard StaticKey Egress EgressProofs EgressPolicy Runtime Lifecycle.
Set Default Proof Using "Type*".

Record settings := mkSettings { se_policy : Egress; se_runtime : option Runtime; se_verbose : bool }.
(** Before the start command: no policy, no runtime ([set] is false), not verbose. *)
Definition settings0 : settings := mkSettings Egress0 None false.

Definition common_SetEgress (e : Egress) (s : settings) : settings := mkSettings e (se_runtime s) (se_verbose s).
Definition common_EgressPolicy (s : settings) : Egress := se_policy s.
Definition common_SetRuntime (rt : Runtime) (s : settings) : settings := mkSettings (se_policy s) (Some rt) (se_verbose s).
Definition CurrentRuntime (TempDir : string) (s : settings) : Runtime := default (mkRuntime TempDir None) (se_runtime s).
Definition common_SetVerbose (v : bool) (s : settings) : settings := mkSettings (se_policy s) (se_runtime s) v.
Definition common_Verbose (s : settings) : bool := se_verbose s.

Section Firewall.
Context {F : Type} `{!IPTables F} (ipv6 : bool) (IPString : bytes -> string).
(** A tunnel's chains hold the policy in force; taking them down needs none. *)
Definition TunnelEgress_Up (i : string) (s : settings) : M F gerror unit := chains_up ipv6 (tunnelChains IPString i (common_EgressPolicy s)).
Definition TunnelEgress_Down (i : string) : M F gerror unit := chains_down ipv6 (tunnelChains IPString i Egress0).
Definition ProxyEgress_Up (uid : Z) (ports : list Z) (resolvers : list bytes) (s : settings) : M F gerror unit :=
  chains_up ipv6 (proxyChains IPString uid ports resolvers (common_EgressPolicy s)).
Definition ProxyEgress_Down (uid : Z) (ports : list Z) (resolvers : list bytes) : M F gerror unit :=
  chains_down ipv6 (proxyChains IPString uid ports resolvers Egress0).

(** The calls of the start command that come before the service's Init. *)
Inductive setting_call := CallVerbose (v : bool) | CallEgress (e : Egress) | CallRuntime (rt : Runtime).
Definition setting_step (s : settings) (c : setting_call) : settings :=
  match c with
  | CallVerbose v => common_SetVerbose v s
  | CallEgress e => common_SetEgress e s
  | CallRuntime rt => common_SetRuntime rt s
  end.

(** What a service finds is what was set last, whatever else was set in between: the
    firewall goes up with the last policy, files go where the last runtime says, and
    only a process that never set one uses the temporary directory. *)
Theorem settings_last TempDir cs :
  let s := foldl setting_step settings0 cs in
  common_EgressPolicy s = default Egress0 (last (omap (fun c => if c is CallEgress e then Some e else None) cs))
  ∧ CurrentRuntime TempDir s = default (mkRuntime TempDir None) (last (omap (fun c => if c is CallRuntime rt then Some rt else None) cs))
  ∧ common_Verbose s = default false (last (omap (fun c => if c is CallVerbose v then Some v else None) cs)).
Proof.
  induction cs as [|c cs (H1 & H2 & H3)] using rev_ind; [done|]; cbn zeta in *; rewrite foldl_snoc, !omap_app.
  destruct c; cbn; rewrite ?app_nil_r, ?last_snoc; done.
Qed.
(** The start command settles the policy a second time when the resolver runs; the
    firewall then lets clients reach it. *)
Corollary tunnel_up_policy i verbose e e' rt :
  TunnelEgress_Up i (foldl setting_step settings0 [CallVerbose verbose; CallEgress e; CallRuntime rt; CallEgress e'])
  = chains_up ipv6 (tunnelChains IPString i e').
Proof. done. Qed.
End Firewall.
