(* ===== verification/TunnelLife.v ===== *)
(** Starting and stopping the WireGuard tunnels around their firewall: [Start] and
    [Stop] of src/services/wireguard/wireguard.go and of
    src/services/amneziawg/amneziawg.go.

    wg-quick brings the interface up and runs the PostUp and PostDown commands of
    the configuration the node wrote, which append and delete two ACCEPT rules of
    FORWARD; how far it gets when it fails is left open. *)
From stdpp Require Import relations.
From S2P Require Import Prelude Codec Guard StaticKey Egress EgressProofs EgressPolicy Lifecycle.
Set Default Proof Using "Type*".

(** * The rules of PostUp and PostDown *)
Definition nats (i : string) : list rule := [nat1 i; nat2 i].
(** One command of theirs. *)
Definition nat_step (i : string) (l l' : list rule) : Prop :=
  ∃ r, r ∈ nats i ∧ (l' = l ++ [r] ∨ l' = remove_one r l).
Definition nat_moved (i : string) : list rule -> list rule -> Prop := rtc (nat_step i).
Definition forward_moved (i : string) (t t' : gmap string (list rule)) : Prop :=
  (forall k, k ≠ "FORWARD"%string -> t' !! k = t !! k)
  ∧ match t !! "FORWARD"%string, t' !! "FORWARD"%string with
    | Some l, Some l' => nat_moved i l l'
    | None, None => True
    | _, _ => False
    end.

Class WgQuick (F : Type) := {
  quick : string -> string -> M F gerror unit;
  StatInterface : string -> M F gerror unit
}.
Class WgQuickLaws (F : Type) `{!IPTables F, !WgQuick F} := {
  quick_tables action i s r s' : quick action i s = (r, s') -> forall tool, forward_moved i (table s tool) (table s' tool);
  stat_tables i : no_table (StatInterface i)
}.

Section Ops.
Context {F : Type} `{!IPTables F, !Host F, !WgQuick F} (ipv6 : bool) (IPString : bytes -> string) (policy : Egress).

(** An interface that an earlier instance left behind is taken down and made again. *)
Definition bringUp (i : string) : M F gerror unit :=
  up ← attempt (quick "up" i);
  match up with
  | inr _ => mret tt
  | inl err =>
      there ← attempt (StatInterface i);
      match there with
      | inl _ => throw err
      | inr _ => ignored (quick "down" i) ≫= fun _ => quick "up" i
      end
  end.
Definition wg_Start (i : string) : M F gerror unit :=
  EnsureForwarding ≫= fun _ =>
  or_undo (egress_Up ipv6 IPString i policy) (egress_Down ipv6 IPString i) ≫= fun _ =>
  or_undo (bringUp i) (egress_Down ipv6 IPString i).
Definition wg_Stop (i : string) : M F gerror unit :=
  err ← attempt (quick "down" i);
  egress_Down ipv6 IPString i ≫= fun _ =>
  match err with inl e => throw e | inr _ => mret tt end.

(** AmneziaWG: the default tier, then the 3.1 tier when it is on. *)
Definition awg_Start (i : string) (v3 : option string) : M F gerror unit :=
  wg_Start i ≫= fun _ =>
  match v3 with
  | None => mret tt
  | Some i3 => or_undo (wg_Start i3) (ignored (wg_Stop i))
  end.
Definition awg_Stop (i : string) (v3 : option string) : M F gerror unit :=
  err ← attempt (wg_Stop i);
  match v3 with
  | None => match err with inl e => throw e | inr _ => mret tt end
  | Some i3 =>
      err3 ← attempt (wg_Stop i3);
      match err, err3 with
      | inl e, _ => throw e
      | inr _, inl e => throw e
      | inr _, inr _ => mret tt
      end
  end.
End Ops.

(** * Rules that move *)
Section Moves.
Context (i : string).

Lemma remove_one_sub r l : remove_one r l ⊆ l.
Proof. induction l as [|x l IH]; cbn; [done|]; case_decide; set_solver. Qed.

Lemma nat_moved_elem l l' r : nat_moved i l l' -> r ∈ l' -> r ∈ l ∨ r ∈ nats i.
Proof.
  induction 1 as [|l l1 l2 (x & Hx & Hl) _ IH]; [by left|]; intros Hr; destruct (IH Hr) as [Hr1|]; [|by right].
  destruct Hl as [->| ->]; [set_solver|left; by eapply remove_one_sub].
Qed.

(** The rule in front stays in front. *)
Lemma nat_moved_head j l l' : j ∉ nats i -> nat_moved i (j :: l) l' -> ∃ k, l' = j :: k ∧ nat_moved i l k.
Proof.
  intros Hj H; remember (j :: l) as jl eqn:E; revert l E; induction H as [|x y z (r & Hr & Hxy) _ IH]; intros l ->.
  { exists l; split; [done|constructor]. }
  assert (r ≠ j) as Hne by (by intros ->).
  destruct Hxy as [->| ->].
  - destruct (IH (l ++ [r]) eq_refl) as (k & -> & Hk); exists k; split; [done|].
    eapply rtc_l; [exists r; split; [done|by left]|done].
  - cbn in IH; rewrite decide_False in IH by congruence; destruct (IH (remove_one r l) eq_refl) as (k & -> & Hk).
    exists k; split; [done|]; eapply rtc_l; [exists r; split; [done|by right]|done].
Qed.

Lemma nat_moved_rest l l' : nat_moved i l l' -> filter (.∉ nats i) l' = filter (.∉ nats i) l.
Proof.
  induction 1 as [|l l1 l2 (r & Hr & Hl) _ IH]; [done|]; rewrite IH; destruct Hl as [->| ->].
  - rewrite filter_app, (filter_cons_False _ r) by (by intros ?); cbn; by rewrite app_nil_r.
  - clear -Hr; induction l as [|x l IH]; cbn [remove_one]; [done|]; case_decide as Hx; [subst; by rewrite filter_cons_False by (by intros ?)|].
    by rewrite !filter_cons, IH.
Qed.

(** Equal but for the rules of PostUp. *)
Definition same_but_nat (t t' : gmap string (list rule)) : Prop :=
  (forall k, k ≠ "FORWARD"%string -> t' !! k = t !! k)
  ∧ filter (.∉ nats i) <$> t' !! "FORWARD"%string = filter (.∉ nats i) <$> t !! "FORWARD"%string.
#[export] Instance same_but_nat_equiv : Equivalence same_but_nat.
Proof.
  split.
  - done.
  - intros t t' [H1 H2]; split; [intros; symmetry; auto|done].
  - intros t1 t2 t3 [H1 H2] [H3 H4]; split; [intros; rewrite H3, H1; auto|by rewrite H4].
Qed.
Lemma moved_same t t' : forward_moved i t t' -> same_but_nat t t'.
Proof.
  intros [H1 H2]; split; [done|].
  destruct (t !! "FORWARD"%string), (t' !! "FORWARD"%string); try done; cbn; f_equal; by apply nat_moved_rest.
Qed.
Lemma forward_moved_trans t1 t2 t3 : forward_moved i t1 t2 -> forward_moved i t2 t3 -> forward_moved i t1 t3.
Proof.
  intros [H1 H2] [H3 H4]; split; [intros; rewrite H3, H1; auto|].
  destruct (t1 !! "FORWARD"%string), (t2 !! "FORWARD"%string), (t3 !! "FORWARD"%string); try done; by etrans.
Qed.
Lemma forward_moved_refl t : forward_moved i t t.
Proof. split; [done|]; by destruct (t !! "FORWARD"%string); [constructor|]. Qed.
End Moves.

(** * Taking the firewall down among them *)
Section Firewall.
Context (IPString : bytes -> string) (i : string) (policy : Egress).
Abbreviation C := (tunnelChains IPString i policy).
Implicit Types (t : gmap string (list rule)).

(** The host's own FORWARD, given what wg-quick made of it under the jump. *)
Definition shifted t t1 t2 : gmap string (list rule) :=
  match t !! "FORWARD"%string, t2 !! "FORWARD"%string with
  | Some l, Some l2 => <["FORWARD"%string := if decide (t1 !! "FORWARD"%string = Some l) then l2 else tail l2]> t
  | _, _ => t
  end.

Lemma forward_not_own : "FORWARD"%string ∉ ch_names C.
Proof. cbn; rewrite !elem_of_cons; by intros [?|[?|[]%not_elem_of_nil]]. Qed.
Lemma jumpF_not_nat : jumpF i ∉ nats i.
Proof. unfold nats; rewrite !elem_of_cons; by intros [[=]|[[=]|[]%not_elem_of_nil]]. Qed.
Lemma nats_leaf r n : r ∈ nats i -> n ∈ ch_names C -> ~ suffix ["-j"%string; n] r.
Proof.
  unfold nats; cbn; rewrite !elem_of_cons; intros [->|[->|[]%not_elem_of_nil]] Hn [l Hl];
    apply (f_equal reverse) in Hl; rewrite reverse_app in Hl; cbn in Hl; injection Hl as <- _;
    by destruct Hn as [?|[?|[]%not_elem_of_nil]].
Qed.

Lemma jumpF_only j : ("FORWARD"%string, j) ∈ ch_jumps C -> j = jumpF i.
Proof. cbn; rewrite !elem_of_cons; by intros [[= ->]|[[=]|[]%not_elem_of_nil]]. Qed.

(** What [shifted] stands for. *)
Lemma shifted_spec t t1 t2 : dirty C t t1 (ch_jumps C) -> forward_moved i t1 t2 ->
  forward_moved i t (shifted t t1 t2)
  ∧ (t2 !! "FORWARD"%string = shifted t t1 t2 !! "FORWARD"%string
     ∨ t2 !! "FORWARD"%string = cons (jumpF i) <$> shifted t t1 t2 !! "FORWARD"%string).
Proof.
  intros Hd [Hk Hm]; unfold shifted; destruct (dirty_out _ _ _ _ Hd _ forward_not_own) as [E|(j & ->%jumpF_only & E)];
    rewrite E in Hm |- *; destruct (t !! "FORWARD"%string) as [l|] eqn:El; cbn in Hm |- *;
    destruct (t2 !! "FORWARD"%string) as [l2|] eqn:E2; try done.
  - rewrite decide_True by done; split; [|left; by rewrite lookup_insert_eq].
    split; [intros; by rewrite lookup_insert_ne|]; by rewrite El, lookup_insert_eq.
  - split; [apply forward_moved_refl|left; by rewrite El].
  - rewrite decide_False by (intros [= ?%(f_equal length)]; cbn in *; lia).
    destruct (nat_moved_head i (jumpF i) l l2 jumpF_not_nat Hm) as (k & -> & Hk'); cbn [tail].
    split; [|right; by rewrite lookup_insert_eq].
    split; [intros; by rewrite lookup_insert_ne|]; by rewrite El, lookup_insert_eq.
  - split; [apply forward_moved_refl|left; by rewrite El].
Qed.

Lemma clean_moved t t' : clean C t -> forward_moved i t t' -> clean C t'.
Proof.
  intros [Hn Hj Hr] [Hk Hm].
  assert (forall k l r, t' !! k = Some l -> r ∈ l -> (∃ l0, t !! k = Some l0 ∧ r ∈ l0) ∨ r ∈ nats i) as Hfrom.
  { intros k l r Hl Hin; destruct (decide (k = "FORWARD"%string)) as [->|Hne]; [|left; exists l; by rewrite <- Hk].
    rewrite Hl in Hm; destruct (t !! "FORWARD"%string) as [l0|]; [|done].
    destruct (nat_moved_elem i _ _ _ Hm Hin); [left; by exists l0|by right]. }
  split.
  - intros n Hin; rewrite Hk; [by apply Hn|]; intros ->; by apply forward_not_own.
  - intros b j l Hbj Hl Hin; destruct (Hfrom _ _ _ Hl Hin) as [(l0 & Hl0 & Hin0)|Hnat]; [by eapply Hj|].
    cbn in Hbj; rewrite !elem_of_cons in Hbj; destruct Hbj as [[= -> ->]|[[= -> ->]|[]%not_elem_of_nil]]; [by apply jumpF_not_nat|].
    unfold nats in Hnat; rewrite !elem_of_cons in Hnat; by destruct Hnat as [[=]|[[=]|[]%not_elem_of_nil]].
  - intros n k l r Hin Hl Hrl; destruct (Hfrom _ _ _ Hl Hrl) as [(l0 & Hl0 & Hin0)|Hnat]; [by eapply Hr|by apply nats_leaf].
Qed.

Lemma dirty_moved t t1 t2 : dirty C t t1 (ch_jumps C) -> forward_moved i t1 t2 -> dirty C (shifted t t1 t2) t2 (ch_jumps C).
Proof.
  intros Hd Hm; destruct (shifted_spec _ _ _ Hd Hm) as [Hs Hf]; split.
  - intros k Hk; destruct (decide (k = "FORWARD"%string)) as [->|Hne].
    + destruct Hf as [E|E]; [by left|right; exists (jumpF i); split; [by left|done]].
    + unfold maybe; rewrite (proj1 Hm), (proj1 Hs) by done; by apply (dirty_out _ _ _ _ Hd).
  - intros n m l r Hn Hmm Hl; rewrite (proj1 Hm) in Hl; [by apply (dirty_own _ _ _ _ Hd n m)|].
    intros ->; by apply forward_not_own.
Qed.
End Firewall.

(** * The life of a tunnel *)
Section Life.
Context {F : Type} `{!IPTables F, !Host F, !WgQuick F} {HL : IPTablesLaws F} {HH : HostLaws F} {HQ : WgQuickLaws F}.
Context (ipv6 : bool) (IPString : bytes -> string) (policy : Egress) (i : string).
Abbreviation C := (tunnelChains IPString i policy).
Abbreviation down := (egress_Down (F := F) ipv6 IPString i).
Implicit Types (s : F).

Definition moved_all s s' : Prop := forall tool, forward_moved i (table s tool) (table s' tool).
Lemma no_table_moved {A} (m : M F gerror A) s r s' : no_table m -> m s = (r, s') -> moved_all s s'.
Proof using Type. intros Hm E tool; rewrite (Hm _ _ _ E); apply forward_moved_refl. Qed.
Lemma moved_all_trans s s1 s2 : moved_all s s1 -> moved_all s1 s2 -> moved_all s s2.
Proof using Type. intros H1 H2 tool; by eapply forward_moved_trans. Qed.

Lemma quick_moved action s r s' : quick action i s = (r, s') -> moved_all s s'.
Proof. intros H tool; by eapply quick_tables. Qed.
Lemma bringUp_moved s r s' : bringUp i s = (r, s') -> moved_all s s'.
Proof.
  unfold bringUp; intros H; apply bind_inv in H as [(? & (? & _ & ?)%attempt_inv & _)|(up & s1 & (x & Hq%quick_moved & [= ->])%attempt_inv & H)]; [done|].
  destruct x as [e|[]]; [|by apply ret_inv in H as [_ ->]].
  apply bind_inv in H as [(? & (? & _ & ?)%attempt_inv & _)|(there & s2 & (x & Hs & [= ->])%attempt_inv & H)]; [done|].
  apply (moved_all_trans _ s1); [done|]; apply no_table_moved in Hs; [|apply stat_tables].
  apply (moved_all_trans _ s2); [done|].
  destruct x as [e'|[]]; [apply throw_inv in H as [_ ->]; intros tool; apply forward_moved_refl|].
  apply bind_inv in H as [(e' & H & _)|([] & s3 & H3 & H)].
  - unfold ignored in H; apply bind_inv in H as [(? & (? & _ & ?)%attempt_inv & _)|(? & ? & _ & [? _]%ret_inv)]; done.
  - unfold ignored in H3; apply bind_inv in H3 as [(? & (? & _ & ?)%attempt_inv & _)|(? & s4 & (x & Hq'%quick_moved & _)%attempt_inv & [_ ->]%ret_inv)]; [done|].
    apply quick_moved in H; by eapply moved_all_trans.
Qed.

Context (R : forall f, f ∈ families ipv6 -> removes (F := F) (f_tool f)).
Lemma tunnel_ok f : f ∈ families ipv6 -> wf_chains C f ∧ unref C f ∧ removes (F := F) (f_tool f).
Proof using R. intros Hf; split_and!; [apply tunnel_wf|apply tunnel_unref|by apply R]. Qed.

(** The firewall comes off a host on which wg-quick has moved its rules. *)
Lemma down_moved s0 s1 s2 : (forall f, f ∈ families ipv6 -> clean C (table s0 (f_tool f))) ->
  held ipv6 C s0 s1 -> moved_all s1 s2 -> (down s2).1 = inr tt ∧ moved_all s0 (down s2).2.
Proof using HL R.
  intros Hcl [Hd Ho] Hm; destruct (down s2) as [r s3] eqn:E; cbn [fst snd].
  apply (down_all C (fun tool => shifted (table s0 tool) (table s1 tool) (table s2 tool))) in E as (-> & Hin & Hout); [|apply families_tools|].
  - split; [done|]; intros tool; destruct (decide (tool ∈ (f_tool <$> families ipv6))) as [(f & -> & Hf)%list_elem_of_fmap|N].
    + rewrite Hin by done; by apply (shifted_spec IPString i policy); [apply Hd|apply Hm].
    + rewrite Hout, <- Ho by done; apply Hm.
  - intros f Hf; pose proof (shifted_spec IPString i policy _ _ _ (Hd f Hf) (Hm (f_tool f))) as [Hs _].
    split_and!; [apply tunnel_wf|by apply R| |by apply dirty_moved; [apply Hd|apply Hm]].
    eapply clean_moved; [by apply Hcl|done].
Qed.

(** In force: the jumps are first, the host's own rules keep their place behind,
    and the chains hold the policy. *)
Definition guarded s s' (f : family) : Prop :=
  ∃ lF rest lI, table s (f_tool f) !! "FORWARD"%string = Some lF ∧ table s (f_tool f) !! "INPUT"%string = Some lI
    ∧ table s' (f_tool f) !! "FORWARD"%string = Some (jumpF i :: rest) ∧ filter (.∉ nats i) rest = filter (.∉ nats i) lF
    ∧ table s' (f_tool f) !! "INPUT"%string = Some (jumpI i :: lI)
    ∧ table s' (f_tool f) !! ForwardChain i = Some (forwardRules i policy f)
    ∧ table s' (f_tool f) !! InputChain i = Some (inputRules IPString policy f).
Lemma guarded_moved s s1 s2 f : up_place IPString i policy s s1 f -> moved_all s1 s2 -> guarded s s2 f.
Proof using Type.
  intros (lF & lI & EF & EI & TF & TI & CF & CI) Hm; destruct (Hm (f_tool f)) as [Hk Hf]; rewrite TF in Hf.
  destruct (table s2 (f_tool f) !! "FORWARD"%string) as [l2|] eqn:E2; [|done].
  destruct (nat_moved_head i (jumpF i) lF l2 (jumpF_not_nat i) Hf) as (k & -> & Hmk).
  exists lF, k, lI; split_and!; [done|done|done|by apply nat_moved_rest|by rewrite Hk..].
Qed.

(** A tunnel runs behind its firewall and leaves nothing of it behind.  On tables
    without the node's rules, a start that succeeds (also one that had to take a left-over
    interface down first) has the jumps in front and the policy in the chains in
    each family; a start that fails, at whichever step, and a stop after a
    start, whether or not wg-quick could take the interface down, leave every table as
    it was but for the two ACCEPT rules of PostUp, which are wg-quick's to remove. *)
Theorem wireguard_lifecycle s r s' :
  (forall f, f ∈ families ipv6 -> clean C (table s (f_tool f))) ->
  wg_Start ipv6 IPString policy i s = (r, s') ->
  match r with
  | inl _ => forall tool, same_but_nat i (table s tool) (table s' tool)
  | inr _ => (forall f, f ∈ families ipv6 -> guarded s s' f)
      ∧ forall s1, (forall tool, table s1 tool = table s' tool) ->
          forall tool, same_but_nat i (table s tool) (table (wg_Stop ipv6 IPString i s1).2 tool)
  end.
Proof.
  intros Hcl H; apply bind_inv in H as [(e & H & ->)|([] & s0 & Hfw%forwarding_tables & H)].
  { apply forwarding_tables in H; intros tool; by rewrite H. }
  assert (forall f, f ∈ families ipv6 -> clean C (table s0 (f_tool f))) as Hcl0 by (intros f Hf; rewrite Hfw; by apply Hcl).
  assert (forall s1 s2, held ipv6 C s0 s1 -> moved_all s1 s2 -> forall tool, same_but_nat i (table s tool) (table (down s2).2 tool)) as Hdown.
  { intros s1 s2 Hh Hm tool; destruct (down_moved s0 s1 s2 Hcl0 Hh Hm) as [_ Hd]; rewrite <- Hfw; by apply moved_same. }
  apply bind_inv in H as [(e & H & ->)|([] & s1 & H1 & H)].
  { apply or_undo_inv in H as [(e' & u & Hu & _ & ->)|(? & _ & ?)]; [|done].
    apply (Hdown u); [by eapply up_held; [apply tunnel_ok|..]|intros tool; apply forward_moved_refl]. }
  apply or_undo_inv in H1 as [(? & ? & _ & ? & _)|([] & Hup & _)]; [done|].
  assert (held ipv6 C s0 s1) as Hh by (by eapply up_held; [apply tunnel_ok|..]).
  apply or_undo_inv in H as [(e & u & Hu%bringUp_moved & -> & ->)|([] & Hu%bringUp_moved & ->)]; [by apply (Hdown s1)|]; split.
  - intros f Hf; destruct (guarded_moved s0 s1 s' f) as (lF & rest & lI & EF & EI & Hrest); [by eapply up_in_place|done|].
    rewrite Hfw in EF, EI; exists lF, rest, lI; done.
  - intros s2 E tool; destruct (wg_Stop ipv6 IPString i s2) as [r2 s5] eqn:Hstop; cbn [snd].
    apply bind_inv in Hstop as [(? & (? & _ & ?)%attempt_inv & _)|(err & s3 & (x & Hq%quick_moved & [= ->])%attempt_inv & H)]; [done|].
    assert (moved_all s1 s3) as Hm by (apply (moved_all_trans _ s2); [intros t; rewrite E; apply Hu|done]).
    destruct (down_moved s0 s1 s3 Hcl0 Hh Hm) as [Hr _]; rewrite (undo_seq _ _ _ Hr) in H.
    pose proof (Hdown s1 s3 Hh Hm tool) as Hd; destruct x as [e|[]]; [by apply throw_inv in H as [_ ->]|by apply ret_inv in H as [_ ->]].
Qed.
End Life.
