(* ===== verification/ProxyLife.v ===== *)
(** Child processes and the life of the proxies around their firewall:
    src/services/common/process.go, [StartProxy] of
    src/services/common/runtime.go, and [Start] and [Stop] of
    src/services/hysteria/hysteria.go, src/services/xray/xray.go and
    src/services/v2ray/v2ray.go.

    Processes, signals and sockets are a parameter ([Procs], [Sockets]); which
    children are alive and whether the authentication hook listens are part of its
    state, so that what a stop achieves can be said. *)
From S2P Require Import Prelude Codec Types Guard WireGuard StaticKey Egress EgressProofs EgressPolicy Lifecycle Runtime.
Set Default Proof Using "Type*".
Local Open Scope string_scope.

(** * Processes (process.go) *)
Inductive signal := SIGTERM | SIGKILL.
Inductive sigerr := ErrProcessDone | SigFailed (e : gerror).

Class Procs (F : Type) := {
  exec_Start : string -> list string -> list string -> option SysProcAttr -> M F gerror Z;
  sendSignal : Z -> signal -> M F sigerr unit;
  (* the child's exit, or the timeout; the child's exit, however long it takes *)
  exitedWithin : Z -> Z -> F -> bool * F;
  waitExited : Z -> F -> F;
  alive : F -> Z -> bool
}.

Record Process (F : Type) := mkProcess { p_pid : Z; p_onStop : option (M F gerror unit) }.
Arguments mkProcess {F}. Arguments p_pid {F}. Arguments p_onStop {F}.

Section Process.
Context {F : Type} `{!Procs F}.

Definition StartProcess (name : string) (args env : list string) (attr : option SysProcAttr) : M F gerror (Process F) :=
  pid ← exec_Start name args env attr; mret (mkProcess pid None).

(** A child that is gone already is no error. *)
Definition signalled (pid : Z) (sig : signal) : M F gerror unit := fun s =>
  match sendSignal pid sig s with
  | (inl (SigFailed e), s') => (inl e, s')
  | (_, s') => (inr tt, s')
  end.
Definition awaited {A} (f : F -> A * F) : M F gerror A := fun s => (inr (f s).1, (f s).2).
Definition stopChild (pid timeout : Z) : M F gerror unit :=
  signalled pid SIGTERM ≫= fun _ =>
  exited ← awaited (exitedWithin pid timeout);
  if (exited : bool) then mret tt else
  signalled pid SIGKILL ≫= fun _ => awaited (fun s => (tt, waitExited pid s)).
(** [onStop] is deferred: it runs whatever became of the child.  The exit is
    delivered once, so this is the first call of [Stop] on a process. *)
Definition Process_Stop (p : option (Process F)) (timeout : Z) : M F gerror unit :=
  match p with
  | None => throw "process was not started"
  | Some p => fun s =>
      let '(r, s') := stopChild (p_pid p) timeout s in
      (r, if p_onStop p is Some f then (f s').2 else s')
  end.
(** A child counts as alive until it was reaped, which is when its state is known. *)
Definition Process_Exited (p : option (Process F)) (s : F) : bool := if p is Some p then negb (alive s (p_pid p)) else false.
End Process.

(** * A proxy and its chain *)
Section Proxy.
Context {F : Type} `{!IPTables F, !Procs F} (ipv6 : bool) (IPString : bytes -> string).

(** [resolvers] are the host's when the chain goes up, [resolvers'] when it comes down. *)
Definition StartProxy (rt : Runtime) (resolvers resolvers' : list bytes) (policy : Egress)
    (name : string) (args env : list string) (listenPort : Z) (loopback : list Z) : M F gerror (Process F) :=
  match rt_Proxy rt with
  | None => StartProcess name args env None
  | Some u =>
      let up := chains_up ipv6 (proxyChains IPString (pu_UID u) loopback resolvers policy) in
      let down := chains_down ipv6 (proxyChains IPString (pu_UID u) loopback resolvers' Egress0) in
      or_undo up down ≫= fun _ =>
      p ← or_undo (StartProcess name args env (proxyAttr rt listenPort)) down;
      mret (mkProcess (p_pid p) (Some down))
  end.
End Proxy.

(** * The services *)
Class Sockets (F : Type) := {
  Listen : string -> M F gerror unit;             (* net.Listen, and the goroutine that serves it *)
  closeAuth : M F gerror unit;                     (* http.Server.Close, and the wait for the goroutine *)
  closeConn : M F gerror unit;                     (* the control connection, if there is one *)
  listening : F -> bool
}.

Definition stopTimeout : Z := 5 * 10 ^ 9.
Definition udpBufferBytes : Z := Z.shiftl 16 20.
Definition udpBufferSwitches : list string := ["/proc/sys/net/core/rmem_max"; "/proc/sys/net/core/wmem_max"].

Section Services.
Context {F : Type} `{!IPTables F, !Disk F, !Procs F, !Sockets F} (ipv6 : bool) (IPString : bytes -> string).
Context (rt : Runtime) (resolvers resolvers' : list bytes) (policy : Egress).
Abbreviation proxy := (StartProxy (F := F) ipv6 IPString rt resolvers resolvers' policy).

Definition raiseUDPBuffer (path : string) : M F gerror unit :=
  raw ← attempt (os_ReadFile path);
  match raw with
  | inl _ => mret tt
  | inr raw =>
      match Num.ParseInt (TrimSpace (Str.of_string raw)) with
      | None => mret tt
      | Some current => if (udpBufferBytes <=? current)%Z then mret tt else ignored (os_WriteFile path (Itoa udpBufferBytes) 0)
      end
  end.
Definition raiseUDPBuffers : M F gerror unit := each udpBufferSwitches raiseUDPBuffer.

Definition serverArgs (verbose : bool) (configPath : string) : list string :=
  ["server"; "--disable-update-check"; "--log-level"; if verbose then "info" else "error"; "-c"; configPath].
Definition hy_Start (verbose : bool) (configPath : string) (listenPort authPort : Z) : M F gerror (Process F) :=
  raiseUDPBuffers ≫= fun _ =>
  or_throw (Listen ("127.0.0.1:" +:+ Itoa authPort)) (fun e => "auth hook: " +:+ e) ≫= fun _ =>
  or_undo (proxy "hysteria" (serverArgs verbose configPath) [] listenPort [authPort]) (ignored closeAuth).
Definition hy_Stop (p : option (Process F)) : M F gerror unit :=
  match p with
  | None => throw "hysteria was not started"
  | Some p =>
      err ← attempt (Process_Stop (Some p) stopTimeout);
      ignored closeAuth ≫= fun _ =>
      match err with inl e => throw e | inr _ => mret tt end
  end.

Definition xr_Start (configPath : string) (listenPort : Z) : M F gerror (Process F) :=
  proxy "xray" ["run"; "-config"; configPath] [] listenPort [].
Definition xr_Stop (p : option (Process F)) : M F gerror unit :=
  ignored closeConn ≫= fun _ => Process_Stop p stopTimeout.
Definition v2_Start (configPath : string) (listenPort : Z) : M F gerror (Process F) :=
  proxy "v2ray" ["run"; "--config"; configPath] [] listenPort [].
Definition v2_Stop (p : option (Process F)) : M F gerror unit :=
  ignored closeConn ≫= fun _ => Process_Stop p stopTimeout.
End Services.

(** * What a stop leaves *)
Class ProcsLaws (F : Type) `{!IPTables F, !Disk F, !Procs F, !Sockets F} := {
  exec_tables n a e at_ : no_table (exec_Start n a e at_);
  signal_tables pid sig s r s' : sendSignal pid sig s = (r, s') -> forall tool, table s' tool = table s tool;
  exited_tables pid t s : forall tool, table (exitedWithin pid t s).2 tool = table s tool;
  waited_tables pid s : forall tool, table (waitExited pid s) tool = table s tool;
  disk_tables p d m : no_table (os_WriteFile p d m);
  diskread_tables p : no_table (os_ReadFile p);
  listen_tables a : no_table (Listen a);
  closeAuth_tables : no_table closeAuth;
  closeConn_tables : no_table closeConn;
  (* a child whose exit was received is gone, and stays gone *)
  exited_gone pid t s : (exitedWithin pid t s).1 = true -> alive (exitedWithin pid t s).2 pid = false;
  waited_gone pid s : alive (waitExited pid s) pid = false;
  command_alive tool args s pid : alive (RunCommand tool args s).2 pid = alive s pid;
  closeAuth_alive s pid : alive (closeAuth s).2 pid = alive s pid;
  (* the hook listens from a Listen that succeeded until it is closed *)
  listen_up a s s' : Listen a s = (inr tt, s') -> listening s' = true;
  listen_err a s e s' : Listen a s = (inl e, s') -> listening s' = listening s;
  disk_listening p d m s : listening (os_WriteFile p d m s).2 = listening s;
  diskread_listening p s : listening (os_ReadFile p s).2 = listening s;
  closeAuth_down s : listening (closeAuth s).2 = false;
  exec_listening n a e at_ s : listening (exec_Start n a e at_ s).2 = listening s;
  command_listening tool args s : listening (RunCommand tool args s).2 = listening s
}.

Section Proofs.
Context {F : Type} `{!IPTables F, !Disk F, !Procs F, !Sockets F} {HL : IPTablesLaws F} {PL : ProcsLaws F}.
Context (ipv6 : bool) (IPString : bytes -> string).
Implicit Types (s : F).

Lemma no_table_signalled pid sig : no_table (F := F) (signalled pid sig).
Proof.
  intros s r s'; unfold signalled; destruct (sendSignal pid sig s) as [[[|e]|[]] t] eqn:E; intros [= <- <-] tool;
    exact (signal_tables _ _ _ _ _ E tool).
Qed.
Lemma no_table_awaited {A} (f : F -> A * F) : (forall s tool, table (f s).2 tool = table s tool) -> no_table (awaited f).
Proof using Type. by intros Hf s r s' [= <- <-]. Qed.

Lemma stopChild_tables pid timeout : no_table (F := F) (stopChild pid timeout).
Proof.
  apply no_table_bind; [apply no_table_signalled|intros _]; apply no_table_bind; [apply no_table_awaited, exited_tables|].
  intros []; [apply no_table_ret|]; apply no_table_bind; [apply no_table_signalled|intros _].
  apply no_table_awaited; intros; apply waited_tables.
Qed.
Lemma stopChild_gone pid timeout s s' : stopChild pid timeout s = (inr tt, s') -> alive s' pid = false.
Proof.
  intros H; apply bind_inv in H as [(? & _ & ?)|([] & s1 & _ & H)]; [done|].
  apply bind_inv in H as [(? & _ & ?)|(b & s2 & [= <- <-] & H)]; [done|].
  destruct (exitedWithin pid timeout s1).1 eqn:E; [apply ret_inv in H as [_ ->]; by apply exited_gone|].
  apply bind_inv in H as [(? & _ & ?)|([] & s3 & _ & [= <-])]; [done|]; apply waited_gone.
Qed.

(** ** What the firewall commands leave alone *)
Section Frame.
Context {T : Type} (view : F -> T) (Hview : forall tool args s, view (RunCommand tool args s).2 = view s).
Lemma quietly_view tool args s : (quietly tool args s).1 = inr tt ∧ view (quietly tool args s).2 = view s.
Proof using Hview.
  unfold quietly, attempt, mbind, M_bind; pose proof (Hview tool args s); by destruct (RunCommand tool args s).
Qed.
Lemma each_view {A} (l : list A) (f : A -> M F gerror unit) s : (forall x s, view (f x s).2 = view s) -> view (each l f s).2 = view s.
Proof using Type.
  intros Hf; revert s; induction l as [|x l IH]; intros s; cbn; [done|]; unfold mbind, M_bind.
  pose proof (Hf x s); destruct (f x s) as [[e|[]] s1]; cbn in *; [done|]; by rewrite IH.
Qed.
Lemma seq_view (m : M F gerror unit) (f : unit -> M F gerror unit) s : (forall s, view (m s).2 = view s) ->
  (forall s, view (f tt s).2 = view s) -> view ((m ≫= f) s).2 = view s.
Proof using Type. intros H1 H2; unfold mbind, M_bind; pose proof (H1 s); destruct (m s) as [[e|[]] s1]; cbn in *; [done|by rewrite H2]. Qed.
Lemma chains_down_view c s : view (chains_down ipv6 c s).2 = view s.
Proof using Hview.
  apply each_view; intros f s1; apply seq_view; intros s2; apply each_view; intros; [apply quietly_view|].
  apply seq_view; intros; apply quietly_view.
Qed.
Lemma run_view tool args s : view (run tool args s).2 = view s.
Proof using Hview. unfold run, or_throw; pose proof (Hview tool args s); by destruct (RunCommand tool args s) as [[|[]]]. Qed.
Lemma tried_view tool args (k : gerror + unit -> M F gerror unit) s : (forall r s, view (k r s).2 = view s) ->
  view ((attempt (RunCommand tool args) ≫= k) s).2 = view s.
Proof using Hview.
  intros Hk; unfold attempt, mbind, M_bind; pose proof (Hview tool args s); destruct (RunCommand tool args s); cbn in *; by rewrite Hk.
Qed.
Lemma chains_up_view c s : view (chains_up ipv6 c s).2 = view s.
Proof using Hview.
  apply each_view; intros f s1; apply seq_view; [|intros s2; apply seq_view]; intros; apply each_view; intros;
    [|apply run_view|]; apply tried_view; intros []; intros; [apply run_view|done|apply run_view|done].
Qed.
End Frame.

(** ** A proxy behind its chain *)
Definition jumpTo (uid : Z) : rule := ["-m"; "owner"; "--uid-owner"; Itoa uid; "-j"; ProxyChain].
Definition chain_ready (uid : Z) (loopback : list Z) (resolvers : list bytes) (policy : Egress) (s s1 : F) : Prop :=
  chains_up ipv6 (proxyChains IPString uid loopback resolvers policy) s = (inr tt, s1).

Section Started.
Context (rt : Runtime) (resolvers resolvers' : list bytes) (policy : Egress).
Context (name : string) (args env : list string) (listenPort : Z) (loopback : list Z).
Abbreviation start := (StartProxy (F := F) ipv6 IPString rt resolvers resolvers' policy name args env listenPort loopback).
(** Tables without the node's chain, and a tool that removes what is there. *)
Definition proxy_clean s : Prop := forall u, rt_Proxy rt = Some u -> forall f, f ∈ families ipv6 ->
  removes (F := F) (f_tool f) ∧ clean (proxyChains IPString (pu_UID u) loopback resolvers policy) (table s (f_tool f)).

(** A child runs behind its chain, or the chain is not wanted. *)
Definition behind s s' (p : Process F) : Prop :=
  match rt_Proxy rt with
  | None => p_onStop p = None ∧ (∃ s1, exec_Start name args env None s1 = (inr (p_pid p), s') ∧ s1 = s)
  | Some u => ∃ s1, chain_ready (pu_UID u) loopback resolvers policy s s1
      ∧ exec_Start name args env (proxyAttr rt listenPort) s1 = (inr (p_pid p), s')
  end.

Lemma StartProcess_inv attr s r s' : StartProcess name args env attr s = (r, s') ->
  match r with
  | inl e => exec_Start name args env attr s = (inl e, s')
  | inr p => exec_Start name args env attr s = (inr (p_pid p), s') ∧ p_onStop p = None
  end.
Proof using Type. intros H; apply bind_inv in H as [(e & H & ->)|(pid & s1 & H & [-> ->]%ret_inv)]; done. Qed.

Lemma stop_restores_child p timeout s s1 : (forall tool, table s1 tool = table s tool) ->
  p_onStop p = None -> forall tool, table (Process_Stop (Some p) timeout s1).2 tool = table s tool.
Proof.
  intros E Hp tool; cbn; rewrite Hp; destruct (stopChild (p_pid p) timeout s1) as [r s2] eqn:H; cbn.
  by rewrite (stopChild_tables _ _ _ _ _ H).
Qed.

Lemma Process_Stop_gone p timeout s s' : (forall f, p_onStop p = Some f -> forall t, alive (f t).2 (p_pid p) = alive t (p_pid p)) ->
  Process_Stop (Some p) timeout s = (inr tt, s') -> alive s' (p_pid p) = false.
Proof.
  cbn; intros Hf; destruct (stopChild (p_pid p) timeout s) as [r s1] eqn:E; intros [= -> <-]; apply stopChild_gone in E.
  destruct (p_onStop p) as [f|]; [by rewrite (Hf f)|done].
Qed.
(** A child that was stopped is reported as exited; one that was never started is not. *)
Lemma Process_Stop_exited p timeout s s' :
  (forall q f, p = Some q -> p_onStop q = Some f -> forall t, alive (f t).2 (p_pid q) = alive t (p_pid q)) ->
  Process_Stop p timeout s = (inr tt, s') -> Process_Exited p s' = true.
Proof.
  intros Hf H; destruct p as [p|]; [|done]; cbn; apply negb_true_iff; eapply Process_Stop_gone; [|exact H]; intros f; by apply Hf.
Qed.

(** A proxy runs behind its firewall and takes it along.  From clean tables, a
    start that fails leaves every table as it was; one that succeeds ran the daemon
    as the proxy account after the account's chain was complete (or, without an
    account, as the node, and touched no table); and the stop after it restores
    every table, whether or not the daemon could be stopped, and when it reports
    success the daemon is gone. *)
Theorem proxy_lifecycle s r s' : proxy_clean s -> start s = (r, s') ->
  match r with
  | inl _ => forall tool, table s' tool = table s tool
  | inr p => behind s s' p
      ∧ forall s1 timeout, (forall tool, table s1 tool = table s' tool) ->
          (forall tool, table (Process_Stop (Some p) timeout s1).2 tool = table s tool)
          ∧ forall s2, Process_Stop (Some p) timeout s1 = (inr tt, s2) -> alive s2 (p_pid p) = false
  end.
Proof.
  intros Hcl H; unfold StartProxy in H; unfold behind; destruct (rt_Proxy rt) as [u|] eqn:Eu.
  2: { apply StartProcess_inv in H; destruct r as [e|p]; [by apply exec_tables in H|]; destruct H as [H Hp].
    split; [split; [done|by exists s]|]; intros s1 t E; split.
    - apply stop_restores_child; [|done]; intros tool; rewrite E; by apply exec_tables in H.
    - intros s2; apply Process_Stop_gone; by rewrite Hp. }
  set (c := proxyChains IPString (pu_UID u) loopback resolvers policy) in *.
  assert (forall f, f ∈ families ipv6 -> wf_chains c f ∧ unref c f ∧ removes (F := F) (f_tool f)) as Hc.
  { intros f Hf; destruct (Hcl u Eu f Hf); split_and!; [apply proxy_wf|apply proxy_unref|done]. }
  assert (forall f, f ∈ families ipv6 -> clean c (table s (f_tool f))) as Hcs by (intros f Hf; by apply (Hcl u Eu)).
  set (down := chains_down ipv6 (proxyChains IPString (pu_UID u) loopback resolvers' Egress0)) in *.
  assert (forall t, held ipv6 c s t -> forall tool, table (down t).2 tool = table s tool) as Hdown.
  { intros t Hh; by apply (down_held ipv6 c). }
  apply bind_inv in H as [(e & H & ->)|([] & s1 & H1 & H)].
  { apply or_undo_inv in H as [(e' & t & Ht & _ & ->)|(? & _ & ?)]; [|done]; by eapply Hdown, up_held. }
  apply or_undo_inv in H1 as [(? & ? & _ & ? & _)|([] & Hup & _)]; [done|].
  assert (held ipv6 c s s1) as Hh by (by eapply up_held).
  apply bind_inv in H as [(e & H & ->)|(p0 & s2 & H2 & [-> ->]%ret_inv)].
  { apply or_undo_inv in H as [(e' & t & Ht%StartProcess_inv%exec_tables & _ & ->)|(? & _ & ?)]; [|done].
    by eapply Hdown, held_same. }
  apply or_undo_inv in H2 as [(? & ? & _ & ? & _)|(p1 & [Hex Hp1]%StartProcess_inv & [= ->])]; [done|].
  pose proof (exec_tables _ _ _ _ _ _ _ Hex) as Et.
  split; [exists s1; split; done|]; intros s3 t E; split.
  - intros tool; cbn; destruct (stopChild (p_pid p1) t s3) as [r s4] eqn:Hst; cbn; apply Hdown.
    eapply held_same; [|exact Hh]; intros tl; by rewrite (stopChild_tables _ _ _ _ _ Hst), E, Et.
  - intros s4; apply Process_Stop_gone; cbn [p_onStop p_pid]; intros f [= <-] w.
    refine (chains_down_view (fun s => alive s (p_pid p1)) _ _ w); intros; apply command_alive.
Qed.
End Started.

(** ** Hysteria2 and its authentication hook *)
Section Hysteria.
Context (rt : Runtime) (resolvers resolvers' : list bytes) (policy : Egress).
Context (verbose : bool) (configPath : string) (listenPort authPort : Z).
Abbreviation start := (hy_Start (F := F) ipv6 IPString rt resolvers resolvers' policy verbose configPath listenPort authPort).
Abbreviation args := (serverArgs verbose configPath).

Lemma raise_tables : no_table (F := F) raiseUDPBuffers.
Proof.
  apply no_table_each; intros path; apply no_table_bind; [apply no_table_attempt, diskread_tables|]; intros [e|raw]; [apply no_table_ret|].
  destruct (Num.ParseInt _) as [n|]; [|apply no_table_ret]; destruct (_ <=? n)%Z; [apply no_table_ret|].
  apply no_table_ignored, disk_tables.
Qed.
Lemma raise_listening s : listening (raiseUDPBuffers s).2 = listening s.
Proof.
  apply (each_view listening); intros path t; unfold raiseUDPBuffer, attempt, mbind, M_bind.
  pose proof (diskread_listening path t) as E; destruct (os_ReadFile path t) as [[e|raw] t1]; cbn in *; [done|].
  destruct (Num.ParseInt _) as [n|]; [|done]; destruct (_ <=? n)%Z; [done|].
  unfold ignored, attempt, mbind, M_bind; pose proof (disk_listening path (Itoa udpBufferBytes) 0 t1) as E2.
  destruct (os_WriteFile path (Itoa udpBufferBytes) 0 t1); cbn in *; congruence.
Qed.
Lemma closeAuth_ignored s : (forall tool, table (ignored closeAuth s).2 tool = table s tool)
  ∧ listening (ignored closeAuth s).2 = false ∧ (forall pid, alive (ignored closeAuth s).2 pid = alive s pid)
  ∧ (ignored closeAuth s).1 = inr tt.
Proof.
  unfold ignored, attempt, mbind, M_bind; pose proof (closeAuth_down s); pose proof (closeAuth_alive s).
  destruct (closeAuth s) as [r t] eqn:E; cbn in *; split_and!; [intros tool; exact (closeAuth_tables _ _ _ E tool)|done..].
Qed.

Lemma StartProxy_listening nm ar ev lp lb s p s' : StartProxy ipv6 IPString rt resolvers resolvers' policy nm ar ev lp lb s = (inr p, s') ->
  listening s' = listening s.
Proof.
  assert (forall attr t q t', StartProcess nm ar ev attr t = (inr q, t') -> listening t' = listening t) as Hstart.
  { intros attr t q t' [H _]%StartProcess_inv; pose proof (exec_listening nm ar ev attr t) as E; by rewrite H in E. }
  unfold StartProxy; destruct (rt_Proxy rt); [|apply Hstart]; intros H.
  apply bind_inv in H as [(? & _ & ?)|([] & s1 & H1 & H)]; [done|].
  apply or_undo_inv in H1 as [(? & ? & _ & ? & _)|([] & Hup & _)]; [done|].
  apply bind_inv in H as [(? & _ & ?)|(q & s2 & H2 & [_ ->]%ret_inv)]; [done|].
  apply or_undo_inv in H2 as [(? & ? & _ & ? & _)|(q' & Hq%Hstart & _)]; [done|].
  rewrite Hq; match type of Hup with chains_up _ ?c _ = _ => pose proof (chains_up_view listening command_listening c s) as E end.
  by rewrite Hup in E.
Qed.

Lemma hy_Stop_is p s : hy_Stop (Some p) s =
  ((Process_Stop (Some p) stopTimeout s).1, (ignored closeAuth (Process_Stop (Some p) stopTimeout s).2).2).
Proof.
  unfold hy_Stop, attempt; unfold mbind at 1, M_bind at 1; destruct (Process_Stop (Some p) stopTimeout s) as [r t]; cbn [fst snd].
  destruct (closeAuth_ignored t) as (_ & _ & _ & Hr); rewrite (undo_seq _ _ _ Hr); by destruct r as [e|[]].
Qed.

(** Hysteria2 is never reachable without its hook.  When a start succeeds the hook
    was listening, and the account's chain was complete, before the daemon ran; a
    start that fails leaves every table as it was and no hook that was not there; a
    stop after a start restores the tables and closes the hook, and when it reports
    success the daemon is gone. *)
Theorem hysteria_lifecycle s r s' : proxy_clean rt resolvers policy [authPort] s -> start s = (r, s') ->
  match r with
  | inl _ => (forall tool, table s' tool = table s tool) ∧ (listening s = false -> listening s' = false)
  | inr p => listening s' = true
      ∧ (∃ s0, (forall tool, table s0 tool = table s tool) ∧ listening s0 = true
           ∧ behind rt resolvers policy "hysteria" args [] listenPort [authPort] s0 s' p)
      ∧ forall s1, (forall tool, table s1 tool = table s' tool) ->
          (forall tool, table (hy_Stop (Some p) s1).2 tool = table s tool)
          ∧ listening (hy_Stop (Some p) s1).2 = false
          ∧ forall s2, hy_Stop (Some p) s1 = (inr tt, s2) -> alive s2 (p_pid p) = false
  end.
Proof.
  intros Hcl H; apply bind_inv in H as [(e & H & ->)|([] & s1 & H1 & H)].
  { pose proof (raise_listening s) as L; rewrite H in L; cbn in L; split; [exact (raise_tables _ _ _ H)|by rewrite L]. }
  pose proof (raise_listening s) as L1; rewrite H1 in L1; cbn in L1; apply raise_tables in H1.
  apply bind_inv in H as [(e & H & ->)|([] & s2 & H2 & H)].
  { unfold or_throw in H; destruct (Listen _ s1) as [[e'|[]] t] eqn:E; [|done]; injection H as _ <-.
    pose proof (listen_err _ _ _ _ E) as L; apply listen_tables in E; split; [intros tool; by rewrite E, H1|by rewrite L, L1]. }
  unfold or_throw in H2; destruct (Listen _ s1) as [[e'|[]] t] eqn:E; [done|]; injection H2 as ->.
  pose proof (listen_up _ _ _ E) as L2; apply listen_tables in E.
  assert (forall tool, table s2 tool = table s tool) as E2 by (intros; by rewrite E, H1).
  assert (proxy_clean rt resolvers policy [authPort] s2) as Hcl2 by (intros u Hu f Hf; rewrite E2; by apply (Hcl u)).
  apply or_undo_inv in H as [(e & t & H & -> & ->)|(p & H & ->)].
  - apply proxy_lifecycle in H; [|done]; destruct (closeAuth_ignored t) as (T & L & _).
    split; [intros tool; by rewrite T, H, E2|done].
  - assert (listening s' = listening s2) as L3 by (by apply StartProxy_listening in H).
    apply proxy_lifecycle in H as [Hb Hstop]; [|done].
    split_and!; [by rewrite L3|by exists s2|]; intros s3 E3; destruct (Hstop s3 stopTimeout E3) as [T3 G3].
    rewrite hy_Stop_is; destruct (closeAuth_ignored (Process_Stop (Some p) stopTimeout s3).2) as (T & L & A & _); cbn [fst snd].
    split_and!; [intros tool; by rewrite T, T3|done|]; intros s4 [= Hr <-]; rewrite A.
    apply G3; by rewrite <- Hr, <- surjective_pairing.
Qed.
End Hysteria.
End Proofs.
