(* ===== verification/Pki.v ===== *)
(** OpenVPN's certificate authority: src/services/openvpn/pki.go, and the
    self-signed certificate of src/services/common/pki.go.

    The node is its own authority: it makes one on the first run, reads it back on
    every later one, and issues a certificate per client.  crypto/x509, the random
    source and PEM are a parameter ([X509]); the disk is the one of the runtime
    directory. *)
From S2P Require Import Prelude Codec Types Guard StaticKey Runtime OpenVPN.
Set Default Proof Using "Type*".
Local Open Scope string_scope.

Definition hour : Z := 3600 * second.
Definition caValidity : Z := 10 * 365 * 24 * hour.
Definition serverValidity : Z := 10 * 365 * 24 * hour.
Definition clientValidity : Z := 7 * 24 * hour.

(** What a certificate says. *)
Inductive keyUsage := CertSign | CRLSign | DigitalSignature | KeyEncipherment.
Inductive extKeyUsage := ServerAuth | ClientAuth.
#[export] Instance keyUsage_eq_dec : EqDecision keyUsage.
Proof. solve_decision. Defined.
#[export] Instance extKeyUsage_eq_dec : EqDecision extKeyUsage.
Proof. solve_decision. Defined.
(** [MaxPathLen] is none when no limit is set. *)
Record template := mkTemplate {
  t_Serial : Z; t_CommonName : string; t_NotBefore : Z; t_NotAfter : Z; t_KeyUsage : list keyUsage;
  t_ExtKeyUsage : list extKeyUsage; t_BasicConstraintsValid : bool; t_IsCA : bool; t_MaxPathLen : option Z }.

Class X509 (F : Type) := {
  PrivateKey : Type;                                        (* ecdsa.PrivateKey on P-256 *)
  PublicKey : Type;
  Certificate : Type;
  pub : PrivateKey -> PublicKey;
  GenerateKey : M F gerror PrivateKey;
  rand_Int128 : M F gerror Z;                               (* rand.Int below 2^128 *)
  rand_Read : nat -> M F gerror bytes;
  time_Now : F -> Z;
  CreateCertificate : template -> template + Certificate -> PublicKey -> PrivateKey -> M F gerror bytes;
  ParseCertificate : bytes -> result Certificate;
  MarshalPKCS8 : PrivateKey -> result bytes;
  ParsePKCS8 : bytes -> result (option PrivateKey);         (* none: a key of another kind *)
  pemEncode : string -> bytes -> string;
  pemDecode : string -> option (string * bytes);
  pki_Stat : string -> M F gerror unit;
  says : Certificate -> template;                           (* what it certifies *)
  certifies : Certificate -> PublicKey;                     (* whose key *)
  signedBy : Certificate -> PublicKey -> Prop
}.

Record pki (F : Type) `{!X509 F} := mkPki {
  p_dir : string; p_caCert : Certificate; p_caKey : PrivateKey; p_caDER : bytes; p_tlsCrypt : bytes }.
Arguments mkPki {F _} _ _ _ _ _.
Arguments p_dir {F _} _.
Arguments p_caCert {F _} _.
Arguments p_caKey {F _} _.
Arguments p_caDER {F _} _.
Arguments p_tlsCrypt {F _} _.

Section Authority.
Context {F : Type} `{!Disk F, !X509 F}.

Definition caCertPath (dir : string) : string := Join dir "ca.crt".
Definition caKeyPath (dir : string) : string := Join dir "ca.key".
Definition serverCertPath (dir : string) : string := Join dir "server.crt".
Definition serverKeyPath (dir : string) : string := Join dir "server.key".
Definition tlsCryptPath (dir : string) : string := Join dir "tc.key".

Definition fallible {A} (r : result A) : M F gerror A := fun s => (r, s).
(** A failing random source is a panic, which ends the caller like an error. *)
Definition serial : M F gerror Z := rand_Int128.
Definition certPEM (der : bytes) : string := pemEncode "CERTIFICATE" der.
Definition mustKeyPEM (key : PrivateKey) : result string := der ← MarshalPKCS8 key; inr (pemEncode "PRIVATE KEY" der).

Definition issue (ca : Certificate) (caKey : PrivateKey) (key : PublicKey) (cn : string) (validity : Z) (eku : extKeyUsage) : M F gerror bytes :=
  now ← gets time_Now;
  n ← serial;
  CreateCertificate (mkTemplate n cn (now - hour) (now + validity) [DigitalSignature] [eku] true false None) (inr ca) key caKey.

Definition caTemplate (n now : Z) : template :=
  mkTemplate n "dvpnd OpenVPN CA" (now - hour) (now + caValidity) [CertSign; CRLSign; DigitalSignature] [] true true (Some 0%Z).
Definition writeFiles (files : list (string * string * Z)) : M F gerror unit :=
  each files (fun f => os_WriteFile f.1.1 f.1.2 f.2).

Definition create (dir : string) : M F gerror unit :=
  caKey ← GenerateKey;
  now ← gets time_Now;
  n ← serial;
  let caTmpl := caTemplate n now in
  caDER ← CreateCertificate caTmpl (inl caTmpl) (pub caKey) caKey;
  caCert ← fallible (ParseCertificate caDER);
  serverKey ← GenerateKey;
  serverDER ← issue caCert caKey (pub serverKey) "dvpnd OpenVPN server" serverValidity ServerAuth;
  tlsCrypt ← rand_Read tlsCryptKeyLen;
  caKeyPEM ← fallible (mustKeyPEM caKey);
  serverKeyPEM ← fallible (mustKeyPEM serverKey);
  keyFile ← fallible (match staticKeyFile tlsCrypt with Some f => inr (Str.to_string f) | None => inl "slice bounds out of range" end);
  writeFiles [(caCertPath dir, certPEM caDER, 420); (caKeyPath dir, caKeyPEM, 384); (serverCertPath dir, certPEM serverDER, 420);
    (serverKeyPath dir, serverKeyPEM, 384); (tlsCryptPath dir, keyFile, 384)]%Z.

Definition load (dir : string) : M F gerror (pki F) :=
  caPEM ← os_ReadFile (caCertPath dir);
  caDER ← fallible (match pemDecode caPEM with
    | Some (kind, der) => if bool_decide (kind = "CERTIFICATE") then inr der else inl "ca.crt is not a PEM certificate"
    | None => inl "ca.crt is not a PEM certificate" end);
  caCert ← fallible (ParseCertificate caDER);
  keyPEM ← os_ReadFile (caKeyPath dir);
  keyDER ← fallible (match pemDecode keyPEM with
    | Some (kind, der) => if bool_decide (kind = "PRIVATE KEY") then inr der else inl "ca.key is not a PEM private key"
    | None => inl "ca.key is not a PEM private key" end);
  key ← fallible (ParsePKCS8 keyDER);
  caKey ← fallible (match key with Some k => inr k | None => inl "ca.key is not an ECDSA key" end);
  tc ← os_ReadFile (tlsCryptPath dir);
  tlsCrypt ← fallible (parseStaticKeyFile (Str.of_string tc));
  mret (mkPki dir caCert caKey caDER tlsCrypt).

Definition loadOrCreatePKI (dir : string) : M F gerror (pki F) :=
  os_MkdirAll dir 448 ≫= fun _ =>
  st ← attempt (pki_Stat (caKeyPath dir));
  (match st with
   | inl _ => or_throw (create dir) (fun e => "creating the certificate authority: " +:+ e)
   | inr _ => mret tt
   end) ≫= fun _ =>
  load dir.

Definition pki_issueClient (p : pki F) (commonName : string) : M F gerror (bytes * bytes) :=
  key ← GenerateKey;
  certDER ← issue (p_caCert p) (p_caKey p) (pub key) commonName clientValidity ClientAuth;
  keyDER ← fallible (MarshalPKCS8 key);
  mret (certDER, keyDER).

(** ** A certificate for the node's own TLS *)
Definition serverTemplate (n now : Z) (commonName : string) (validFor : Z) : template :=
  mkTemplate n commonName (now - hour) (now + validFor) [DigitalSignature; KeyEncipherment] [ServerAuth] true false None.
Definition SelfSignedCertificate (commonName : string) (validFor : Z) : M F gerror (string * string) :=
  key ← GenerateKey;
  n ← serial;
  now ← gets time_Now;
  let tmpl := serverTemplate n now commonName validFor in
  der ← CreateCertificate tmpl (inl tmpl) (pub key) key;
  keyDER ← fallible (MarshalPKCS8 key);
  mret (pemEncode "CERTIFICATE" der, pemEncode "PRIVATE KEY" keyDER).
End Authority.

(** The authority is what the service issues its clients' certificates with. *)
Definition pki_PKI {F} `{!Disk F, !X509 F} (p : pki F) : PKI F := pki_issueClient p.

(** * What the authority promises

    What is relied on: a certificate says what it was made from, is for the key it was
    made for and is signed by the key it was signed with; PEM and PKCS 8 give back what
    they were given; none of it touches the disk. *)
Class X509Laws (F : Type) `{!Disk F, !X509 F} := {
  gen_keeps : keeps_disk GenerateKey;
  int_keeps : keeps_disk rand_Int128;
  rand_keeps n : keeps_disk (rand_Read n);
  cert_keeps t c k sk : keeps_disk (CreateCertificate t c k sk);
  pki_stat_keeps p : keeps_disk (pki_Stat p);
  pki_stat_finds p s : is_Some (inode s p) <-> ∃ x, (pki_Stat p s).1 = inr x;
  mkdir_inside d m a s : plain a -> inode (os_MkdirAll d m s).2 (Join d a) = inode s (Join d a);
  rand_length n s b s' : rand_Read n s = (inr b, s') -> length b = n;
  cert_says t c k sk s der s' : CreateCertificate t c k sk s = (inr der, s') ->
    ∃ cert, ParseCertificate der = inr cert ∧ says cert = t ∧ certifies cert = k ∧ signedBy cert (pub sk);
  pkcs8_back k d : MarshalPKCS8 k = inr d -> ParsePKCS8 d = inr (Some k);
  pem_back kind d : pemDecode (pemEncode kind d) = Some (kind, d)
}.

Section Promises.
Context {F : Type} `{!Disk F, !X509 F} {DL : DiskLaws F} {XL : X509Laws F}.
Implicit Types (s : F) (p : pki F).

Definition pkiFiles : list string := ["ca.crt"; "ca.key"; "server.crt"; "server.key"; "tc.key"].
Lemma pkiFiles_plain a : a ∈ pkiFiles -> plain a.
Proof using Type. intros H; repeat (apply elem_of_cons in H as [->|H]; [by apply (bool_decide_unpack (_ ∧ _)); vm_compute|]); by apply elem_of_nil in H. Qed.

(** A certificate the authority issues is for the name and key it was asked for, lasts
    for the time it was asked for, serves one purpose and signs nothing further. *)
Definition issued p (der : bytes) (key : PublicKey) (cn : string) (now validity : Z) (eku : extKeyUsage) : Prop :=
  ∃ cert n, ParseCertificate der = inr cert ∧ certifies cert = key ∧ signedBy cert (pub (p_caKey p))
    ∧ says cert = mkTemplate n cn (now - hour) (now + validity) [DigitalSignature] [eku] true false None.

Theorem issueClient_issues p cn s cert keyDER s' : pki_issueClient p cn s = (inr (cert, keyDER), s') ->
  (∃ key s1, ParsePKCS8 keyDER = inr (Some key) ∧ issued p cert (pub key) cn (time_Now s1) clientValidity ClientAuth)
  ∧ forall path, inode s' path = inode s path.
Proof.
  unfold pki_issueClient, issue, serial; intros H.
  apply bind_inv in H as [(? & _ & ?)|(key & s1 & H1 & H)]; [done|].
  apply bind_inv in H as [(? & _ & ?)|(der & s2 & Hi & H)]; [done|].
  apply bind_inv in H as [(? & _ & ?)|(d & s3 & [= Hd <-] & [[= -> ->] ->]%ret_inv)]; [done|].
  apply bind_inv in Hi as [(? & _ & ?)|(now & s4 & [[= ->] ->]%gets_inv & Hi)]; [done|].
  apply bind_inv in Hi as [(? & _ & ?)|(n & s5 & Hn & Hc)]; [done|].
  split.
  - destruct (cert_says _ _ _ _ _ _ _ Hc) as (c & Hp & Hs & Hk & Hb); exists key, s1; split; [by apply pkcs8_back|by exists c, n].
  - intros path; by rewrite (kept_all _ _ _ _ _ (cert_keeps _ _ _ _) Hc), (kept_all _ _ _ _ _ int_keeps Hn), (kept_all _ _ _ _ _ gen_keeps H1).
Qed.

(** The two files hold a certificate and its key: the certificate is signed with that
    key, for the name and time asked, serves TLS servers and issues nothing; and the
    disk is left alone. *)
Theorem selfSigned_pair cn validFor s certFile keyFile s' : SelfSignedCertificate cn validFor s = (inr (certFile, keyFile), s') ->
  (∃ key cert der keyDER n s1, pemDecode certFile = Some ("CERTIFICATE", der) ∧ ParseCertificate der = inr cert
    ∧ pemDecode keyFile = Some ("PRIVATE KEY", keyDER) ∧ ParsePKCS8 keyDER = inr (Some key)
    ∧ certifies cert = pub key ∧ signedBy cert (pub key) ∧ says cert = serverTemplate n (time_Now s1) cn validFor)
  ∧ forall path, inode s' path = inode s path.
Proof.
  unfold SelfSignedCertificate, serial; intros H.
  apply bind_inv in H as [(? & _ & ?)|(key & s1 & H1 & H)]; [done|].
  apply bind_inv in H as [(? & _ & ?)|(n & s2 & H2 & H)]; [done|].
  apply bind_inv in H as [(? & _ & ?)|(now & s3 & [[= ->] ->]%gets_inv & H)]; [done|].
  apply bind_inv in H as [(? & _ & ?)|(der & s4 & Hc & H)]; [done|].
  apply bind_inv in H as [(? & _ & ?)|(d & s5 & [= Hd <-] & [[= -> ->] ->]%ret_inv)]; [done|].
  split.
  - destruct (cert_says _ _ _ _ _ _ _ Hc) as (c & Hp & Hs & Hk & Hb); exists key, c, der, d, n, s2.
    split_and!; try done; [by rewrite pem_back|by rewrite pem_back|by apply pkcs8_back].
  - intros path; by rewrite (kept_all _ _ _ _ _ (cert_keeps _ _ _ _) Hc), (kept_all _ _ _ _ _ int_keeps H2), (kept_all _ _ _ _ _ gen_keeps H1).
Qed.

(** The authority three files hold. *)
Definition block (kind pem : string) : option bytes :=
  '(k, der) ← pemDecode pem; if decide (k = kind) then Some der else None.
Definition authority (dir caPEM keyPEM tc : string) (p : pki F) : Prop :=
  ∃ der cert keyDER key tls, block "CERTIFICATE" caPEM = Some der ∧ ParseCertificate der = inr cert
    ∧ block "PRIVATE KEY" keyPEM = Some keyDER ∧ ParsePKCS8 keyDER = inr (Some key)
    ∧ parseStaticKeyFile (Str.of_string tc) = inr tls ∧ p = mkPki dir cert key der tls.
Lemma authority_one dir a b c p p' : authority dir a b c p -> authority dir a b c p' -> p = p'.
Proof using Type.
  intros (d & x & kd & k & t & A1 & A2 & A3 & A4 & A5 & ->) (d' & x' & kd' & k' & t' & B1 & B2 & B3 & B4 & B5 & ->); congruence.
Qed.
Lemma block_inr kind pem der (e : gerror) : match pemDecode pem with
  | Some (k, der) => if bool_decide (k = kind) then (inr der : result bytes) else inl e
  | None => inl e end = inr der -> block kind pem = Some der.
Proof using Type.
  unfold block; destruct (pemDecode pem) as [[k d]|]; cbn; [|done]; case_bool_decide; [|done]; intros [= ->]; by rewrite decide_True.
Qed.

Lemma load_inv dir s p s' : load dir s = (inr p, s') ->
  (∃ c k t, inode s (caCertPath dir) = Some c ∧ inode s (caKeyPath dir) = Some k ∧ inode s (tlsCryptPath dir) = Some t
    ∧ authority dir (en_data c) (en_data k) (en_data t) p)
  ∧ forall path, inode s' path = inode s path.
Proof.
  unfold load; intros H; apply bind_inv in H as [(? & _ & ?)|(caPEM & s1 & R1 & H)]; [done|].
  apply bind_inv in H as [(? & _ & ?)|(der & ? & [= Hder <-] & H)]; [done|].
  apply bind_inv in H as [(? & _ & ?)|(cert & ? & [= Hcert <-] & H)]; [done|].
  apply bind_inv in H as [(? & _ & ?)|(keyPEM & s2 & R2 & H)]; [done|].
  apply bind_inv in H as [(? & _ & ?)|(keyDER & ? & [= Hkd <-] & H)]; [done|].
  apply bind_inv in H as [(? & _ & ?)|(key & ? & [= Hkey <-] & H)]; [done|].
  apply bind_inv in H as [(? & _ & ?)|(caKey & ? & [= Hca <-] & H)]; [done|].
  apply bind_inv in H as [(? & _ & ?)|(tc & s3 & R3 & H)]; [done|].
  apply bind_inv in H as [(? & _ & ?)|(tls & ? & [= Ht <-] & [[= ->] ->]%ret_inv)]; [done|].
  apply block_inr in Hder, Hkd; destruct key as [key|]; [|done]; injection Hca as ->.
  pose proof (kept_all _ _ _ _ (caKeyPath dir) (read_keeps _) R1) as K1.
  pose proof (fun path => kept_all _ _ _ _ path (read_keeps _) R2) as K2.
  destruct (read_gets _ _ _ _ R1) as (c & Ec & <-), (read_gets _ _ _ _ R2) as (k & Ek & <-), (read_gets _ _ _ _ R3) as (t & Et & <-).
  rewrite K1 in Ek; rewrite K2, (kept_all _ _ _ _ _ (read_keeps _) R1) in Et; split.
  - exists c, k, t; split_and!; [done..|]; by exists der, cert, keyDER, caKey, tls.
  - intros path; by rewrite (kept_all _ _ _ _ _ (read_keeps _) R3), K2, (kept_all _ _ _ _ _ (read_keeps _) R1).
Qed.

(** The start of every run: without a CA key, the authority is made; then it is read. *)
Lemma authority_run dir s p s' : loadOrCreatePKI dir s = (inr p, s') ->
  ∃ s1 s2, (forall a, plain a -> inode s1 (Join dir a) = inode s (Join dir a))
    ∧ (is_Some (inode s (caKeyPath dir)) ∧ s2 = s1 ∨ inode s (caKeyPath dir) = None ∧ create dir s1 = (inr tt, s2))
    ∧ load dir s2 = (inr p, s').
Proof.
  assert (plain "ca.key") as Hpl by (apply pkiFiles_plain; set_solver).
  unfold loadOrCreatePKI; intros H; apply bind_inv in H as [(? & _ & ?)|([] & s1 & Hm & H)]; [done|].
  apply bind_inv in H as [(? & (? & _ & [=])%attempt_inv & _)|(st & s2 & (x & Hst & [= ->])%attempt_inv & H)].
  apply bind_inv in H as [(? & _ & ?)|([] & s3 & Hc & H)]; [done|].
  assert (forall a, plain a -> inode s2 (Join dir a) = inode s (Join dir a)) as Hin.
  { intros a Ha; rewrite (kept_all _ _ _ _ _ (pki_stat_keeps _) Hst); pose proof (mkdir_inside dir 448 a s Ha) as K; by rewrite Hm in K. }
  assert (inode s1 (caKeyPath dir) = inode s (caKeyPath dir)) as E1.
  { pose proof (mkdir_inside dir 448 "ca.key" s Hpl) as K; by rewrite Hm in K. }
  pose proof (pki_stat_finds (caKeyPath dir) s1) as Hf; rewrite Hst, E1 in Hf; cbn in Hf.
  exists s2, s3; split; [done|]; split; [|done]; destruct x as [e|u].
  - right; split; [destruct (inode s (caKeyPath dir)) eqn:E; [|done]; by destruct Hf as [[? ?] _]; [eauto|]|].
    by apply or_throw_inv in Hc as [(? & _ & ?)|([] & Hc & _)].
  - left; split; [apply Hf; eauto|]; by apply ret_inv in Hc as [_ ->].
Qed.

(** The node keeps its authority: a later run that finds the three files as they were
    has the same certificate, key and tls-crypt key, and writes nothing. *)
Theorem authority_kept dir s p s' s1 p1 s1' : loadOrCreatePKI dir s = (inr p, s') ->
  (forall a, a ∈ pkiFiles -> inode s1 (Join dir a) = inode s' (Join dir a)) ->
  loadOrCreatePKI dir s1 = (inr p1, s1') ->
  p1 = p ∧ forall a, a ∈ pkiFiles -> inode s1' (Join dir a) = inode s1 (Join dir a).
Proof.
  intros (t1 & t2 & _ & _ & [(c & k & t & Ec & Ek & Et & Hauth) Hsame]%load_inv)%authority_run Hfiles
    (u1 & u2 & Hin & Hcase & [(c' & k' & t' & Ec' & Ek' & Et' & Hauth') Hsame']%load_inv)%authority_run.
  assert (is_Some (inode s1 (caKeyPath dir))) as Hsome
    by (unfold caKeyPath in *; rewrite (Hfiles "ca.key"), Hsame, Ek by set_solver; eauto).
  destruct Hcase as [[_ ->]|[E _]]; [|by rewrite E in Hsome; destruct Hsome].
  assert (forall a, a ∈ pkiFiles -> inode u1 (Join dir a) = inode t2 (Join dir a)) as Hall.
  { intros a Ha; by rewrite Hin, Hfiles, Hsame by (done || by apply pkiFiles_plain). }
  unfold caCertPath, caKeyPath, tlsCryptPath in *.
  rewrite Hall, Ec in Ec' by set_solver; rewrite Hall, Ek in Ek' by set_solver; rewrite Hall, Et in Et' by set_solver; simplify_eq.
  split; [by eapply authority_one|]; intros a Ha; rewrite Hsame', Hin; [done|by apply pkiFiles_plain].
Qed.

Lemma writeFiles_keeps files s r s' path : writeFiles files s = (r, s') -> path ∉ ((fun f => f.1.1) <$> files) -> inode s' path = inode s path.
Proof.
  revert s; induction files as [|f files IH]; intros s; [by intros [_ ->]%ret_inv|]; intros H Hp; cbn in Hp; rewrite not_elem_of_cons in Hp.
  destruct Hp as [Hp Hps]; apply bind_inv in H as [(e & H & ->)|([] & s1 & H1 & H)].
  - by rewrite (kept _ _ _ _ _ _ (write_keeps _ _ _) H Hp).
  - by rewrite (IH _ H Hps), (kept _ _ _ _ _ _ (write_keeps _ _ _) H1 Hp).
Qed.
Lemma writeFiles_holds files s s' : writeFiles files s = (inr tt, s') -> NoDup ((fun f => f.1.1) <$> files) ->
  Forall (fun f => ∃ e, inode s' f.1.1 = Some e ∧ en_data e = f.1.2) files.
Proof.
  revert s; induction files as [|f files IH]; intros s; [done|]; intros H [Hf Hnd]%NoDup_cons.
  apply bind_inv in H as [(e & _ & ?)|([] & s1 & H1 & H)]; [done|]; constructor; [|by eapply IH].
  apply write_sets in H1 as (e & E & Ed); exists e; by rewrite (writeFiles_keeps _ _ _ _ _ H Hf).
Qed.
Lemma pkiPaths_distinct dir : NoDup ((fun a => Join dir a) <$> pkiFiles).
Proof.
  apply NoDup_fmap_2_strong; [|by apply (bool_decide_unpack (NoDup _)); vm_compute].
  intros a b Ha Hb E; by apply join_base in E; [..|apply pkiFiles_plain|apply pkiFiles_plain].
Qed.

Lemma create_writes dir s s' : create dir s = (inr tt, s') ->
  ∃ caKey now n der cert keyDER tls file c k t,
    ParseCertificate der = inr cert ∧ says cert = caTemplate n now ∧ certifies cert = pub caKey ∧ signedBy cert (pub caKey)
    ∧ MarshalPKCS8 caKey = inr keyDER ∧ length tls = tlsCryptKeyLen ∧ staticKeyFile tls = Some file
    ∧ inode s' (caCertPath dir) = Some c ∧ en_data c = certPEM der ∧ inode s' (caKeyPath dir) = Some k ∧ en_data k = pemEncode "PRIVATE KEY" keyDER
    ∧ inode s' (tlsCryptPath dir) = Some t ∧ en_data t = Str.to_string file.
Proof.
  unfold create; intros H; apply bind_inv in H as [(? & _ & ?)|(caKey & s1 & _ & H)]; [done|].
  apply bind_inv in H as [(? & _ & ?)|(now & s2 & _ & H)]; [done|].
  apply bind_inv in H as [(? & _ & ?)|(n & s3 & _ & H)]; [done|].
  apply bind_inv in H as [(? & _ & ?)|(der & s4 & Hder & H)]; [done|].
  apply bind_inv in H as [(? & _ & ?)|(cert & s5 & [= Hcert <-] & H)]; [done|].
  apply bind_inv in H as [(? & _ & ?)|(serverKey & s6 & _ & H)]; [done|].
  apply bind_inv in H as [(? & _ & ?)|(serverDER & s7 & _ & H)]; [done|].
  apply bind_inv in H as [(? & _ & ?)|(tls & s8 & Htls & H)]; [done|].
  apply bind_inv in H as [(? & _ & ?)|(caPEM & s9 & [= Hca <-] & H)]; [done|].
  apply bind_inv in H as [(? & _ & ?)|(serverPEM & s10 & _ & H)]; [done|].
  apply bind_inv in H as [(? & _ & ?)|(keyFile & s11 & [= Hfile <-] & H)]; [done|].
  destruct (staticKeyFile tls) as [file|] eqn:Ef; [|done]; injection Hfile as <-.
  unfold mustKeyPEM in Hca; destruct (MarshalPKCS8 caKey) as [?|keyDER] eqn:Em; [done|]; injection Hca as <-.
  destruct (cert_says _ _ _ _ _ _ _ Hder) as (cert' & Hp & Hs & Hc & Hb); rewrite Hcert in Hp; injection Hp as <-.
  apply writeFiles_holds in H; [|apply (pkiPaths_distinct dir)]; rewrite !Forall_cons in H; cbn in H.
  destruct H as ((c & Ec & Dc) & (k & Ek & Dk) & _ & _ & (t & Et & Dt) & _).
  exists caKey, now, n, der, cert, keyDER, tls, file, c, k, t; split_and!; try done; by eapply rand_length.
Qed.

(** The authority a first run makes is one: its certificate is for its own key, signed
    with it, and may issue client and server certificates but no further authority;
    and what clients are given as the tls-crypt key is what the server reads. *)
Theorem authority_made dir s p s' : loadOrCreatePKI dir s = (inr p, s') -> inode s (caKeyPath dir) = None ->
  (∃ n now, says (p_caCert p) = caTemplate n now) ∧ certifies (p_caCert p) = pub (p_caKey p)
  ∧ signedBy (p_caCert p) (pub (p_caKey p)) ∧ ParseCertificate (p_caDER p) = inr (p_caCert p)
  ∧ length (p_tlsCrypt p) = tlsCryptKeyLen
  ∧ ∃ t, inode s' (tlsCryptPath dir) = Some t ∧ parseStaticKeyFile (Str.of_string (en_data t)) = inr (p_tlsCrypt p).
Proof.
  intros (s1 & s2 & _ & [[[? E'] _]|[_ Hc]] & [(c' & k' & t' & Ec' & Ek' & Et' & Hauth) Hsame]%load_inv)%authority_run E; [congruence|].
  apply create_writes in Hc as (caKey & now & n & der & cert & keyDER & tls & file & c & k & t & Hp & Hs & Hcf & Hb & Hm & Hl & Hf & Ec & Dc & Ek & Dk & Et & Dt).
  simplify_eq; rewrite Dc, Dk in Hauth.
  destruct Hauth as (der' & cert' & kd' & key' & tls' & A1 & A2 & A3 & A4 & A5 & ->); cbn.
  unfold block, certPEM in A1, A3; rewrite pem_back in A1, A3; cbn [mbind option_bind] in A1, A3.
  rewrite decide_True in A1 by done; rewrite decide_True in A3 by done; injection A1 as <-; injection A3 as <-.
  rewrite (pkcs8_back _ _ Hm) in A4; injection A4 as <-; rewrite Hp in A2; injection A2 as <-.
  destruct (static_key_roundtrip tls Hl) as (file' & Hf' & Hback); rewrite Hf in Hf'; injection Hf' as <-.
  pose proof A5 as A6; rewrite Dt, Str.of_to_string, Hback in A5; injection A5 as <-; rewrite Hsame; eauto 10.
Qed.

(** An authority that was left half made stays so: with a CA key and no tls-crypt key,
    as after a creation that ran out of disk in between, every later run fails and
    repairs nothing. *)
Theorem authority_stuck dir s : is_Some (inode s (caKeyPath dir)) -> inode s (tlsCryptPath dir) = None ->
  ∃ e, (loadOrCreatePKI dir s).1 = inl e.
Proof.
  intros Hk Ht; destruct (loadOrCreatePKI dir s) as [[e|p] s'] eqn:H; [by exists e|].
  apply authority_run in H as (s1 & s2 & Hin & [[_ ->]|[E _]] & [(c & k & t & _ & _ & Et & _) _]%load_inv); [|by rewrite E in Hk; destruct Hk].
  unfold tlsCryptPath in *; rewrite Hin, Ht in Et; [done|apply pkiFiles_plain; set_solver].
Qed.
End Promises.
