(* ===== verification/Lite.v ===== *)
(** The chain client: src/lite/client.go, query.go, tx.go, the transaction part of
    authz.go, and [QueryError] of src/types/error.go.

    A query or a broadcast goes to the configured remotes in turn until one
    answers.  The remotes themselves, the SDK's transaction builder and its key ring,
    and the retry package are parameters ([Rpc], [Sdk], [Retry]). *)
From stdpp Require Import pretty.
From S2P Require Import Prelude Types.
Set Default Proof Using "Type*".

(** * What is outside: gRPC answers, broadcasting, the clock *)

(** [auth.AccountI], what the client reads of it. *)
Record Account := mkAccount { GetAccountNumber : Z; GetSequence : Z }.
(** [sdk.TxResponse], what the client reads of it. *)
Record TxResponse := mkTxResponse { tx_Code : Z; RawLog : string; TxHash : string }.
(** The messages of a transaction: the node's own, or the wrapping one. *)
Inductive SdkMsg := NodeMsg (m : Msg) | MsgExec (grantee : string) (msgs : list Msg).
(** [tx.Factory], the settings the client changes per transaction. *)
Record Factory := mkFactory {
  fAccountNumber : Z; fSequence : Z; fGas : Z; fFeeGranter : option string; fSimulateAndExecute : bool }.
(** One page of [QueryNodesForPlan]: the addresses and the key of the next page. *)
Record NodesPage := mkPage { page_nodes : list string; NextKey : bytes }.

(** A call names the remote it is made to.  A value the chain packs as [Any] is
    unpacked by the SDK; an absent one leaves the target alone. *)
Class Rpc (W : Type) := {
  Any : Type;
  dial : string -> Z -> M W gerror unit;
  rpc_Account : string -> string -> M W gerror Any;
  rpc_Node : string -> string -> M W gerror Status;
  rpc_Session : string -> Z -> M W gerror Any;
  rpc_Subscription : string -> Z -> M W gerror ChainSubscription;
  rpc_Allocation : string -> Z -> string -> M W gerror Allocation;
  rpc_NodesForPlan : string -> Z -> bytes -> M W gerror NodesPage;
  rpc_SessionsForAccount : string -> string -> M W gerror (list Any);
  rpc_NodeParams : string -> M W gerror Z;
  rpc_SessionParams : string -> M W gerror Z;
  rpc_CalculateGas : string -> Factory -> list SdkMsg -> M W gerror Z;
  rpc_BroadcastTx : string -> bytes -> M W gerror TxResponse;
  rpc_QueryTx : string -> string -> M W gerror TxResponse;
  UnpackAccount : Any -> result (option Account);
  UnpackSession : Any -> result (option ChainSession);
  clock : W -> Z;
  Sleep : Z -> W -> W
}.

(** Building, signing and encoding are local. *)
Class Sdk := {
  UnsignedTx : Type; SignedTx : Type;
  BuildUnsignedTx : Factory -> list SdkMsg -> result UnsignedTx;
  Sign : Factory -> string -> UnsignedTx -> result SignedTx;
  TxEncoder : SignedTx -> result bytes
}.

(** [retry.Do(f, retry.Attempts(n))]. *)
Class Retry (W : Type) := { retryDo : nat -> M W gerror unit -> M W gerror unit }.

Definition of_result {S A} (r : result A) : M S gerror A := fun s => (r, s).

(** [errors.Join]: nil when there is nothing to join. *)
Definition Join {S A} (zero : A) (errs : list gerror) : M S gerror A :=
  match errs with
  | [] => mret zero
  | _ => throw (String.concat (String "010"%char "") errs)
  end.

(** A loop over the remotes that ends with the first that succeeds; the error
    names every remote. *)
Fixpoint failover {S A} (zero : A) (f : string -> M S gerror A) (remotes : list string) (errs : list gerror) : M S gerror A :=
  match remotes with
  | [] => Join zero errs
  | remote :: remotes =>
      res ← attempt (f remote);
      match res with
      | inr a => mret a
      | inl e => failover zero f remotes (errs ++ [remote +:+ ": " +:+ e]%string)
      end
  end.

(** * The client *)
Record Client := mkClient {
  granter : option string;
  FromAddress : string;
  FromName : string;
  queryTimeout : Z;
  remotes : list string;
  txf : Factory;
  txTimeout : Z
}.

Section Queries.
Context {W : Type} `{!Rpc W} (status_NotFound : gerror -> bool) (c : Client).

(** [types.QueryError]: "not found" is no error. *)
Definition QueryError {S} (e : gerror) : M S gerror unit := if status_NotFound e then mret tt else throw e.

(** The closures of the queries assign the caller's [result], which the remotes
    tried in turn share: the state is the world and that variable. *)
Definition world {R A} (m : M W gerror A) : M (W * R) gerror A := fun '(w, r) => let '(a, w') := m w in (a, (w', r)).
Definition assign {R} (v : R) : M (W * R) gerror unit := fun '(w, _) => (inr tt, (w, v)).
Definition returning {R} (r0 : R) (m : M (W * R) gerror unit) : M W gerror R := fun w =>
  let '(e, (w', r)) := m (w, r0) in (match e with inl e => inl e | inr _ => inr r end, w').

Definition query {R} (fn : string -> M (W * R) gerror unit) : M (W * R) gerror unit :=
  failover tt (fun remote => world (dial remote (queryTimeout c)) ≫= fun _ => fn remote) (remotes c) [].

(** [resp, err := call(...); if err != nil { return types.QueryError(err) }; use resp] *)
Definition on_answer {R X} (call : M W gerror X) (use : X -> M (W * R) gerror unit) : M (W * R) gerror unit :=
  resp ← attempt (world call);
  match resp with inl e => QueryError e | inr x => use x end.

(** [UnpackAny(any, &result)] *)
Definition unpack_to {T} (r : result (option T)) : M (W * option T) gerror unit :=
  match r with
  | inl e => throw e
  | inr None => mret tt
  | inr (Some x) => assign (Some x)
  end.

Definition lite_QueryAccount (addr : string) : M W gerror (option Account) :=
  returning None (query (fun ctx => on_answer (rpc_Account ctx addr) (fun resp => unpack_to (UnpackAccount resp)))).
Definition lite_QueryNode (addr : string) : M W gerror (option Status) :=
  returning None (query (fun ctx => on_answer (rpc_Node ctx addr) (fun resp => assign (Some resp)))).
Definition lite_QuerySession (id : Z) : M W gerror (option ChainSession) :=
  returning None (query (fun ctx => on_answer (rpc_Session ctx id) (fun resp => unpack_to (UnpackSession resp)))).
Definition lite_QuerySubscription (id : Z) : M W gerror (option ChainSubscription) :=
  returning None (query (fun ctx => on_answer (rpc_Subscription ctx id) (fun resp => assign (Some resp)))).
Definition lite_QueryAllocation (id : Z) (addr : string) : M W gerror (option Allocation) :=
  returning None (query (fun ctx => on_answer (rpc_Allocation ctx id addr) (fun resp => assign (Some resp)))).
(** The parameters are never "not found". *)
Definition lite_QueryNodeParams : M W gerror (option Z) :=
  returning None (query (fun ctx => resp ← world (rpc_NodeParams ctx); assign (Some resp))).
Definition lite_QuerySessionParams : M W gerror (option Z) :=
  returning None (query (fun ctx => resp ← world (rpc_SessionParams ctx); assign (Some resp))).

(** The pages of a plan's nodes; the chain hands out the keys, so the walk has
    fuel, and [None] when it runs out. *)
Fixpoint pages (fuel : nat) (ctx : string) (id : Z) (want : string) (key : bytes) (s : W * bool)
    : option ((gerror + unit) * (W * bool)) :=
  match fuel with
  | O => None
  | S fuel =>
      let '(resp, s1) := world (rpc_NodesForPlan ctx id key) s in
      match resp with
      | inl e => Some (QueryError e s1)
      | inr resp =>
          if bool_decide (want ∈ page_nodes resp) then Some (assign true s1)
          else if bool_decide (NextKey resp = []) then Some (inr tt, s1)
          else pages fuel ctx id want (NextKey resp) s1
      end
  end.
Definition HasNodeForPlan (fuel : nat) (id : Z) (want : string) : M W gerror bool :=
  returning false (query (fun ctx s => default (inl "out of fuel"%string, s) (pages fuel ctx id want [] s))).

(** [result = result[:0]], then one session after the other. *)
Definition lite_QuerySessionsForAccount (addr : string) : M W gerror (list (option ChainSession)) :=
  returning [] (query (fun ctx => on_answer (rpc_SessionsForAccount ctx addr) (fun resp =>
    assign [] ≫= fun _ =>
    each resp (fun any => fun '(w, res) =>
      match UnpackSession any with
      | inl e => (inl e, (w, res))
      | inr item => (inr tt, (w, res ++ [item]))
      end)))).
End Queries.

(** * Transactions *)
Section Transactions.
Context {W : Type} `{!Rpc W} {SK : Sdk} `{!Retry W} (status_NotFound : gerror -> bool) (c : Client).
(** The result codes [abci.CodeTypeOK] and [ErrTxInMempoolCache.ABCICode()]. *)
Context (CodeTypeOK ErrTxInMempoolCache : Z).
Local Open Scope string_scope.

Definition second : Z := 1000000000.

(** Polling every two seconds; [None] when the fuel runs out. *)
Fixpoint wait_loop (fuel : nat) (ctx hash : string) (deadline : Z) (w : W) : option ((gerror + TxResponse) * W) :=
  match fuel with
  | O => None
  | S fuel =>
      match rpc_QueryTx ctx hash w with
      | (inr res, w1) => Some (if (tx_Code res =? CodeTypeOK)%Z then (inr res, w1) else (inl (RawLog res), w1))
      | (inl _, w1) =>
          if (deadline <? clock w1)%Z
          then Some (inl ("transaction " +:+ hash +:+ " was not included within " +:+ pretty (txTimeout c) +:+ " seconds"), w1)
          else wait_loop fuel ctx hash deadline (Sleep (2 * second) w1)
      end
  end.
(** Turns within the timeout, one after it, and the start. *)
Definition wait_fuel : nat := Z.to_nat (txTimeout c / 2 + 2).
Definition waitForTx (ctx hash : string) : M W gerror TxResponse := fun w =>
  let deadline := clock w + wrap64 (txTimeout c * second) in
  default (inl "out of fuel", w) (wait_loop wait_fuel ctx hash deadline w).

Definition broadcastTx (remote : string) (txBytes : bytes) : M W gerror TxResponse :=
  dial remote (txTimeout c) ≫= fun _ =>
  resp ← rpc_BroadcastTx remote txBytes;
  if ((tx_Code resp =? CodeTypeOK) || (tx_Code resp =? ErrTxInMempoolCache))%Z
  then waitForTx remote (TxHash resp)
  else throw (RawLog resp).
Definition BroadcastTx (txBytes : bytes) : M W gerror (option TxResponse) :=
  failover None (fun remote => res ← broadcastTx remote txBytes; mret (Some res)) (remotes c) [].

Definition calculateGas (f : Factory) (messages : list SdkMsg) (remote : string) : M W gerror Z :=
  dial remote (txTimeout c) ≫= fun _ => rpc_CalculateGas remote f messages.
Definition CalculateGas (f : Factory) (messages : list SdkMsg) : M W gerror Z :=
  failover 0 (calculateGas f messages) (remotes c) [].

Definition WithGas (f : Factory) (gas : Z) : Factory :=
  mkFactory (fAccountNumber f) (fSequence f) gas (fFeeGranter f) (fSimulateAndExecute f).
(** The account's number and sequence, and the fee granter when there is one. *)
Definition with_account (acc : Account) : Factory :=
  mkFactory (GetAccountNumber acc) (GetSequence acc) (fGas (txf c))
    (if granter c is Some g then Some g else fFeeGranter (txf c)) (fSimulateAndExecute (txf c)).

Definition PrepareTxFactory (messages : list SdkMsg) : M W gerror Factory :=
  acc ← lite_QueryAccount status_NotFound c (FromAddress c);
  match acc with
  | None => throw ("account " +:+ FromAddress c +:+ " does not exist")
  | Some acc =>
      if fSimulateAndExecute (txf c)
      then gas ← CalculateGas (with_account acc) messages; mret (WithGas (with_account acc) gas)
      else mret (with_account acc)
  end.

Definition tx (messages : list SdkMsg) : M W gerror (option TxResponse) :=
  f ← PrepareTxFactory messages;
  txb ← of_result (BuildUnsignedTx f messages);
  signed ← of_result (Sign f (FromName c) txb);
  txBytes ← of_result (TxEncoder signed);
  BroadcastTx txBytes.

Definition execMessages (messages : list Msg) : list SdkMsg :=
  match granter c with
  | None => NodeMsg <$> messages
  | Some _ => [MsgExec (FromAddress c) messages]
  end.

(** The lock makes transactions one at a time.  The response is read for the log;
    that there is one is [tx_response]. *)
Definition lite_Tx (messages : list Msg) : M W gerror unit :=
  retryDo 5 (tx (execMessages messages) ≫= fun _ => mret tt).

(** The client behind the node's interface. *)
Definition lite_chain : Chain W := {|
  QueryNode := lite_QueryNode status_NotFound c;
  QuerySession := lite_QuerySession status_NotFound c;
  QuerySubscription := lite_QuerySubscription status_NotFound c;
  QueryAllocation := lite_QueryAllocation status_NotFound c;
  Tx := lite_Tx
|}.
End Transactions.
