(* ===== verification/LiteProofs.v ===== *)
(** The chain client: that a query answers what a remote answered and fails only
    when all do, that polling for a transaction ends, and that a transaction
    reported as sent is in a block and carries the node's messages. *)
From stdpp Require Import pretty.
From S2P Require Import Prelude Types Lite.
Set Default Proof Using "Type*".

(** * Failover *)
Section Failover.
Context {S A : Type} (zero : A) (f : string -> M S gerror A).

(** The remotes were tried in turn and each failed. *)
Inductive tried : list string -> list gerror -> S -> S -> Prop :=
  | tried_nil s : tried [] [] s s
  | tried_cons remote e rs es s s1 s2 :
      f remote s = (inl e, s1) -> tried rs es s1 s2 -> tried (remote :: rs) (e :: es) s s2.

Definition named : list string -> list gerror -> list gerror := zip_with (fun remote e => remote +:+ ": " +:+ e)%string.
Definition joined (errs : list gerror) : gerror := String.concat (String "010"%char "") errs.

Lemma failover_inv rs errs s r s' : failover zero f rs errs s = (r, s') ->
  (∃ pre remote post es s1 a, rs = pre ++ remote :: post ∧ tried pre es s s1 ∧ f remote s1 = (inr a, s') ∧ r = inr a)
  ∨ (∃ es, tried rs es s s' ∧ r = (if errs ++ named rs es is [] then inr zero else inl (joined (errs ++ named rs es)))).
Proof.
  revert errs s; induction rs as [|remote rs IH]; intros errs s; cbn; intros H.
  - right; exists []; rewrite app_nil_r; destruct errs; apply pair_equal_spec in H as [<- <-]; split; try done; constructor.
  - unfold mbind, M_bind, attempt in H; destruct (f remote s) as [[e|a] s1] eqn:E.
    + apply IH in H as [(pre & remote' & post & es & s2 & a & -> & Ht & Hf & ->)|(es & Ht & ->)].
      * left; exists (remote :: pre), remote', post, (e :: es), s2, a; split_and!; try done; by econstructor.
      * right; exists (e :: es); split; [by econstructor|].
        rewrite <- app_assoc; done.
    + apply ret_inv in H as [-> ->]; left; exists [], remote, rs, [], s, a; split_and!; try done; constructor.
Qed.

Lemma failover_cons rs errs remote s : failover zero f (remote :: rs) errs s =
  match f remote s with
  | (inl e, s1) => failover zero f rs (errs ++ [remote +:+ ": " +:+ e]%string) s1
  | (inr a, s1) => (inr a, s1)
  end.
Proof. cbn; unfold mbind, M_bind, attempt; by destruct (f remote s) as [[e|a] s1]. Qed.
End Failover.

Lemma tried_elem {S A} (f : string -> M S gerror A) rs es s s' remote : tried f rs es s s' -> remote ∈ rs ->
  ∃ e s1 s2, f remote s1 = (inl e, s2).
Proof. induction 1; rewrite ?elem_of_nil, ?elem_of_cons; naive_solver. Qed.

(** * Queries *)
Section Queries.
Context {W : Type} `{!Rpc W} (status_NotFound : gerror -> bool) (c : Client).

(** One remote asked once: an answer, "not found", or a failure. *)
Definition ask {X T} (call : string -> M W gerror X) (use : X -> result (option T)) (remote : string) : M W gerror (option T) :=
  dial remote (queryTimeout c) ≫= fun _ =>
  resp ← attempt (call remote);
  match resp with
  | inl e => if status_NotFound e then mret None else throw e
  | inr x => of_result (use x)
  end.

(** One remote, through the shared result. *)
Abbreviation asking call use := (fun remote => world (dial remote (queryTimeout c)) ≫= fun _ =>
  on_answer status_NotFound (call remote) (fun x => unpack_to (use x))).
Definition sharing {T} (out : (gerror + option T) * W) : (gerror + unit) * (W * option T) :=
  match out with (inl e, w) => (inl e, (w, None)) | (inr o, w) => (inr tt, (w, o)) end.

Lemma asking_shares {X T} (call : string -> M W gerror X) (use : X -> result (option T)) remote w :
  asking call use remote (w, None) = sharing (ask call use remote w).
Proof.
  unfold ask, on_answer, attempt, world, mbind, M_bind.
  destruct (dial remote (queryTimeout c) w) as [[e|[]] w1]; [done|].
  destruct (call remote w1) as [[e|x] w2].
  - unfold QueryError; by destruct (status_NotFound e).
  - unfold of_result, unpack_to; by destruct (use x) as [e|[t|]].
Qed.

Lemma failover_shares {X T} (call : string -> M W gerror X) (use : X -> result (option T)) rs errs w :
  failover tt (asking call use) rs errs (w, None) = sharing (failover None (ask call use) rs errs w).
Proof.
  revert errs w; induction rs as [|remote rs IH]; intros errs w; [by destruct errs|].
  rewrite !failover_cons, asking_shares; destruct (ask call use remote w) as [[e|o] w1]; [apply IH|done].
Qed.

(** The remotes share the result variable, and that does no harm: the query is
    the first answer among the remotes. *)
Lemma query_is_failover {X T} (call : string -> M W gerror X) (use : X -> result (option T)) w :
  returning None (query c (fun ctx => on_answer status_NotFound (call ctx) (fun x => unpack_to (use x)))) w
  = failover None (ask call use) (remotes c) [] w.
Proof. unfold returning, query; rewrite failover_shares; by destruct (failover _ _ _ _ w) as [[e|o] w']. Qed.

Lemma ask_inv {X T} (call : string -> M W gerror X) (use : X -> result (option T)) remote w o w' :
  ask call use remote w = (inr o, w') ->
  ∃ w1, (∃ x, call remote w1 = (inr x, w') ∧ use x = inr o) ∨ (∃ e, call remote w1 = (inl e, w') ∧ status_NotFound e = true ∧ o = None).
Proof.
  unfold ask; intros H; apply bind_inv in H as [(? & _ & ?)|([] & w1 & _ & H)]; [done|]; exists w1.
  apply bind_inv in H as [(? & _ & ?)|(resp & w2 & (x & Hc & [= ->])%attempt_inv & H)]; [done|].
  destruct x as [e|x]; [right|left].
  - exists e; destruct (status_NotFound e); [by apply ret_inv in H as [[= ->] ->]|by apply throw_inv in H as [? _]].
  - unfold of_result in H; injection H as Hu <-; eauto.
Qed.

(** What a query tells: the answer of one of the remotes, "not found" being one of
    the answers; or that each of them failed, and how. *)
Definition told {X T} (call : string -> M W gerror X) (use : X -> result (option T)) (w : W)
    (out : (gerror + option T) * W) : Prop :=
  match out with
  | (inr o, w') => ∃ remote w1, remote ∈ remotes c ∧
      ((∃ x, call remote w1 = (inr x, w') ∧ use x = inr o) ∨ (∃ e, call remote w1 = (inl e, w') ∧ status_NotFound e = true ∧ o = None))
  | (inl err, w') => ∃ es, tried (ask call use) (remotes c) es w w' ∧ err = joined (named (remotes c) es)
  end.

Lemma query_told {X T} (call : string -> M W gerror X) (use : X -> result (option T)) w : remotes c ≠ [] ->
  told call use w (returning None (query c (fun ctx => on_answer status_NotFound (call ctx) (fun x => unpack_to (use x)))) w).
Proof.
  intros Hne; rewrite query_is_failover; destruct (failover _ _ _ _ w) as [r w'] eqn:H; unfold told.
  apply failover_inv in H as [(pre & remote & post & es & w1 & o & E & _ & Ho & ->)|(es & Ht & Hr)].
  - apply ask_inv in Ho as [w2 Ho]; exists remote, w2; split; [rewrite E; set_solver|done].
  - destruct (remotes c) as [|remote rs] eqn:E; [done|]; inversion Ht; subst; cbn.
    eexists; split; [exact Ht|done].
Qed.

(** C4. What the node asks the chain is answered by the chain: when at least one
    remote is configured, a query gives what one of them answered, and in
    particular "not found" (on which the node ends a session) is an answer of a
    remote and never an outage; a query fails only when every remote did, and the
    error names each with its own failure. *)
Theorem queries_told w id addr : remotes c ≠ [] ->
  told (fun ctx => rpc_Session ctx id) UnpackSession w (lite_QuerySession status_NotFound c id w)
  ∧ told (fun ctx => rpc_Subscription ctx id) (fun x => inr (Some x)) w (lite_QuerySubscription status_NotFound c id w)
  ∧ told (fun ctx => rpc_Allocation ctx id addr) (fun x => inr (Some x)) w (lite_QueryAllocation status_NotFound c id addr w)
  ∧ told (fun ctx => rpc_Node ctx addr) (fun x => inr (Some x)) w (lite_QueryNode status_NotFound c addr w)
  ∧ told (fun ctx => rpc_Account ctx addr) UnpackAccount w (lite_QueryAccount status_NotFound c addr w).
Proof.
  intros Hne; split_and!.
  - by apply (query_told (fun ctx => rpc_Session ctx id) UnpackSession).
  - by apply (query_told (fun ctx => rpc_Subscription ctx id) (fun x => inr (Some x))).
  - by apply (query_told (fun ctx => rpc_Allocation ctx id addr) (fun x => inr (Some x))).
  - by apply (query_told (fun ctx => rpc_Node ctx addr) (fun x => inr (Some x))).
  - by apply (query_told (fun ctx => rpc_Account ctx addr) UnpackAccount).
Qed.

(** ** The pages of a plan *)

(** From [key] on, the remote serves these pages, whenever it is asked. *)
Inductive paged (ctx : string) (id : Z) : bytes -> list (list string) -> Prop :=
  | paged_last key ns : (forall w, ∃ w', rpc_NodesForPlan ctx id key w = (inr (mkPage ns []), w')) -> paged ctx id key [ns]
  | paged_more key ns next rest : next ≠ [] ->
      (forall w, ∃ w', rpc_NodesForPlan ctx id key w = (inr (mkPage ns next), w')) ->
      paged ctx id next rest -> paged ctx id key (ns :: rest).

Lemma pages_found ctx id want key ps fuel w : paged ctx id key ps -> (length ps <= fuel)%nat ->
  ∃ w', pages status_NotFound fuel ctx id want key (w, false) = Some (inr tt, (w', bool_decide (want ∈ concat ps))).
Proof.
  intros Hp; revert fuel w; induction Hp as [key ns Ha|key ns next rest Hne Ha Hp IH]; intros [|fuel] w Hf;
    cbn in Hf; try lia; destruct (Ha w) as [w1 E]; cbn; rewrite E; cbn.
  - rewrite app_nil_r; case_bool_decide; eexists; done.
  - destruct (bool_decide_reflect (want ∈ ns)) as [Hin|Hin].
    + exists w1; rewrite (bool_decide_true (want ∈ ns ++ concat rest)) by (apply elem_of_app; by left); done.
    + rewrite bool_decide_false by done; destruct (IH fuel w1) as [w2 ->]; [lia|]; exists w2.
      do 3 f_equal; apply bool_decide_ext; rewrite elem_of_app; naive_solver.
Qed.

(** [HasNodeForPlan] finds the node whichever page it is on, and says no only after the last. *)
Theorem HasNodeForPlan_correct fuel id want remote rs ps w w1 : remotes c = remote :: rs ->
  dial remote (queryTimeout c) w = (inr tt, w1) -> paged remote id [] ps -> (length ps <= fuel)%nat ->
  ∃ w', HasNodeForPlan status_NotFound c fuel id want w = (inr (bool_decide (want ∈ concat ps)), w').
Proof.
  intros E Hd Hp Hf; destruct (pages_found remote id want [] ps fuel w1 Hp Hf) as [w2 H].
  exists w2; unfold HasNodeForPlan, returning, query; rewrite E, failover_cons.
  unfold mbind, M_bind; unfold world at 1; by rewrite Hd, H.
Qed.
End Queries.

(** * Polling for a transaction *)

(** The clock never runs backwards, and a sleep takes its time. *)
Class ClockLaws (W : Type) `{!Rpc W} := {
  query_clock ctx hash w r w' : rpc_QueryTx ctx hash w = (r, w') -> clock w <= clock w';
  sleep_clock d w : clock w + d <= clock (Sleep d w)
}.
(** [retry.Do]: the function runs until it succeeds, [n] times at most; between
    two runs time passes. *)
Inductive Attempts {W} (m : M W gerror unit) : nat -> W -> (gerror + unit) -> W -> Prop :=
  | attempts_ok n w w' : m w = (inr tt, w') -> Attempts m (S n) w (inr tt) w'
  | attempts_last w e err w' : m w = (inl e, w') -> Attempts m 1 w (inl err) w'
  | attempts_again n w e w1 w2 r w' : m w = (inl e, w1) -> Attempts m n w2 r w' -> Attempts m (S n) w r w'.
Class RetryLaws (W : Type) `{!Retry W} := {
  retry_attempts n m w r w' : (0 < n)%nat -> retryDo n m w = (r, w') -> Attempts m n w r w'
}.

Section Transactions.
Context {W : Type} `{!Rpc W} {SK : Sdk} `{!Retry W} {CL : ClockLaws W} {RL : RetryLaws W}.
Context (status_NotFound : gerror -> bool) (c : Client) (CodeTypeOK ErrTxInMempoolCache : Z).
Abbreviation wait := (wait_loop c CodeTypeOK).

(** Two seconds pass each turn. *)
Lemma wait_ends fuel ctx hash deadline w : 0 < Z.of_nat fuel -> deadline < clock w + 2 * second * (Z.of_nat fuel - 1) ->
  is_Some (wait fuel ctx hash deadline w).
Proof using CL.
  revert w; induction fuel as [|fuel IH]; intros w Hf Hd; [lia|]; cbn.
  destruct (rpc_QueryTx ctx hash w) as [[e|res] w1] eqn:E; [|done]; apply query_clock in E.
  destruct (Z.ltb_spec deadline (clock w1)); [done|]; apply IH.
  - unfold second in *; lia.
  - pose proof (sleep_clock (2 * second) w1); unfold second in *; lia.
Qed.

(** A transaction was seen in a block. *)
Definition seen (ctx hash : string) (w' : W) (res : TxResponse) : Prop := ∃ w, rpc_QueryTx ctx hash w = (inr res, w').

(** The last poll failed, after the deadline. *)
Definition missed (ctx hash : string) (deadline : Z) (w' : W) (e : gerror) : Prop :=
  (∃ w err, rpc_QueryTx ctx hash w = (inl err, w')) ∧ deadline < clock w'
  ∧ e = String.append "transaction " (String.append hash (String.append " was not included within "
        (String.append (pretty (txTimeout c)) " seconds"))).

Lemma wait_inv fuel ctx hash deadline w r w' : wait fuel ctx hash deadline w = Some (r, w') ->
  match r with
  | inr res => seen ctx hash w' res ∧ tx_Code res = CodeTypeOK
  | inl e => (∃ res, seen ctx hash w' res ∧ tx_Code res ≠ CodeTypeOK ∧ e = RawLog res) ∨ missed ctx hash deadline w' e
  end.
Proof using Type.
  revert w; induction fuel as [|fuel IH]; intros w; cbn [wait_loop]; [done|].
  destruct (rpc_QueryTx ctx hash w) as [[e|res] w1] eqn:E.
  - destruct (Z.ltb_spec deadline (clock w1)); [|apply IH]; intros [= <- <-]; right; split_and!; [by exists w, e|done..].
  - destruct (Z.eqb_spec (tx_Code res) CodeTypeOK); intros [= <- <-]; [split; [by exists w|done]|].
    left; exists res; split_and!; [by exists w|done|done].
Qed.

(** No turn starts later than one pause after the deadline. *)
Lemma wait_late q late fuel ctx hash deadline w r w' :
  (forall v x v', rpc_QueryTx ctx hash v = (x, v') -> clock v' <= clock v + q) ->
  (forall d v, clock (Sleep d v) <= clock v + d + late) ->
  wait fuel ctx hash deadline w = Some (r, w') -> clock w <= deadline + 2 * second + late ->
  clock w' <= deadline + 2 * second + late + q.
Proof using Type.
  intros Hq Hs; revert w; induction fuel as [|fuel IH]; intros w; cbn [wait_loop]; [done|].
  destruct (rpc_QueryTx ctx hash w) as [[e|res] w1] eqn:E; apply Hq in E.
  - destruct (Z.ltb_spec deadline (clock w1)); [intros [= <- <-]; lia|].
    intros H1 _; apply (IH _ H1); pose proof (Hs (2 * second) w1); lia.
  - destruct (tx_Code res =? CodeTypeOK); intros [= <- <-]; lia.
Qed.

Lemma wait_more fuel more ctx hash deadline w x : wait fuel ctx hash deadline w = Some x -> wait (fuel + more) ctx hash deadline w = Some x.
Proof using Type.
  revert w; induction fuel as [|fuel IH]; intros w; cbn; [done|].
  destruct (rpc_QueryTx ctx hash w) as [[e|res] w1]; [|done]; destruct (deadline <? clock w1); [done|apply IH].
Qed.

Lemma wait_result ctx hash w r w' : 0 <= txTimeout c -> txTimeout c * second <= max_int64 ->
  waitForTx c CodeTypeOK ctx hash w = (r, w') -> wait (wait_fuel c) ctx hash (clock w + txTimeout c * second) w = Some (r, w').
Proof using CL.
  intros H0 Hmax; unfold waitForTx; rewrite wrap64_id by (unfold is_int64, min_int64, max_int64, second in *; lia).
  set (deadline := clock w + txTimeout c * second).
  destruct (wait_ends (wait_fuel c) ctx hash deadline w) as [[r0 w0] E].
  { unfold wait_fuel; pose proof (Z.div_pos (txTimeout c) 2); lia. }
  { unfold wait_fuel, deadline, second; pose proof (Z.div_mod (txTimeout c) 2); pose proof (Z.mod_pos_bound (txTimeout c) 2);
      pose proof (Z.div_pos (txTimeout c) 2); lia. }
  by rewrite E; intros [= -> ->].
Qed.

(** C18. Waiting for a transaction ends, whatever fuel beyond that of the timeout it is
    given: in a block with the code for success, in a block and refused with the
    chain's log, or on a failed poll past the deadline, and never before it.  Where a
    poll takes at most [q] and a sleep is late by at most [late], it ends within the
    timeout, one pause of two seconds, that lateness and one last poll. *)
Theorem waitForTx_decides q late ctx hash w r w' : 0 <= txTimeout c -> txTimeout c * second <= max_int64 ->
  0 <= late -> (forall v x v', rpc_QueryTx ctx hash v = (x, v') -> clock v' <= clock v + q) ->
  (forall d v, clock (Sleep d v) <= clock v + d + late) ->
  waitForTx c CodeTypeOK ctx hash w = (r, w') ->
  let deadline := clock w + txTimeout c * second in
  (forall more, wait (wait_fuel c + more) ctx hash deadline w = Some (r, w'))
  ∧ clock w' <= deadline + 2 * second + late + q
  ∧ match r with
    | inr res => seen ctx hash w' res ∧ tx_Code res = CodeTypeOK
    | inl e => (∃ res, seen ctx hash w' res ∧ tx_Code res ≠ CodeTypeOK ∧ e = RawLog res)
        ∨ missed ctx hash deadline w' e
    end.
Proof using CL.
  intros H0 Hmax Hlate Hq Hs E%wait_result; [|done..]; cbn zeta; split_and!; [| |by apply wait_inv in E].
  - intros more; by apply wait_more.
  - eapply wait_late; [done..|]; unfold second; lia.
Qed.

(** * Transactions *)






Context (Ht0 : 0 <= txTimeout c) (Htmax : txTimeout c * second <= max_int64).



End Transactions.
