(* ===== verification/Grants.v ===== *)
(** The grants of a hot key: src/lite/grants.go, the queries of src/lite/authz.go and
    [checkGrants] of src/cmd/start.go.

    A node may sign with a key other than its account's; the account then grants
    that key the node's messages and a fee allowance.  [EvaluateGrants] says whether
    they let the node run, now and over the next two weeks. *)
From S2P Require Import Prelude Types Lite.
Set Default Proof Using "Type*".

(** [time.Duration] in nanoseconds: fourteen days. *)
Definition GrantWarningWindow : Z := 14 * 24 * 3600 * second.

Record GrantState := mkGrant { Found : bool; Expiry : option Z }.

Abbreviation Coins := (list (string * Z)).
(** [feegrant.FeeAllowanceI]: the SDK's three kinds, and any other.  An allowance
    limited to some messages wraps another one, which may not unpack; a spend limit
    that is nil is none. *)
Inductive FeeAllowance :=
  | BasicAllowance (SpendLimit : option Coins)
  | PeriodicAllowance (Basic_SpendLimit : option Coins)
  | AllowedMsgAllowance (AllowedMessages : list string) (inner : FeeAllowance)
  | AllowedMsgUnreadable (AllowedMessages : list string) (err : gerror)
  | OtherAllowance (name : string).

Inductive MsgType :=
  | MsgRegisterNodeRequest | MsgUpdateNodeDetailsRequest | MsgUpdateNodeStatusRequest | MsgUpdateSessionRequest | MsgExecRequest.

(** * What the chain is asked *)
Class GrantsRpc (W : Type) := {
  AllowanceAny : Type;
  rpc_Grants : string -> string -> string -> string -> M W gerror (list (option Z));
  rpc_Allowances : string -> string -> M W gerror (list (string * AllowanceAny));
  UnpackAllowance : AllowanceAny -> result (option FeeAllowance)
}.

(** * The verdict *)
Section Evaluate.
(** [sdk.MsgTypeURL], the allowance's own expiry, [Coins.AmountOf] and the
    rendering of instants and amounts belong to the SDK and to package time. *)
Context (MsgTypeURL : MsgType -> string) (ExpiresAt : FeeAllowance -> result (option Z))
  (AmountOf : Coins -> string -> Z) (RFC3339 : Z -> string) (Itoa : Z -> string).
Local Open Scope string_scope.

Definition NodeMsgTypeURLs : list string :=
  MsgTypeURL <$> [MsgRegisterNodeRequest; MsgUpdateNodeDetailsRequest; MsgUpdateNodeStatusRequest; MsgUpdateSessionRequest].
Definition ExecMsgTypeURL : string := MsgTypeURL MsgExecRequest.

(** Problems and warnings, in the order they are found. *)
Abbreviation findings := (list string * list string)%type.
Definition problem (m : string) : findings := ([m], []).
Definition warning (m : string) : findings := ([], [m]).
Definition also (a b : findings) : findings := (a.1 ++ b.1, a.2 ++ b.2)%list.
Definition every {A} (l : list A) (f : A -> findings) : findings := foldr (fun x acc => also (f x) acc) ([], []) l.

(** The [switch] on an expiry, as [After] and [Before] compare. *)
Definition expires (now soon : Z) (expiry : option Z) (what : string) : findings :=
  match expiry with
  | None => ([], [])
  | Some t =>
      if (t <=? now)%Z then problem (what +:+ " expired at " +:+ RFC3339 t)
      else if (t <? soon)%Z then warning (what +:+ " expires at " +:+ RFC3339 t)
      else ([], [])
  end.
Definition evaluateGrant (now soon : Z) (grants : gmap string GrantState) (url : string) : findings :=
  let g := default (mkGrant false None) (grants !! url) in
  if Found g then expires now soon (Expiry g) ("the authz grant for " +:+ url)
  else problem ("no authz grant for " +:+ url).

Definition SpendLimit (a : FeeAllowance) : option Coins :=
  match a with
  | BasicAllowance l | PeriodicAllowance l => l
  | _ => None
  end.
Definition evaluateLimit (limit : option Coins) (minSpend : Coins) : findings :=
  match limit with
  | None => ([], [])
  | Some limit => every minSpend (fun coin =>
      let left := AmountOf limit coin.1 in
      let msg := "the fee allowance has " +:+ Itoa left +:+ coin.1 +:+ " left, less than 336h0m0s of fees" in
      if (left <? coin.2)%Z then if (left =? 0)%Z then problem msg else warning msg else ([], []))
  end.
(** After the wrapper is off. *)
Definition evaluateInner (now soon : Z) (a : FeeAllowance) (minSpend : Coins) : findings :=
  also (match ExpiresAt a with
        | inr expiry => expires now soon expiry "the fee allowance"
        | inl _ => ([], [])
        end) (evaluateLimit (SpendLimit a) minSpend).
Definition covers (msgs : list string) : findings :=
  if bool_decide (ExecMsgTypeURL ∈ msgs) then ([], []) else problem ("the fee allowance does not cover " +:+ ExecMsgTypeURL).
Definition evaluateAllowance (now soon : Z) (allowance : option FeeAllowance) (minSpend : Coins) : findings :=
  match allowance with
  | None => problem "no fee allowance from the granter"
  | Some (AllowedMsgAllowance msgs inner) => also (covers msgs) (evaluateInner now soon inner minSpend)
  | Some (AllowedMsgUnreadable msgs err) => also (covers msgs) (problem ("the fee allowance cannot be read: " +:+ err))
  | Some a => evaluateInner now soon a minSpend
  end.

Definition EvaluateGrants (now : Z) (grants : gmap string GrantState) (allowance : option FeeAllowance) (minSpend : Coins) : findings :=
  let soon := (now + GrantWarningWindow)%Z in
  also (every NodeMsgTypeURLs (evaluateGrant now soon grants)) (evaluateAllowance now soon allowance minSpend).

(** ** What it should say *)

(** An expiry that will do, or none. *)
Definition lasts (good : Z -> Prop) (expiry : option Z) : Prop := if expiry is Some e then good e else True.
Definition granted (good : Z -> Prop) (grants : gmap string GrantState) : Prop :=
  forall url, url ∈ NodeMsgTypeURLs -> ∃ g, grants !! url = Some g ∧ Found g = true ∧ lasts good (Expiry g).
(** The allowance that pays, and whether MsgExec may draw on it. *)
Inductive pays : FeeAllowance -> FeeAllowance -> Prop :=
  | pays_wrapped msgs inner : ExecMsgTypeURL ∈ msgs -> pays (AllowedMsgAllowance msgs inner) inner
  | pays_plain a : (forall msgs inner, a ≠ AllowedMsgAllowance msgs inner) -> (forall msgs e, a ≠ AllowedMsgUnreadable msgs e) -> pays a a.
Definition allowed (good : Z -> Prop) (enough : Z -> Z -> Prop) (allowance : option FeeAllowance) (minSpend : Coins) : Prop :=
  ∃ a inner, allowance = Some a ∧ pays a inner
    ∧ (forall expiry, ExpiresAt inner = inr expiry -> lasts good expiry)
    ∧ forall limit coin, SpendLimit inner = Some limit -> coin ∈ minSpend -> enough (AmountOf limit coin.1) coin.2.

(** Nothing to say. *)
Abbreviation silent f := (f.1 = [] ∧ f.2 = []).

Lemma also_problems a b : (also a b).1 = [] <-> a.1 = [] ∧ b.1 = [].
Proof. apply app_nil. Qed.
Lemma also_silent a b : silent (also a b) <-> silent a ∧ silent b.
Proof. unfold also; cbn; rewrite !app_nil; tauto. Qed.
Lemma every_problems {A} (l : list A) f : (every l f).1 = [] <-> forall x, x ∈ l -> (f x).1 = [].
Proof. induction l; cbn -[also]; rewrite ?also_problems, ?IHl; set_solver. Qed.
Lemma every_silent {A} (l : list A) f : silent (every l f) <-> forall x, x ∈ l -> silent (f x).
Proof. induction l; cbn -[also]; rewrite ?also_silent, ?IHl; set_solver. Qed.

Section Exact.
Set Default Proof Using "All".
Context (now soon : Z) (Hsoon : now < soon).

Lemma expires_problems e what : (expires now soon e what).1 = [] <-> lasts (fun t => now < t) e.
Proof. destruct e as [t|]; cbn; [|done]; destruct (Z.leb_spec t now), (Z.ltb_spec t soon); cbn; split; done || lia. Qed.
Lemma expires_silent e what : silent (expires now soon e what) <-> lasts (fun t => soon <= t) e.
Proof. destruct e as [t|]; cbn; [|done]; destruct (Z.leb_spec t now), (Z.ltb_spec t soon); cbn; naive_solver lia. Qed.

Lemma limit_problems limit minSpend : (evaluateLimit limit minSpend).1 = [] <->
  forall l coin, limit = Some l -> coin ∈ minSpend -> ~ (AmountOf l coin.1 = 0 ∧ 0 < coin.2).
Proof.
  destruct limit as [l|]; cbn; [|naive_solver]; rewrite every_problems; split.
  - intros H l' coin [= <-] Hc [E1 E2]; specialize (H coin Hc); rewrite E1 in H.
    by rewrite (proj2 (Z.ltb_lt _ _) E2) in H.
  - intros H coin Hc; specialize (H l coin eq_refl Hc).
    destruct (Z.ltb_spec (AmountOf l coin.1) coin.2), (Z.eqb_spec (AmountOf l coin.1) 0); try done; destruct H; lia.
Qed.
Lemma limit_silent limit minSpend : silent (evaluateLimit limit minSpend) <->
  forall l coin, limit = Some l -> coin ∈ minSpend -> coin.2 <= AmountOf l coin.1.
Proof.
  destruct limit as [l|]; cbn; [|naive_solver]; rewrite every_silent; split.
  - intros H l' coin [= <-] Hc; specialize (H coin Hc).
    destruct (Z.ltb_spec (AmountOf l coin.1) coin.2); [|lia]; destruct (AmountOf l coin.1 =? 0)%Z; naive_solver.
  - intros H coin Hc; specialize (H l coin eq_refl Hc); by rewrite (proj2 (Z.ltb_ge _ _) H).
Qed.

Lemma grant_problems grants url : (evaluateGrant now soon grants url).1 = [] <->
  ∃ g, grants !! url = Some g ∧ Found g = true ∧ lasts (fun t => now < t) (Expiry g).
Proof.
  unfold evaluateGrant; destruct (grants !! url) as [[[] e]|]; cbn; rewrite ?expires_problems; naive_solver.
Qed.
Lemma grant_silent grants url : silent (evaluateGrant now soon grants url) <->
  ∃ g, grants !! url = Some g ∧ Found g = true ∧ lasts (fun t => soon <= t) (Expiry g).
Proof.
  unfold evaluateGrant; destruct (grants !! url) as [[[] e]|]; cbn; rewrite ?expires_silent; naive_solver.
Qed.

Lemma inner_problems a minSpend : (evaluateInner now soon a minSpend).1 = [] <->
  (forall expiry, ExpiresAt a = inr expiry -> lasts (fun t => now < t) expiry)
  ∧ forall l coin, SpendLimit a = Some l -> coin ∈ minSpend -> ~ (AmountOf l coin.1 = 0 ∧ 0 < coin.2).
Proof.
  unfold evaluateInner; rewrite also_problems, limit_problems; destruct (ExpiresAt a); rewrite ?expires_problems; naive_solver.
Qed.
Lemma inner_silent a minSpend : silent (evaluateInner now soon a minSpend) <->
  (forall expiry, ExpiresAt a = inr expiry -> lasts (fun t => soon <= t) expiry)
  ∧ forall l coin, SpendLimit a = Some l -> coin ∈ minSpend -> coin.2 <= AmountOf l coin.1.
Proof.
  unfold evaluateInner; rewrite also_silent, limit_silent; destruct (ExpiresAt a); rewrite ?expires_silent; naive_solver.
Qed.

Lemma covers_silent msgs : (covers msgs).2 = [] ∧ ((covers msgs).1 = [] <-> ExecMsgTypeURL ∈ msgs).
Proof. unfold covers; case_bool_decide; cbn; naive_solver. Qed.

Lemma pays_inv a inner : pays a inner -> match a with
  | AllowedMsgAllowance msgs i => ExecMsgTypeURL ∈ msgs ∧ inner = i
  | AllowedMsgUnreadable _ _ => False
  | a => inner = a
  end.
Proof. destruct 1 as [|[]]; naive_solver. Qed.

Lemma covers_quiet msgs : silent (covers msgs) <-> ExecMsgTypeURL ∈ msgs.
Proof. destruct (covers_silent msgs); tauto. Qed.

(** One allowance at a time; a plain one pays itself. *)
Local Ltac allowance_cases lem :=
  split;
  [ intros H; repeat match goal with a : option FeeAllowance |- _ => destruct a as [[]|] end;
    cbn -[also] in H; rewrite ?also_silent, ?also_problems, ?lem, ?covers_quiet in H; destruct_and?; try done;
    do 2 eexists; (split_and!; [done|first [by apply pays_plain|apply pays_wrapped; first [done|by apply covers_silent]]|assumption..])
  | intros (a & i & -> & Hp%pays_inv & He & Hl); destruct a; cbn -[also];
      rewrite ?also_silent, ?also_problems, ?lem, ?covers_quiet; destruct_and?; simplify_eq; try done;
      split_and?; first [assumption|by apply covers_silent] ].

Lemma allowance_problems allowance minSpend : (evaluateAllowance now soon allowance minSpend).1 = [] <->
  allowed (fun t => now < t) (fun left need => ~ (left = 0 ∧ 0 < need)) allowance minSpend.
Proof. unfold allowed; allowance_cases inner_problems. Qed.
Lemma allowance_silent allowance minSpend : silent (evaluateAllowance now soon allowance minSpend) <->
  allowed (fun t => soon <= t) (fun left need => need <= left) allowance minSpend.
Proof. unfold allowed; allowance_cases inner_silent. Qed.
End Exact.

Lemma window_positive now : now < now + GrantWarningWindow.
Proof using Type. unfold GrantWarningWindow, second; lia. Qed.
Lemma evaluate_problems now grants allowance minSpend : (EvaluateGrants now grants allowance minSpend).1 = [] <->
  granted (fun t => now < t) grants ∧ allowed (fun t => now < t) (fun left need => ~ (left = 0 ∧ 0 < need)) allowance minSpend.
Proof using All.
  pose proof (window_positive now) as Hs; unfold EvaluateGrants, granted; rewrite also_problems, every_problems, (allowance_problems _ _ Hs).
  by setoid_rewrite (grant_problems _ _ Hs).
Qed.

Lemma evaluate_silent now grants allowance minSpend : silent (EvaluateGrants now grants allowance minSpend) <->
  granted (fun t => now + GrantWarningWindow <= t) grants
  ∧ allowed (fun t => now + GrantWarningWindow <= t) (fun left need => need <= left) allowance minSpend.
Proof using All.
  pose proof (window_positive now) as Hs; unfold EvaluateGrants, granted; rewrite also_silent, every_silent, (allowance_silent _ _ Hs).
  by setoid_rewrite (grant_silent _ _ Hs).
Qed.

(** C34. The verdict on a hot key is exact.  There is no problem exactly when, now,
    every message of the node has a grant that has not expired and an allowance
    that has not expired pays for MsgExec, with something left of each coin the
    node will need; there is neither problem nor warning exactly when all of that
    lasts for the whole window and the allowance covers what the node expects to
    spend. *)
Theorem EvaluateGrants_exact now grants allowance minSpend :
  let soon := now + GrantWarningWindow in
  let verdict := EvaluateGrants now grants allowance minSpend in
  (verdict.1 = [] <-> granted (fun t => now < t) grants
     ∧ allowed (fun t => now < t) (fun left need => ~ (left = 0 ∧ 0 < need)) allowance minSpend)
  ∧ (verdict.1 = [] ∧ verdict.2 = [] <-> granted (fun t => soon <= t) grants
     ∧ allowed (fun t => soon <= t) (fun left need => need <= left) allowance minSpend).
Proof using All.
  split; [apply evaluate_problems|apply evaluate_silent].
Qed.
End Evaluate.

(** * Reading the grants and refusing to start without them *)
Definition strContains (s sub : string) : bool := if String.index 0 sub s is Some _ then true else false.

Section Check.
Context {W : Type} `{!Rpc W} `{!GrantsRpc W} (status_NotFound : gerror -> bool) (c : Client) (ErrNoAuthorizationFound : string).
Context (MsgTypeURL : MsgType -> string) (ExpiresAt : FeeAllowance -> result (option Z))
  (AmountOf : Coins -> string -> Z) (RFC3339 Itoa : Z -> string).

(** A missing grant is an error of no particular code; its text tells. *)
Definition noAuthorization (e : gerror) : bool := strContains e ErrNoAuthorizationFound.

Definition QueryGrantExpiry (granter grantee url : string) : M W gerror (bool * option Z) :=
  returning (false, None) (query c (fun ctx =>
    resp ← attempt (world (rpc_Grants ctx granter grantee url));
    match resp with
    | inl e => if noAuthorization e then mret tt else QueryError status_NotFound e
    | inr (expiration :: _) => assign (true, expiration)
    | inr [] => mret tt
    end)).

Definition QueryFeeAllowance (granter grantee : string) : M W gerror (option FeeAllowance) :=
  returning None (query c (fun ctx => on_answer status_NotFound (rpc_Allowances ctx grantee) (fun resp =>
    match List.find (fun grant => bool_decide (grant.1 = granter)) resp with
    | Some grant => unpack_to (UnpackAllowance grant.2)
    | None => mret tt
    end))).

(** The account acted for; the empty text when there is none. *)
Definition granterString : string := default ""%string (granter c).
Fixpoint grant_states (urls : list string) (grants : gmap string GrantState) : M W gerror (gmap string GrantState) :=
  match urls with
  | [] => mret grants
  | url :: urls =>
      g ← QueryGrantExpiry granterString (FromAddress c) url;
      grant_states urls (<[url := mkGrant g.1 g.2]> grants)
  end.
Definition CheckGrants (now : Z) (minSpend : Coins) : M W gerror (list string * list string) :=
  grants ← grant_states (NodeMsgTypeURLs MsgTypeURL) ∅;
  allowance ← QueryFeeAllowance granterString (FromAddress c);
  mret (EvaluateGrants MsgTypeURL ExpiresAt AmountOf RFC3339 Itoa now grants allowance minSpend).

(** The start of a hot-key node; warnings are logged. *)
Definition checkGrants (expectedFees : Coins) : M W gerror unit :=
  now ← gets clock;
  verdict ← CheckGrants now expectedFees;
  throw_if (bool_decide (verdict.1 ≠ [])) ("the hot key cannot act for the node account: " +:+ String.concat "; " verdict.1 +:+ "; run "
    +:+ quoted "dvpnd keys authz-commands" +:+ " and make the grants it prints from the node account's wallet")%string.

(** What the chain said of one grant, at some moment of the check. *)
Definition said (url : string) (g : GrantState) : Prop :=
  ∃ w1 w2, QueryGrantExpiry granterString (FromAddress c) url w1 = (inr (Found g, Expiry g), w2).

Lemma grant_states_inv urls grants w grants' w' :
  grant_states urls grants w = (inr grants', w') -> (forall url g, grants !! url = Some g -> said url g) ->
  (forall url g, grants' !! url = Some g -> said url g) .
Proof.
  revert grants w; induction urls as [|url urls IH]; cbn; intros grants w H Hs.
  - by apply ret_inv in H as [[= ->] _].
  - apply bind_inv in H as [(? & _ & ?)|(g & w1 & Hq & H)]; [done|].
    apply (IH _ _ H); intros url' g' Hl.
    apply lookup_insert_Some in Hl as [[<- <-]|[_ Hl]]; [|by apply Hs].
    exists w, w1; cbn; by destruct g.
Qed.

(** A hot-key node starts only with grants that let it run now: for each of its
    messages the chain showed a grant that has not expired, and it showed an
    allowance that pays. *)
Theorem checkGrants_ok fees w w' : checkGrants fees w = (inr tt, w') ->
  ∃ grants allowance w1,
    (forall url g, grants !! url = Some g -> said url g)
    ∧ QueryFeeAllowance granterString (FromAddress c) w1 = (inr allowance, w')
    ∧ granted MsgTypeURL (fun t => clock w < t) grants
    ∧ allowed MsgTypeURL ExpiresAt AmountOf (fun t => clock w < t) (fun left need => ~ (left = 0 ∧ 0 < need)) allowance fees.
Proof.
  unfold checkGrants, CheckGrants; intros H; apply bind_inv in H as [(? & _ & ?)|(now & w0 & [[= ->] ->]%gets_inv & H)]; [done|].
  apply bind_inv in H as [(? & _ & ?)|(verdict & w1 & Hv & [-> [[_ ?]|[Hb _]]]%throw_if_inv)]; [done..|].
  apply bool_decide_eq_false in Hb; apply dec_stable in Hb.
  apply bind_inv in Hv as [(? & _ & ?)|(grants & w2 & Hg & Hv)]; [done|].
  apply bind_inv in Hv as [(? & _ & ?)|(allowance & w3 & Ha & [[= ->] ->]%ret_inv)]; [done|].
  apply evaluate_problems in Hb as [Hgr Hal]; exists grants, allowance, w2; split_and!; [|done..].
  by eapply grant_states_inv; [exact Hg|].
Qed.
End Check.
