(* ===== verification/LiteExample.v ===== *)
(** A chain with two remotes, one of them dead, and the client's theorems at work
    on it. *)
From stdpp Require Import pretty.
From S2P Require Import Prelude Types Lite LiteProofs.
Local Open Scope string_scope.

(** The instant and the transactions taken so far. *)
Record chainWorld := mkWorld { at_ : Z; taken : list bytes }.
Definition ex_acc : Account := mkAccount 12 4.
Definition ex_session7 : ChainSession := mkChainSession 7 "sent1client" "sentnode1" StatusActive 0 0 0 0 0 0 NodeSession.
(** Every call takes a tenth of a second; "live" answers. *)
Definition ex_call {A} (remote : string) (r : result A) : M chainWorld gerror A := fun w =>
  (if decide (remote = "live") then r else inl "connection refused", mkWorld (at_ w + 100000000) (taken w)).

#[export] Instance ex_rpc : Rpc chainWorld := {
  Any := Account + ChainSession;
  dial remote _ := ex_call remote (inr tt);
  rpc_Account remote _ := ex_call remote (inr (inl ex_acc));
  rpc_Node remote _ := ex_call remote (inr StatusActive);
  rpc_Session remote id := ex_call remote (if decide (id = 7) then inr (inr ex_session7) else inl "NotFound");
  rpc_Subscription remote _ := ex_call remote (inl "NotFound");
  rpc_Allocation remote _ _ := ex_call remote (inl "NotFound");
  rpc_NodesForPlan remote _ _ := ex_call remote (inr (mkPage [] []));
  rpc_SessionsForAccount remote _ := ex_call remote (inr [inr ex_session7]);
  rpc_NodeParams remote := ex_call remote (inr 3600);
  rpc_SessionParams remote := ex_call remote (inr 7200);
  rpc_CalculateGas remote _ msgs := ex_call remote (inr (100000 + 1000 * Z.of_nat (length msgs)));
  rpc_BroadcastTx remote txBytes w := (inr (mkTxResponse 0 "" "CAFE"), mkWorld (at_ w) (txBytes :: taken w));
  (* in a block five seconds in *)
  rpc_QueryTx remote hash := fun w =>
    (if decide (5 * second <= at_ w) then inr (mkTxResponse 0 "" hash) else inl "tx not found", w);
  UnpackAccount a := match a with inl acc => inr (Some acc) | inr _ => inl "not an account" end;
  UnpackSession a := match a with inr s => inr (Some s) | inl _ => inl "not a session" end;
  clock := at_;
  Sleep d w := mkWorld (at_ w + d) (taken w)
}.
#[export] Instance ex_clock : ClockLaws chainWorld.
Proof. split; cbn; [intros ctx hash w r w' [= _ <-]; lia|intros; cbn; lia]. Qed.

#[export] Instance ex_sdk : Sdk := {
  UnsignedTx := Factory * list SdkMsg; SignedTx := Factory * list SdkMsg * string;
  BuildUnsignedTx f msgs := inr (f, msgs);
  Sign f name t := inr (t, name);
  TxEncoder t := inr (replicate (length t.1.2) x01)
}.
(** Up to [n] runs, without a pause. *)
Fixpoint ex_retry (n : nat) (m : M chainWorld gerror unit) (w : chainWorld) : (gerror + unit) * chainWorld :=
  match n with
  | O => (inl "no attempts", w)
  | S n =>
      match m w with
      | (inr _, w') => (inr tt, w')
      | (inl e, w') => if decide (n = 0%nat) then (inl e, w') else ex_retry n m w'
      end
  end.
#[export] Instance ex_Retry : Retry chainWorld := { retryDo := ex_retry }.
Definition ex_client : Client :=
  mkClient (Some "sent1operator") "sent1hot" "hot" 10 ["dead"; "live"] (mkFactory 0 0 200000 None true) 30.
Definition ex_notFound (e : gerror) : bool := bool_decide (e = "NotFound").
Definition ex_start : chainWorld := mkWorld 0 [].

Lemma ex_retry_attempts n m w r w' : ex_retry (S n) m w = (r, w') -> Attempts m (S n) w r w'.
Proof.
  revert w; induction n as [|n IH]; intros w; cbn; destruct (m w) as [[e|[]] w1] eqn:E.
  - rewrite decide_True by done; intros [= <- <-]; by eapply attempts_last.
  - intros [= <- <-]; by apply attempts_ok.
  - rewrite decide_False by done; intros H; eapply attempts_again; [exact E|by apply IH].
  - intros [= <- <-]; by apply attempts_ok.
Qed.
#[export] Instance ex_RetryLaws : RetryLaws chainWorld.
Proof. split; intros [|n] m w r w' Hn H; [lia|by apply ex_retry_attempts]. Qed.

(** Session 7 is found behind the dead remote, and session 8 is not there: both are
    what "live" says. *)
Lemma queries_told_witness :
  (lite_QuerySession ex_notFound ex_client 7 ex_start).1 = inr (Some ex_session7)
  ∧ (lite_QuerySession ex_notFound ex_client 8 ex_start).1 = inr None
  ∧ told ex_notFound ex_client (fun ctx => rpc_Session ctx 8) UnpackSession ex_start (lite_QuerySession ex_notFound ex_client 8 ex_start).
Proof.
  split_and!; [vm_compute; reflexivity..|].
  apply (queries_told ex_notFound ex_client ex_start 8 ""); vm_compute; discriminate.
Defined.

(** Polled every two seconds, the transaction that is in a block after five is seen
    at six, within the thirty seconds of the timeout. *)
Lemma waitForTx_decides_witness : ∃ res w',
  waitForTx ex_client 0 "live" "CAFE" ex_start = (inr res, w') ∧ at_ w' = 6 * second
  ∧ at_ w' <= 30 * second + 2 * second
  ∧ seen "live" "CAFE" w' res ∧ tx_Code res = 0.
Proof.
  destruct (waitForTx ex_client 0 "live" "CAFE" ex_start) as [r w'] eqn:E.
  destruct (waitForTx_decides ex_client 0 0 0 "live" "CAFE" ex_start r w') as (_ & Hl & H);
    [vm_compute; discriminate..|intros v x v' [= _ <-]; lia|intros d v; cbn; lia|exact E|].
  vm_compute in E; injection E as <- <-; eexists _, _; split_and!; [reflexivity|reflexivity|vm_compute; discriminate|apply H..].
Defined.

