(* ===== verification/FirewallExample.v ===== *)
(** A concrete iptables (it executes [effect]) and a concrete packet filter, and
    the firewall's theorems at work on a small host. *)
From stdpp Require Import pretty relations.
From S2P Require Import Prelude Codec Guard StaticKey Egress EgressProofs EgressPolicy Lifecycle OpenVPNLife TunnelLife.

(** * The tools: one filter table each *)
Abbreviation host := (gmap string (gmap string (list rule))).
Definition host_table (h : host) (tool : string) : gmap string (list rule) := default ∅ (h !! tool).

#[export] Instance host_iptables : IPTables host := {
  table := host_table;
  RunCommand tool args h :=
    if decide (head args = Some "-t"%string) then (inr tt, h) else
    match effect args (host_table h tool) with
    | Some t => (inr tt, <[tool := t]> h)
    | None => (inl "exit status 1"%string, h)
    end
}.

#[export] Instance host_laws : IPTablesLaws host.
Proof.
  split; cbn; unfold host_table.
  - intros tool args s s' Ha; rewrite decide_False by done.
    destruct (effect _ _) as [t|]; [|done]; intros [= <-]; rewrite lookup_insert_eq; split; [done|].
    intros tool' Ht; by rewrite lookup_insert_ne.
  - intros tool args s e s'; case_decide; [done|]; destruct (effect _ _); [done|]; by intros [= _ <-].
  - intros tool args s r s' Ha; rewrite decide_True by done; by intros [= _ <-].
Qed.

Lemma host_removes tool : removes tool.
Proof.
  intros args s Hh [t Ht]; cbn in *; rewrite decide_False.
  - rewrite Ht; done.
  - intros Ha; rewrite Ha in Hh; rewrite !elem_of_cons in Hh; by destruct Hh as [|[|[|[]%not_elem_of_nil]]].
Qed.

(** * Packets *)
Record packet := mkPacket {
  k_in : string; k_out : string; k_proto : string; k_dport : Z; k_dst : list string;
  k_established : bool; k_origdst : string; k_origdport : Z; k_local : bool; k_owner : Z
}.

(** The matches of a rule, two words at a time. *)
Fixpoint packet_selects (r : rule) (p : packet) : bool :=
  match r with
  | key :: v :: r =>
      (if decide (key = "-i"%string) then bool_decide (k_in p = v)
       else if decide (key = "-o"%string) then bool_decide (k_out p = v)
       else if decide (key = "-d"%string) then bool_decide (v ∈ k_dst p)
       else if decide (key = "-p"%string) then bool_decide (k_proto p = v)
       else if decide (key = "--dport"%string) then bool_decide (Itoa (k_dport p) = v)
       else if decide (key = "--ctstate"%string) then k_established p
       else if decide (key = "--ctorigdst"%string) then bool_decide (k_origdst p = v)
       else if decide (key = "--ctorigdstport"%string) then bool_decide (Itoa (k_origdport p) = v)
       else if decide (key = "--dst-type"%string) then k_local p
       else if decide (key = "--uid-owner"%string) then bool_decide (Itoa (k_owner p) = v)
       else true) && packet_selects r p
  | _ => true
  end.

#[export] Instance packet_filter : Netfilter packet := {
  in_iface := k_in; out_iface := k_out; proto := k_proto; dport := k_dport;
  dst_in d p := bool_decide (d ∈ k_dst p); established := k_established;
  origdst := k_origdst; origdport := k_origdport; local_dst := k_local; owner := k_owner;
  selects := packet_selects
}.

Lemma Itoa_eqb a b : bool_decide (Itoa a = Itoa b) = (a =? b)%Z.
Proof.
  apply eq_bool_prop_intro; rewrite bool_decide_spec, Is_true_true, Z.eqb_eq; unfold Itoa; split; [|by intros ->].
  apply pretty_Z_inj.
Qed.

#[export] Instance packet_laws : NetfilterLaws packet.
Proof. split; intros; cbn -[Itoa]; rewrite ?Itoa_eqb; done. Qed.

(** * A host with the two tunnels' built-in chains *)
Local Open Scope string_scope.
Definition ex_ssh : rule := ["-p"; "tcp"; "--dport"; "22"; "-j"; "ACCEPT"].
Definition ex_chains : gmap string (list rule) := <["FORWARD" := []]> (<["INPUT" := [ex_ssh]]> {["OUTPUT" := []]}).
Definition ex_host : host := <["iptables" := ex_chains]> {["ip6tables" := ex_chains]}.
(** A host whose kernel has no IPv6 filter for INPUT: a start fails half way. *)
Definition ex_partial : host := <["iptables" := ex_chains]> {["ip6tables" := {["FORWARD" := []]}]}.
Definition ex_print (b : bytes) : string := "10.8.0.1".
Definition ex_policy : Egress := mkEgress false 8585 (Some [x0a; x08; x00; x01]).
Definition ex_tunnel : chains := tunnelChains ex_print "wg0" ex_policy.
Definition ex_up : host := (chains_up true ex_tunnel ex_host).2.

(** To the provider's metadata service; to ssh on the host. *)
Definition to_metadata : packet :=
  mkPacket "wg0" "eth0" "tcp" 80 ["169.254.0.0/16"; "169.254.169.254"] false "169.254.169.254" 80 false 0.
Definition to_ssh : packet := mkPacket "wg0" "" "tcp" 22 ["10.8.0.1"; "10.0.0.0/8"] false "10.8.0.1" 22 true 0.

Lemma tunnel_policy_witness : ∃ restF restI,
  table ex_up "iptables" !! "FORWARD" = Some (jumpF "wg0" :: restF)
  ∧ table ex_up "iptables" !! "INPUT" = Some (jumpI "wg0" :: restI)
  ∧ walk (table ex_up "iptables") to_metadata (jumpF "wg0" :: restF) (Some DROP)
  ∧ walk (table ex_up "iptables") to_ssh (jumpI "wg0" :: restI) (Some DROP).
Proof.
  destruct (tunnel_policy_exact (P := packet) true ex_print "wg0" ex_policy ex_host ex_up family4 [] [ex_ssh])
    as (restF & restI & HF & _ & HI & _ & Hp).
  - apply run_outcome; vm_compute; reflexivity.
  - by left.
  - vm_compute; reflexivity.
  - left; apply not_elem_of_nil.
  - vm_compute; reflexivity.
  - left; apply (bool_decide_unpack (_ ∉ _)); vm_compute; exact I.
  - exists restF, restI; split_and!; [done..| |].
    + apply (proj1 (Hp to_metadata)); vm_compute; reflexivity.
    + apply (proj2 (Hp to_ssh)); vm_compute; reflexivity.
Defined.

Definition ex_proxy : chains := proxyChains ex_print 998 [10085] [[x0a; x08; x00; x01]] ex_policy.
Definition ex_proxy_up : host := (chains_up true ex_proxy ex_host).2.
(** The proxy dials the metadata service, and its own hook on loopback. *)
Definition proxy_metadata : packet :=
  mkPacket "" "eth0" "tcp" 80 ["169.254.0.0/16"; "169.254.169.254"] false "169.254.169.254" 80 false 998.
Definition proxy_hook : packet :=
  mkPacket "" "lo" "tcp" 10085 ["127.0.0.0/8"; "127.0.0.1"] false "127.0.0.1" 10085 true 998.

Lemma proxy_policy_witness : ∃ rest,
  table ex_proxy_up "iptables" !! "OUTPUT" = Some (jumpO 998 :: rest)
  ∧ walk (table ex_proxy_up "iptables") proxy_metadata (jumpO 998 :: rest) (Some REJECT)
  ∧ walk (table ex_proxy_up "iptables") proxy_hook (jumpO 998 :: rest) (Some ACCEPT).
Proof.
  destruct (proxy_policy_exact (P := packet) true ex_print 998 [10085] [[x0a; x08; x00; x01]] ex_policy
    ex_host ex_proxy_up family4 []) as (rest & HO & _ & Hp).
  - apply run_outcome; vm_compute; reflexivity.
  - by left.
  - vm_compute; reflexivity.
  - left; apply not_elem_of_nil.
  - exists rest; split_and!; [done|..]; apply Hp; vm_compute; reflexivity.
Defined.

Lemma ex_clean l : l ∈ [ex_chains; {["FORWARD" := []]}] -> clean ex_tunnel l.
Proof.
  intros Hl; rewrite !elem_of_cons in Hl; split.
  - intros n Hn; unfold ex_tunnel in Hn; cbn in Hn; rewrite !elem_of_cons in Hn.
    by destruct Hn as [->|[->|[]%not_elem_of_nil]], Hl as [->|[->|[]%not_elem_of_nil]].
  - intros b j m Hj; unfold ex_tunnel in Hj; cbn in Hj; rewrite !elem_of_cons in Hj.
    destruct Hj as [[= -> ->]|[[= -> ->]|[]%not_elem_of_nil]], Hl as [->|[->|[]%not_elem_of_nil]]; cbn;
      intros Hm; vm_compute in Hm; try discriminate Hm; injection Hm as <-;
      apply (bool_decide_unpack (_ ∉ _)); vm_compute; exact I.
  - intros n k m r Hn; unfold ex_tunnel in Hn; cbn in Hn.
    assert (map_Forall (fun _ m => Forall (fun r => Forall (fun n => ~ suffix ["-j"; n] r) (ch_names ex_tunnel)) m) l) as H.
    { apply (bool_decide_unpack (map_Forall _ _)); by destruct Hl as [->|[->|[]%not_elem_of_nil]]; vm_compute. }
    intros Hk Hr; apply H in Hk; rewrite Forall_forall in Hk; specialize (Hk r Hr); rewrite Forall_forall in Hk; by apply Hk.
Qed.

(** On [ex_partial] the start fails, and going down restores the host. *)
Lemma firewall_leaves_no_trace_witness :
  (∃ e, (chains_up true ex_tunnel ex_partial).1 = inl e)
  ∧ forall tool, table (chains_down true (tunnelChains ex_print "wg0" Egress0) (chains_up true ex_tunnel ex_partial).2).2 tool
      = table ex_partial tool.
Proof.
  split; [eexists; vm_compute; reflexivity|].
  apply (firewall_leaves_no_trace true ex_print "wg0" 0 [] [] [] ex_policy); [by left|].
  intros f Hf; split; [apply host_removes|]; apply ex_clean.
  change (f ∈ [family4; family6]) in Hf; rewrite !elem_of_cons in Hf; destruct Hf as [->|[->|[]%not_elem_of_nil]]; [by left|by right; left].
Defined.

(** * Processes and files that leave the tables alone *)
#[export] Instance ex_Host : Host host := {
  ReadFile p := mret (if decide (p = "/proc/sys/net/ipv4/ip_forward") then "1" else "0");
  WriteFile _ _ := throw "read-only file system";
  StartProcess _ _ := mret tt;
  StopProcess := throw "signal: killed";
  dialManagement _ := mret tt;
  closeManagement := mret tt
}.
#[export] Instance ex_HostLaws : HostLaws host.
Proof. split; intros; intros s r s' H tool; by injection H as <- <-. Qed.

(** * A host with a nat table too *)
Definition natHost : Type := host * host.
Definition on_filter {A} (m : M host gerror A) : M natHost gerror A := fun h => let '(r, f) := m h.1 in (r, (f, h.2)).
#[export] Instance nat_iptables : IPTables natHost := {
  table h := host_table h.1;
  RunCommand tool args h :=
    if decide (take 2 args = ["-t"; "nat"]) then
      match effect (drop 2 args) (host_table h.2 tool) with
      | Some t => (inr tt, (h.1, <[tool := t]> h.2))
      | None => (inl "exit status 1", h)
      end
    else on_filter (RunCommand tool args) h
}.
#[export] Instance nat_NatTable : NatTable natHost := { nat_table h := host_table h.2 }.
#[export] Instance nat_Host : Host natHost := {
  ReadFile p := on_filter (ReadFile p); WriteFile p d := on_filter (WriteFile p d);
  StartProcess n a := on_filter (StartProcess n a); StopProcess := on_filter StopProcess;
  dialManagement p := on_filter (dialManagement p); closeManagement := on_filter closeManagement
}.
Lemma on_filter_inv {A} (m : M host gerror A) h r h' : on_filter m h = (r, h') -> m h.1 = (r, h'.1) ∧ h'.2 = h.2.
Proof. unfold on_filter; destruct (m h.1) as [x f]; by intros [= <- <-]. Qed.
Lemma head_nat (args : list string) : head args ≠ Some "-t" -> take 2 args ≠ ["-t"; "nat"].
Proof. intros Hh E; destruct args as [|a [|]]; cbn in *; congruence. Qed.

#[export] Instance nat_laws : IPTablesLaws natHost.
Proof.
  split; cbn -[host_table]; intros tool args h.
  - intros h' Ha; rewrite decide_False by (by apply head_nat); intros [H _]%on_filter_inv; exact (command_ok (F := host) tool args h.1 h'.1 Ha H).
  - intros e h'; case_decide as Hd; [destruct (effect _ _); [done|]; by intros [= _ <-]|].
    intros [H _]%on_filter_inv; exact (command_err (F := host) tool args h.1 e h'.1 H).
  - intros r h' Ha; case_decide as Hd; [destruct (effect _ _); by intros [= _ <-]|].
    intros [H _]%on_filter_inv; exact (command_other (F := host) tool args h.1 r h'.1 Ha H).
Qed.
#[export] Instance nat_HostLaws : HostLaws natHost.
Proof. split; intros; intros s r s' H tool; by injection H as <- <-. Qed.
#[export] Instance nat_NatLaws : NatLaws natHost.
Proof.
  split; [..|intros; intros s r s' H; by injection H as <- <-|intros; intros s r s' H; by injection H as <- <-
    |intros; intros s r s' H; by injection H as <- <-|intros; intros s r s' H; by injection H as <- <-
    |intros; intros s r s' H; by injection H as <- <-|intros; intros s r s' H; by injection H as <- <-]; cbn -[host_table take drop effect].
  - intros tool args h h'; change (take 2 ("-t" :: "nat" :: args)) with ["-t"; "nat"]; rewrite decide_True by done.
    change (drop 2 ("-t" :: "nat" :: args)) with args.
    destruct (effect args _) as [t|]; [|done]; intros [= <-]; unfold host_table; cbn; rewrite lookup_insert_eq; split; [done|].
    intros tool' Ht; by rewrite lookup_insert_ne.
  - intros tool args h e h'; case_decide as Hd; [destruct (effect _ _); [done|]; by intros [= _ <-]|].
    intros [_ H]%on_filter_inv tool'; by rewrite H.
  - intros tool args Ha x h r h'; cbn -[host_table take drop effect]; rewrite decide_False by (by apply head_nat).
    intros [_ H]%on_filter_inv; by rewrite H.
Qed.

Lemma natHost_removes tool : removes (F := natHost) tool ∧ removes_nat (F := natHost) tool.
Proof.
  split.
  - intros args h Hh [t Ht]; cbn -[host_table effect take]; rewrite decide_False.
    + change ((on_filter (RunCommand (F := host) tool args) h).1 = inr tt); unfold on_filter.
      pose proof (host_removes tool args h.1 Hh ltac:(by exists t)) as Hr; by destruct (RunCommand tool args h.1).
    + apply head_nat; intros Ha; rewrite Ha in Hh; rewrite !elem_of_cons in Hh; by destruct Hh as [|[|[|[]%not_elem_of_nil]]].
  - intros args h _ [t Ht]; unfold RunCommand, nat_iptables; rewrite decide_True by done.
    change (drop 2 _) with args; change (effect args (host_table h.2 tool) = Some t) in Ht; by rewrite Ht.
Qed.

(** ** OpenVPN on it *)
Definition ex_nat_chains : gmap string (list rule) := {["POSTROUTING" := []]}.
Definition ex_natHost : watched natHost := ((ex_host, <["iptables" := ex_nat_chains]> {["ip6tables" := ex_nat_chains]}), []).
Definition ex_started : (gerror + unit) * watched natHost :=
  ov_Start true ex_print "wg0" "eth0" "server.conf" "mgmt.sock" ex_policy ex_natHost.

Lemma ex_nat_clean : nat_clean "wg0" ex_chains.
Proof. intros l Hl; vm_compute in Hl; injection Hl as <-; split; apply not_elem_of_nil. Qed.
Lemma ex_post_clean : post_clean "eth0" ex_nat_chains.
Proof. intros l Hl; vm_compute in Hl; injection Hl as <-; apply not_elem_of_nil. Qed.

(** IPv6 forwarding cannot be switched on, which only warns; the server cannot be
    stopped, and the tables are the host's again all the same. *)
Lemma openvpn_lifecycle_witness :
  table ex_started.2 "iptables" !! "FORWARD" = Some [jumpF "wg0"; nat1 "wg0"; nat2 "wg0"]
  ∧ nat_table ex_started.2 "ip6tables" !! "POSTROUTING" = Some [masquerade "eth0"]
  ∧ ex_started.2.2.*2 = [Launched "openvpn" ["--config"; "server.conf"] true]
  ∧ same_tables ex_natHost.1 (ov_Stop true ex_print "wg0" "eth0" true true ex_started.2).2.1.
Proof.
  destruct (openvpn_lifecycle true ex_print "wg0" "eth0" "server.conf" "mgmt.sock" ex_policy ex_natHost (inr tt) ex_started.2)
    as (new & Hnew & _ & _ & Hin & Hnat & Hstop).
  - intros tool _; apply natHost_removes.
  - intros tool Ht; rewrite !elem_of_cons in Ht.
    assert (table ex_natHost.1 tool = ex_chains ∧ nat_table ex_natHost.1 tool = ex_nat_chains) as [-> ->].
    { destruct Ht as [->|[->|[]%not_elem_of_nil]]; done. }
    split; [apply ex_clean; by left|split; [apply ex_nat_clean|apply ex_post_clean]].
  - vm_compute; reflexivity.
  - split; [|split; [|split]].
    + destruct (Hin family4) as (lF & lI & EF & _ & TF & _); [by left|]; cbn in EF, TF.
      etrans; [exact TF|]; vm_compute in EF; by injection EF as <-.
    + destruct Hnat as (_ & N6 & _); etrans; [exact (f_equal (lookup "POSTROUTING") N6)|]; vm_compute; reflexivity.
    + vm_compute; reflexivity.
    + specialize (Hstop true ex_started.2 (fun tool => conj eq_refl eq_refl)).
      destruct (ov_Stop true ex_print "wg0" "eth0" true true ex_started.2) as [rs w2]; apply Hstop.
Defined.

(** * A wg-quick that runs its PostUp and PostDown *)
Definition ex_postUp (i action : string) (l : list rule) : list rule :=
  if decide (action = "up") then (l ++ nats i)%list else remove_one (nat2 i) (remove_one (nat1 i) l).
#[export] Instance ex_WgQuick : WgQuick host := {
  quick action i h := (inr tt, alter (ex_postUp i action) "FORWARD" <$> h);
  StatInterface _ := mret tt
}.
Lemma ex_postUp_moved i action l : nat_moved i l (ex_postUp i action l).
Proof.
  unfold ex_postUp; case_decide.
  - eapply (rtc_l _ _ (l ++ [nat1 i])%list); [exists (nat1 i); split; [by left|by left]|].
    eapply rtc_l; [exists (nat2 i); split; [by right; left|by left]|]; by rewrite <- app_assoc.
  - eapply (rtc_l _ _ (remove_one (nat1 i) l)); [exists (nat1 i); split; [by left|by right]|].
    eapply rtc_l; [exists (nat2 i); split; [by right; left|by right]|done].
Qed.
#[export] Instance ex_WgQuickLaws : WgQuickLaws host.
Proof.
  split; [|intros i s r s' H tool; by injection H as <- <-].
  intros action i s r s' [= <- <-] tool; cbn; unfold host_table; rewrite lookup_fmap.
  destruct (s !! tool) as [t|]; cbn; [|apply forward_moved_refl]; split; [intros; by rewrite lookup_alter_ne|].
  rewrite lookup_alter_eq; destruct (t !! "FORWARD"); cbn; [apply ex_postUp_moved|done].
Qed.

Definition ex_wg_started : host := (wg_Start true ex_print ex_policy "wg0" ex_host).2.
Lemma wireguard_lifecycle_witness :
  table ex_wg_started "iptables" !! "FORWARD" = Some [jumpF "wg0"; nat1 "wg0"; nat2 "wg0"]
  ∧ forall tool, same_but_nat "wg0" (table ex_host tool) (table (wg_Stop true ex_print "wg0" ex_wg_started).2 tool).
Proof.
  split; [vm_compute; reflexivity|].
  destruct (wireguard_lifecycle true ex_print ex_policy "wg0" ltac:(intros; apply host_removes) ex_host (inr tt) ex_wg_started) as [_ Hstop].
  - intros f Hf; apply ex_clean; change (f ∈ [family4; family6]) in Hf; rewrite !elem_of_cons in Hf.
    by destruct Hf as [->|[->|[]%not_elem_of_nil]]; left.
  - vm_compute; reflexivity.
  - by apply Hstop.
Defined.
