(* ===== verification/Amnezia.v ===== *)
(** AmneziaWG's configuration: src/services/amneziawg/types/config.go, subnet.go
    and keys.go, over the WireGuard configuration of
    src/services/wireguard/types/config.go.

    A node offers one or two tiers, each an interface with parameters and tunnel
    networks of its own.  The networks are named by the operator or derived from
    the tier's key; [TunnelNetworks] decides them and refuses tiers that meet.
    The address parser, the key's public half, sha256 and the random source are
    parameters. *)
From S2P Require Import Prelude Codec Types Admission Guard IPPool WireGuard WireGuardAPI Egress.
Set Default Proof Using "Type*".

(** * Constants (keys.go) *)
Definition VersionDefault : Z := 2.
Definition Version3 : Z := 3.
Definition V3Interface : string := "awg1".
Definition V3MTU : Z := 1280.
Definition V3MinPadding : Z := 12.
Definition HeaderKeyLength : nat := 32.

(** * WireGuard's configuration *)
Record WgConfig := mkWgConfig {
  w_Interface : string; w_ListenPort : Z; w_PrivateKey : string; w_Uplink : string; w_EnableIPv6 : bool }.
Definition WgConfig_Validate (c : WgConfig) : result unit :=
  check (bool_decide (w_Interface c = ""%string)) "interface cannot be empty" ;;
  check (w_ListenPort c =? 0) "listen_port cannot be zero" ;;
  check (bool_decide (w_PrivateKey c = ""%string)) "private_key cannot be empty" ;;
  Wrap "invalid private_key" (KeyFromString (w_PrivateKey c)) ;;
  inr tt.

(** * The parameters *)
Record Obfuscation := mkObf {
  o_Jc : Z; o_Jmin : Z; o_Jmax : Z;
  o_S : Z * Z * Z * Z;
  o_H : Z * Z * Z * Z;
  o_I : string * string * string * string * string }.

Definition list4 (t : Z * Z * Z * Z) : list Z := let '(a, b, c, d) := t in [a; b; c; d].
Definition IPackets (o : Obfuscation) : list (string * string) :=
  let '(a, b, c, d, e) := o_I o in [("i1", a); ("i2", b); ("i3", c); ("i4", d); ("i5", e)]%string.

(** The tag syntax [^(<(b 0x[0-9a-fA-F]+|t|r [0-9]+|rd [0-9]+|rc [0-9]+)>)+$]: no
    tag holds a [>], so the text is cut there. *)
Definition in_range (lo hi : N) (c : ascii) : bool := ((lo <=? N_of_ascii c) && (N_of_ascii c <=? hi))%N.
Definition isDigit : ascii -> bool := in_range 48 57.
Definition isHexDigit (c : ascii) : bool := isDigit c || in_range 65 70 c || in_range 97 102 c.
Definition some_of (p : ascii -> bool) (s : Str.chars) : bool :=
  negb (bool_decide (s = [])) && forallb p s.
Definition prefixed (pre : string) (p : ascii -> bool) (s : Str.chars) : bool :=
  let pre := Str.of_string pre in Str.has_prefix pre s && some_of p (drop (length pre) s).
Definition tagBody (s : Str.chars) : bool :=
  prefixed "b 0x" isHexDigit s || bool_decide (s = Str.of_string "t") || prefixed "r " isDigit s
  || prefixed "rd " isDigit s || prefixed "rc " isDigit s.
Fixpoint tags (seen : bool) (inside : option Str.chars) (s : Str.chars) : bool :=
  match s, inside with
  | [], None => seen
  | [], Some _ => false
  | c :: s, None => bool_decide (c = "<"%char) && tags seen (Some []) s
  | c :: s, Some body =>
      if bool_decide (c = ">"%char) then tagBody (rev body) && tags true None s
      else tags seen (Some (c :: body)) s
  end.
Definition iPacket (s : string) : bool := tags false None (Str.of_string s).

Definition validatePaddings (s : Z * Z * Z * Z) (min : Z) : result unit :=
  let '(s1, s2, s3, s4) := s in
  check ((1132 <? s1) || (1188 <? s2) || (1132 <? s3) || (1132 <? s4))
    "s1, s3 and s4 must be at most 1132, s2 at most 1188" ;;
  check (existsb (fun v => v <? min) (list4 s)) ("s1-s4 must be at least " +:+ Itoa min) ;;
  check (s1 + 56 =? s2) "s1 + 56 must not equal s2".

Fixpoint headers_distinct (seen h : list Z) : result unit :=
  match h with
  | [] => inr tt
  | v :: h =>
      check (v <=? 4) "h1-h4 must be above 4" ;;
      check (bool_decide (v ∈ seen)) "h1-h4 must be distinct" ;;
      headers_distinct (v :: seen) h
  end.
Definition validateHeaders (h : Z * Z * Z * Z) (allowZero : bool) : result unit :=
  if allowZero && forallb (fun v => v =? 0) (list4 h) then inr tt else headers_distinct [] (list4 h).

(** The signature packets are checked in Go's map order; which of several bad
    ones is named varies, whether one is does not. *)
Fixpoint validIPackets (l : list (string * string)) : result unit :=
  match l with
  | [] => inr tt
  | (name, v) :: l =>
      check (negb (bool_decide (v = ""%string)) && negb (iPacket v)) (name +:+ " is not in AmneziaWG's tag syntax") ;;
      validIPackets l
  end.
Definition Obfuscation_Validate (o : Obfuscation) : result unit :=
  check (128 <? o_Jc o) "jc must be at most 128" ;;
  check ((1280 <? o_Jmax o) || (o_Jmax o <? o_Jmin o)) "jmin must not exceed jmax, and jmax must be at most 1280" ;;
  validatePaddings (o_S o) 0 ;;
  validateHeaders (o_H o) true ;;
  validIPackets (IPackets o).

(** * The 3.1 tier *)
Record V3 := mkV3 {
  v_Enabled : bool; v_Interface : string; v_ListenPort : Z; v_PrivateKey : string;
  v_IPv4Subnet : string; v_IPv6Subnet : string; v_HeaderProtectionKey : string;
  v_S : Z * Z * Z * Z; v_H : Z * Z * Z * Z;
  v_RandomTrailers : bool; v_ContentPaddingAddition : string }.

Definition notRange (s : string) : gerror := (s +:+ " is not a range")%string.
Definition ParseRange (s : string) : result (Z * Z) :=
  match Str.split "-"%char (Str.of_string s) with
  | [a] => match Num.ParseUint32 a with Some v => inr (v, v) | None => inl (notRange s) end
  | [a; b] =>
      match Num.ParseUint32 a with
      | None => inl (notRange s)
      | Some lo => match Num.ParseUint32 b with Some hi => inr (lo, hi) | None => inl (notRange s) end
      end
  | _ => inl (notRange s)
  end.

Definition V3_Validate (v : V3) (defaultInterface : string) (defaultPort : Z) : result unit :=
  check (bool_decide (v_Interface v = ""%string) || bool_decide (v_Interface v = defaultInterface))
    "interface must be set and differ from the default tier's" ;;
  check ((v_ListenPort v =? 0) || (v_ListenPort v =? defaultPort))
    "listen_port must be set and differ from the default tier's" ;;
  Wrap "invalid private_key" (KeyFromString (v_PrivateKey v)) ;;
  check (match Base64.DecodeString (v_HeaderProtectionKey v) with
         | Some key => negb (length key =? HeaderKeyLength)%nat
         | None => true
         end) "header_protection_key must be base64 of 32 bytes" ;;
  validatePaddings (v_S v) V3MinPadding ;;
  validateHeaders (v_H v) false ;;
  range ← Wrap "invalid content_padding_addition" (ParseRange (v_ContentPaddingAddition v));
  check ((256 <? range.2) || (range.2 <? range.1)) "content_padding_addition must be a range within 0-256".

(** ** The interface's configuration lines *)
Definition junkLines (o : Obfuscation) : list string :=
  ["Jc = " +:+ Itoa (o_Jc o); "Jmin = " +:+ Itoa (o_Jmin o); "Jmax = " +:+ Itoa (o_Jmax o)]%string.
Definition iPacketLines (o : Obfuscation) : list string :=
  omap (fun p : string * string => if bool_decide (p.2 = ""%string) then None else Some (p.1 +:+ " = " +:+ p.2)%string)
    (zip ["I1"; "I2"; "I3"; "I4"; "I5"]%string (IPackets o).*2).
Definition paramLines (s h : Z * Z * Z * Z) : list string :=
  zip_with (fun name v => name +:+ " = " +:+ Itoa v)%string
    ["S1"; "S2"; "S3"; "S4"; "H1"; "H2"; "H3"; "H4"]%string (list4 s ++ list4 h).
Definition Obfuscation_InterfaceLines (o : Obfuscation) : list string :=
  junkLines o ++ paramLines (o_S o) (o_H o) ++ iPacketLines o.
Definition onOff (b : bool) : string := if b then "on" else "off".
Definition V3_InterfaceLines (v : V3) (base : Obfuscation) : list string :=
  ["MTU = " +:+ Itoa V3MTU]%string ++ junkLines base ++ paramLines (v_S v) (v_H v)
  ++ ["HeaderProtectionKey = " +:+ v_HeaderProtectionKey v; "RandomTrailers = " +:+ onOff (v_RandomTrailers v);
      "ContentPaddingAddition = " +:+ v_ContentPaddingAddition v]%string
  ++ iPacketLines base.

(** * Tunnel networks (subnet.go) *)
Record Networks := mkNetworks { n_IPv4 : IPNet; n_IPv6 : IPNet }.

Definition derivedIPv4Low : Z := 11.
Definition derivedIPv4Span : Z := 240.
Definition derivationLabel : bytes := String.list_byte_of_string "dvpnd amneziawg tunnel networks" ++ [x00].

(** [IP.IsPrivate]. *)
Definition IsPrivate (ip : bytes) : bool :=
  match To4 ip with
  | Some (a :: b :: _) =>
      (byte_to_Z a =? 10) || ((byte_to_Z a =? 172) && (Z.land (byte_to_Z b) 240 =? 16))
      || ((byte_to_Z a =? 192) && (byte_to_Z b =? 168))
  | Some _ => false
  | None => match ip with
            | a :: _ => (length ip =? 16)%nat && (Z.land (byte_to_Z a) 254 =? 252)
            | [] => false
            end
  end.

Definition overlap (a b : IPNet) : bool := Contains a (net_IP b) || Contains b (net_IP a).
Definition Overlaps (n o : Networks) : bool := overlap (n_IPv4 n) (n_IPv4 o) || overlap (n_IPv6 n) (n_IPv6 o).

(** [NewIPv4FromIP], [NewIPv6FromIP]: a copy into a zero array. *)
Definition NewIPv4FromIP (ip : bytes) : bytes := copy (replicate 4 x00) (default [] (To4 ip)).
Definition To16 (ip : bytes) : bytes :=
  if (length ip =? 4)%nat then v4InV6Prefix ++ ip else if (length ip =? 16)%nat then ip else [].
Definition NewIPv6FromIP (ip : bytes) : bytes := copy (replicate 16 x00) (To16 ip).

Definition Networks_Pool (n : Networks) : IPPool :=
  let v4 := Next (Next (NewIPv4FromIP (net_IP (n_IPv4 n)))) in
  let v6 := Next (Next (NewIPv6FromIP (net_IP (n_IPv6 n)))) in
  mkIPPool (NewPool v4 (n_IPv4 n)) (NewPool v6 (n_IPv6 n)).

Record Config := mkConfig {
  c_Interface : string; c_ListenPort : Z; c_PrivateKey : string; c_Uplink : string; c_EnableIPv6 : bool;
  c_IPv4Subnet : string; c_IPv6Subnet : string; c_Obfuscation : Obfuscation; c_V3 : option V3 }.

Definition overlapping : gerror := "the tunnel subnets of the default tier and section v3 overlap".

Section Config.
(** [net.ParseCIDR], the public half of a private key, sha256. *)
Context (ParseCIDR : string -> result (bytes * IPNet)) (Public : bytes -> bytes) (sha256 : bytes -> bytes).

Definition DeriveNetworks (public : bytes) : Networks :=
  let sum := sha256 (derivationLabel ++ public) in
  let at_ i := byte_to_Z (default x00 (sum !! i)) in
  mkNetworks
    (mkNet [byte_of_Z 10; byte_of_Z (derivedIPv4Low + at_ 0%nat mod derivedIPv4Span); byte_of_Z (at_ 1%nat); x00] 24)
    (mkNet (xfd :: take 5 (drop 2 sum) ++ replicate 10 x00) 120).

Definition parseSubnet (s : string) (v6 : bool) : result IPNet :=
  res ← ParseCIDR s;
  let '(ip, n) := res in
  let is4 := bool_decide (is_Some (To4 ip)) in
  check (negb v6 && negb is4) (s +:+ " is not an IPv4 network") ;;
  check (v6 && is4) (s +:+ " is not an IPv6 network") ;;
  check (negb (IsPrivate ip)) (s +:+ " is not a private network") ;;
  check (negb v6 && ((net_bits n <? 16) || (28 <? net_bits n))) (s +:+ ": the prefix must be /16 to /28") ;;
  check (v6 && ((net_bits n <? 64) || (124 <? net_bits n))) (s +:+ ": the prefix must be /64 to /124") ;;
  inr n.

Definition tierNetworks (ipv4 ipv6 privateKey : string) : result Networks :=
  key ← Wrap "invalid private_key" (KeyFromString privateKey);
  let n := DeriveNetworks (Public key) in
  v4 ← (if bool_decide (ipv4 = ""%string) then inr (n_IPv4 n) else Wrap "invalid ipv4_subnet" (parseSubnet ipv4 false));
  v6 ← (if bool_decide (ipv6 = ""%string) then inr (n_IPv6 n) else Wrap "invalid ipv6_subnet" (parseSubnet ipv6 true));
  inr (mkNetworks v4 v6).

Definition V3Enabled (c : Config) : option V3 :=
  match c_V3 c with
  | Some v => if v_Enabled v then Some v else None
  | None => None
  end.

(** The /24 after: [net.IPv4(ip[0], ip[1], ip[2]+1, 0)], the third byte wrapping. *)
Definition nextNet (n : IPNet) : IPNet :=
  match net_IP n with
  | a :: b :: c :: _ => mkNet [a; b; byte_of_Z (byte_to_Z c + 1); x00] (net_bits n)
  | _ => n
  end.

(** [None]: the 3.1 tier is off. *)
Definition TunnelNetworks (c : Config) : result (Networks * option Networks) :=
  def ← tierNetworks (c_IPv4Subnet c) (c_IPv6Subnet c) (c_PrivateKey c);
  match V3Enabled c with
  | None => inr (def, None)
  | Some v =>
      v3 ← Wrap "section v3" (tierNetworks (v_IPv4Subnet v) (v_IPv6Subnet v) (v_PrivateKey v));
      let v3 := if bool_decide (v_IPv4Subnet v = ""%string) && overlap (n_IPv4 def) (n_IPv4 v3)
                then mkNetworks (nextNet (n_IPv4 v3)) (n_IPv6 v3) else v3 in
      check (Overlaps def v3) overlapping ;;
      inr (def, Some v3)
  end.

Definition Config_WireGuard (c : Config) : WgConfig :=
  mkWgConfig (c_Interface c) (c_ListenPort c) (c_PrivateKey c) (c_Uplink c) (c_EnableIPv6 c).
Definition Config_WireGuardV3 (c : Config) (v : V3) : WgConfig :=
  mkWgConfig (v_Interface v) (v_ListenPort v) (v_PrivateKey v) (c_Uplink c) (c_EnableIPv6 c).

Definition Config_Validate (c : Config) : result unit :=
  WgConfig_Validate (Config_WireGuard c) ;;
  Wrap "invalid section obfuscation" (Obfuscation_Validate (c_Obfuscation c)) ;;
  match V3Enabled c with
  | Some v => Wrap "invalid section v3" (V3_Validate v (c_Interface c) (c_ListenPort c))
  | None => inr tt
  end ;;
  TunnelNetworks c ;;
  inr tt.
End Config.

(** * Generated settings *)
Class Rand (R : Type) := {
  rand_Int : Z -> R -> Z * R;        (* crypto/rand: a number below the bound *)
  rand_Read : nat -> R -> bytes * R
}.
Class RandLaws (R : Type) `{!Rand R} := {
  rand_Int_range n s : 0 < n -> 0 <= (rand_Int n s).1 < n;
  rand_Read_length n s : length (rand_Read n s).1 = n
}.

Definition uint16 (z : Z) : Z := z mod 2 ^ 16.
Definition uint32 (z : Z) : Z := z mod 2 ^ 32.

Section Generate.
Context {R : Type} `{!Rand R}.

Definition randomUint16 (min max : Z) (s : R) : Z * R :=
  let '(n, s) := rand_Int (uint16 (max - min + 1)) s in (uint16 (min + n), s).
Definition randomUint32 (min max : Z) (s : R) : Z * R :=
  let '(b, s) := rand_Read 4 s in (uint32 (min + BE.get b mod uint32 (max - min + 1)), s).
Definition RandomPort (s : R) : Z * R :=
  let '(n, s) := rand_Int (2 ^ 16 - 2 ^ 10) s in (uint16 (n + 2 ^ 10), s).

(** A loop that draws until the value will do: [None] when [fuel] draws did not. *)
Fixpoint until (fuel : nat) (draw : R -> Z * R) (good : Z -> bool) (s : R) : option (Z * R) :=
  match fuel with
  | O => None
  | S fuel => let '(v, s) := draw s in if good v then Some (v, s) else until fuel draw good s
  end.

Definition randomHandshakePaddings (fuel : nat) (min : Z) (s : R) : option (Z * Z * R) :=
  let '(s1, s) := randomUint16 min 150 s in
  '(s2, s) ← until fuel (randomUint16 min 150) (fun s2 => negb (s1 + 56 =? s2)) s;
  Some (s1, s2, s).

(** Four values, none drawn before. *)
Fixpoint drawHeaders (fuel n : nat) (headers : list Z) (s : R) : option (list Z * R) :=
  match n with
  | O => Some (headers, s)
  | S n =>
      '(h, s) ← until fuel (randomUint32 5 (2 ^ 31)) (fun h => negb (bool_decide (h ∈ headers))) s;
      drawHeaders fuel n (headers ++ [h]) s
  end.
Definition randomHeaders (fuel : nat) (s : R) : option (Z * Z * Z * Z * R) :=
  match drawHeaders fuel 4 [] s with
  | Some ([h1; h2; h3; h4], s) => Some (h1, h2, h3, h4, s)
  | _ => None
  end.

Definition Obfuscation_Generate (fuel : nat) (o : Obfuscation) (s : R) : option (Obfuscation * R) :=
  '(s1, s2, s) ← randomHandshakePaddings fuel 15 s;
  '(h, s) ← randomHeaders fuel s;
  Some (mkObf 4 40 70 (s1, s2, 0, 0) h (o_I o), s).

(** [NewPreSharedKey], [NewPrivateKey]. *)
Definition NewPreSharedKey (s : R) : bytes * R := rand_Read KeyLength s.
Definition NewPrivateKey (s : R) : bytes * R := let '(k, s) := NewPreSharedKey s in (clamp k, s).

Definition V3_Generate (fuel : nat) (v : V3) (defaultPort : Z) (s : R) : option (V3 * R) :=
  let '(key, s) := NewPrivateKey s in
  let '(header, s) := NewPreSharedKey s in
  let good p := negb ((p =? 0) || (p =? defaultPort)) in
  '(port, s) ← (if good (v_ListenPort v) then Some (v_ListenPort v, s) else until fuel RandomPort good s);
  '(s1, s2, s) ← randomHandshakePaddings fuel 16 s;
  let '(s3, s) := randomUint16 16 64 s in
  let '(s4, s) := randomUint16 16 32 s in
  '(h, s) ← randomHeaders fuel s;
  Some (mkV3 true V3Interface port (KeyString key) (v_IPv4Subnet v) (v_IPv6Subnet v) (KeyString header)
          (s1, s2, s3, s4) h true "0-64", s).

Definition zero4 : Z * Z * Z * Z := (0, 0, 0, 0).
Definition Obfuscation0 : Obfuscation := mkObf 0 0 0 zero4 zero4 ("", "", "", "", "")%string.
Definition V30 : V3 := mkV3 false "" 0 "" "" "" "" zero4 zero4 false "".
Definition NewConfig : Config := mkConfig "" 0 "" "" false "" "" Obfuscation0 (Some V30).

Definition WithDefaultValues (fuel : nat) (s : R) : option (Config * R) :=
  let c := NewConfig in
  let '(key, s) := NewPrivateKey s in
  let '(port, s) := RandomPort s in
  '(o, s) ← Obfuscation_Generate fuel (c_Obfuscation c) s;
  '(v, s) ← V3_Generate fuel V30 port s;
  Some (mkConfig "awg0" port (KeyString key) (c_Uplink c) true (c_IPv4Subnet c) (c_IPv6Subnet c) o (Some v), s).
End Generate.
