(* ===== verification/AmneziaProofs.v ===== *)
(** What AmneziaWG's configuration guarantees: accepted tunnel networks never
    meet, every pool over them is sound, and generated settings are accepted. *)
From S2P Require Import Prelude Codec Types Admission Guard IPPool WireGuard WireGuardAPI Egress Amnezia.
Set Default Proof Using "Type*".

(** * Networks that meet *)
Abbreviation hosts w net := (2 ^ (8 * Z.of_nat w - net_bits net)).

(** A network of [S n]-byte addresses that does not start with a zero byte. *)
Record plain_net (n : nat) (net : IPNet) : Prop := {
  pn_len : length (net_IP net) = S n;
  pn_bits : 0 <= net_bits net <= 8 * Z.of_nat (S n);
  pn_low : 256 ^ Z.of_nat n <= BE.get (net_IP net)
}.

Lemma Contains_iff n net ip : length (net_IP net) = S n -> Contains net ip = true <->
  length (default ip (To4 ip)) = S n
  ∧ BE.get (default ip (To4 ip)) / hosts (S n) net = BE.get (net_IP net) / hosts (S n) net.
Proof.
  intros Hl; unfold Contains, prefix_of; rewrite Hl, andb_true_iff, bool_decide_eq_true, Z.eqb_eq; done.
Qed.

Lemma Contains_net n a b : plain_net n a -> plain_net n b -> Contains a (net_IP b) = true <->
  BE.get (net_IP b) / hosts (S n) a = BE.get (net_IP a) / hosts (S n) a.
Proof.
  intros Ha Hb; rewrite (Contains_iff n) by apply Ha.
  rewrite (To4_default n) by apply Hb; pose proof (pn_len _ _ Hb); naive_solver.
Qed.

(** Prefixes that agree agree on every shorter prefix. *)
Lemma shorter_prefix x y i j : 0 <= j <= i -> x / 2 ^ j = y / 2 ^ j -> x / 2 ^ i = y / 2 ^ i.
Proof.
  intros Hij H; replace i with (j + (i - j)) by lia; rewrite Z.pow_add_r by lia.
  rewrite <- !Z.div_div by (try apply Z.pow_nonzero; try apply Z.pow_pos_nonneg; lia); by rewrite H.
Qed.

Lemma overlap_iff n a b : plain_net n a -> plain_net n b ->
  overlap a b = true <-> ∃ ip, Contains a ip = true ∧ Contains b ip = true.
Proof.
  intros Ha Hb; unfold overlap; rewrite orb_true_iff; split.
  - intros [H|H]; [exists (net_IP b)|exists (net_IP a)]; split; try done; by apply (Contains_net n).
  - intros (ip & [Hl H1]%(Contains_iff n) & [_ H2]%(Contains_iff n)); [|apply Hb|apply Ha].
    rewrite !(Contains_net n) by done; pose proof (pn_bits _ _ Ha); pose proof (pn_bits _ _ Hb).
    destruct (Z.le_ge_cases (net_bits a) (net_bits b)); [left|right]; symmetry.
    + rewrite <- H1; apply (shorter_prefix _ _ _ (8 * Z.of_nat (S n) - net_bits b)); [lia|done].
    + rewrite <- H2; apply (shorter_prefix _ _ _ (8 * Z.of_nat (S n) - net_bits a)); [lia|done].
Qed.

(** * A tier's networks *)

(** The network's address, with the host bits cleared. *)
Definition masked (bits : Z) (ip : bytes) : bytes :=
  let h := 2 ^ (8 * Z.of_nat (length ip) - bits) in BE.put (length ip) (BE.get ip / h * h).

(** net.ParseCIDR: the address as 16 bytes, and its network, of 4 bytes for an
    address in dotted form. *)
Class CIDRLaws (ParseCIDR : string -> result (bytes * IPNet)) := parse_cidr s ip n :
  ParseCIDR s = inr (ip, n) -> length ip = 16%nat ∧ 0 <= net_bits n
  ∧ ((∃ v4, To4 ip = Some v4 ∧ net_bits n <= 32 ∧ net_IP n = masked (net_bits n) v4)
     ∨ net_bits n <= 128 ∧ net_IP n = masked (net_bits n) ip).

(** A network pools can be made of: canonical, neither at the start nor at the end
    of the address space. *)
Record tunnel_net (n : nat) (bmin bmax : Z) (net : IPNet) : Prop := {
  tn_len : length (net_IP net) = S n;
  tn_bits : bmin <= net_bits net <= bmax;
  tn_canon : BE.get (net_IP net) mod hosts (S n) net = 0;
  tn_low : 256 ^ Z.of_nat n <= BE.get (net_IP net);
  tn_high : BE.get (net_IP net) + 256 ^ Z.of_nat n < 256 ^ Z.of_nat (S n)
}.
Abbreviation tunnel4 := (tunnel_net 3 16 28).
Abbreviation tunnel6 := (tunnel_net 15 64 124).

Lemma tunnel_plain n bmin bmax net : 0 <= bmin -> bmax <= 8 * Z.of_nat (S n) ->
  tunnel_net n bmin bmax net -> plain_net n net.
Proof. intros ?? [Hl Hb _ Hlo _]; split; [done|lia|done]. Qed.

Lemma masked_length bits ip : length (masked bits ip) = length ip.
Proof. apply BE.put_length. Qed.

Lemma get_masked bits ip : 0 <= bits <= 8 * Z.of_nat (length ip) ->
  let h := 2 ^ (8 * Z.of_nat (length ip) - bits) in
  BE.get (masked bits ip) = BE.get ip / h * h ∧ BE.get ip - h < BE.get (masked bits ip) <= BE.get ip.
Proof.
  intros Hb h; assert (0 < h) by (apply Z.pow_pos_nonneg; lia); unfold masked; fold h.
  pose proof (BE.get_range ip); pose proof (Z.div_mod (BE.get ip) h ltac:(lia)).
  pose proof (Z.mod_pos_bound (BE.get ip) h ltac:(lia)).
  rewrite BE.get_put, Z.mod_small by (split; [apply Z.mul_nonneg_nonneg; [apply Z.div_pos|]|]; lia); lia.
Qed.

(** A masked address keeps its leading byte as long as the prefix covers it. *)
Lemma masked_tunnel n bmin bmax bits a ip : length ip = n -> 8 <= bmin -> bmax <= 8 * Z.of_nat (S n) ->
  bmin <= bits <= bmax -> 1 <= byte_to_Z a <= 254 ->
  tunnel_net n bmin bmax (mkNet (masked bits (a :: ip)) bits).
Proof.
  intros Hl H8 Hmax Hb Ha; assert (length (a :: ip) = S n) as HL by (simpl; by rewrite Hl).
  destruct (get_masked bits (a :: ip)) as [E R]; [rewrite HL; lia|]; rewrite HL in E, R.
  set (h := 2 ^ (8 * Z.of_nat (S n) - bits)) in *; assert (0 < h) by (apply Z.pow_pos_nonneg; lia).
  assert (256 ^ Z.of_nat n = 2 ^ (8 * Z.of_nat n)) as E256 by (change 256 with (2 ^ 8); by rewrite <- Z.pow_mul_r by lia).
  assert (∃ k, 256 ^ Z.of_nat n = k * h ∧ 0 < k) as (k & Hk & Hk0).
  { exists (2 ^ (bits - 8)); split; [|apply Z.pow_pos_nonneg; lia].
    unfold h; rewrite E256, <- Z.pow_add_r by lia; f_equal; lia. }
  assert (byte_to_Z a * 256 ^ Z.of_nat n <= BE.get (masked bits (a :: ip))) as Hlow.
  { rewrite E; rewrite BE.get_cons, Hl; pose proof (BE.get_range ip).
    rewrite Hk, Z.mul_assoc, Z.add_comm, Z.div_add by lia.
    rewrite Z.mul_add_distr_r; assert (0 <= BE.get ip / h * h) by (apply Z.mul_nonneg_nonneg; [apply Z.div_pos|]; lia); lia. }
  rewrite BE.get_cons, Hl in R; pose proof (BE.get_range ip) as Hr; rewrite Hl in Hr.
  split; cbn [net_IP net_bits]; [by rewrite masked_length|lia|fold h; rewrite E; by apply Z.mod_mul; lia|nia|].
  rewrite Nat2Z.inj_succ, Z.pow_succ_r by lia; nia.
Qed.

(** What a chain of checks that went through tells. *)
Lemma check_ok b e {A} (k : result A) a : (check b e ;; k) = inr a -> b = false ∧ k = inr a.
Proof. destruct b; cbn; [done|auto]. Qed.
Lemma bind_ok {A B} (r : result A) (f : A -> result B) b : (r ≫= f) = inr b -> ∃ a, r = inr a ∧ f a = inr b.
Proof. destruct r as [e|a]; cbn; [done|eauto]. Qed.
Lemma Wrap_ok {A} msg (r : result A) a : Wrap msg r = inr a <-> r = inr a.
Proof. destruct r; cbn; split; congruence. Qed.

Lemma To4_length ip v4 : To4 ip = Some v4 -> length v4 = 4%nat.
Proof.
  unfold To4; case_bool_decide; [by intros [= <-]|].
  case_bool_decide as E; cbn; [|done]; case_bool_decide; [|done]; intros [= <-].
  rewrite length_drop, E; done.
Qed.

Lemma ula_byte a : (Z.land (byte_to_Z a) 254 =? 252) = true -> 1 <= byte_to_Z a <= 254.
Proof. destruct a; vm_compute; intuition discriminate. Qed.

Section Tiers.
Context (ParseCIDR : string -> result (bytes * IPNet)) {HC : CIDRLaws ParseCIDR}.
Context (Public sha256 : bytes -> bytes) (Hsha : forall b, length (sha256 b) = 32%nat).

(** An IPv4 network is written in dotted form, not as an IPv4-mapped IPv6 one. *)
Definition dotted (s : string) : Prop := forall ip n,
  ParseCIDR s = inr (ip, n) -> is_Some (To4 ip) -> length (net_IP n) = 4%nat.

(** The other IPv4 networks that are accepted: written as an IPv4-mapped IPv6 one, with
    a prefix that leaves nothing of the address. *)
Definition mapped (s : string) (n : IPNet) : Prop :=
  ¬ dotted s ∧ 16 <= net_bits n <= 28 ∧ net_IP n = replicate 16 x00.

Lemma masked_mapped bits ip v4 : To4 ip = Some v4 -> length ip = 16%nat -> 0 <= bits <= 80 -> masked bits ip = replicate 16 x00.
Proof.
  unfold To4; intros H Hl Hb; rewrite bool_decide_eq_false_2 in H by lia; rewrite bool_decide_eq_true_2 in H by done; cbn [andb] in H.
  case_bool_decide as E; [|done]; clear H; unfold masked; rewrite Hl; set (h := 2 ^ _).
  assert (2 ^ 48 <= h) by (apply Z.pow_le_mono_r; lia).
  assert (BE.get ip < 2 ^ 48) as Hg.
  { pose proof (BE.get_range (drop 12 ip)) as Hr; rewrite length_drop, Hl in Hr; change (256 ^ Z.of_nat (16 - 12)) with (2 ^ 32) in Hr.
    rewrite <- (take_drop 12 ip), E; unfold v4InV6Prefix; cbn [app replicate]; rewrite !BE.get_cons.
    change (byte_to_Z x00) with 0; change (byte_to_Z xff) with 255; rewrite !Z.mul_0_l, !Z.add_0_l.
    cbn [length]; rewrite length_drop, Hl; change (256 ^ Z.of_nat (S (16 - 12))) with (2 ^ 40).
    change (256 ^ Z.of_nat (16 - 12)) with (2 ^ 32); lia. }
  pose proof (BE.get_range ip); rewrite Z.div_small by lia; vm_compute; reflexivity.
Qed.

Lemma parseSubnet4 s n : parseSubnet ParseCIDR s false = inr n -> tunnel4 n ∨ mapped s n.
Proof.
  unfold parseSubnet; intros ([ip n'] & Hp & H)%bind_ok.
  apply check_ok in H as [H4 H]; apply check_ok in H as [_ H]; apply check_ok in H as [Hpriv H].
  apply check_ok in H as [Hb H]; apply check_ok in H as [_ [= ->]].
  cbn [negb andb] in H4, Hb; apply negb_false_iff, bool_decide_eq_true in H4; destruct H4 as [v4 Hv4].
  apply orb_false_iff in Hb as [Hb1%Z.ltb_ge Hb2%Z.ltb_ge]; pose proof (To4_length _ _ Hv4) as Hl4.
  pose proof (HC _ _ _ Hp) as (H16 & H0 & [(w4 & Hw & _ & E)|[_ E]]); [left|right].
  - rewrite Hv4 in Hw; injection Hw as <-; apply negb_false_iff in Hpriv; unfold IsPrivate in Hpriv; rewrite Hv4 in Hpriv.
    destruct n as [nip bits], v4 as [|a [|b r]]; cbn [net_IP net_bits] in *; [done..|]; rewrite E.
    apply masked_tunnel; [cbn in *; lia|lia..|].
    apply orb_true_iff in Hpriv as [[->%Z.eqb_eq|[->%Z.eqb_eq _]%andb_true_iff]%orb_true_iff|[->%Z.eqb_eq _]%andb_true_iff]; lia.
  - split_and!; [|lia|lia|rewrite E; eapply masked_mapped; [done|done|lia]].
    intros Hd; specialize (Hd _ _ Hp ltac:(by exists v4)); by rewrite E, masked_length, H16 in Hd.
Qed.

Lemma parseSubnet6 s n : parseSubnet ParseCIDR s true = inr n -> tunnel6 n.
Proof.
  unfold parseSubnet; intros ([ip n'] & Hp & H)%bind_ok.
  apply check_ok in H as [_ H]; apply check_ok in H as [H6 H]; apply check_ok in H as [Hpriv H].
  apply check_ok in H as [_ H]; apply check_ok in H as [Hb [= ->]].
  cbn [negb andb] in H6, Hb; apply bool_decide_eq_false in H6; apply negb_false_iff in Hpriv.
  assert (To4 ip = None) as Hn by (destruct (To4 ip); [by destruct H6|done]).
  apply HC in Hp as (H16 & H0 & [(w4 & Hw & _)|[_ E]]); [congruence|].
  unfold IsPrivate in Hpriv; rewrite Hn in Hpriv; destruct ip as [|a r]; [done|].
  apply andb_true_iff in Hpriv as [_ Ha%ula_byte]; apply orb_false_iff in Hb as [Hb1%Z.ltb_ge Hb2%Z.ltb_ge].
  destruct n as [nip bits]; cbn [net_IP net_bits] in *; rewrite E; apply masked_tunnel; [cbn in *; lia|lia..|done].
Qed.

Lemma derived4 public : tunnel4 (n_IPv4 (DeriveNetworks sha256 public)) ∧ net_bits (n_IPv4 (DeriveNetworks sha256 public)) = 24.
Proof.
  split; [|done]; set (sum := sha256 (derivationLabel ++ public)).
  split; cbn [DeriveNetworks n_IPv4 net_IP net_bits]; fold sum; [done|lia|..]; rewrite !BE.get_cons;
    cbn [length]; rewrite !byte_to_of_Z; set (x := (derivedIPv4Low + _) mod 256);
    set (y := byte_to_Z (default _ (_ !! 1%nat)) mod 256); change (BE.get []) with 0;
    change (256 ^ Z.of_nat 3) with 16777216; change (256 ^ Z.of_nat 2) with 65536;
    change (256 ^ Z.of_nat 1) with 256; change (256 ^ Z.of_nat 0) with 1; change (byte_to_Z x00) with 0;
    change (10 mod 256) with 10.
  - change (2 ^ (8 * Z.of_nat 4 - 24)) with 256.
    match goal with |- ?e mod _ = _ => replace e with ((10 * 65536 + x * 256 + y) * 256) by lia end; apply Z.mod_mul; lia.
  - assert (0 <= x < 256 ∧ 0 <= y < 256) by (split; apply Z.mod_pos_bound; lia).
    change (256 ^ Z.of_nat 4) with 4294967296 || idtac; lia.
  - assert (0 <= x < 256 ∧ 0 <= y < 256) by (split; apply Z.mod_pos_bound; lia).
    change (256 ^ Z.of_nat 4) with 4294967296 || idtac; lia.
Qed.

Lemma get_zeros_tail d n : BE.get (d ++ replicate n x00) = BE.get d * 256 ^ Z.of_nat n.
Proof.
  induction d as [|b d IH]; cbn [app]; [by rewrite get_zeros|].
  rewrite !BE.get_cons, IH, length_app, length_replicate, Nat2Z.inj_add, Z.pow_add_r by lia; lia.
Qed.

Lemma derived6 public : tunnel6 (n_IPv6 (DeriveNetworks sha256 public)).
Proof.
  set (sum := sha256 (derivationLabel ++ public)).
  assert (length (take 5 (drop 2 sum)) = 5%nat) as Hl by (rewrite length_take, length_drop; unfold sum; by rewrite Hsha).
  split; cbn [DeriveNetworks n_IPv6 net_IP net_bits]; fold sum.
  - cbn [length]; rewrite length_app, length_replicate, Hl; done.
  - lia.
  - rewrite app_comm_cons, get_zeros_tail; change (2 ^ (8 * Z.of_nat 16 - 120)) with 256.
    change (256 ^ Z.of_nat 10) with (256 ^ 9 * 256); rewrite Z.mul_assoc; apply Z.mod_mul; lia.
  - rewrite BE.get_cons, length_app, length_replicate, Hl; change (byte_to_Z xfd) with 253.
    match goal with |- context [BE.get ?d] => pose proof (BE.get_range d) end; cbn [Nat.add]; lia.
  - rewrite BE.get_cons; match goal with |- context [BE.get ?d] => pose proof (BE.get_range d) as Hr end.
    rewrite length_app, length_replicate, Hl in *; change (byte_to_Z xfd) with 253.
    cbn [Nat.add] in *; change (256 ^ Z.of_nat 16) with (256 * 256 ^ Z.of_nat 15); lia.
Qed.

Lemma tier_ok ipv4 ipv6 key n : tierNetworks ParseCIDR Public sha256 ipv4 ipv6 key = inr n ->
  (tunnel4 (n_IPv4 n) ∨ mapped ipv4 (n_IPv4 n)) ∧ tunnel6 (n_IPv6 n)
  ∧ (ipv4 = ""%string -> tunnel4 (n_IPv4 n) ∧ net_bits (n_IPv4 n) = 24).
Proof.
  unfold tierNetworks; intros (k & _ & H)%bind_ok; apply bind_ok in H as (v4 & H4 & H);
    apply bind_ok in H as (v6 & H6 & [= <-]); cbn [n_IPv4 n_IPv6]; split_and!.
  - destruct (bool_decide (ipv4 = _)); [left; injection H4 as <-; apply derived4|apply Wrap_ok in H4; by eapply parseSubnet4].
  - destruct (bool_decide (ipv6 = _)); [injection H6 as <-; apply derived6|apply Wrap_ok in H6; by eapply parseSubnet6].
  - intros E; rewrite bool_decide_eq_true_2 in H4 by done; injection H4 as <-; split; apply derived4.
Qed.

(** The bytes of a /24. *)
Lemma net24 n : tunnel4 n -> net_bits n = 24 ->
  ∃ a b c, n = mkNet [a; b; c; x00] 24 ∧ 1 <= byte_to_Z a <= 254.
Proof.
  destruct n as [ip bits]; intros [Hl _ Hc Hlo Hhi] [= ->]; cbn [net_IP net_bits] in *.
  destruct ip as [|a [|b [|c [|d [|]]]]]; try done; change [a; b; c; d] with ([a; b; c] ++ [d]) in Hc.
  change (2 ^ (8 * Z.of_nat 4 - 24)) with 256 in Hc; rewrite last_byte in Hc; change 0 with (byte_to_Z x00) in Hc.
  apply (inj byte_to_Z) in Hc as ->; exists a, b, c; split; [done|].
  rewrite !BE.get_cons in Hlo, Hhi; cbn [length] in Hlo, Hhi; change (BE.get []) with 0 in *.
  change (256 ^ Z.of_nat 3) with 16777216 in *; change (256 ^ Z.of_nat 4) with 4294967296 in *.
  change (256 ^ Z.of_nat 2) with 65536 in *; change (256 ^ Z.of_nat 1) with 256 in *.
  change (256 ^ Z.of_nat 0) with 1 in *; change (byte_to_Z x00) with 0 in *.
  pose proof (byte_to_Z_range a); pose proof (byte_to_Z_range b); pose proof (byte_to_Z_range c); lia.
Qed.

Lemma make24 a b c : 1 <= byte_to_Z a <= 254 -> tunnel4 (mkNet [a; b; c; x00] 24).
Proof.
  intros Ha; pose proof (byte_to_Z_range b); pose proof (byte_to_Z_range c).
  split; cbn [net_IP net_bits]; [done|lia| |rewrite !BE.get_cons; cbn [length]..].
  - change [a; b; c; x00] with ([a; b; c] ++ [x00]); change (2 ^ (8 * Z.of_nat 4 - 24)) with 256; by rewrite last_byte.
  - change (BE.get []) with 0; change (256 ^ Z.of_nat 3) with 16777216; change (256 ^ Z.of_nat 2) with 65536.
    change (256 ^ Z.of_nat 1) with 256; change (256 ^ Z.of_nat 0) with 1; change (byte_to_Z x00) with 0; lia.
  - change (BE.get []) with 0; change (256 ^ Z.of_nat 3) with 16777216; change (256 ^ Z.of_nat 2) with 65536.
    change (256 ^ Z.of_nat 1) with 256; change (256 ^ Z.of_nat 0) with 1; change (byte_to_Z x00) with 0.
    change (256 ^ Z.of_nat 4) with 4294967296; lia.
Qed.

Lemma nextNet_ok n : tunnel4 n -> net_bits n = 24 -> tunnel4 (nextNet n).
Proof. intros Hn Hb; destruct (net24 n Hn Hb) as (a & b & c & -> & Ha); by apply make24. Qed.

(** ** The pools over a tier's networks *)
Lemma first_host n bmin bmax net : 0 <= bmin -> bmax <= 8 * Z.of_nat (S n) - 3 -> (0 < n)%nat -> 16 <= bmin ->
  tunnel_net n bmin bmax net ->
  let ip := Next (Next (net_IP net)) in
  length ip = S n ∧ BE.get ip = BE.get (net_IP net) + 2
  ∧ net_wf n net (BE.get ip) ∧ BE.get ip <= net_last n net + 1.
Proof.
  intros H0 Hmax Hn H8 [Hl Hb Hc Hlo Hhi] ip.
  assert (256 <= 256 ^ Z.of_nat n) by (change 256 with (256 ^ 1) at 1; apply Z.pow_le_mono_r; lia).
  pose proof (get_Next (net_IP net) n Hl Hlo ltac:(lia)) as G1.
  pose proof (get_Next (Next (net_IP net)) n) as G2; rewrite Next_length, G1 in G2; specialize (G2 Hl ltac:(lia) ltac:(lia)).
  assert (BE.get ip = BE.get (net_IP net) + 2) as Hip by (unfold ip; lia).
  set (h := hosts (S n) net) in *.
  assert (8 <= h) by (unfold h; change 8 with (2 ^ 3) at 1; apply Z.pow_le_mono_r; lia).
  pose proof (Z.div_mod (BE.get (net_IP net)) h ltac:(lia)) as Hdm; rewrite Hc in Hdm.
  assert (net_last n net = BE.get (net_IP net) + (h - 1)) as Hlast by (unfold net_last; fold h; lia).
  assert (h * 2 ^ 8 <= 256 ^ Z.of_nat n) as Hh.
  { unfold h; change 256 with (2 ^ 8); rewrite <- Z.pow_add_r, <- Z.pow_mul_r by lia; apply Z.pow_le_mono_r; lia. }
  split_and!; [unfold ip; by rewrite !Next_length|done| |lia].
  split; [done|lia|lia|fold h; lia|rewrite Hlast].
  lia.
Qed.

Lemma last_host n bmin bmax net : bmax <= 8 * Z.of_nat (S n) - 4 -> tunnel_net n bmin bmax net ->
  BE.get (net_IP net) + 15 <= net_last n net.
Proof.
  intros Hmax [_ Hb Hc _ _]; unfold net_last; set (h := hosts (S n) net) in *.
  assert (16 <= h) by (unfold h; change 16 with (2 ^ 4) at 1; apply Z.pow_le_mono_r; lia).
  pose proof (Z.div_mod (BE.get (net_IP net)) h ltac:(lia)); lia.
Qed.

Lemma copy_same w d : length d = w -> copy (replicate w x00) d = d.
Proof. intros <-; unfold copy; rewrite length_replicate, firstn_all, drop_replicate, Nat.sub_diag; apply app_nil_r. Qed.

Definition first4 (t : Networks) : Z := BE.get (net_IP (n_IPv4 t)) + 2.
Definition first6 (t : Networks) : Z := BE.get (net_IP (n_IPv6 t)) + 2.

Lemma tier_pool t : tunnel4 (n_IPv4 t) -> tunnel6 (n_IPv6 t) ->
  ippool_inv (first4 t) (first6 t) (Networks_Pool t) ∧ 0 < first6 t
  ∧ Net (V4 (Networks_Pool t)) = n_IPv4 t ∧ Net (V6 (Networks_Pool t)) = n_IPv6 t.
Proof.
  intros H4 H6; split_and!; [|pose proof (BE.get_range (net_IP (n_IPv6 t))); unfold first6; lia|done..].
  destruct (first_host 3 16 28 _ ltac:(lia) ltac:(lia) ltac:(lia) ltac:(lia) H4) as (L4 & G4 & W4 & I4).
  destruct (first_host 15 64 124 _ ltac:(lia) ltac:(lia) ltac:(lia) ltac:(lia) H6) as (L6 & G6 & W6 & I6).
  unfold Networks_Pool, NewIPv4FromIP, NewIPv6FromIP, To4, To16, first4, first6.
  rewrite (tn_len _ _ _ _ H4), bool_decide_eq_true_2 by done; rewrite (tn_len _ _ _ _ H6); cbn [default Nat.eqb].
  rewrite !copy_same by apply H4 || apply H6; rewrite <- G4, <- G6.
  split; cbn [V4 V6]; [by apply (NewPool_inv 3 advance4 usable4)|by apply (NewPool_inv 15 advance6 usable6)].
Qed.

(** A pool from which nothing is out hands out an address of its network. *)
Lemma Get_empty n advance usable {Ha : AdvanceSpec n advance usable} first p z :
  pool_inv n usable first p -> reserved p = ∅ -> first <= z <= net_last n (Net p) -> usable z = true ->
  ∃ ip p', Get advance p = (inr ip, p') ∧ Contains (Net p) ip = true.
Proof.
  intros Hp Hr Hz Hu; destruct (Get advance p) as [r p'] eqn:G.
  apply (Get_inv n advance usable first) in G as (_ & _ & G); [|done]; destruct r as [e|ip].
  - destruct G as [_ G]; rewrite Hr, size_empty in G.
    assert (BE.put (S n) z ∈ fresh n usable first (net_last n (Net p) + 1)) as Hin.
    { apply list_elem_of_fmap_2, list_elem_of_In, filter_In; split; [|done].
      apply list_elem_of_In, elem_of_seqZ; lia. }
    destruct (fresh _ _ _ _); [by apply not_elem_of_nil in Hin|cbn in G; lia].
  - destruct G as (_ & _ & Hl & Hi & _); exists ip, p'; split; [done|].
    rewrite (Contains_spec n _ first) by (apply Hp || done || lia); apply Z.leb_le; lia.
Qed.

Lemma pool_serves t : tunnel4 (n_IPv4 t) -> tunnel6 (n_IPv6 t) ->
  ∃ v4 v6 p, IPPool_Get (Networks_Pool t) = (inr (v4, v6), p)
    ∧ Contains (n_IPv4 t) v4 = true ∧ Contains (n_IPv6 t) v6 = true.
Proof.
  intros T4 T6; destruct (tier_pool t T4 T6) as ([I4 I6] & _ & N4 & N6); unfold IPPool_Get.
  assert (∃ z, first4 t <= z <= first4 t + 2 ∧ usable4 z = true) as (z & Hz & Hu).
  { destruct (usable4 (first4 t)) eqn:E0; [exists (first4 t); split; [lia|done]|].
    destruct (usable4 (first4 t + 1)) eqn:E1; [exists (first4 t + 1); split; [lia|done]|].
    exists (first4 t + 2); split; [lia|by apply edges_run]. }
  pose proof (last_host 3 16 28 _ ltac:(lia) T4) as L4; pose proof (last_host 15 64 124 _ ltac:(lia) T6) as L6.
  destruct (Get_empty 3 advance4 usable4 _ _ z I4 eq_refl) as (v4 & p4 & -> & C4); [rewrite N4; unfold first4 in *; lia|done|].
  destruct (Get_empty 15 advance6 usable6 _ _ (first6 t) I6 eq_refl) as (v6 & p6 & -> & C6); [rewrite N6; unfold first6; lia|done|].
  rewrite N4 in C4; rewrite N6 in C6; eauto 6.
Qed.

Abbreviation plan := (TunnelNetworks ParseCIDR Public sha256).

(** The tiers of a plan, each with its setting for IPv4. *)
Definition tier_of (c : Config) (def : Networks) (v3 : option Networks) (t : Networks) (s : string) : Prop :=
  t = def ∧ s = c_IPv4Subnet c ∨ ∃ v, V3Enabled c = Some v ∧ v3 = Some t ∧ s = v_IPv4Subnet v.

(** Every tier's networks are well formed, and the two tiers' do not overlap. *)
Lemma TunnelNetworks_tiers c def v3 : plan c = inr (def, v3) ->
  (forall t s, tier_of c def v3 t s -> (tunnel4 (n_IPv4 t) ∨ mapped s (n_IPv4 t)) ∧ tunnel6 (n_IPv6 t))
  ∧ (is_Some v3 <-> is_Some (V3Enabled c))
  ∧ forall t, v3 = Some t -> Overlaps def t = false.
Proof.
  unfold TunnelNetworks; intros (d & Hd & H)%bind_ok; apply tier_ok in Hd as (D4 & D6 & _).
  destruct (V3Enabled c) as [v|] eqn:Ev; [|injection H as <- <-; split_and!; [|split; intros []; done|done]].
  2: { intros t s [[-> ->]|(v & ? & _)]; [done|congruence]. }
  apply bind_ok in H as (t3 & Ht%Wrap_ok & H); apply check_ok in H as [Ho [= <- <-]].
  apply tier_ok in Ht as (T4 & T6 & T24).
  split_and!; [|split; eauto|by intros t [= <-]].
  intros t s [[-> ->]|(v' & Hv & [= <-] & ->)]; [done|]; assert (v' = v) as -> by congruence.
  destruct (bool_decide (v_IPv4Subnet v = _) && _) eqn:E; [|done]; cbn [n_IPv4 n_IPv6]; split; [|done]; left.
  apply andb_true_iff in E as [E%bool_decide_eq_true _]; destruct (T24 E); by apply nextNet_ok.
Qed.

Lemma TunnelNetworks_ok c def v3 : plan c = inr (def, v3) ->
  dotted (c_IPv4Subnet c) -> (forall v, V3Enabled c = Some v -> dotted (v_IPv4Subnet v)) ->
  (forall t, t ∈ def :: option_list v3 -> tunnel4 (n_IPv4 t) ∧ tunnel6 (n_IPv6 t))
  ∧ (is_Some v3 <-> is_Some (V3Enabled c))
  ∧ forall t, v3 = Some t -> Overlaps def t = false.
Proof.
  intros (Ht & Hs & Ho)%TunnelNetworks_tiers Hd Hd3; split_and!; [|done..].
  intros t [->|H]%elem_of_cons; [destruct (Ht def (c_IPv4Subnet c)) as [[?|[]] ?]; [by left|done..]|].
  destruct v3 as [t3|]; cbn in H; [|by apply not_elem_of_nil in H]; apply list_elem_of_singleton in H as ->.
  destruct (proj1 Hs ltac:(eauto)) as [v Hv].
  destruct (Ht t3 (v_IPv4Subnet v)) as [[?|[Hn _]] ?]; [right; eauto|done|destruct Hn; auto].
Qed.

(** Networks of a plan that overlap on no network address share no address. *)
Lemma disjoint4 s s' a b : tunnel4 a ∨ mapped s a -> tunnel4 b ∨ mapped s' b -> overlap a b = false ->
  forall ip, ~ (Contains a ip = true ∧ Contains b ip = true).
Proof.
  intros Ha Hb Ho ip [Ca Cb]; destruct Ha as [Ha|(_ & Ba & Za)], Hb as [Hb|(_ & Bb & Zb)].
  - assert (overlap a b = true); [|congruence].
    apply (overlap_iff 3); [by eapply (tunnel_plain 3 16 28)..|by exists ip].
  - apply (Contains_iff 3) in Ca as [? _]; [|apply Ha]; apply (Contains_iff 15) in Cb as [? _]; [lia|by rewrite Zb].
  - apply (Contains_iff 15) in Ca as [? _]; [|by rewrite Za]; apply (Contains_iff 3) in Cb as [? _]; [lia|apply Hb].
  - assert (Contains a (net_IP b) = true) as E.
    { apply (Contains_iff 15); [by rewrite Za|]; rewrite Za, Zb; vm_compute To4; cbn [default]; done. }
    unfold overlap in Ho; by rewrite E in Ho.
Qed.

(** C20. What [TunnelNetworks] accepts.  No address of either family belongs to both
    tiers.  The pools over a tier's networks start out sound, with a host address to
    hand out, unless its IPv4 subnet is written as an IPv4-mapped IPv6 network: that
    passes the checks too, and is then the sixteen zero bytes of [::], of which no
    IPv4 address is part. *)
Theorem TunnelNetworks_sound c def v3 : plan c = inr (def, v3) ->
  (forall t s, tier_of c def v3 t s ->
     (ippool_inv (first4 t) (first6 t) (Networks_Pool t)
      ∧ ∃ v4 v6 p, IPPool_Get (Networks_Pool t) = (inr (v4, v6), p)
          ∧ Contains (n_IPv4 t) v4 = true ∧ Contains (n_IPv6 t) v6 = true)
     ∨ mapped s (n_IPv4 t) ∧ forall ip, length ip = 4%nat -> Contains (n_IPv4 t) ip = false)
  ∧ (is_Some v3 <-> is_Some (V3Enabled c))
  ∧ forall t, v3 = Some t -> forall ip,
      ~ (Contains (n_IPv4 def) ip = true ∧ Contains (n_IPv4 t) ip = true)
      ∧ ~ (Contains (n_IPv6 def) ip = true ∧ Contains (n_IPv6 t) ip = true).
Proof.
  intros (Ht & Hs & Ho)%TunnelNetworks_tiers; split_and!; [|done|].
  - intros t s [[T4|M] T6]%Ht; [left|right].
    + destruct (tier_pool t T4 T6) as (Hp & _ & N4 & N6); split; [done|by apply pool_serves].
    + split; [done|]; intros ip Hl; apply not_true_is_false; intros [Hc _]%(Contains_iff 15).
      * unfold To4 in Hc; rewrite bool_decide_eq_true_2 in Hc by done; cbn in Hc; rewrite Hl in Hc; done.
      * destruct M as (_ & _ & ->); done.
  - intros t E ip; specialize (Ho t E); apply orb_false_iff in Ho as [O4 O6].
    destruct (proj1 Hs ltac:(eauto)) as [v Hv].
    destruct (Ht def (c_IPv4Subnet c) ltac:(by left)) as [D4 D6].
    destruct (Ht t (v_IPv4Subnet v) ltac:(right; eauto)) as [T4 T6].
    split; [by eapply disjoint4|]; intros Hc.
    assert (overlap (n_IPv6 def) (n_IPv6 t) = true); [|congruence].
    apply (overlap_iff 15); [by eapply (tunnel_plain 15 64 124)..|by exists ip].
Qed.
End Tiers.

(** * Generated settings *)
Section Generated.
Context {R : Type} `{!Rand R} {HR : RandLaws R}.
Implicit Types (s : R).

Lemma until_ok fuel draw good s v s' : until fuel draw good s = Some (v, s') -> good v = true ∧ ∃ s0, v = (draw s0).1.
Proof.
  revert s; induction fuel as [|fuel IH]; intros s; cbn; [done|].
  destruct (draw s) as [x s1] eqn:E; destruct (good x) eqn:G; [|apply IH].
  intros [= <- <-]; split; [done|]; exists s; by rewrite E.
Qed.

(** The loop returns as soon as a draw will do. *)
Lemma until_returns k draw good s : good (draw (Nat.iter k (fun s => (draw s).2) s)).1 = true ->
  forall fuel, (k < fuel)%nat -> is_Some (until fuel draw good s).
Proof.
  intros H fuel; revert k s H; induction fuel as [|fuel IH]; intros k s H Hk; [lia|]; cbn.
  destruct (draw s) as [x s1] eqn:E; destruct (good x) eqn:G; [by eexists|].
  destruct k as [|k]; [cbn in H; rewrite E in H; cbn in H; congruence|].
  apply (IH k); [|lia]; rewrite Nat.iter_succ_r, E in H; exact H.
Qed.

Lemma randomUint16_range lo hi s : 0 <= lo <= hi -> hi < 2 ^ 16 - 1 -> lo <= (randomUint16 lo hi s).1 <= hi.
Proof.
  intros Hl Hh; unfold randomUint16, uint16; rewrite (Z.mod_small (hi - lo + 1)) by lia.
  pose proof (rand_Int_range (hi - lo + 1) s ltac:(lia)); destruct (rand_Int _ s) as [v s1]; cbn [fst] in *.
  rewrite Z.mod_small; lia.
Qed.

Lemma randomUint32_range lo hi s : 0 <= lo <= hi -> hi < 2 ^ 32 - 1 -> lo <= (randomUint32 lo hi s).1 <= hi.
Proof.
  intros Hl Hh; unfold randomUint32, uint32; rewrite (Z.mod_small (hi - lo + 1)) by lia.
  destruct (rand_Read 4 s) as [b s1]; cbn [fst].
  pose proof (Z.mod_pos_bound (BE.get b) (hi - lo + 1) ltac:(lia)); rewrite Z.mod_small; lia.
Qed.

Lemma RandomPort_range s : 1024 <= (RandomPort s).1 < 65536.
Proof.
  unfold RandomPort, uint16; pose proof (rand_Int_range (2 ^ 16 - 2 ^ 10) s ltac:(lia)).
  destruct (rand_Int _ s) as [v s1]; cbn [fst] in *; rewrite Z.mod_small; lia.
Qed.

Lemma paddings_ok fuel lo s p1 p2 s' : 0 <= lo <= 150 -> randomHandshakePaddings fuel lo s = Some (p1, p2, s') ->
  lo <= p1 <= 150 ∧ lo <= p2 <= 150 ∧ p1 + 56 ≠ p2.
Proof.
  intros Hlo; unfold randomHandshakePaddings; pose proof (randomUint16_range lo 150 s ltac:(lia) ltac:(lia)) as H1.
  destruct (randomUint16 lo 150 s) as [v1 t]; cbn [fst] in H1.
  destruct (until _ _ _ t) as [[v2 t']|] eqn:E; [|done]; cbn; intros [= <- <- <-].
  apply until_ok in E as [G (s0 & ->)]; pose proof (randomUint16_range lo 150 s0 ltac:(lia) ltac:(lia)).
  apply negb_true_iff, Z.eqb_neq in G; lia.
Qed.

Lemma drawHeaders_ok fuel n hs s hs' s' : Forall (fun h => 4 < h) hs -> NoDup hs ->
  drawHeaders fuel n hs s = Some (hs', s') -> Forall (fun h => 4 < h) hs' ∧ NoDup hs' ∧ length hs' = (length hs + n)%nat.
Proof.
  revert hs s; induction n as [|n IH]; intros hs s Hb Hn; cbn [drawHeaders].
  { intros [= <- <-]; split_and!; [done..|lia]. }
  destruct (until _ _ _ s) as [[h s1]|] eqn:E; [|done]; cbn; intros H.
  apply until_ok in E as [G (s0 & Hh)]; apply negb_true_iff, bool_decide_eq_false in G.
  pose proof (randomUint32_range 5 (2 ^ 31) s0 ltac:(lia) ltac:(lia)).
  apply IH in H as (? & ? & ->); [|apply Forall_app; split; [done|repeat constructor; lia]|by apply NoDup_snoc].
  split_and!; [done..|]; rewrite length_app; cbn; lia.
Qed.

Lemma headers_distinct_ok seen h : Forall (fun v => 4 < v) h -> NoDup (rev seen ++ h) -> headers_distinct seen h = inr tt.
Proof.
  revert seen; induction h as [|v h IH]; intros seen Hb Hn; cbn; [done|].
  apply Forall_cons in Hb as [Hv Hb]; unfold check; rewrite (proj2 (Z.leb_gt v 4)) by lia.
  rewrite bool_decide_eq_false_2; [cbn; apply IH; [done|]|].
  - by cbn; rewrite <- app_assoc.
  - intros Hin; apply NoDup_app in Hn as (_ & Hd & _); apply (Hd v); [|by left].
    by apply list_elem_of_In, in_rev; rewrite rev_involutive; apply list_elem_of_In.
Qed.

Lemma randomHeaders_ok fuel s h s' b : randomHeaders fuel s = Some (h, s') -> validateHeaders h b = inr tt.
Proof.
  unfold randomHeaders; destruct (drawHeaders fuel 4 [] s) as [[hs t]|] eqn:E; [|done].
  apply drawHeaders_ok in E as (Hb & Hn & Hl); [|constructor|constructor].
  destruct hs as [|a [|b' [|c [|d [|]]]]]; try done; intros [= <- <-]; unfold validateHeaders.
  destruct (b && _); [done|]; by apply headers_distinct_ok.
Qed.

Lemma clamp_length k : length (clamp k) = length k.
Proof. unfold clamp; destruct k; [done|]; destruct (last _); [|done]; by rewrite !length_insert. Qed.

Lemma KeyString_read k : length k = KeyLength -> KeyFromString (KeyString k) = inr k.
Proof. intros H; unfold KeyFromString, KeyString, KeyFromBytes; by rewrite Base64.decode_encode, H. Qed.

Lemma NewPrivateKey_length s : length (NewPrivateKey s).1 = KeyLength.
Proof.
  unfold NewPrivateKey, NewPreSharedKey; pose proof (rand_Read_length KeyLength s) as H.
  destruct (rand_Read KeyLength s); cbn [fst] in *; by rewrite clamp_length.
Qed.

(** Canonical networks of one size overlap only when they are the same. *)
Lemma same_size_overlap n bmin bmax a b : 0 <= bmin -> bmax <= 8 * Z.of_nat (S n) ->
  tunnel_net n bmin bmax a -> tunnel_net n bmin bmax b -> net_bits a = net_bits b -> overlap a b = true -> a = b.
Proof.
  intros H0 Hmax Ha Hb Hbits Ho.
  assert (plain_net n a ∧ plain_net n b) as [Pa Pb] by (split; by eapply tunnel_plain).
  assert (BE.get (net_IP b) / hosts (S n) a = BE.get (net_IP a) / hosts (S n) a) as E.
  { apply orb_true_iff in Ho as [H|H]; apply (Contains_net n) in H; try done; rewrite Hbits in *; congruence. }
  pose proof (pn_bits _ _ Pa); assert (0 < hosts (S n) a) by (apply Z.pow_pos_nonneg; lia).
  pose proof (tn_canon _ _ _ _ Ha) as Ca; pose proof (tn_canon _ _ _ _ Hb) as Cb; rewrite <- Hbits in Cb.
  destruct a as [ia ba], b as [ib bb]; cbn [net_IP net_bits] in *; subst bb; f_equal.
  apply BE.get_inj; [pose proof (tn_len _ _ _ _ Ha); pose proof (tn_len _ _ _ _ Hb); cbn in *; congruence|].
  rewrite (Z.div_mod (BE.get ia) (2 ^ (8 * Z.of_nat (S n) - ba))), (Z.div_mod (BE.get ib) (2 ^ (8 * Z.of_nat (S n) - ba))) by lia.
  congruence.
Qed.

Lemma nextNet_apart n : tunnel4 n -> net_bits n = 24 -> overlap n (nextNet n) = false.
Proof.
  intros Hn Hb; destruct (overlap n (nextNet n)) eqn:Ho; [exfalso|done].
  destruct (net24 n Hn Hb) as (a & b & c & -> & Ha).
  apply (same_size_overlap 3 16 28) in Ho; [|lia|lia|done|by apply make24|done].
  injection Ho as Hc; apply (f_equal byte_to_Z) in Hc; rewrite byte_to_of_Z in Hc.
  pose proof (byte_to_Z_range c); Z.to_euclidean_division_equations; lia.
Qed.

Lemma generated_obfuscation fuel s o s' : Obfuscation_Generate fuel Obfuscation0 s = Some (o, s') ->
  Obfuscation_Validate o = inr tt.
Proof.
  unfold Obfuscation_Generate; destruct (randomHandshakePaddings fuel 15 s) as [[[p1 p2] t]|] eqn:E1; [|done]; cbn.
  destruct (randomHeaders fuel t) as [[h t']|] eqn:E2; [|done]; cbn; intros [= <- <-].
  apply paddings_ok in E1 as (H1 & H2 & H3); [|lia].
  unfold Obfuscation_Validate, validatePaddings; cbn [o_Jc o_Jmin o_Jmax o_S o_H o_I list4 existsb].
  rewrite !(proj2 (Z.ltb_ge _ _)) by lia; rewrite (proj2 (Z.eqb_neq _ _)) by lia; cbn.
  by rewrite (randomHeaders_ok fuel t h t' true).
Qed.

Lemma generated_v3 fuel port s v s' : V3_Generate fuel V30 port s = Some (v, s') ->
  V3_Validate v "awg0" port = inr tt ∧ v_Enabled v = true
  ∧ v_IPv4Subnet v = ""%string ∧ v_IPv6Subnet v = ""%string ∧ ∃ k, KeyFromString (v_PrivateKey v) = inr k.
Proof.
  unfold V3_Generate; pose proof (NewPrivateKey_length s) as Lk; destruct (NewPrivateKey s) as [key t]; cbn [fst] in Lk.
  pose proof (rand_Read_length KeyLength t) as Lh; unfold NewPreSharedKey; destruct (rand_Read KeyLength t) as [header t1]; cbn [fst] in Lh.
  cbn [V30 v_ListenPort Z.eqb orb negb v_IPv4Subnet v_IPv6Subnet].
  destruct (until _ _ _ t1) as [[p t2]|] eqn:Ep; [|done]; cbn [mbind option_bind].
  destruct (randomHandshakePaddings fuel 16 t2) as [[[p1 p2] t3]|] eqn:E1; [|done]; cbn [mbind option_bind].
  pose proof (randomUint16_range 16 64 t3 ltac:(lia) ltac:(lia)) as H3; destruct (randomUint16 16 64 t3) as [p3 t4]; cbn [fst] in H3.
  pose proof (randomUint16_range 16 32 t4 ltac:(lia) ltac:(lia)) as H4; destruct (randomUint16 16 32 t4) as [p4 t5]; cbn [fst] in H4.
  destruct (randomHeaders fuel t5) as [[h t6]|] eqn:E2; [|done]; cbn [mbind option_bind]; intros [= <- <-].
  apply paddings_ok in E1 as (H1 & H2 & Hne); [|lia]; apply until_ok in Ep as [Hp _].
  cbn [v_Enabled v_IPv4Subnet v_IPv6Subnet v_PrivateKey]; split_and!; [|done..|by exists key; apply KeyString_read].
  unfold V3_Validate, validatePaddings; cbn [v_Interface v_ListenPort v_PrivateKey v_HeaderProtectionKey v_S v_H
    v_ContentPaddingAddition list4 existsb].
  rewrite KeyString_read by done; unfold KeyString; rewrite Base64.decode_encode, Lh.
  apply negb_true_iff in Hp; rewrite Hp, !(proj2 (Z.ltb_ge _ _)) by (unfold V3MinPadding; lia).
  rewrite (proj2 (Z.eqb_neq _ _)) by lia; rewrite (randomHeaders_ok fuel t5 h t6 false) by done; by vm_compute.
Qed.

Context (ParseCIDR : string -> result (bytes * IPNet)) (Public sha256 : bytes -> bytes).
Context (Hsha : forall b, length (sha256 b) = 32%nat).
Abbreviation derive k := (DeriveNetworks sha256 (Public k)).

(** Two tiers that name no network get networks of their own: their IPv4 ones are
    always kept apart, their IPv6 ones when they differ. *)
Lemma derived_apart c v k k3 : c_IPv4Subnet c = ""%string -> c_IPv6Subnet c = ""%string -> V3Enabled c = Some v ->
  v_IPv4Subnet v = ""%string -> v_IPv6Subnet v = ""%string ->
  KeyFromString (c_PrivateKey c) = inr k -> KeyFromString (v_PrivateKey v) = inr k3 ->
  n_IPv6 (derive k) ≠ n_IPv6 (derive k3) -> ∃ r, TunnelNetworks ParseCIDR Public sha256 c = inr r.
Proof.
  intros E4 E6 Ev V4 V6 Hk Hk3 Hne; unfold TunnelNetworks, tierNetworks; rewrite Ev, E4, E6, V4, V6, Hk, Hk3.
  cbn -[DeriveNetworks overlap nextNet bool_decide]; rewrite !bool_decide_eq_true_2 by done.
  cbn -[DeriveNetworks overlap nextNet]; unfold Overlaps; cbn -[DeriveNetworks overlap nextNet].
  destruct (derived4 sha256 Hsha (Public k)) as [D4 B4]; destruct (derived4 sha256 Hsha (Public k3)) as [D4' B4'].
  assert (overlap (n_IPv6 (derive k)) (n_IPv6 (derive k3)) = false) as O6.
  { destruct (overlap _ _) eqn:Ho; [|done]; apply (same_size_overlap 15 64 124) in Ho;
      [done|lia|lia|by apply derived6|by apply derived6|done]. }
  destruct (overlap (n_IPv4 (derive k)) (n_IPv4 (derive k3))) eqn:Ho; cbn -[DeriveNetworks overlap nextNet]; rewrite O6.
  - apply (same_size_overlap 3 16 28) in Ho; [|lia|lia|done|done|congruence].
    rewrite <- Ho, nextNet_apart by done; cbn; by eexists.
  - rewrite Ho; cbn; by eexists.
Qed.

(** C35. Generated settings are accepted: whatever the random source gives, a
    configuration drawn by [config init] passes every check of [Validate], unless
    the hashes of the two tiers' keys agree on the 40 bits that make their IPv6
    networks.  The loops that draw again end with the first value that will do
    ([until_returns]). *)
Theorem generated_config_valid fuel s c s' : WithDefaultValues fuel s = Some (c, s') ->
  ∃ v k k3, V3Enabled c = Some v ∧ KeyFromString (c_PrivateKey c) = inr k ∧ KeyFromString (v_PrivateKey v) = inr k3
    ∧ (n_IPv6 (derive k) ≠ n_IPv6 (derive k3) -> Config_Validate ParseCIDR Public sha256 c = inr tt).
Proof.
  unfold WithDefaultValues; pose proof (NewPrivateKey_length s) as Lk; destruct (NewPrivateKey s) as [key t]; cbn [fst] in Lk.
  pose proof (RandomPort_range t) as Hp; destruct (RandomPort t) as [port t1]; cbn [fst] in Hp.
  destruct (Obfuscation_Generate _ _ t1) as [[o t2]|] eqn:Eo; [|done]; cbn [mbind option_bind].
  destruct (V3_Generate _ _ _ t2) as [[v t3]|] eqn:Ev; [|done]; cbn [mbind option_bind]; intros [= <- <-].
  apply generated_obfuscation in Eo; apply generated_v3 in Ev as (Ev & En & V4 & V6 & k3 & Hk3).
  exists v, key, k3; unfold V3Enabled; cbn [c_V3 c_PrivateKey]; rewrite En.
  split_and!; [done|by apply KeyString_read|done|]; intros Hne.
  unfold Config_Validate, V3Enabled; cbn [c_V3 c_Obfuscation c_Interface c_ListenPort]; rewrite En, Eo, Ev.
  match goal with |- context [TunnelNetworks _ _ _ ?c] => destruct (derived_apart c v key k3) as [r Hr] end;
    [done..|unfold V3Enabled; cbn [c_V3]; by rewrite En|done|done|by apply KeyString_read|done|done|].
  rewrite Hr; unfold WgConfig_Validate, Config_WireGuard; cbn [w_Interface w_ListenPort w_PrivateKey c_Interface c_ListenPort c_PrivateKey].
  rewrite KeyString_read, (proj2 (Z.eqb_neq port 0)) by (done || lia); unfold check; rewrite (bool_decide_eq_false_2 (KeyString _ = _)); [done|].
  unfold KeyString; intros ->%Base64.encode_empty; done.
Qed.
End Generated.
