(* ===== verification/AmneziaService.v ===== *)
(** The AmneziaWG service: src/services/amneziawg/amneziawg.go.

    Two WireGuard services share the [awg] tool: the default tier's and, when the
    configuration enables it, the 3.1 tier's.  A request names its tier, which is
    remembered until the peer is added; afterwards the peer's tunnel address says
    which tier it is on. *)
From S2P Require Import Prelude Codec Types Admission AdmissionProofs Guard Handshake HandshakeProofs IPPool Keyed WireGuard WireGuardAPI Egress Amnezia AmneziaProofs.
Set Default Proof Using "Type*".

Record amnezia (T : Type) := mkAwg {
  a_wg : wireguard T;                       (* the default tier *)
  a_pool3 : IPPool; a_peers3 : gmap string wgPeer;   (* the 3.1 tier *)
  a_asked : gmap string Z }.
Arguments mkAwg {T}. Arguments a_wg {T}. Arguments a_pool3 {T}. Arguments a_peers3 {T}. Arguments a_asked {T}.

Record AwgMetadata := mkAwgMeta {
  m_wg : PeerMetadata; m_S : Z * Z * Z * Z; m_H : Z * Z * Z * Z; m_I : string * string * string * string * string }.
Record AwgMetadataV3 := mkAwgMeta3 {
  m_base : AwgMetadata; m_AWGVersion : Z; m_HeaderProtectionKey : string; m_RandomTrailers : bool; m_MTU : Z }.
Inductive AwgPayload :=
  | PayloadDefault (addrs : list string) (metadata : list AwgMetadata)
  | PayloadV3 (addrs : list string) (metadata : list AwgMetadataV3).

Section Amnezia.
Context {T : Type} `{!Tool T} (IPString : bytes -> string).
(** [json.Unmarshal] of WireGuard's request, and of [awg_version]. *)
Context (Unmarshal : bytes -> result wgRequest) (UnmarshalVersion : bytes -> result (option Z)).
(** The configuration after Init, with the 3.1 tier when it is on, the tiers' own
    bytes of port and key, and the 3.1 tier's network. *)
Context (config : Config) (v3 : option V3) (info info3 : bytes) (v3Net : IPNet).
Abbreviation awg := (amnezia T).
Abbreviation v3On := (bool_decide (is_Some v3)).

(** The 3.1 tier as a WireGuard service over the shared tool. *)
Definition tier3 (s : awg) : wireguard T := mkWG (a_pool3 s) (a_peers3 s) (wg_tool (a_wg s)).
Definition with3 (w : wireguard T) (s : awg) : awg :=
  mkAwg (mkWG (wg_pool (a_wg s)) (wg_peers (a_wg s)) (wg_tool w)) (wg_pool w) (wg_peers w) (a_asked s).
Definition on_def {A} (m : M (wireguard T) gerror A) : M awg gerror A := fun s =>
  let '(r, w) := m (a_wg s) in (r, mkAwg w (a_pool3 s) (a_peers3 s) (a_asked s)).
Definition on_v3 {A} (m : M (wireguard T) gerror A) : M awg gerror A := fun s =>
  let '(r, w) := m (tier3 s) in (r, with3 w s).

(** [tierRequests]. *)
Definition asked_set (key : string) (tier : Z) : M awg gerror unit := fun s =>
  (inr tt, mkAwg (a_wg s) (a_pool3 s) (a_peers3 s) (<[key := tier]> (a_asked s))).
Definition asked_take (key : string) : M awg gerror Z := fun s =>
  (inr (default VersionDefault (a_asked s !! key)),
   mkAwg (a_wg s) (a_pool3 s) (a_peers3 s) (delete key (a_asked s))).

Definition offered : string :=
  if v3On then (Itoa VersionDefault +:+ " and " +:+ Itoa Version3)%string else (Itoa VersionDefault +:+ " only")%string.

Definition awg_ParsePeerRequest (raw : bytes) : M awg gerror bytes :=
  key ← pure (wg_ParsePeerRequest Unmarshal raw);
  version ← or_throw (pure (UnmarshalVersion raw)) (fun e => "invalid amneziawg peer request: " +:+ e)%string;
  let tier := default VersionDefault version in
  throw_if (negb ((tier =? VersionDefault) || ((tier =? Version3) && v3On)))
    ("unsupported awg_version " +:+ Itoa tier +:+ "; this node offers " +:+ offered)%string ≫= fun _ =>
  asked_set (Base64.EncodeToString key) tier ≫= fun _ =>
  mret key.

Abbreviation add_on i := (wg_AddPeer (T := T) i (c_EnableIPv6 config) IPString).
Abbreviation interface3 := (from_option v_Interface ""%string v3).

Definition awg_AddPeer (data : bytes) : M awg gerror bytes :=
  tier ← asked_take (Base64.EncodeToString data);
  if (tier =? Version3) && v3On then on_v3 (add_on interface3 data) else on_def (add_on (c_Interface config) data).
Definition awg_HasPeer (data : bytes) (s : awg) : bool :=
  wg_HasPeer data (a_wg s) || (v3On && wg_HasPeer data (tier3 s)).
Definition awg_RemovePeer (data : bytes) : M awg gerror unit :=
  there ← gets (fun s => wg_HasPeer data (tier3 s));
  if v3On && there then on_v3 (wg_RemovePeer interface3 data) else on_def (wg_RemovePeer (c_Interface config) data).
Definition awg_Peers : M awg gerror (list Peer) :=
  items ← on_def (wg_Peers (c_Interface config));
  if negb v3On then mret items else
  more ← on_v3 (wg_Peers interface3);
  mret (items ++ more).
Definition awg_PeerCount (s : awg) : Z := wg_PeerCount (a_wg s) + (if v3On then wg_PeerCount (tier3 s) else 0).

Definition awg_handshakePayloadV3 (v : V3) (res : bytes) : result AwgPayload :=
  wg ← wg_HandshakePayload IPString info3 res;
  let o := c_Obfuscation config in
  inr (PayloadV3 (pl_Addrs wg)
    [mkAwgMeta3 (mkAwgMeta (default (0, ""%string) (head (pl_Metadata wg))) (v_S v) (v_H v) (o_I o))
       Version3 (v_HeaderProtectionKey v) (v_RandomTrailers v) V3MTU]).
Definition awg_HandshakePayload (res : bytes) : result AwgPayload :=
  let default_tier :=
    wg ← wg_HandshakePayload IPString info res;
    let o := c_Obfuscation config in
    inr (PayloadDefault (pl_Addrs wg)
      [mkAwgMeta (default (0, ""%string) (head (pl_Metadata wg))) (o_S o) (o_H o) (o_I o)]) in
  match v3 with
  | Some v => if (4 <=? length res)%nat && Contains v3Net (take 4 res) then awg_handshakePayloadV3 v res else default_tier
  | None => default_tier
  end.

(** One entry per tier, blank but for the version. *)
Definition awg_PublicMetadata : list Z := VersionDefault :: (if v3On then [Version3] else []).

(** [usePools] over the networks of the configuration, and no peer yet. *)
Definition awg_new (def : Networks) (net3 : option Networks) (t : T) : awg :=
  mkAwg (mkWG (Networks_Pool def) ∅ t) (Networks_Pool (default def net3)) ∅ ∅.
End Amnezia.
