(* ===== verification/AmneziaLaws.v ===== *)
(** What the AmneziaWG service of AmneziaService.v guarantees: a peer is on one
    tier at a time, and its client is told that tier's settings. *)
From S2P Require Import Prelude Codec Types Admission AdmissionProofs Guard Handshake HandshakeProofs IPPool Keyed WireGuard WireGuardAPI Egress Amnezia AmneziaProofs AmneziaService.
Set Default Proof Using "Type*".

(** * What an operation leaves alone *)
Lemma Get_Net advance p r p' : Get advance p = (r, p') -> Net p' = Net p.
Proof. unfold Get; destruct (available p); [destruct (negb _)|]; by intros [= <- <-]. Qed.

Lemma IPPool_Get_V4 p r p' : IPPool_Get p = (r, p') ->
  Net (V4 p') = Net (V4 p) ∧ (forall v4 v6, r = inr (v4, v6) -> ∃ q, Get advance4 (V4 p) = (inr v4, q)).
Proof.
  unfold IPPool_Get; destruct (Get advance4 (V4 p)) as [[e|v4] q] eqn:G; pose proof (Get_Net _ _ _ _ G) as E.
  - intros [= <- <-]; cbn; done.
  - destruct (Get advance6 (V6 p)) as [[e|v6] q6]; intros [= <- <-]; cbn; rewrite ?Release_Net; (split; [done|]).
    + done.
    + intros ?? [= <- <-]; eauto.
Qed.

Section WG.
Set Default Proof Using "All".
Context {T : Type} `{!Tool T} (Interface : string) (EnableIPv6 : bool) (IPString : bytes -> string) (f4 f6 : Z) (Hf6 : 0 < f6).
Implicit Types (w : wireguard T).

Lemma wg_inv_tool w (t : T) : wg_inv f4 f6 w -> wg_inv f4 f6 (mkWG (wg_pool w) (wg_peers w) t).
Proof using Type. intros H; apply wg_inv_pool; [done|apply H|done..]. Qed.

Lemma wg_add_net d w r w' : wg_AddPeer Interface EnableIPv6 IPString d w = (r, w') ->
  Net (V4 (wg_pool w')) = Net (V4 (wg_pool w)).
Proof.
  intros [(e & p & _ & Hg & ->)|(v4 & v6 & p & p' & t & Hg & -> & Hc)]%(wg_AddPeer_inv Interface EnableIPv6 IPString f4 f6 Hf6).
  - by apply IPPool_Get_V4 in Hg as [? _].
  - apply IPPool_Get_V4 in Hg as [Hn _].
    destruct Hc as [(e & _ & ->)|[_ ->]]; cbn [wg_pool]; destruct EnableIPv6; cbn; rewrite ?Release_Net; done.
Qed.

Lemma wg_remove_net d w r w' : wg_RemovePeer Interface d w = (r, w') -> Net (V4 (wg_pool w')) = Net (V4 (wg_pool w)).
Proof.
  unfold wg_RemovePeer, tool, set_pool, set_peers, gets, mbind, M_bind, mret, M_ret.
  destruct (run_tool _ _) as [[e|o] t]; cbn; [by intros [= <- <-]|].
  destruct (negb _); intros [= <- <-]; cbn; by rewrite ?Release_Net.
Qed.

Lemma wg_peers_frame w r w' : wg_Peers Interface w = (r, w') -> wg_pool w' = wg_pool w ∧ wg_peers w' = wg_peers w.
Proof using Type. intros H; unfold wg_Peers in H; minv H; unfold tool in *; destruct (run_tool _ _); by simplify_eq/=. Qed.

(** An added peer's IPv4 address lies in the pool's network. *)
Lemma wg_add_in d w res w' : wg_inv f4 f6 w -> wg_AddPeer Interface EnableIPv6 IPString d w = (inr res, w') ->
  (4 <= length res)%nat ∧ Contains (Net (V4 (wg_pool w))) (take 4 res) = true.
Proof.
  intros Hw [(e & p & ? & _)|(v4 & v6 & p & p' & t & Hg & -> & Hc)]%(wg_AddPeer_inv Interface EnableIPv6 IPString f4 f6 Hf6); [done|].
  destruct Hc as [(e & ? & _)|[[= ->] _]]; [done|].
  apply IPPool_Get_V4 in Hg as [_ Hq]; destruct (Hq _ _ eq_refl) as [q Hg]; pose proof (ip_v4 _ _ _ (wi_pool _ _ _ Hw)) as Hp.
  apply (Get_inv 3 advance4 usable4 f4) in Hg as (_ & _ & _ & _ & Hl & Hr & _); [|done].
  rewrite length_app, Hl; split; [lia|]; rewrite take_app_length' by done.
  rewrite (Contains_spec 3 _ f4) by (apply Hp || done || lia); apply Z.leb_le; lia.
Qed.

Lemma wg_remove_set d w r w' : wg_inv f4 f6 w -> wg_RemovePeer Interface d w = (r, w') ->
  wg_inv f4 f6 w' ∧ wg_set w' = if r is inr _ then wg_set w ∖ {[d]} else wg_set w.
Proof.
  intros Hw H; apply (wg_remove_inv Interface EnableIPv6 IPString f4 f6 Hf6) in H as [Hw' Hp]; [|done]; split; [done|].
  destruct r; [by unfold wg_set; rewrite Hp|]; destruct w' as [p m t]; cbn in Hp.
  rewrite (wg_set_delete Interface EnableIPv6 IPString f4 f6 Hf6 w p m t d) by (apply Hw || done); done.
Qed.
End WG.

(** * The two tiers *)
Section Awg.
Set Default Proof Using "All".
Context {T : Type} `{!Tool T} (IPString : bytes -> string).
Context (Unmarshal : bytes -> result wgRequest) (UnmarshalVersion : bytes -> result (option Z)).
Context (config : Config) (v3 : option V3) (D N : Networks).
Context (HD : tunnel4 (n_IPv4 D) ∧ tunnel6 (n_IPv6 D)) (HN : tunnel4 (n_IPv4 N) ∧ tunnel6 (n_IPv6 N)).
Abbreviation awg := (amnezia T).
Implicit Types (s : awg).
Abbreviation add := (awg_AddPeer (T := T) IPString config v3).
Abbreviation remove := (awg_RemovePeer (T := T) config v3).
Abbreviation has := (awg_HasPeer (T := T) v3).
Abbreviation parse := (awg_ParsePeerRequest (T := T) Unmarshal UnmarshalVersion v3).
Abbreviation list_peers := (awg_Peers (T := T) config v3).
Abbreviation count := (awg_PeerCount (T := T) v3).

Lemma posD : 0 < first6 D.
Proof. pose proof (BE.get_range (net_IP (n_IPv6 D))); unfold first6; lia. Qed.
Lemma posN : 0 < first6 N.
Proof. pose proof (BE.get_range (net_IP (n_IPv6 N))); unfold first6; lia. Qed.

Record awg_inv s : Prop := {
  ai_def : wg_inv (first4 D) (first6 D) (a_wg s);
  ai_v3 : wg_inv (first4 N) (first6 N) (tier3 s);
  ai_net : Net (V4 (wg_pool (a_wg s))) = n_IPv4 D;
  ai_net3 : Net (V4 (a_pool3 s)) = n_IPv4 N;
  ai_apart : wg_set (a_wg s) ## wg_set (tier3 s);
  ai_off : v3 = None -> a_peers3 s = ∅
}.

(** The peers of both tiers. *)
Definition awg_set s : gset bytes := wg_set (a_wg s) ∪ wg_set (tier3 s).

Lemma off_empty s : awg_inv s -> v3 = None -> wg_set (tier3 s) = ∅.
Proof. intros Hs Hv; unfold wg_set, tier3; cbn; rewrite (ai_off _ Hs Hv), dom_empty_L; apply decoded_empty. Qed.

Lemma awg_has_spec s d : awg_inv s -> d ≠ [] -> has d s = bool_decide (d ∈ awg_set s).
Proof.
  intros Hs Hd; unfold awg_HasPeer, awg_set.
  rewrite (wg_has_spec (first4 D) (first6 D)), (wg_has_spec (first4 N) (first6 N)) by (apply Hs || done).
  destruct v3 as [v|] eqn:Ev; cbn.
  - apply eq_bool_prop_intro; rewrite orb_True, !bool_decide_spec, elem_of_union; done.
  - rewrite orb_false_r, (off_empty s Hs) by done; by rewrite (right_id_L ∅ (∪)).
Qed.

Lemma awg_count_spec s : awg_inv s -> count s = Z.of_nat (size (awg_set s)).
Proof.
  intros Hs; unfold awg_PeerCount, awg_set, wg_PeerCount; rewrite size_union by apply Hs.
  assert (forall f g (w : wireguard T), wg_inv f g w -> Z.of_nat (size (wg_set w)) = Z.of_nat (size (wg_peers w))) as E.
  { intros f g w Hw; unfold wg_set; by rewrite size_decoded, size_dom by apply Hw. }
  rewrite Nat2Z.inj_add, (E _ _ _ (ai_def _ Hs)), (E _ _ _ (ai_v3 _ Hs)).
  destruct v3 as [v|] eqn:Ev; cbn; [done|]; rewrite (ai_off _ Hs) by done; by rewrite map_size_empty.
Qed.

(** A step of one tier's service is a step of the whole. *)
Lemma def_step s w : awg_inv s -> wg_inv (first4 D) (first6 D) w -> Net (V4 (wg_pool w)) = n_IPv4 D ->
  wg_set w ## wg_set (tier3 s) ->
  let s' := mkAwg w (a_pool3 s) (a_peers3 s) (a_asked s) in
  awg_inv s' ∧ awg_set s' = wg_set w ∪ wg_set (tier3 s).
Proof.
  intros Hs Hw Hn Hd s'; split; [|done]; split; cbn; try done; try apply Hs.
  apply (wg_inv_tool _ _ (tier3 s)), Hs.
Qed.

Lemma v3_step s w : awg_inv s -> wg_inv (first4 N) (first6 N) w -> Net (V4 (wg_pool w)) = n_IPv4 N ->
  wg_set (a_wg s) ## wg_set w -> (v3 = None -> wg_peers w = ∅) ->
  awg_inv (with3 w s) ∧ awg_set (with3 w s) = wg_set (a_wg s) ∪ wg_set w.
Proof.
  intros Hs Hw Hn Hd Ho; split; [|done]; split; cbn; try done; try apply Hs.
  - apply (wg_inv_tool _ _ (a_wg s)), Hs.
  - apply (wg_inv_tool _ _ w), Hw.
Qed.

Abbreviation v6on := (c_EnableIPv6 config).
Abbreviation i3 := (from_option v_Interface ""%string v3).

(** The tier a request asked for is the tier the peer gets. *)
Definition tier_of s d : Z := default VersionDefault (a_asked s !! Base64.EncodeToString d).
Definition wants3 s d : bool := (tier_of s d =? Version3) && bool_decide (is_Some v3).

Lemma awg_add_ok s d r s' : awg_inv s -> d ≠ [] -> d ∉ awg_set s -> add d s = (r, s') ->
  awg_inv s' ∧ awg_set s' = (if r is inr _ then {[d]} ∪ awg_set s else awg_set s)
  ∧ (forall res, r = inr res -> if wants3 s d then d ∈ wg_set (tier3 s') else d ∈ wg_set (a_wg s')).
Proof.
  intros Hs Hd Hnew; unfold awg_AddPeer, asked_take, mbind, M_bind; fold (tier_of s d); fold (wants3 s d).
  set (s0 := mkAwg (a_wg s) (a_pool3 s) (a_peers3 s) (delete (Base64.EncodeToString d) (a_asked s))).
  assert (awg_inv s0) as Hs0 by (by destruct Hs; split).
  assert ((d ∉ wg_set (a_wg s)) ∧ (d ∉ wg_set (tier3 s))) as [N1 N2] by (unfold awg_set in Hnew; set_solver).
  change (a_wg s) with (a_wg s0) in N1; change (tier3 s) with (tier3 s0) in N2; change (awg_set s) with (awg_set s0); clearbody s0.
  pose proof (ai_apart _ Hs0) as Hap.
  destruct (wants3 s d) eqn:Ew; [unfold on_v3|unfold on_def].
  - destruct (wg_AddPeer _ _ _ d (tier3 s0)) as [r1 w] eqn:E; intros [= <- <-].
    pose proof (wg_add_net i3 v6on IPString (first4 N) (first6 N) posN _ _ _ _ E) as Hn; change (wg_pool (tier3 s0)) with (a_pool3 s0) in Hn; rewrite (ai_net3 _ Hs0) in Hn.
    apply andb_true_iff in Ew as [_ Ev%bool_decide_eq_true].
    destruct r1 as [e|res].
    + apply (wg_add_err i3 v6on IPString (first4 N) (first6 N) posN) in E as [Hw Hset]; [|apply Hs0].
      destruct (v3_step s0 w) as [? ->]; [done..|by rewrite Hset|by intros ->; destruct Ev|]; rewrite Hset; done.
    + apply (wg_add_ok i3 v6on IPString (first4 N) (first6 N) posN) in E as [Hw Hset]; [|apply Hs0|done].
      destruct (v3_step s0 w) as [? ->]; [done..|rewrite Hset; set_solver|by intros ->; destruct Ev|]; rewrite Hset.
      split_and!; [done|unfold awg_set; set_solver|intros _ _; cbn; set_solver].
  - destruct (wg_AddPeer _ _ _ d (a_wg s0)) as [r1 w] eqn:E; intros [= <- <-].
    pose proof (wg_add_net (c_Interface config) v6on IPString (first4 D) (first6 D) posD _ _ _ _ E) as Hn; rewrite (ai_net _ Hs0) in Hn.
    destruct r1 as [e|res].
    + apply (wg_add_err (c_Interface config) v6on IPString (first4 D) (first6 D) posD) in E as [Hw Hset]; [|apply Hs0].
      destruct (def_step s0 w) as [? ->]; [done..|by rewrite Hset|]; rewrite Hset; done.
    + apply (wg_add_ok (c_Interface config) v6on IPString (first4 D) (first6 D) posD) in E as [Hw Hset]; [|apply Hs0|done].
      destruct (def_step s0 w) as [? ->]; [done..|rewrite Hset; set_solver|]; rewrite Hset.
      split_and!; [done|unfold awg_set; set_solver|intros _ _; cbn; set_solver].
Qed.

Lemma awg_remove_ok s d r s' : awg_inv s -> d ≠ [] -> remove d s = (r, s') ->
  awg_inv s' ∧ awg_set s' = if r is inr _ then awg_set s ∖ {[d]} else awg_set s.
Proof.
  intros Hs Hd; unfold awg_RemovePeer, gets, mbind, M_bind; pose proof (ai_apart _ Hs) as Hap.
  rewrite (wg_has_spec (first4 N) (first6 N)) by (apply Hs || done).
  destruct (bool_decide (is_Some v3) && bool_decide (d ∈ wg_set (tier3 s))) eqn:Eb; [unfold on_v3|unfold on_def].
  - apply andb_true_iff in Eb as [Ev%bool_decide_eq_true Hin%bool_decide_eq_true].
    destruct (wg_RemovePeer _ d (tier3 s)) as [r1 w] eqn:E; intros [= <- <-].
    pose proof (wg_remove_net i3 v6on IPString (first4 N) (first6 N) posN _ _ _ _ E) as Hn; change (wg_pool (tier3 s)) with (a_pool3 s) in Hn; rewrite (ai_net3 _ Hs) in Hn.
    apply (wg_remove_set i3 v6on IPString (first4 N) (first6 N) posN) in E as [Hw Hset]; [|apply Hs].
    destruct (v3_step s w) as [? ->]; [done..|rewrite Hset; destruct r1; set_solver|by intros ->; destruct Ev|].
    split; [done|]; rewrite Hset; unfold awg_set; destruct r1; [done|]; apply set_eq; set_solver.
  - destruct (wg_RemovePeer _ d (a_wg s)) as [r1 w] eqn:E; intros [= <- <-].
    pose proof (wg_remove_net (c_Interface config) v6on IPString (first4 D) (first6 D) posD _ _ _ _ E) as Hn; rewrite (ai_net _ Hs) in Hn.
    apply (wg_remove_set (c_Interface config) v6on IPString (first4 D) (first6 D) posD) in E as [Hw Hset]; [|apply Hs].
    destruct (def_step s w) as [? ->]; [done..|rewrite Hset; destruct r1; set_solver|].
    split; [done|]; rewrite Hset; unfold awg_set; destruct r1; [done|].
    assert (d ∉ wg_set (tier3 s)) as Hnin.
    { apply andb_false_iff in Eb as [Ev%bool_decide_eq_false|?%bool_decide_eq_false]; [|done].
      assert (v3 = None) as E3 by (by destruct v3; [destruct Ev|]); rewrite (off_empty s Hs E3); apply not_elem_of_empty. }
    apply set_eq; set_solver.
Qed.

Lemma awg_parse_ok s raw r s' : awg_inv s -> parse raw s = (r, s') ->
  awg_inv s' ∧ awg_set s' = awg_set s ∧ (forall d, r = inr d -> d ≠ []).
Proof.
  intros Hs H; unfold awg_ParsePeerRequest, pure, or_throw, throw_if, asked_set, mbind, M_bind, mret, M_ret in H.
  destruct (wg_ParsePeerRequest Unmarshal raw) as [e|key] eqn:Ek; cbn in H; [simplify_eq; by split_and!|].
  destruct (UnmarshalVersion raw) as [e|ver] eqn:Ever; cbn in H; [simplify_eq; by split_and!|].
  destruct (negb _); cbn in H; simplify_eq; [by split_and!|].
  split_and!; [destruct Hs; split; done|done|]; intros d [= <-] ->.
  apply wg_parse_length in Ek; done.
Qed.

Lemma awg_peers_ok s r s' : awg_inv s -> list_peers s = (r, s') -> awg_inv s' ∧ awg_set s' = awg_set s.
Proof.
  intros Hs H; unfold awg_Peers in H.
  assert (forall i r s', on_def (wg_Peers i) s = (r, s') -> awg_inv s' ∧ awg_set s' = awg_set s) as Hdef.
  { intros i r1 s1; unfold on_def; destruct (wg_Peers i (a_wg s)) as [r2 w] eqn:E; intros [= <- <-].
    apply wg_peers_frame in E as [Ep Em]; destruct w as [p m t]; cbn in Ep, Em; subst p m.
    apply def_step; [done|apply wg_inv_tool, Hs|apply Hs|apply Hs]. }
  apply bind_inv in H as [(e & H & ->)|(items & s1 & H1 & H)]; [by eapply Hdef|].
  apply Hdef in H1 as [Hs1 Hset]; destruct (negb _); [minv H; by rewrite Hset|].
  apply bind_inv in H as [(e & H & ->)|(more & s2 & H & Hr)]; [|apply ret_inv in Hr as [-> ->]];
    unfold on_v3 in H; destruct (wg_Peers i3 (tier3 s1)) as [r2 w] eqn:E; simplify_eq;
    apply wg_peers_frame in E as [Ep Em]; try done; destruct w as [p m t]; cbn in Ep, Em; subst p m;
    rewrite <- Hset; (apply v3_step; [done|apply (wg_inv_tool _ _ (tier3 s1)), Hs1|apply Hs1|apply Hs1|apply Hs1]).
Qed.

(** What the node does to the service: it adds no peer that is there. *)
Inductive awg_reach (t0 : T) : awg -> Prop :=
  | awg_start : awg_reach t0 (awg_new D (Some N) t0)
  | awg_asks s raw r s' : awg_reach t0 s -> parse raw s = (r, s') -> awg_reach t0 s'
  | awg_adds s d r s' : awg_reach t0 s -> d ≠ [] -> has d s = false -> add d s = (r, s') -> awg_reach t0 s'
  | awg_removes s d r s' : awg_reach t0 s -> d ≠ [] -> remove d s = (r, s') -> awg_reach t0 s'
  | awg_lists s r s' : awg_reach t0 s -> list_peers s = (r, s') -> awg_reach t0 s'.

Lemma wg_start_inv t (n : Networks) : tunnel4 (n_IPv4 n) ∧ tunnel6 (n_IPv6 n) ->
  wg_inv (first4 n) (first6 n) (mkWG (Networks_Pool n) ∅ t : wireguard T).
Proof.
  intros [H4 H6]; split; cbn; try done; by apply tier_pool.
Qed.

Lemma awg_start_inv t : awg_inv (awg_new D (Some N) t).
Proof.
  split; try done; by apply wg_start_inv.
Qed.

Lemma awg_reach_inv t0 s : awg_reach t0 s -> awg_inv s.
Proof.
  induction 1 as [|s raw r s' _ IH H|s d r s' _ IH Hd Hn H|s d r s' _ IH Hd H|s r s' _ IH H].
  - apply awg_start_inv.
  - by eapply awg_parse_ok.
  - rewrite awg_has_spec in Hn by done; apply bool_decide_eq_false in Hn; by eapply awg_add_ok.
  - by eapply awg_remove_ok.
  - by eapply awg_peers_ok.
Qed.

(** The addresses a client is told. *)
Definition told (v4 v6 : bytes) : list string :=
  (IPString v4 +:+ "/32")%string :: (if v6on then [(IPString v6 +:+ "/128")%string] else []).

Lemma tier_payload i inf f4 f6 (Hf6 : 0 < f6) d (w : wireguard T) res w' : wg_inv f4 f6 w ->
  wg_AddPeer i v6on IPString d w = (inr res, w') -> ∃ v4 v6, res = v4 ++ v6
    ∧ wg_HandshakePayload IPString inf res = inr (mkPayload (told v4 v6) [(ListenPort inf, PublicKey inf)]).
Proof.
  intros Hw H; apply (wg_AddPeer_inv i v6on IPString f4 f6 Hf6) in H
    as [(e & p & ? & _)|(v4 & v6 & p & p' & t & Hget & Hp' & [(e & ? & _)|[Hres _]])]; [done..|].
  injection Hres as ->.
  destruct (taken_pool i v6on IPString f4 f6 Hf6 w v4 v6 p Hw Hget) as (_ & _ & _ & L4 & L6 & _ & H6).
  exists v4, (given6 v6on v6); split; [done|].
  unfold wg_HandshakePayload, peerAddrs, told; rewrite length_app, L4, L6; cbn [Nat.add Nat.eqb negb].
  rewrite take_app_length', drop_app_length', firstn_all2 by (done || lia).
  destruct v6on; destruct H6 as [_ H6]; [by rewrite bool_decide_false|by rewrite bool_decide_true].
Qed.

(** The settings a client is told for a tier. *)
Definition payload_for (info info3 : bytes) (tier : option V3) (addrs : list string) : AwgPayload :=
  let o := c_Obfuscation config in
  match tier with
  | None => PayloadDefault addrs [mkAwgMeta (ListenPort info, PublicKey info) (o_S o) (o_H o) (o_I o)]
  | Some v => PayloadV3 addrs [mkAwgMeta3 (mkAwgMeta (ListenPort info3, PublicKey info3) (v_S v) (v_H v) (o_I o))
                Version3 (v_HeaderProtectionKey v) (v_RandomTrailers v) V3MTU]
  end.

Lemma payload_matches info info3 s d res s' :
  (forall ip, ~ (Contains (n_IPv4 D) ip = true ∧ Contains (n_IPv4 N) ip = true)) ->
  awg_inv s -> add d s = (inr res, s') ->
  ∃ v4 v6, res = v4 ++ v6
    ∧ awg_HandshakePayload IPString config v3 info info3 (n_IPv4 N) res
      = inr (payload_for info info3 (if wants3 s d then v3 else None) (told v4 v6)).
Proof.
  intros Hap Hs; unfold awg_AddPeer, asked_take, mbind, M_bind; fold (tier_of s d); fold (wants3 s d).
  set (s0 := mkAwg (a_wg s) (a_pool3 s) (a_peers3 s) (delete (Base64.EncodeToString d) (a_asked s))).
  assert (awg_inv s0) as Hs0 by (by destruct Hs; split); clearbody s0.
  unfold awg_HandshakePayload, awg_handshakePayloadV3; destruct (wants3 s d) eqn:Ew; [unfold on_v3|unfold on_def].
  - destruct (wg_AddPeer _ _ _ d (tier3 s0)) as [r1 w] eqn:E; intros [= -> _].
    pose proof (wg_add_in i3 v6on IPString (first4 N) (first6 N) posN _ _ _ _ (ai_v3 _ Hs0) E) as [Hl Hc].
    change (wg_pool (tier3 s0)) with (a_pool3 s0) in Hc; rewrite (ai_net3 _ Hs0) in Hc.
    eapply (tier_payload i3 info3) in E as (v4 & v6 & -> & ->); [|exact posN|apply Hs0]; exists v4, v6; split; [done|].
    apply andb_true_iff in Ew as [_ [v Ev]%bool_decide_eq_true]; rewrite Ev, Hc, (proj2 (Nat.leb_le _ _) Hl); done.
  - destruct (wg_AddPeer _ _ _ d (a_wg s0)) as [r1 w] eqn:E; intros [= -> _].
    pose proof (wg_add_in (c_Interface config) v6on IPString (first4 D) (first6 D) posD _ _ _ _ (ai_def _ Hs0) E) as [Hl Hc].
    rewrite (ai_net _ Hs0) in Hc.
    assert (Contains (n_IPv4 N) (take 4 res) = false) as Hn.
    { destruct (Contains (n_IPv4 N) (take 4 res)) eqn:E3; [|done]; by destruct (Hap (take 4 res)). }
    eapply (tier_payload (c_Interface config) info) in E as (v4 & v6 & -> & ->); [|exact posD|apply Hs0]; exists v4, v6; split; [done|].
    destruct v3; [rewrite Hn, andb_false_r|]; done.
Qed.
End Awg.

(** * The service of an accepted configuration *)
Section Service.
Context {T : Type} `{!Tool T} (IPString : bytes -> string).
Context (Unmarshal : bytes -> result wgRequest) (UnmarshalVersion : bytes -> result (option Z)).
Context (ParseCIDR : string -> result (bytes * IPNet)) {HC : CIDRLaws ParseCIDR}.
Context (Public sha256 : bytes -> bytes) (Hsha : forall b, length (sha256 b) = 32%nat).
Variables (config : Config) (D N : Networks).
Hypothesis (Hplan : TunnelNetworks ParseCIDR Public sha256 config = inr (D, Some N)).
Hypothesis (Hdot : dotted ParseCIDR (c_IPv4Subnet config)).
Hypothesis (Hdot3 : forall v, V3Enabled config = Some v -> dotted ParseCIDR (v_IPv4Subnet v)).
Abbreviation v3 := (V3Enabled config).
Abbreviation reach := (awg_reach (T := T) IPString Unmarshal UnmarshalVersion config v3 D N).

Lemma plan_tiers : (tunnel4 (n_IPv4 D) ∧ tunnel6 (n_IPv6 D)) ∧ (tunnel4 (n_IPv4 N) ∧ tunnel6 (n_IPv6 N))
  ∧ forall ip, ~ (Contains (n_IPv4 D) ip = true ∧ Contains (n_IPv4 N) ip = true).
Proof using HC Hsha Hplan Hdot Hdot3.
  destruct (TunnelNetworks_ok ParseCIDR Public sha256 Hsha _ _ _ Hplan Hdot Hdot3) as (Ht & _ & Ho).
  destruct (Ht D ltac:(by left)) as [D4 D6]; destruct (Ht N ltac:(by right; left)) as [N4 N6].
  split_and!; try done; intros ip Hc; specialize (Ho N eq_refl); apply orb_false_iff in Ho as [O4 _].
  assert (overlap (n_IPv4 D) (n_IPv4 N) = true); [|congruence].
  apply (overlap_iff 3); [by eapply (tunnel_plain 3 16 28)..|by exists ip].
Qed.

(** C19. With two tiers, a peer is on one of them at a time and the service acts on
    the union as the node expects: however requests, additions of peers that are
    not there and removals follow one another, the lookup and the count are those
    of the set of peers, an addition adds just that peer, to the tier its last
    request asked for, and a removal takes out just that one, wherever it is. *)
Theorem awg_one_tier t0 s d : reach t0 s -> d ≠ [] ->
  wg_set (a_wg s) ## wg_set (tier3 s)
  ∧ awg_HasPeer v3 d s = bool_decide (d ∈ awg_set s)
  ∧ awg_PeerCount v3 s = Z.of_nat (size (awg_set s))
  ∧ (forall r s', d ∉ awg_set s -> awg_AddPeer IPString config v3 d s = (r, s') ->
       awg_set s' = (if r is inr _ then {[d]} ∪ awg_set s else awg_set s)
       ∧ forall res, r = inr res -> if wants3 v3 s d then d ∈ wg_set (tier3 s') else d ∈ wg_set (a_wg s'))
  ∧ (forall r s', awg_RemovePeer config v3 d s = (r, s') ->
       awg_set s' = if r is inr _ then awg_set s ∖ {[d]} else awg_set s).
Proof using HC Hsha Hplan Hdot Hdot3.
  intros Hr Hd; destruct plan_tiers as (HD & HN & _).
  pose proof (awg_reach_inv IPString Unmarshal UnmarshalVersion config v3 D N HD HN t0 s Hr) as Hs.
  split_and!; [apply Hs|by apply (awg_has_spec IPString Unmarshal UnmarshalVersion config v3 D N HD HN)
    |by apply (awg_count_spec IPString Unmarshal UnmarshalVersion config v3 D N HD HN)|..]; intros r s'.
  - intros Hn H; by apply (awg_add_ok IPString Unmarshal UnmarshalVersion config v3 D N HD HN) in H as (_ & ? & ?).
  - intros H; by apply (awg_remove_ok IPString Unmarshal UnmarshalVersion config v3 D N HD HN) in H as [_ ?].
Qed.

(** A client is told the settings of the tier its peer is on: what [AddPeer]
    returns always renders, to the addresses just assigned and the port, key and
    parameters of the tier that was asked for, although the renderer only sees the
    address; the tiers' networks being disjoint is what makes that work. *)
Theorem awg_told_its_tier t0 s d res s' info info3 : reach t0 s ->
  awg_AddPeer IPString config v3 d s = (inr res, s') ->
  ∃ v4 v6, res = v4 ++ v6
    ∧ awg_HandshakePayload IPString config v3 info info3 (n_IPv4 N) res
      = inr (payload_for config info info3 (if wants3 v3 s d then v3 else None) (told IPString config v4 v6)).
Proof using HC Hsha Hplan Hdot Hdot3.
  intros Hr; destruct plan_tiers as (HD & HN & Hap).
  pose proof (awg_reach_inv IPString Unmarshal UnmarshalVersion config v3 D N HD HN t0 s Hr) as Hs.
  by apply (payload_matches IPString Unmarshal UnmarshalVersion config v3 D N HD HN).
Qed.
End Service.
