(* ===== verification/AmneziaExample.v ===== *)
(** The AmneziaWG theorems at work: a parser that knows one network, a hash and a
    random source that can be run, and an [awg] tool that always succeeds. *)
From S2P Require Import Prelude Codec Types Admission AdmissionProofs Guard IPPool Keyed WireGuard WireGuardAPI Egress Amnezia AmneziaProofs AmneziaService AmneziaLaws.

(** * Collaborators *)
Definition ex_ip : bytes := v4InV6Prefix ++ [x0a; x63; x07; x09].
Definition ex_net : IPNet := mkNet [x0a; x63; x00; x00] 20.
Definition ex_ParseCIDR (s : string) : result (bytes * IPNet) :=
  if bool_decide (s = "10.99.7.9/20"%string) then inr (ex_ip, ex_net) else inl "invalid CIDR address"%string.
#[export] Instance ex_cidr : CIDRLaws ex_ParseCIDR.
Proof.
  intros s ip n; unfold ex_ParseCIDR; case_bool_decide; [|done]; intros [= <- <-].
  split_and!; [done|done|]; left; exists [x0a; x63; x07; x09]; split_and!; by vm_compute.
Qed.

Definition ex_hash (b : bytes) : bytes := take 32 (rev b ++ replicate 32 x00).
Lemma ex_hash_length b : length (ex_hash b) = 32%nat.
Proof. unfold ex_hash; rewrite length_take, length_app, length_replicate; lia. Qed.
Definition ex_public (k : bytes) : bytes := k.

(** A counter. *)
#[export] Instance ex_rand : Rand nat := {
  rand_Int n s := (Z.of_nat s mod n, S s);
  rand_Read n s := (replicate n (byte_of_Z (Z.of_nat s)), S s)
}.
#[export] Instance ex_rand_laws : RandLaws nat.
Proof. split; cbn; intros; [by apply Z.mod_pos_bound|apply length_replicate]. Qed.

Lemma ex_dotted s : dotted ex_ParseCIDR s.
Proof. intros ip n; unfold ex_ParseCIDR; case_bool_decide; [|done]; by intros [= <- <-]. Qed.

(** * A generated configuration *)
Definition ex_generated : Config := default NewConfig (fst <$> WithDefaultValues 5 7%nat).

Lemma generated_config_witness : Config_Validate ex_ParseCIDR ex_public ex_hash ex_generated = inr tt.
Proof.
  destruct (generated_config_valid (R := nat) ex_ParseCIDR ex_public ex_hash ex_hash_length 5 7%nat ex_generated
    (default 0%nat (snd <$> WithDefaultValues 5 7%nat))) as (v & k & k3 & Hv & Hk & Hk3 & H).
  - vm_compute; reflexivity.
  - apply H; vm_compute in Hv; injection Hv as <-; vm_compute in Hk; injection Hk as <-; vm_compute in Hk3; injection Hk3 as <-.
    vm_compute; intros [=].
Defined.

(** The same with a network named for the default tier. *)
Definition ex_config : Config :=
  let c := ex_generated in
  mkConfig (c_Interface c) (c_ListenPort c) (c_PrivateKey c) (c_Uplink c) (c_EnableIPv6 c)
    "10.99.7.9/20" (c_IPv6Subnet c) (c_Obfuscation c) (c_V3 c).
Definition ex_plan : Networks * option Networks :=
  match TunnelNetworks ex_ParseCIDR ex_public ex_hash ex_config with
  | inr p => p
  | inl _ => (mkNetworks ex_net ex_net, None)
  end.
Definition ex_D : Networks := ex_plan.1.
Definition ex_N : Networks := default ex_D ex_plan.2.

Lemma ex_plan_ok : TunnelNetworks ex_ParseCIDR ex_public ex_hash ex_config = inr (ex_D, Some ex_N).
Proof. vm_compute; reflexivity. Qed.

Lemma TunnelNetworks_witness : ippool_inv (first4 ex_D) (first6 ex_D) (Networks_Pool ex_D)
  ∧ ~ (Contains (n_IPv4 ex_D) [x0a; x63; x00; x02] = true ∧ Contains (n_IPv4 ex_N) [x0a; x63; x00; x02] = true).
Proof.
  destruct (TunnelNetworks_sound ex_ParseCIDR ex_public ex_hash ex_hash_length ex_config ex_D (Some ex_N))
    as (Ht & _ & Ho); [vm_compute; reflexivity|].
  destruct (Ht ex_D (c_IPv4Subnet ex_config)) as [[Hp _]|[[Hn _] _]]; [left; split; reflexivity| |destruct Hn; apply ex_dotted].
  split; [exact Hp|exact (proj1 (Ho ex_N eq_refl _))].
Defined.

(** * The service *)
#[export] Instance ex_awg_tool : Tool unit := fun _ t => (inr ""%string, t).
Definition ex_print (b : bytes) : string := Base64.EncodeToString b.
Definition ex_Unmarshal (raw : bytes) : result wgRequest := inr (mkWgReq (Some (Base64.EncodeToString raw)) false).
Definition ex_Version (raw : bytes) : result (option Z) := inr (Some 3).
Abbreviation ex_v3 := (V3Enabled ex_config).

Definition ex_key : bytes := replicate 32 x2a.
Definition ex_awg0 : amnezia unit := awg_new ex_D (Some ex_N) tt.
(** The client has asked for the 3.1 tier, then is added. *)
Definition ex_awg1 : amnezia unit := (awg_ParsePeerRequest ex_Unmarshal ex_Version ex_v3 ex_key ex_awg0).2.
Definition ex_awg2 : amnezia unit := (awg_AddPeer ex_print ex_config ex_v3 ex_key ex_awg1).2.

Lemma ex_awg1_reach : awg_reach ex_print ex_Unmarshal ex_Version ex_config ex_v3 ex_D ex_N tt ex_awg1.
Proof.
  apply (awg_asks _ _ _ _ _ _ _ tt ex_awg0 ex_key
    (awg_ParsePeerRequest ex_Unmarshal ex_Version ex_v3 ex_key ex_awg0).1 ex_awg1); [apply awg_start|].
  by apply run_outcome.
Qed.

Lemma ex_awg2_reach : awg_reach ex_print ex_Unmarshal ex_Version ex_config ex_v3 ex_D ex_N tt ex_awg2.
Proof.
  apply (awg_adds _ _ _ _ _ _ _ tt ex_awg1 ex_key (awg_AddPeer ex_print ex_config ex_v3 ex_key ex_awg1).1 ex_awg2);
    [apply ex_awg1_reach|done|vm_compute; reflexivity|by apply run_outcome].
Qed.

Lemma awg_one_tier_witness : awg_HasPeer ex_v3 ex_key ex_awg2 = bool_decide (ex_key ∈ awg_set ex_awg2)
  ∧ awg_HasPeer ex_v3 ex_key ex_awg2 = true ∧ awg_PeerCount ex_v3 ex_awg2 = Z.of_nat (size (awg_set ex_awg2)).
Proof.
  destruct (awg_one_tier ex_print ex_Unmarshal ex_Version ex_ParseCIDR ex_public ex_hash ex_hash_length
    ex_config ex_D ex_N ex_plan_ok (ex_dotted _) (fun _ _ => ex_dotted _) tt ex_awg2 ex_key ex_awg2_reach)
    as (_ & Hh & Hc & _); [done|].
  split_and!; [exact Hh|vm_compute; reflexivity|exact Hc].
Defined.

Lemma awg_told_witness : ∃ res v4 v6 v, (awg_AddPeer ex_print ex_config ex_v3 ex_key ex_awg1).1 = inr res ∧ res = v4 ++ v6
  ∧ ex_v3 = Some v ∧ awg_HandshakePayload ex_print ex_config ex_v3 [x01; x02] [x03; x04] (n_IPv4 ex_N) res
    = inr (payload_for ex_config [x01; x02] [x03; x04] (Some v) (told ex_print ex_config v4 v6)).
Proof.
  destruct (awg_AddPeer ex_print ex_config ex_v3 ex_key ex_awg1) as [r s'] eqn:E.
  assert (∃ res, r = inr res) as [res ->]
    by (exists (default [] (if r is inr x then Some x else None)); destruct r; [vm_compute in E; discriminate E|done]).
  destruct (awg_told_its_tier ex_print ex_Unmarshal ex_Version ex_ParseCIDR ex_public ex_hash ex_hash_length
    ex_config ex_D ex_N ex_plan_ok (ex_dotted _) (fun _ _ => ex_dotted _) tt ex_awg1 ex_key res s' [x01; x02] [x03; x04]
    ex_awg1_reach E) as (v4 & v6 & Hres & Hp).
  destruct ex_v3 as [v|] eqn:Ev; [|vm_compute in Ev; discriminate Ev].
  exists res, v4, v6, v; split_and!; [done|done|done|].
  assert (wants3 (Some v) ex_awg1 ex_key = true) as Hw by (vm_compute; reflexivity).
  rewrite Hw in Hp; exact Hp.
Defined.
