(* ===== verification/WireGuardInit.v ===== *)
(** Preparing a WireGuard interface: [Init], [TunnelAddress], [TunnelIPv4] and
    [DetectUplink] of src/services/wireguard/wireguard.go, with the template of
    src/services/wireguard/config.go, and AmneziaWG's [Init].

    The configuration reader, files and the ip command are parameters. *)
From stdpp Require Import pretty.
From S2P Require Import Prelude Codec Types Admission Guard StaticKey IPPool WireGuard WireGuardAPI Egress Amnezia.
Set Default Proof Using "Type*".
Local Open Scope string_scope.

Record WgVariant := mkVariant { vr_Name : string; vr_Type : Z; vr_Tool : string; vr_Quick : string; vr_ConfigDir : string }.
Definition Default : WgVariant := mkVariant "wireguard" 1 "wg" "wg-quick" "/etc/wireguard".
Definition Awg : WgVariant := mkVariant "amneziawg" 5 "awg" "awg-quick" "/etc/amnezia/amneziawg".
Definition InfoLen : nat := 34.

(** [strings.Fields], on ASCII: [cur] is the word being read, backwards. *)
Fixpoint fields_from (cur s : Str.chars) : list string :=
  let word := if decide (cur = []) then [] else [Str.to_string (reverse cur)] in
  match s with
  | [] => word
  | c :: s => if isSpace c then (word ++ fields_from [] s)%list else fields_from (c :: cur) s
  end.
Definition Fields (s : string) : list string := fields_from [] (Str.of_string s).

(** The word after "dev". *)
Fixpoint devField (fields : list string) : option string :=
  match fields with
  | f :: ((g :: _) as rest) => if decide (f = "dev") then Some g else devField rest
  | _ => None
  end.

(** * The interface configuration *)
Definition line (s : string) : string := s +:+ String "010"%char "".
Definition postUp (i uplink action : string) : string :=
  "iptables " +:+ action +:+ " FORWARD -i " +:+ i +:+ " -j ACCEPT; iptables " +:+ action +:+ " FORWARD -o " +:+ i
  +:+ " -m conntrack --ctstate RELATED,ESTABLISHED -j ACCEPT; iptables -t nat " +:+ action +:+ " POSTROUTING -o " +:+ uplink
  +:+ " -j MASQUERADE; ip6tables " +:+ action +:+ " FORWARD -i " +:+ i +:+ " -j ACCEPT; ip6tables " +:+ action +:+ " FORWARD -o " +:+ i
  +:+ " -m conntrack --ctstate RELATED,ESTABLISHED -j ACCEPT; ip6tables -t nat " +:+ action +:+ " POSTROUTING -o " +:+ uplink
  +:+ " -j MASQUERADE;".
(** The template leaves [%i] for wg-quick. *)
Definition renderConfig (c : WgConfig) (address : string) (extra : list string) : string :=
  line "[Interface]" +:+ line ("Address = " +:+ address) +:+ line ("ListenPort = " +:+ pretty (w_ListenPort c))
  +:+ line ("PrivateKey = " +:+ w_PrivateKey c) +:+ foldr (fun l acc => line l +:+ acc) "" extra
  +:+ line ("PostUp = " +:+ postUp "%i" (w_Uplink c) "-A") +:+ "PostDown = " +:+ postUp "%i" (w_Uplink c) "-D".

Section Address.
Context (IPString : bytes -> string).
(** The first host of each network, with its prefix length. *)
Definition TunnelIPv4 (p : IPPool) : bytes := Next (NewIPv4FromIP (net_IP (Net (V4 p)))).
Definition TunnelIPv6 (p : IPPool) : bytes := Next (NewIPv6FromIP (net_IP (Net (V6 p)))).
Definition TunnelAddress (p : IPPool) : string :=
  IPString (TunnelIPv4 p) +:+ "/" +:+ pretty (net_bits (Net (V4 p))) +:+ "," +:+ IPString (TunnelIPv6 p) +:+ "/" +:+ pretty (net_bits (Net (V6 p))).
End Address.

(** The configuration files read, the route listing, the files written. *)
Class InitHost (F : Type) := {
  ReadWgConfig : string -> M F gerror WgConfig;
  ReadAwgConfig : string -> M F gerror Config;
  IpRoute : M F gerror string;
  MkdirAll : string -> M F gerror unit;
  WriteConf : string -> string -> M F gerror unit;
  LookPath : string -> M F gerror unit;
  PathJoin : string -> string -> string;
  conf : F -> gmap string string
}.
(** A read leaves the files as they are; a write that succeeds is there, and touches no other path. *)
Class InitHostLaws (F : Type) `{!InitHost F} := {
  read_wg path s : conf (ReadWgConfig path s).2 = conf s;
  read_awg path s : conf (ReadAwgConfig path s).2 = conf s;
  route_conf s : conf (IpRoute s).2 = conf s;
  mkdir_conf dir s : conf (MkdirAll dir s).2 = conf s;
  look_conf tool s : conf (LookPath tool s).2 = conf s;
  write_ok path text s s' : WriteConf path text s = (inr tt, s') -> conf s' = <[path := text]> (conf s);
  write_other path text s p : p ≠ path -> conf (WriteConf path text s).2 !! p = conf s !! p
}.

Section Init.
Context {F : Type} `{!InitHost F} (IPString : bytes -> string) (Public : bytes -> bytes).

Definition given {A} (r : result A) : M F gerror A := fun s => (r, s).

Definition DetectUplink : M F gerror string :=
  out ← attempt IpRoute;
  mret (match out with inr out => default "eth0" (devField (Fields out)) | inl _ => "eth0" end).

Definition with_uplink (c : WgConfig) (uplink : string) : WgConfig :=
  mkWgConfig (w_Interface c) (w_ListenPort c) (w_PrivateKey c) uplink (w_EnableIPv6 c).
Definition confPath (variant : WgVariant) (c : WgConfig) : string :=
  PathJoin (vr_ConfigDir variant) (w_Interface c +:+ ".conf").

(** The configuration in force and the bytes of [Info]. *)
Definition wg_Init (variant : WgVariant) (pool : IPPool) (preset : option WgConfig) (extra : list string) (home : string)
    : M F gerror (WgConfig * bytes) :=
  c ← (match preset with Some c => mret c | None => ReadWgConfig (PathJoin home "wireguard.toml") end);
  given (WgConfig_Validate c) ≫= fun _ =>
  c ← (if decide (w_Uplink c = "") then uplink ← DetectUplink; mret (with_uplink c uplink) else mret c);
  MkdirAll (vr_ConfigDir variant) ≫= fun _ =>
  WriteConf (confPath variant c) (renderConfig c (TunnelAddress IPString pool) extra) ≫= fun _ =>
  key ← given (KeyFromString (w_PrivateKey c));
  mret (c, (BE.put 2 (w_ListenPort c) ++ Public key)%list).

(** ** AmneziaWG *)
Context (ParseCIDR : string -> result (bytes * IPNet)) (sha256 : bytes -> bytes).

(** A node hands over no pools of its own ([NewService]); tests do. *)
Definition usePools (c : Config) : result (IPPool * option IPPool) :=
  match TunnelNetworks ParseCIDR Public sha256 c with
  | inl err => inl err
  | inr (def, v3) => inr (Networks_Pool def, Networks_Pool <$> v3)
  end.

(** The 3.1 tier has a pool whenever it is on ([usePools_tier]). *)
Definition awg_Init (home : string) : M F gerror (Config * (WgConfig * bytes) * option (WgConfig * bytes)) :=
  LookPath (vr_Tool Awg) ≫= fun _ =>
  LookPath (vr_Quick Awg) ≫= fun _ =>
  c ← ReadAwgConfig (PathJoin home "amneziawg.toml");
  given (Config_Validate ParseCIDR Public sha256 c) ≫= fun _ =>
  pools ← given (usePools c);
  def ← wg_Init Awg pools.1 (Some (Config_WireGuard c)) (Obfuscation_InterfaceLines (c_Obfuscation c)) home;
  match V3Enabled c, pools.2 with
  | Some v, Some pool3 =>
      v3 ← wg_Init Awg pool3 (Some (Config_WireGuardV3 c v)) (V3_InterfaceLines v (c_Obfuscation c)) home;
      mret (c, def, Some v3)
  | _, _ => mret (c, def, None)
  end.
End Init.

(** * What an interface is given *)

(** PostUp is the rule set the NAT of src/services/common/nat.go installs, command by command. *)
Lemma postUp_is_nat i uplink action :
  postUp i uplink action = String.concat " " ((fun r => String.concat " " r +:+ ";") <$> natRules i uplink action).
Proof.
  assert (forall a b c, (a +:+ b) +:+ c = a +:+ (b +:+ c)) as E by (intros a b c; induction a as [|x a IH]; [done|]; by change (String x ((a +:+ b) +:+ c) = String x (a +:+ (b +:+ c))); rewrite IH).
  unfold natRules, postUp; cbn -[String.append]; rewrite !E; reflexivity.
Qed.

Lemma Fields_nonempty s : Forall (.≠ "") (Fields s).
Proof.
  unfold Fields; generalize (@nil ascii) as cur; induction (Str.of_string s) as [|c l IH]; intros cur; cbn.
  - case_decide as Hc; constructor; [|done]; intros E%(f_equal Str.of_string); rewrite Str.of_to_string in E.
    by apply (f_equal reverse) in E; rewrite reverse_involutive in E.
  - destruct (isSpace c); [|apply IH]; apply Forall_app; split; [|apply IH].
    case_decide as Hc; constructor; [|done]; intros E%(f_equal Str.of_string); rewrite Str.of_to_string in E.
    by apply (f_equal reverse) in E; rewrite reverse_involutive in E.
Qed.

(** * A tier that was prepared *)
Lemma devField_elem l d : devField l = Some d -> d ∈ l.
Proof.
  induction l as [|f [|g l] IH]; [done..|]; cbn [devField]; case_decide; [intros [= <-]|intros E%IH]; set_solver.
Qed.

(** The uplink is never empty, whatever the route listing says. *)
Lemma DetectUplink_named {F} `{!InitHost F} s u s' : DetectUplink s = (inr u, s') -> u ≠ "".
Proof.
  unfold DetectUplink; intros H.
  apply bind_inv in H as [(? & _ & ?)|(out & s1 & _ & [= <- _])]; [done|].
  destruct out as [|out]; [done|]; destruct (devField (Fields out)) as [d|] eqn:E; [|done]; cbn.
  apply devField_elem in E; pose proof (Fields_nonempty out) as H; rewrite Forall_forall in H; by apply H.
Qed.

Section Prepared.
Context {F : Type} `{!InitHost F, !InitHostLaws F} (IPString : bytes -> string) (Public : bytes -> bytes).
Context (PublicLen : forall k, length k = KeyLength -> length (Public k) = KeyLength).

(** What a prepared interface offers: its configuration is valid, it knows its
    uplink, [Info] announces its port and the public half of its own key, and the
    file wg-quick will read is the one rendered from that configuration. *)
Record prepared (variant : WgVariant) (pool : IPPool) (extra : list string) (r : WgConfig * bytes) (s : F) : Prop := {
  pr_valid : WgConfig_Validate r.1 = inr tt;
  pr_uplink : w_Uplink r.1 ≠ "";
  pr_info : ∃ key, KeyFromString (w_PrivateKey r.1) = inr key ∧ r.2 = (BE.put 2 (w_ListenPort r.1) ++ Public key)%list
    ∧ length r.2 = InfoLen;
  pr_file : conf s !! confPath variant r.1 = Some (renderConfig r.1 (TunnelAddress IPString pool) extra)
}.

Lemma given_inv {A} (r : result A) s x s' : given (F := F) r s = (x, s') -> x = r ∧ s' = s.
Proof. by intros [= <- <-]. Qed.

Lemma Validate_uplink c u : WgConfig_Validate (with_uplink c u) = WgConfig_Validate c.
Proof. done. Qed.

(** The uplink of the configuration, or the one found. *)
Lemma uplink_step c s r s' :
  (if decide (w_Uplink c = "") then uplink ← DetectUplink; mret (with_uplink c uplink) else mret c) s = (r, s') ->
  conf s' = conf s ∧ ∃ u, r = inr (with_uplink c u) ∧ u ≠ "".
Proof.
  case_decide as Hu; intros H.
  - unfold DetectUplink, attempt in H; unfold mbind, M_bind, mret, M_ret in H; cbn in H.
    pose proof (route_conf s) as K; destruct (IpRoute s) as [out s1] eqn:E; cbn in K; simplify_eq.
    split; [done|]; eexists; split; [done|]; apply (DetectUplink_named s _ s').
    unfold DetectUplink, attempt, mbind, M_bind, mret, M_ret; by rewrite E.
  - injection H as [= <- <-]; split; [done|]; exists (w_Uplink c); by destruct c.
Qed.

Lemma wg_Init_spec variant pool preset extra home s r s' :
  wg_Init IPString Public variant pool preset extra home s = (r, s') ->
  (forall c, preset = Some c -> forall p, p ≠ confPath variant c -> conf s' !! p = conf s !! p)
  ∧ forall x, r = inr x -> prepared variant pool extra x s'
      ∧ (forall c, preset = Some c -> w_Interface x.1 = w_Interface c ∧ w_ListenPort x.1 = w_ListenPort c).
Proof.
  intros H; unfold wg_Init in H.
  apply bind_inv in H as [(e & H0 & ->)|(c & s1 & H0 & H)].
  { split; [|done]; intros c ->; by inversion H0. }
  assert (forall c', preset = Some c' -> c = c' ∧ s1 = s) as Hpre by (intros c' ->; by inversion H0); clear H0.
  apply bind_inv in H as [(e & [_ ->]%given_inv & ->)|([] & s2 & [Hv ->]%given_inv & H)].
  { split; [|done]; by intros c' [_ ->]%Hpre. }
  apply bind_inv in H as [(e & (_ & ? & ? & _)%uplink_step & _)|(cu & s3 & (K3 & u & [= ->] & Hu)%uplink_step & H)]; [done|].
  pose proof (mkdir_conf (vr_ConfigDir variant) s3) as K4.
  apply bind_inv in H as [(e & H1 & ->)|([] & s4 & H1 & H)]; rewrite H1 in K4; cbn in K4.
  { split; [|done]; intros c' [_ ->]%Hpre p _; by rewrite K4, K3. }
  apply bind_inv in H as [(e & H2 & ->)|([] & s5 & H2 & H)].
  { split; [|done]; intros c' [-> ->]%Hpre p Hp.
    eapply (f_equal (fun q => conf q.2 !! p)) in H2; cbn in H2; by rewrite <- H2, write_other, K4, K3 by done. }
  pose proof (write_ok _ _ _ _ H2) as K5.
  apply bind_inv in H as [(e & [_ ->]%given_inv & ->)|(key & s6 & [Hk ->]%given_inv & [= <- <-])].
  all: split; [intros c' [-> ->]%Hpre p Hp; rewrite K5, lookup_insert_ne, K4, K3; [done|]; intros E; by apply Hp|].
  { done. }
  intros x [= <-]; split; [|by intros c' [-> _]%Hpre]; split; cbn [fst snd]; [done|done| |by rewrite K5, lookup_insert_eq].
  exists key; split_and!; [done|done|]; change (2 + length (Public key) = InfoLen)%nat; rewrite PublicLen; [done|].
  by eapply KeyFromString_length.
Qed.

Context (ParseCIDR : string -> result (bytes * IPNet)) (sha256 : bytes -> bytes).

(** The 3.1 tier has a pool exactly when it is on. *)
Lemma usePools_tier c pools : usePools Public ParseCIDR sha256 c = inr pools -> is_Some (V3Enabled c) <-> is_Some pools.2.
Proof.
  unfold usePools, TunnelNetworks; destruct (tierNetworks _ _ _ _ _ _) as [|def]; [done|]; cbn.
  destruct (V3Enabled c) as [v|]; [|intros [= <-]; cbn; split; intros [? ?]; done].
  destruct (Wrap _ _) as [|n]; [done|]; cbn; unfold check; destruct (Overlaps _ _); [done|]; intros [= <-]; split; by eexists.
Qed.

Lemma Validate_tiers c v : Config_Validate ParseCIDR Public sha256 c = inr tt -> V3Enabled c = Some v ->
  v_Interface v ≠ c_Interface c ∧ v_ListenPort v ≠ c_ListenPort c.
Proof.
  unfold Config_Validate; intros H E; rewrite E in H.
  destruct (WgConfig_Validate _) as [|[]]; [done|]; cbn in H; destruct (Wrap _ (Obfuscation_Validate _)) as [|[]]; [done|]; cbn in H.
  unfold V3_Validate in H; destruct (bool_decide (v_Interface v = _) || bool_decide _) eqn:H1; [done|].
  destruct ((v_ListenPort v =? 0)%Z || _) eqn:H2; [done|].
  apply orb_false_iff in H1 as [_ H1%bool_decide_eq_false], H2 as [_ H2%Z.eqb_neq]; done.
Qed.

(** An AmneziaWG service that was initialised is ready to start on every tier
    it offers: the configuration is valid, the tiers are the ones it turns on, each
    has a prepared interface over its own networks, and no two share an interface
    or a port.  (Interfaces are written to different files; a path join that maps
    their two names to one file would overwrite the first.) *)
Theorem awg_Init_tiers home s c def v3 s' :
  awg_Init IPString Public ParseCIDR sha256 home s = (inr (c, def, v3), s') ->
  Config_Validate ParseCIDR Public sha256 c = inr tt ∧
  ∃ nets nets3, TunnelNetworks ParseCIDR Public sha256 c = inr (nets, nets3)
  ∧ ((forall x3, v3 = Some x3 -> confPath Awg x3.1 ≠ confPath Awg def.1) ->
     prepared Awg (Networks_Pool nets) (Obfuscation_InterfaceLines (c_Obfuscation c)) def s')
  ∧ match V3Enabled c with
    | None => v3 = None
    | Some v => ∃ x3 n3, v3 = Some x3 ∧ nets3 = Some n3
        ∧ prepared Awg (Networks_Pool n3) (V3_InterfaceLines v (c_Obfuscation c)) x3 s'
        ∧ w_Interface x3.1 ≠ w_Interface def.1 ∧ w_ListenPort x3.1 ≠ w_ListenPort def.1
    end.
Proof.
  intros H; unfold awg_Init in H.
  apply bind_inv in H as [(? & _ & ?)|(? & s1 & _ & H)]; [done|]; apply bind_inv in H as [(? & _ & ?)|(? & s2 & _ & H)]; [done|].
  apply bind_inv in H as [(? & _ & ?)|(c0 & s3 & _ & H)]; [done|].
  apply bind_inv in H as [(? & _ & ?)|([] & s4 & [Hv ->]%given_inv & H)]; [done|].
  apply bind_inv in H as [(? & _ & ?)|(pools & s5 & [Hp ->]%given_inv & H)]; [done|].
  apply bind_inv in H as [(? & _ & ?)|(d0 & s6 & Hd & H)]; [done|].
  apply wg_Init_spec in Hd as [_ Hd]; destruct (Hd _ eq_refl) as [Pd Id]; destruct (Id _ eq_refl) as [Id1 Id2]; clear Hd Id.
  pose proof (usePools_tier c0 pools (eq_sym Hp)) as Ht; symmetry in Hv, Hp; unfold usePools in Hp.
  destruct (TunnelNetworks ParseCIDR Public sha256 c0) as [|[nets nets3]] eqn:En; [done|].
  injection Hp as <-; cbn [fst snd] in *.
  destruct (V3Enabled c0) as [v|] eqn:Ev.
  - destruct nets3 as [n3|]; [|by destruct Ht as [[? ?] _]]; cbn [fmap option_fmap option_map] in H.
    apply bind_inv in H as [(? & _ & ?)|(x3 & s7 & H3 & [= <- <- <- <-])]; [done|].
    apply wg_Init_spec in H3 as [K3 H3]; destruct (H3 _ eq_refl) as [P3 I3]; destruct (I3 _ eq_refl) as [I31 I32].
    destruct (Validate_tiers _ _ Hv Ev) as [N1 N2].
    split; [done|]; exists nets, (Some n3); rewrite Ev; split_and!; [done| |].
    + intros Hne; destruct Pd; split; [done..|].
      rewrite (K3 _ eq_refl); [done|]; intros E; apply (Hne x3 eq_refl); rewrite E; unfold confPath; by rewrite I31.
    + exists x3, n3; split_and!; [done..| |]; rewrite ?I31, ?I32, ?Id1, ?Id2; cbn; congruence.
  - destruct nets3; [by destruct Ht as [_ [? ?]]|]; injection H as [= <- <- <- <-].
    split; [done|]; exists nets, None; rewrite Ev; split_and!; [done|by intros _|done].
Qed.
End Prepared.
