(* ===== verification/NodeConfig.v ===== *)
(** The node's own configuration: src/types/config.go, src/types/nodetype.go and the
    registry of protocols of src/services/registry.go, with the configurations of
    OpenVPN and Hysteria2 (their types/config.go).

    A float64 is a [spec_float] of the IEEE format.  The parsers of URLs, addresses,
    coins and prices are parameters. *)
From stdpp Require Import sorting.
From S2P Require Import Prelude Floats Codec Guard StaticKey Amnezia AmneziaProofs.
Set Default Proof Using "Type*".


(** * The registry *)
Record Protocol := mkProtocol { p_Name : string; p_Type : Z; p_HandshakeDNS : bool; p_Daemon : bool }.
Definition registry : list Protocol :=
  [mkProtocol "wireguard" 1 true false; mkProtocol "v2ray" 2 false true; mkProtocol "xray" 4 false true;
   mkProtocol "hysteria2" 6 false true; mkProtocol "amneziawg" 5 true false; mkProtocol "openvpn" 3 true true].
Definition Names : list string := p_Name <$> registry.
Definition Lookup (name : string) : result Protocol :=
  match List.find (fun p => bool_decide (p_Name p = name)) registry with
  | Some p => inr p
  | None => inl ("unknown node type " +:+ quoted name +:+ "; one of: " +:+ String.concat ", " Names)%string
  end.

(** [RegisterNodeType], and the registrations of the registry's [init]. *)
Abbreviation nodeTypes := (gmap string bool).
Definition RegisterNodeType (name : string) (handshakeDNS : bool) (types : nodeTypes) : nodeTypes := <[name := handshakeDNS]> types.
Definition registered : nodeTypes := foldl (fun types p => RegisterNodeType (p_Name p) (p_HandshakeDNS p) types) ∅ registry.
Definition nodeTypeKnown (types : nodeTypes) (name : string) : bool :=
  bool_decide (types = ∅) || bool_decide (is_Some (types !! name)).
Definition nodeTypeAllowsHandshakeDNS (types : nodeTypes) (name : string) : bool := default true (types !! name).

(** Sorted, as [sort.Strings] does. *)
Definition string_leb (a b : string) : Prop := String.leb a b = true.
#[export] Instance string_leb_dec : RelDecision string_leb.
Proof. intros a b; unfold string_leb; apply _. Defined.
Definition NodeTypeNames (types : nodeTypes) : list string := merge_sort string_leb (fst <$> map_to_list types).
Definition nodeTypeList (types : nodeTypes) : string := String.concat ", " (NodeTypeNames types).

(** * Numbers *)
Definition second : Z := 1000000000.
Definition minute : Z := 60 * second.
Definition hour : Z := 60 * minute.

Definition MinPeers : Z := 1.
Definition MaxPeers : Z := 250.
Definition MinMonikerLength : nat := 4.
Definition MaxMonikerLength : nat := 32.
Definition MinIntervalSetSessions : Z := 2 * second.
Definition MaxIntervalSetSessions : Z := 2 * minute.
Definition MinIntervalUpdateSessions : Z := 10 * second.
Definition MaxIntervalUpdateSessions : Z := 2 * hour - 5 * minute.
Definition MinIntervalUpdateStatus : Z := 10 * second.
Definition MaxIntervalUpdateStatus : Z := 1 * hour - 5 * minute.
Definition MaxBandwidthMbps : Z := 1000000.

(** * The sections *)
Record BandwidthConfig := mkBandwidth { DownloadMbps : spec_float; UploadMbps : spec_float }.
Record ChainConfig := mkChain {
  Gas : Z; GasAdjustment : spec_float; GasPrices : string; ch_ID : string; RPCAddresses : string;
  RPCQueryTimeout : Z; RPCTxTimeout : Z; SimulateAndExecute : bool }.
Record EgressConfig := mkEgressConfig { ec_AllowSMTP : bool }.
Record GeoIPConfig := mkGeoIP {
  Provider : string; g_URL : string; Token : string; City : string; Country : string;
  Latitude : spec_float; Longitude : spec_float }.
Record HandshakeConfig := mkHandshake { Enable : bool; hs_Peers : Z }.
Record KeyringConfig := mkKeyring { Backend : string; From : string; Granter : string }.
Record NodeConfig := mkNode {
  IntervalSetSessions : Z; IntervalUpdateSessions : Z; IntervalUpdateStatus : Z; IPv4Address : string; ListenOn : string;
  Moniker : string; n_GigabytePrices : string; n_HourlyPrices : string; RemoteURL : string; n_Type : string; LegacyHandshake : bool }.
Record QOSConfig := mkQOS { q_MaxPeers : Z }.
Record AppConfig := mkApp {
  Bandwidth : BandwidthConfig; Chain_ : ChainConfig; Egress_ : EgressConfig; GeoIP : GeoIPConfig;
  Handshake_ : HandshakeConfig; Keyring : KeyringConfig; Node_ : NodeConfig; QOS : QOSConfig }.

(** [url.URL], what validation reads. *)
Record URL := mkURL { Scheme : string; Hostname : string; Port : string }.

Section Validate.
Context (ParseRequestURI : string -> result URL) (ParseIP : string -> option bytes).
(** The SDK's parsers; the values they give are only checked here. *)
Context {Coins Prices : Type} (ParseCoinsNormalized : string -> result Coins)
  (NewPricesFromString : string -> result Prices) (NewPricesFromCoins : Coins -> result Prices) (noPrices : Prices)
  (AccAddressFromBech32 : string -> result bytes) (types : nodeTypes).
Local Open Scope string_scope.

Definition bandwidth_field (name : string) (value : spec_float) : result unit :=
  check (isNaN value || isInf value) (name +:+ " must be a number") ;;
  check (SFltb value (float64 0)) (name +:+ " cannot be negative") ;;
  check (SFltb (float64 MaxBandwidthMbps) value) (name +:+ " cannot be greater than 1000000").
Definition BandwidthConfig_Validate (c : BandwidthConfig) : result unit :=
  bandwidth_field "download_mbps" (DownloadMbps c) ;;
  bandwidth_field "upload_mbps" (UploadMbps c) ;;
  check (xorb (SFltb (float64 0) (DownloadMbps c)) (SFltb (float64 0) (UploadMbps c)))
    "set both download_mbps and upload_mbps, or neither".

(** [IP.IsLoopback] *)
Definition IsLoopback (ip : bytes) : bool :=
  match To4 ip with
  | Some v4 => bool_decide (head v4 = Some x7f)
  | None => bool_decide (ip = (replicate 15 x00 ++ [x01])%list)
  end.
(** [strings.EqualFold]: ASCII letters fold, and so do the two others that fold to one,
    U+017F to s and U+212A to k (in UTF-8).  That is all there is when one side is
    ASCII; any other letter is compared as it is. *)
Definition lower (c : ascii) : ascii :=
  let n := N_of_ascii c in if ((65 <=? n) && (n <=? 90))%N then Ascii.ascii_of_N (n + 32) else c.
Fixpoint fold_case (l : Str.chars) : Str.chars :=
  match l with
  | a :: ((b :: l2) as l1) =>
      if bool_decide (N_of_ascii a = 197 ∧ N_of_ascii b = 191)%N then "s"%char :: fold_case l2 else
      match l2 with
      | c :: l3 => if bool_decide (N_of_ascii a = 226 ∧ N_of_ascii b = 132 ∧ N_of_ascii c = 170)%N
                   then "k"%char :: fold_case l3 else lower a :: fold_case l1
      | [] => lower a :: fold_case l1
      end
  | [a] => [lower a]
  | [] => []
  end.
Definition EqualFold (a b : string) : bool := bool_decide (fold_case (Str.of_string a) = fold_case (Str.of_string b)).
Example EqualFold_long_s : EqualFold (Str.to_string [Ascii.ascii_of_N 197; Ascii.ascii_of_N 191; "H"%char]) "Sh" = true.
Proof. reflexivity. Qed.
Definition loopbackHost (host : string) : bool :=
  EqualFold host "localhost" || (if ParseIP host is Some ip then IsLoopback ip else false).

(** The addresses as the start hands them to the chain client too. *)
Definition rpcRemotes (c : ChainConfig) : list string := Str.to_string <$> Str.split "," (Str.of_string (RPCAddresses c)).
Fixpoint rpcAddresses_Validate (items : list string) : result unit :=
  match items with
  | [] => inr tt
  | item :: items =>
      uri ← Wrap ("invalid rpc_address " +:+ item) (ParseRequestURI item);
      check (negb (bool_decide (Scheme uri = "http")) && negb (bool_decide (Scheme uri = "https")))
        "rpc_address scheme must be either http or https" ;;
      check (bool_decide (Scheme uri = "http") && negb (loopbackHost (Hostname uri)))
        ("rpc_address " +:+ item +:+ " must use https; plain http is accepted on loopback only") ;;
      check (bool_decide (Port uri = "")) "rpc_address port cannot be empty" ;;
      rpcAddresses_Validate items
  end.
Definition ChainConfig_Validate (c : ChainConfig) : result unit :=
  check (Gas c <=? 0)%Z "gas must be positive" ;;
  check (SFleb (GasAdjustment c) (float64 0)) "gas_adjustment must be positive" ;;
  Wrap "invalid gas_prices" (ParseCoinsNormalized (GasPrices c)) ;;
  check (bool_decide (ch_ID c = "")) "id cannot be empty" ;;
  check (bool_decide (RPCAddresses c = "")) "rpc_addresses cannot be empty" ;;
  rpcAddresses_Validate (rpcRemotes c) ;;
  check (RPCQueryTimeout c =? 0)%Z "rpc_query_timeout cannot be 0" ;;
  check (RPCTxTimeout c =? 0)%Z "rpc_tx_timeout cannot be 0".

Definition EgressConfig_Validate (c : EgressConfig) : result unit := inr tt.

Definition providers : list string := ["auto"; "ipwhois"; "ip2location"; "cloudflare"; "ipify"; "ip-api"; "ipinfo"; "none"].
Definition GeoIPConfig_Validate (c : GeoIPConfig) : result unit :=
  check (negb (bool_decide (Provider c ∈ providers)))
    "provider must be one of auto, ipwhois, ip2location, cloudflare, ipify, ip-api, ipinfo, none" ;;
  (if bool_decide (g_URL c = "") then inr tt else
     check (bool_decide (Provider c = "auto") || bool_decide (Provider c = "none")) ("url cannot be set with provider " +:+ Provider c) ;;
     Wrap "invalid url" (ParseRequestURI (g_URL c)) ;; inr tt) ;;
  (if bool_decide (Provider c = "ipinfo") then check (bool_decide (Token c = "")) "token is required for provider ipinfo"
   else if bool_decide (Provider c = "ip2location") then inr tt
   else check (negb (bool_decide (Token c = ""))) ("token is only used by providers ipinfo and ip2location, not " +:+ Provider c)) ;;
  check (SFltb (Latitude c) (float64 (-90)) || SFltb (float64 90) (Latitude c)) "latitude must be between -90 and 90" ;;
  check (SFltb (Longitude c) (float64 (-180)) || SFltb (float64 180) (Longitude c)) "longitude must be between -180 and 180".

Definition HandshakeConfig_Validate (c : HandshakeConfig) : result unit :=
  check (Enable c && (hs_Peers c <=? 0)%Z) "peers must be positive".

Definition KeyringConfig_Validate (c : KeyringConfig) : result unit :=
  check (bool_decide (Backend c = "")) "backend cannot be empty" ;;
  check (negb (bool_decide (Backend c = "file")) && negb (bool_decide (Backend c = "test"))) "backend must be either file or test" ;;
  check (bool_decide (From c = "")) "from cannot be empty" ;;
  if bool_decide (Granter c = "") then inr tt else Wrap "invalid granter" (AccAddressFromBech32 (Granter c)) ;; inr tt.

(** [strings.Contains(s, ":")] *)
Definition ParsePrices (s : string) : result Prices :=
  let s := Str.to_string (TrimSpace (Str.of_string s)) in
  if bool_decide (s = "") then inr noPrices
  else if bool_decide (":"%char ∈ Str.of_string s) then NewPricesFromString s
  else coins ← ParseCoinsNormalized s; NewPricesFromCoins coins.

Definition NodeConfig_Validate (c : NodeConfig) : result unit :=
  check (IntervalSetSessions c <? MinIntervalSetSessions)%Z "interval_set_sessions cannot be less than 2s" ;;
  check (MaxIntervalSetSessions <? IntervalSetSessions c)%Z "interval_set_sessions cannot be greater than 2m0s" ;;
  check (IntervalUpdateSessions c <? MinIntervalUpdateSessions)%Z "interval_update_sessions cannot be less than 10s" ;;
  check (MaxIntervalUpdateSessions <? IntervalUpdateSessions c)%Z "interval_update_sessions cannot be greater than 1h55m0s" ;;
  check (IntervalUpdateStatus c <? MinIntervalUpdateStatus)%Z "interval_set_sessions cannot be less than 10s" ;;
  check (MaxIntervalUpdateStatus <? IntervalUpdateStatus c)%Z "interval_set_sessions cannot be greater than 55m0s" ;;
  (if bool_decide (IPv4Address c = "") then inr tt else
     match ParseIP (IPv4Address c) with
     | None => inl "invalid ipv4_address"
     | Some addr => check (bool_decide (To4 addr = None)) "ipv4_address format must be in IPv4 format"
     end) ;;
  check (bool_decide (ListenOn c = "")) "listen_on cannot be empty" ;;
  check (bool_decide (Moniker c = "")) "moniker cannot be empty" ;;
  check (String.length (Moniker c) <? MinMonikerLength)%nat "moniker length cannot be less than 4" ;;
  check (MaxMonikerLength <? String.length (Moniker c))%nat "moniker length cannot be greater than 32" ;;
  check (bool_decide (n_GigabytePrices c = "")) "gigabyte_prices cannot be empty" ;;
  Wrap "invalid gigabyte_prices" (ParsePrices (n_GigabytePrices c)) ;;
  check (bool_decide (n_HourlyPrices c = "")) "hourly_prices cannot be empty" ;;
  Wrap "invalid hourly_prices" (ParsePrices (n_HourlyPrices c)) ;;
  check (bool_decide (RemoteURL c = "")) "remote_url cannot be empty" ;;
  remoteURL ← Wrap "invalid remote_url" (ParseRequestURI (RemoteURL c));
  check (negb (bool_decide (Scheme remoteURL = "https"))) "remote_url scheme must be https" ;;
  check (bool_decide (Port remoteURL = "")) "remote_url port cannot be empty" ;;
  check (bool_decide (n_Type c = "")) "type cannot be empty" ;;
  check (negb (nodeTypeKnown types (n_Type c))) ("type must be one of: " +:+ nodeTypeList types).

Definition QOSConfig_Validate (c : QOSConfig) : result unit :=
  check (q_MaxPeers c <? MinPeers)%Z "max_peers cannot be less than 1" ;;
  check (MaxPeers <? q_MaxPeers c)%Z "max_peers cannot be greater than 250".

Definition AppConfig_Validate (c : AppConfig) : result unit :=
  Wrap "invalid section bandwidth" (BandwidthConfig_Validate (Bandwidth c)) ;;
  Wrap "invalid section chain" (ChainConfig_Validate (Chain_ c)) ;;
  Wrap "invalid section egress" (EgressConfig_Validate (Egress_ c)) ;;
  Wrap "invalid section geoip" (GeoIPConfig_Validate (GeoIP c)) ;;
  Wrap "invalid section handshake" (HandshakeConfig_Validate (Handshake_ c)) ;;
  Wrap "invalid section keyring" (KeyringConfig_Validate (Keyring c)) ;;
  Wrap "invalid section node" (NodeConfig_Validate (Node_ c)) ;;
  Wrap "invalid section qos" (QOSConfig_Validate (QOS c)) ;;
  check (bool_decide (Provider (GeoIP c) = "none") && bool_decide (IPv4Address (Node_ c) = ""))
    "invalid section node: ipv4_address must be set when geoip.provider is none" ;;
  check (Enable (Handshake_ c) && negb (nodeTypeAllowsHandshakeDNS types (n_Type (Node_ c))))
    ("invalid section handshake: must be disabled for a " +:+ n_Type (Node_ c) +:+ " node").
End Validate.

(** * Defaults and what is logged *)

Local Open Scope string_scope.
Definition NewAppConfig : AppConfig :=
  mkApp (mkBandwidth (float64 0) (float64 0)) (mkChain 0 (float64 0) "" "" "" 0 0 false) (mkEgressConfig false)
    (mkGeoIP "" "" "" "" "" (float64 0) (float64 0)) (mkHandshake false 0) (mkKeyring "" "" "")
    (mkNode 0 0 0 "" "" "" "" "" "" "" false) (mkQOS 0).
Definition ChainDefaults (c : ChainConfig) : ChainConfig :=
  mkChain 200000 (S754_finite false 4728779608739021 (-52)) (* 1.05 *) "0.1udvpn" "sentinelhub-2"
    "https://sentinel-rpc.publicnode.com:443,https://sentinel-rpc.polkachu.com:443,https://rpc-sentinel.busurnode.com:443,https://rpc.sentineldao.com:443"
    10 30 true.
Definition EgressDefaults (c : EgressConfig) : EgressConfig := mkEgressConfig false.
Definition GeoIPDefaults (c : GeoIPConfig) : GeoIPConfig :=
  mkGeoIP "auto" (g_URL c) (Token c) (City c) (Country c) (Latitude c) (Longitude c).
Definition HandshakeDefaults (c : HandshakeConfig) : HandshakeConfig := mkHandshake false 8.
Definition KeyringDefaults (c : KeyringConfig) : KeyringConfig := mkKeyring "file" "operator" (Granter c).
Definition NodeDefaults (port : Z) (Itoa : Z -> string) (c : NodeConfig) : NodeConfig :=
  mkNode (10 * second) MaxIntervalUpdateSessions MaxIntervalUpdateStatus (IPv4Address c) ("0.0.0.0:" +:+ Itoa port)
    (Moniker c) (n_GigabytePrices c) (n_HourlyPrices c) (RemoteURL c) "wireguard" false.
Definition QOSDefaults (c : QOSConfig) : QOSConfig := mkQOS MaxPeers.
Definition AppDefaults (port : Z) (Itoa : Z -> string) (c : AppConfig) : AppConfig :=
  mkApp (Bandwidth c) (ChainDefaults (Chain_ c)) (EgressDefaults (Egress_ c)) (GeoIPDefaults (GeoIP c))
    (HandshakeDefaults (Handshake_ c)) (KeyringDefaults (Keyring c)) (NodeDefaults port Itoa (Node_ c)) (QOSDefaults (QOS c)).

Definition Redacted (c : AppConfig) : AppConfig :=
  if bool_decide (Token (GeoIP c) = "") then c
  else
    let g := GeoIP c in
    mkApp (Bandwidth c) (Chain_ c) (Egress_ c)
      (mkGeoIP (Provider g) (g_URL g) "<redacted>" (City g) (Country g) (Latitude g) (Longitude g))
      (Handshake_ c) (Keyring c) (Node_ c) (QOS c).

(** * At the start (src/cmd/start.go) *)

(** An interval is lowered to 80% of the chain's timeout. *)
Definition fitInterval (statusTimeout interval : Z) : Z :=
  let limit := Z.quot (wrap64 (statusTimeout * 4)) 5 in
  if ((0 <? limit) && (limit <? interval))%Z then limit else interval.
Definition hnsdArgs (Itoa : Z -> string) (peers : Z) (hostPort : string) : list string :=
  ["--log-file"; "/dev/null"; "--pool-size"; Itoa peers; "--rs-host"; hostPort].
(** [net.SplitHostPort] and [strconv.ParseUint(port, 10, 16)]. *)
Definition apiPort (SplitHostPort : string -> result (string * string)) (ParseUint16 : string -> result Z) (listenOn : string) : Z :=
  match SplitHostPort listenOn with
  | inl _ => 0
  | inr (_, port) => match ParseUint16 port with inl _ => 0 | inr v => uint16 v end
  end.

(** * OpenVPN and Hysteria2 *)
Definition ContainsAny (s chars : string) : bool := existsb (fun c => bool_decide (c ∈ Str.of_string chars)) (Str.of_string s).
Definition lf : string := String "010"%char "".

Record OvConfig := mkOvConfig {
  ovc_Interface : string; ovc_ListenPort : Z; ovc_Proto : string; ovc_Uplink : string; ovc_EnableIPv6 : bool }.
Definition OvConfig_Validate (c : OvConfig) : result unit :=
  check (bool_decide (ovc_Interface c = "") || ContainsAny (ovc_Interface c) (" /" +:+ lf) || (15 <? String.length (ovc_Interface c))%nat)
    "interface must be a valid interface name" ;;
  check (ovc_ListenPort c =? 0)%Z "listen_port cannot be zero" ;;
  check (negb (bool_decide (ovc_Proto c = "udp")) && negb (bool_decide (ovc_Proto c = "tcp"))) ("proto must be " +:+ quoted "udp" +:+ " or " +:+ quoted "tcp") ;;
  check (ContainsAny (ovc_Uplink c) (" " +:+ lf)) "invalid uplink".
Definition OvDefaults (port : Z) (c : OvConfig) : OvConfig := mkOvConfig "ovpn0" port "udp" (ovc_Uplink c) true.

Record HyServer := mkHyServer { hys_ListenPort : Z; hys_ObfsPassword : string; hys_Up : string; hys_Down : string }.
Record HyAPI := mkHyAPI { hya_AuthPort : Z; hya_StatsPort : Z }.
Record HyConfig := mkHyConfig { hyc_Server : HyServer; hyc_API : HyAPI }.

(** The pattern [^[0-9]+(\.[0-9]+)?\s*(bps|kbps|mbps|gbps|tbps)?$]. *)
Fixpoint span (p : ascii -> bool) (s : Str.chars) : Str.chars * Str.chars :=
  match s with
  | c :: r => if p c then let '(a, b) := span p r in (c :: a, b) else ([], s)
  | [] => ([], [])
  end.
Definition re_space (c : ascii) : bool := bool_decide (N_of_ascii c ∈ [9; 10; 12; 13; 32]%N).
Definition units : list string := [""; "bps"; "kbps"; "mbps"; "gbps"; "tbps"].
Definition bandwidth_match (s : Str.chars) : bool :=
  let '(whole, rest) := span isDigit s in
  let '(fraction_ok, rest) :=
    match rest with
    | "."%char :: rest => let '(fraction, rest) := span isDigit rest in (negb (bool_decide (fraction = [])), rest)
    | _ => (true, rest)
    end in
  negb (bool_decide (whole = [])) && fraction_ok && bool_decide (Str.to_string (span re_space rest).2 ∈ units).
(** The loop over "up" and "down" is over a Go map; in this model "up" comes first. *)
Definition rate_Validate (name v : string) : result unit :=
  check (negb (bool_decide (v = "")) && negb (bandwidth_match (lower <$> TrimSpace (Str.of_string v)))) (name +:+ " must be a rate such as " +:+ quoted "100 mbps").
Definition HyServer_Validate (c : HyServer) : result unit :=
  check (hys_ListenPort c =? 0)%Z "listen_port cannot be zero" ;;
  check (ContainsAny (hys_ObfsPassword c) (String "034"%char lf)) "obfs_password cannot contain quotes or lfs" ;;
  rate_Validate "up" (hys_Up c) ;;
  rate_Validate "down" (hys_Down c) ;;
  check (xorb (bool_decide (hys_Up c = "")) (bool_decide (hys_Down c = ""))) "up and down must be set together".
Definition HyAPI_Validate (c : HyAPI) : result unit :=
  check ((hya_AuthPort c =? 0) || (hya_StatsPort c =? 0))%Z "auth_port and stats_port cannot be zero" ;;
  check (hya_AuthPort c =? hya_StatsPort c)%Z "auth_port and stats_port must differ".
Definition HyConfig_Validate (c : HyConfig) : result unit :=
  Wrap "invalid section server" (HyServer_Validate (hyc_Server c)) ;;
  Wrap "invalid section api" (HyAPI_Validate (hyc_API c)).

(** The second port is drawn until it differs. *)
Section HyDefaults.
Context {R : Type} `{!Rand R}.
Fixpoint other_port (fuel : nat) (auth : Z) (r : R) : option (Z * R) :=
  match fuel with
  | O => None
  | S fuel => let '(p, r') := RandomPort r in if (p =? auth)%Z then other_port fuel auth r' else Some (p, r')
  end.
Definition HyDefaults (fuel : nat) (c : HyConfig) (r : R) : option (HyConfig * R) :=
  let '(listen, r1) := RandomPort r in
  let '(auth, r2) := RandomPort r1 in
  '(stats, r3) ← other_port fuel auth r2;
  Some (mkHyConfig (mkHyServer listen (hys_ObfsPassword (hyc_Server c)) (hys_Up (hyc_Server c)) (hys_Down (hyc_Server c)))
    (mkHyAPI auth stats), r3).
End HyDefaults.

(** * What an accepted configuration promises *)
Section Sound.
Context (ParseRequestURI : string -> result URL) (ParseIP : string -> option bytes).
Context {Coins Prices : Type} (ParseCoinsNormalized : string -> result Coins)
  (NewPricesFromString : string -> result Prices) (NewPricesFromCoins : Coins -> result Prices) (noPrices : Prices)
  (AccAddressFromBech32 : string -> result bytes).
Abbreviation Validate types := (AppConfig_Validate ParseRequestURI ParseIP ParseCoinsNormalized NewPricesFromString
  NewPricesFromCoins noPrices AccAddressFromBech32 types).

(** The node trusts the RPC's answers: TLS, or the loopback. *)
Definition trusted_remote (item : string) : Prop := ∃ u, ParseRequestURI item = inr u ∧ Port u ≠ ""
  ∧ (Scheme u = "https" ∨ Scheme u = "http" ∧ loopbackHost ParseIP (Hostname u) = true).

Lemma rpcAddresses_sound items : rpcAddresses_Validate ParseRequestURI ParseIP items = inr tt -> Forall trusted_remote items.
Proof.
  induction items as [|item items IH]; [done|]; cbn.
  destruct (ParseRequestURI item) as [e|u] eqn:E; [done|]; cbn.
  rewrite !then_inr, !check_inr, !bool_decide_eq_false, !andb_false_iff, !negb_false_iff, !bool_decide_eq_false, !bool_decide_eq_true.
  intros (H1 & H2 & H3 & H4); constructor; [|by apply IH]; exists u; split_and!; [done|done|].
  destruct H1 as [H1|H1]; [right|by left]; split; [done|by destruct H2].
Qed.

Lemma remotes_nonempty c : rpcRemotes c ≠ [].
Proof.
  unfold rpcRemotes; intros H%fmap_nil_inv; destruct (Str.of_string (RPCAddresses c)) as [|x l]; [done|]; cbn in H.
  case_decide; [done|]; by destruct (Str.split _ l).
Qed.

Lemma registered_ne : registered ≠ ∅.
Proof. unfold registered; cbn [foldl registry]; apply insert_non_empty. Qed.
Lemma registered_lookup name b : registered !! name = Some b -> ∃ p, Lookup name = inr p ∧ p_HandshakeDNS p = b.
Proof.
  intros H; assert (map_Forall (fun n b => ∃ p, Lookup n = inr p ∧ p_HandshakeDNS p = b) registered) as Hall; [|by apply Hall].
  unfold registered, RegisterNodeType; cbn [foldl registry p_Name p_HandshakeDNS].
  repeat (apply map_Forall_insert_2; [eexists; split; vm_compute; reflexivity|]); apply map_Forall_empty.
Qed.

Lemma geoip_token c : GeoIPConfig_Validate ParseRequestURI c = inr tt ->
  Token c = "" ∨ Provider c = "ipinfo" ∨ Provider c = "ip2location".
Proof.
  unfold GeoIPConfig_Validate; rewrite !then_inr; intros (_ & _ & Ht & _); revert Ht.
  repeat case_bool_decide; cbn; tauto || done.
Qed.

Lemma node_sound types c : NodeConfig_Validate ParseRequestURI ParseIP ParseCoinsNormalized NewPricesFromString NewPricesFromCoins
    noPrices types c = inr tt ->
  MinIntervalSetSessions <= IntervalSetSessions c <= MaxIntervalSetSessions
  ∧ MinIntervalUpdateSessions <= IntervalUpdateSessions c <= MaxIntervalUpdateSessions
  ∧ MinIntervalUpdateStatus <= IntervalUpdateStatus c <= MaxIntervalUpdateStatus
  ∧ (IPv4Address c ≠ "" -> ∃ ip v4, ParseIP (IPv4Address c) = Some ip ∧ To4 ip = Some v4)
  ∧ (∃ u, ParseRequestURI (RemoteURL c) = inr u ∧ Scheme u = "https" ∧ Port u ≠ "")
  ∧ nodeTypeKnown types (n_Type c) = true.
Proof.
  unfold NodeConfig_Validate; rewrite !then_inr, !check_inr, !Z.ltb_ge.
  intros (A1 & A2 & B1 & B2 & C1 & C2 & Hip & _ & _ & _ & _ & _ & H); apply bind_inr in H as [_ H].
  rewrite then_inr in H; destruct H as [_ H]; apply bind_inr in H as [_ H]; rewrite then_inr in H; destruct H as [_ H].
  destruct (ParseRequestURI (RemoteURL c)) as [e|u]; [done|]; cbn in H.
  rewrite !then_inr, !check_inr, !negb_false_iff, !bool_decide_eq_false, bool_decide_eq_true in H; destruct H as (Hs & Hp & _ & Ht).
  split_and!; try done; [|by exists u].
  intros Hne; rewrite bool_decide_eq_false_2 in Hip by done; destruct (ParseIP (IPv4Address c)) as [ip|]; [|done].
  apply check_inr, bool_decide_eq_false in Hip; destruct (To4 ip) as [v4|] eqn:E; [by exists ip, v4|done].
Qed.

(** The prices of an accepted section parse. *)
Lemma node_prices types c : NodeConfig_Validate ParseRequestURI ParseIP ParseCoinsNormalized NewPricesFromString NewPricesFromCoins
    noPrices types c = inr tt ->
  ∃ g h, ParsePrices ParseCoinsNormalized NewPricesFromString NewPricesFromCoins noPrices (n_GigabytePrices c) = inr g
    ∧ ParsePrices ParseCoinsNormalized NewPricesFromString NewPricesFromCoins noPrices (n_HourlyPrices c) = inr h.
Proof.
  unfold NodeConfig_Validate; rewrite !then_inr.
  intros (_ & _ & _ & _ & _ & _ & _ & _ & _ & _ & _ & _ & H); apply bind_inr in H as [[g Hg%Wrap_inr] H].
  rewrite then_inr in H; destruct H as [_ H]; apply bind_inr in H as [[h Hh%Wrap_inr] _]; by exists g, h.
Qed.

(** The remotes of an accepted [chain] section. *)
Lemma chain_remotes c : ChainConfig_Validate ParseRequestURI ParseIP ParseCoinsNormalized c = inr tt -> rpcRemotes c ≠ [] ∧ Forall trusted_remote (rpcRemotes c).
Proof using Type.
  unfold ChainConfig_Validate; rewrite !then_inr; intros (_ & _ & Hch); apply bind_inr in Hch as [_ Hch].
  rewrite !then_inr in Hch; destruct Hch as (_ & _ & Hr & _); split; [apply remotes_nonempty|by apply rpcAddresses_sound].
Qed.

(** C40. An accepted configuration keeps what the rest of the node relies on: at least
    one remote, each over TLS or on the loopback; a node type the registry knows; room for
    between 1 and 250 peers, which the tunnels' pools hold; intervals within their
    bounds; an advertised URL over TLS; a location token only where the operator's
    chosen provider uses one; the resolver only next to a protocol that can
    use it; and an IPv4 address when no provider is to find it. *)
Theorem config_sound c : Validate registered c = inr tt ->
  (rpcRemotes (Chain_ c) ≠ [] ∧ Forall trusted_remote (rpcRemotes (Chain_ c)))
  ∧ (∃ p, Lookup (n_Type (Node_ c)) = inr p ∧ (Enable (Handshake_ c) = true -> p_HandshakeDNS p = true))
  ∧ 1 <= q_MaxPeers (QOS c) <= 250
  ∧ MinIntervalSetSessions <= IntervalSetSessions (Node_ c) <= MaxIntervalSetSessions
  ∧ MinIntervalUpdateSessions <= IntervalUpdateSessions (Node_ c) <= MaxIntervalUpdateSessions
  ∧ MinIntervalUpdateStatus <= IntervalUpdateStatus (Node_ c) <= MaxIntervalUpdateStatus
  ∧ (∃ u, ParseRequestURI (RemoteURL (Node_ c)) = inr u ∧ Scheme u = "https" ∧ Port u ≠ "")
  ∧ (Token (GeoIP c) = "" ∨ Provider (GeoIP c) = "ipinfo" ∨ Provider (GeoIP c) = "ip2location")
  ∧ (Provider (GeoIP c) = "none" -> ∃ ip v4, ParseIP (IPv4Address (Node_ c)) = Some ip ∧ To4 ip = Some v4).
Proof.
  unfold AppConfig_Validate; rewrite !then_inr, !Wrap_inr, !check_inr.
  intros (_ & Hch & _ & Hgeo & _ & _ & Hnode & Hq & Hnone & Hdns).
  apply node_sound in Hnode as (I1 & I2 & I3 & Hip & Hu & Hk); apply geoip_token in Hgeo.
  apply chain_remotes in Hch.
  unfold QOSConfig_Validate in Hq; rewrite then_inr, !check_inr, !Z.ltb_ge in Hq.
  apply orb_true_iff in Hk as [Hk|Hk]; apply bool_decide_eq_true in Hk; [by destruct registered_ne|]; destruct Hk as [b Hb].
  pose proof (registered_lookup _ _ Hb) as (p & Hp & HpD).
  split; [exact Hch|]; split; [|split; [exact Hq|]].
  - exists p; split; [done|]; intros He; rewrite He in Hdns; unfold nodeTypeAllowsHandshakeDNS in Hdns; rewrite Hb in Hdns; cbn in Hdns.
    rewrite HpD; by apply negb_false_iff.
  - split; [exact I1|]; split; [exact I2|]; split; [exact I3|]; split; [exact Hu|]; split; [exact Hgeo|].
    intros Hn; apply Hip; intros E; by rewrite !bool_decide_eq_true_2 in Hnone.
Qed.

(** ** The defaults *)
Definition tls_url (item : string) : Prop := ∃ u, ParseRequestURI item = inr u ∧ Scheme u = "https" ∧ Port u ≠ "".

Lemma rpcAddresses_tls items : Forall tls_url items -> rpcAddresses_Validate ParseRequestURI ParseIP items = inr tt.
Proof.
  induction 1 as [|item items (u & Hu & Hs & Hp) _ IH]; [done|]; cbn; rewrite Hu; cbn; rewrite Hs; cbn.
  rewrite bool_decide_eq_false_2 by done; exact IH.
Qed.

Lemma chain_defaults_valid c : Forall tls_url (rpcRemotes (ChainDefaults c)) -> (∃ coins, ParseCoinsNormalized "0.1udvpn" = inr coins) ->
  ChainConfig_Validate ParseRequestURI ParseIP ParseCoinsNormalized (ChainDefaults c) = inr tt.
Proof.
  intros Hr [coins Hc]; unfold ChainConfig_Validate; rewrite 2!then_inr; split; [done|]; split; [by vm_compute|].
  apply bind_inr; split; [exists coins; by rewrite Wrap_inr|].
  rewrite !then_inr; split_and!; [done|done|by apply rpcAddresses_tls|done|done].
Qed.

Lemma node_defaults_valid port Itoa n u : let d := NodeDefaults port Itoa n in
  IPv4Address n = "" -> (4 <= String.length (Moniker n) <= 32)%nat -> n_GigabytePrices n ≠ "" -> n_HourlyPrices n ≠ "" ->
  (∃ p, ParsePrices ParseCoinsNormalized NewPricesFromString NewPricesFromCoins noPrices (n_GigabytePrices n) = inr p) ->
  (∃ p, ParsePrices ParseCoinsNormalized NewPricesFromString NewPricesFromCoins noPrices (n_HourlyPrices n) = inr p) ->
  RemoteURL n ≠ "" -> ParseRequestURI (RemoteURL n) = inr u -> Scheme u = "https" -> Port u ≠ "" ->
  NodeConfig_Validate ParseRequestURI ParseIP ParseCoinsNormalized NewPricesFromString NewPricesFromCoins noPrices registered d = inr tt.
Proof.
  intros d Hip Hm Hgb Hhr [p1 Hp1] [p2 Hp2] Hr Hu Hs Hp; unfold NodeConfig_Validate.
  rewrite !then_inr, !check_inr; cbn [d NodeDefaults IPv4Address Moniker n_GigabytePrices n_HourlyPrices RemoteURL ListenOn n_Type];
    rewrite Hip; split_and!; try (vm_compute; reflexivity).
  - by destruct (Moniker n); cbn in Hm; [lia|].
  - apply Nat.ltb_ge; apply Hm.
  - apply Nat.ltb_ge; apply Hm.
  - by apply bool_decide_eq_false_2.
  - apply bind_inr; split; [exists p1; by rewrite Wrap_inr|]; rewrite then_inr, check_inr; split; [by apply bool_decide_eq_false_2|].
    apply bind_inr; split; [exists p2; by rewrite Wrap_inr|]; rewrite then_inr, check_inr; split; [by apply bool_decide_eq_false_2|].
    rewrite Hu; cbn -[nodeTypeKnown]; rewrite Hs, (bool_decide_eq_false_2 (Port u = "")) by done; vm_compute; reflexivity.
Qed.

(** A fresh configuration needs only what the operator must choose: with a
    moniker, prices and a URL that are accepted on their own, it is accepted. *)
Theorem default_config_valid port Itoa n u : let d := AppDefaults port Itoa NewAppConfig in
  IPv4Address n = "" -> (4 <= String.length (Moniker n) <= 32)%nat -> n_GigabytePrices n ≠ "" -> n_HourlyPrices n ≠ "" ->
  (∃ p, ParsePrices ParseCoinsNormalized NewPricesFromString NewPricesFromCoins noPrices (n_GigabytePrices n) = inr p) ->
  (∃ p, ParsePrices ParseCoinsNormalized NewPricesFromString NewPricesFromCoins noPrices (n_HourlyPrices n) = inr p) ->
  RemoteURL n ≠ "" -> ParseRequestURI (RemoteURL n) = inr u -> Scheme u = "https" -> Port u ≠ "" ->
  Forall tls_url (rpcRemotes (Chain_ d)) -> (∃ coins, ParseCoinsNormalized "0.1udvpn" = inr coins) ->
  Validate registered (mkApp (Bandwidth d) (Chain_ d) (Egress_ d) (GeoIP d) (Handshake_ d) (Keyring d) (NodeDefaults port Itoa n) (QOS d)) = inr tt.
Proof.
  intros d Hip Hm Hgb Hhr Hp1 Hp2 Hr Hu Hs Hp Hrpc Hc; unfold AppConfig_Validate; rewrite !then_inr, !Wrap_inr; split_and!.
  - by vm_compute.
  - by apply chain_defaults_valid.
  - done.
  - by vm_compute.
  - done.
  - done.
  - by eapply node_defaults_valid.
  - done.
  - done.
  - done.
Qed.
End Sound.

Theorem Redacted_hides c : (Token (GeoIP (Redacted c)) = "" ∨ Token (GeoIP (Redacted c)) = "<redacted>")
  ∧ (forall t, let g := GeoIP c in
      Redacted (mkApp (Bandwidth c) (Chain_ c) (Egress_ c) (mkGeoIP (Provider g) (g_URL g) t (City g) (Country g) (Latitude g) (Longitude g))
        (Handshake_ c) (Keyring c) (Node_ c) (QOS c)) = Redacted c ∨ t = "" ∨ Token g = "").
Proof.
  split.
  - unfold Redacted; case_bool_decide; [by left|by right].
  - intros t g; destruct (decide (t = "")), (decide (Token g = "")); [by right; left..|by right; right|]; left.
    unfold Redacted; cbn; rewrite !bool_decide_eq_false_2 by done; done.
Qed.

(** ** Hysteria2's defaults *)
Section HyDefaultsValid.
Context {R : Type} `{!Rand R} {RR : RandLaws R}.

Lemma other_port_ne fuel auth (r : R) p r' : other_port fuel auth r = Some (p, r') -> p ≠ auth ∧ 1024 <= p < 65536.
Proof.
  revert r; induction fuel as [|fuel IH]; intros r; cbn; [done|].
  pose proof (RandomPort_range r) as Hr; destruct (RandomPort r) as [q r1]; cbn in Hr.
  destruct (Z.eqb_spec q auth); [apply IH|]; by intros [= <- <-].
Qed.

(** Fresh Hysteria2 settings are accepted: the two loopback ports differ. *)
Theorem hysteria_defaults_valid fuel (r : R) c r' :
  HyDefaults fuel (mkHyConfig (mkHyServer 0 "" "" "") (mkHyAPI 0 0)) r = Some (c, r') -> HyConfig_Validate c = inr tt.
Proof.
  unfold HyDefaults; pose proof (RandomPort_range r) as H1; destruct (RandomPort r) as [listen r1]; cbn in H1.
  pose proof (RandomPort_range r1) as H2; destruct (RandomPort r1) as [auth r2]; cbn in H2.
  destruct (other_port fuel auth r2) as [[stats r3]|] eqn:E; cbn; [|done]; intros [= <- <-].
  apply other_port_ne in E as [Hne H3]; unfold HyConfig_Validate, HyServer_Validate, HyAPI_Validate.
  rewrite !then_inr, !Wrap_inr, !then_inr, !check_inr; cbn [hyc_Server hyc_API hys_ListenPort hya_AuthPort hya_StatsPort].
  split_and!; try done; [..|by apply Z.eqb_neq]; [apply Z.eqb_neq; lia|apply orb_false_iff; split; apply Z.eqb_neq; lia].
Qed.
End HyDefaultsValid.

(** * A fresh node's configuration *)
Definition ex_parseURI (s : string) : result URL :=
  if Str.has_prefix (Str.of_string "https://") (Str.of_string s) then inr (mkURL "https" "host" "443") else inl "no scheme".
Definition ex_config : AppConfig :=
  let d := AppDefaults 8585 (fun _ => "8585") NewAppConfig in
  mkApp (Bandwidth d) (Chain_ d) (Egress_ d) (GeoIP d) (mkHandshake true 8) (Keyring d)
    (NodeDefaults 8585 (fun _ => "8585") (mkNode 0 0 0 "" "" "my-node" "1000udvpn" "20udvpn" "https://node.example:8585" "" false)) (QOS d).

Lemma config_sound_witness :
  rpcRemotes (Chain_ ex_config) ≠ [] ∧ Lookup (n_Type (Node_ ex_config)) = inr (mkProtocol "wireguard" 1 true false)
  ∧ Forall (trusted_remote ex_parseURI (fun _ => None)) (rpcRemotes (Chain_ ex_config)).
Proof.
  destruct (config_sound ex_parseURI (fun _ => None) (fun s => inr s) (fun s => inr s) (fun s => inr s) "" (fun _ => inl "no address") ex_config)
    as ((Hne & Ht) & _); [vm_compute; reflexivity|].
  split; [exact Hne|]; split; [vm_compute; reflexivity|exact Ht].
Defined.
