(* ===== verification/GeoIP.v ===== *)
(** Where the node is: src/libs/geoip/geoip.go.

    The location comes from one provider, from a chain of free sources that
    degrades step by step, or from the configuration, and the operator's static
    values override what was looked up.  The HTTP client, JSON decoding and float
    parsing are parameters. *)
From S2P Require Import Prelude Floats Codec StaticKey NodeConfig.
Set Default Proof Using "Type*".
Local Open Scope string_scope.

Record GeoIPLocation := mkLocation {
  l_City : string; l_Country : string; l_CountryCode : string; l_IP : string;
  l_Latitude : spec_float; l_Longitude : spec_float; l_Source : string }.
Definition location0 : GeoIPLocation := mkLocation "" "" "" "" (float64 0) (float64 0) "".

Definition ProviderAuto : string := "auto".
Definition ProviderIPWhois : string := "ipwhois".
Definition ProviderIP2Location : string := "ip2location".
Definition ProviderCloudflare : string := "cloudflare".
Definition ProviderIPify : string := "ipify".
Definition ProviderIPAPI : string := "ip-api".
Definition ProviderIPInfo : string := "ipinfo".
Definition ProviderNone : string := "none".
Definition SourceStatic : string := "static".

Definition defaultURLs (name : string) : string :=
  if decide (name = ProviderIPWhois) then "https://ipwho.is/"
  else if decide (name = ProviderIP2Location) then "https://api.ip2location.io/"
  else if decide (name = ProviderCloudflare) then "https://www.cloudflare.com/cdn-cgi/trace"
  else if decide (name = ProviderIPify) then "https://api.ipify.org?format=json"
  else if decide (name = ProviderIPAPI) then "http://ip-api.com/json"
  else if decide (name = ProviderIPInfo) then "https://api.ipinfo.io/lite/me"
  else "".
Definition autoChain : list string := [ProviderIPWhois; ProviderIP2Location].

Record GeoOptions := mkGeoOptions {
  go_Provider : string; go_URL : string; go_Token : string; go_IP : string;
  go_City : string; go_Country : string; go_Latitude : spec_float; go_Longitude : spec_float }.

(** * The answers *)

(** The JSON bodies, with the fields the parsers read. *)
Record IPWhoisBody := mkIPWhois {
  bw_IP : string; bw_Success : bool; bw_Message : string; bw_City : string; bw_Country : string; bw_CountryCode : string;
  bw_Latitude : spec_float; bw_Longitude : spec_float }.
Record IP2LocationBody := mkIP2Location {
  b2_IP : string; b2_City : string; b2_Country : string; b2_CountryCode : string;
  b2_Latitude : spec_float; b2_Longitude : spec_float; b2_Error : option (Z * string) }.
Record IPAPIBody := mkIPAPI {
  ba_City : string; ba_Country : string; ba_CountryCode : string; ba_IP : string; ba_Latitude : spec_float; ba_Longitude : spec_float }.
Record IPInfoBody := mkIPInfo { bi_IP : string; bi_City : string; bi_Country : string; bi_CountryCode : string; bi_Loc : string }.

Class GeoJSON := {
  decodeIPWhois : string -> result IPWhoisBody;
  decodeIP2Location : string -> result IP2LocationBody;
  decodeIPify : string -> result string;
  decodeIPAPI : string -> result IPAPIBody;
  decodeIPInfo : string -> result IPInfoBody;
  (** [strconv.ParseFloat(s, 64)], the value it gives with or without an error *)
  ParseFloat : string -> spec_float;
  geo_Itoa : Z -> string
}.

(** [strings.ToUpper], on ASCII. *)
Definition upper (c : ascii) : ascii :=
  let n := N_of_ascii c in if ((97 <=? n) && (n <=? 122))%N then Ascii.ascii_of_N (n - 32) else c.
Definition ToUpper (s : string) : string := Str.to_string (upper <$> Str.of_string s).

Section Parse.
Context {GJ : GeoJSON}.

Definition parseIPWhois (r : string) : result GeoIPLocation :=
  body ← decodeIPWhois r;
  check (negb (bw_Success body)) ("lookup failed: " +:+ bw_Message body) ;;
  inr (mkLocation (bw_City body) (bw_Country body) (bw_CountryCode body) (bw_IP body) (bw_Latitude body) (bw_Longitude body) "").
Definition parseIP2Location (r : string) : result GeoIPLocation :=
  body ← decodeIP2Location r;
  match b2_Error body with
  | Some (code, message) => inl ("lookup failed: " +:+ geo_Itoa code +:+ " " +:+ message)
  | None => inr (mkLocation (b2_City body) (b2_Country body) (b2_CountryCode body) (b2_IP body) (b2_Latitude body) (b2_Longitude body) "")
  end.

(** [bufio.Scanner] over lines: the last empty line is no line, a trailing carriage
    return is dropped, a line of 64 KiB or more is an error. *)
Definition chomp (l : Str.chars) : Str.chars := if decide (last l = Some "013"%char) then take (length l - 1) l else l.
Definition scanLines (r : string) : list Str.chars :=
  let lines := Str.split nl (Str.of_string r) in
  if decide (last lines = Some []) then take (length lines - 1) lines else lines.
Definition maxToken : nat := Z.to_nat 65536.
(** [key, value, ok := strings.Cut(strings.TrimSpace(line), "=")] *)
Definition cloudflare_line (loc : GeoIPLocation) (line : Str.chars) : GeoIPLocation :=
  match Str.cut "=" (TrimSpace (chomp line)) with
  | (key, value, true) =>
      let key := Str.to_string key in let value := Str.to_string value in
      if decide (key = "ip") then mkLocation "" "" (l_CountryCode loc) value (float64 0) (float64 0) ""
      else if decide (key = "loc") then
        if decide (value = "") then loc else if decide (value = "XX") then loc
        else mkLocation "" "" (ToUpper value) (l_IP loc) (float64 0) (float64 0) ""
      else loc
  | _ => loc
  end.
Definition parseCloudflare (r : string) : result GeoIPLocation :=
  let lines := scanLines r in
  let loc := foldl cloudflare_line location0 lines in
  check (existsb (fun l => (maxToken <=? length l)%nat) lines) "bufio.Scanner: token too long" ;;
  check (bool_decide (l_IP loc = "")) "no ip= line in the response" ;;
  inr loc.

Definition parseIPify (r : string) : result GeoIPLocation :=
  ip ← decodeIPify r; inr (mkLocation "" "" "" ip (float64 0) (float64 0) "").
Definition parseIPAPI (r : string) : result GeoIPLocation :=
  body ← decodeIPAPI r;
  inr (mkLocation (ba_City body) (ba_Country body) (ba_CountryCode body) (ba_IP body) (ba_Latitude body) (ba_Longitude body) "").
(** [strings.SplitN(loc, ",", 2)] has two parts when there is a comma. *)
Definition parseIPInfo (r : string) : result GeoIPLocation :=
  body ← decodeIPInfo r;
  let code := if bool_decide (bi_CountryCode body = "") && (String.length (bi_Country body) =? 2)%nat
    then ToUpper (bi_Country body) else bi_CountryCode body in
  let '(lat, lon) := match Str.cut "," (Str.of_string (bi_Loc body)) with
    | (a, b, true) => (ParseFloat (Str.to_string a), ParseFloat (Str.to_string b))
    | _ => (float64 0, float64 0)
    end in
  inr (mkLocation (bi_City body) (bi_Country body) code (bi_IP body) lat lon "").

(** * Providers *)
Inductive authKind := bearer | queryKey.
Record provider := mkProvider { pv_source : string; pv_auth : option authKind; pv_parse : string -> result GeoIPLocation }.
Definition geo_providers (name : string) : option provider :=
  if decide (name = ProviderIPWhois) then Some (mkProvider "ipwho.is" None parseIPWhois)
  else if decide (name = ProviderIP2Location) then Some (mkProvider "ip2location.io" (Some queryKey) parseIP2Location)
  else if decide (name = ProviderCloudflare) then Some (mkProvider "cloudflare" None parseCloudflare)
  else if decide (name = ProviderIPify) then Some (mkProvider "ipify" None parseIPify)
  else if decide (name = ProviderIPAPI) then Some (mkProvider "ip-api" None parseIPAPI)
  else if decide (name = ProviderIPInfo) then Some (mkProvider "ipinfo" (Some bearer) parseIPInfo)
  else None.

(** * Requests *)
Record request := mkRequest { rq_url : string; rq_Authorization : option string; rq_key : option string }.
Definition authorize (a : authKind) (token : string) (req : request) : request :=
  match a with
  | bearer => mkRequest (rq_url req) (Some ("Bearer " +:+ token)) (rq_key req)
  | queryKey => mkRequest (rq_url req) (rq_Authorization req) (Some token)
  end.
End Parse.

(** [http.NewRequest] and [Client.Do]: the status and the body. *)
Class HTTP (W : Type) := {
  NewRequest : string -> result unit;
  Do : request -> M W gerror (Z * string)
}.

Section Lookup.
Context {W : Type} {GJ : GeoJSON} `{!HTTP W}.

Definition geo_request (p : provider) (url token : string) : request :=
  let req := mkRequest url None None in
  if decide (token = "") then req else match pv_auth p with Some a => authorize a token req | None => req end.

Definition fetch (name url token : string) : M W gerror GeoIPLocation :=
  match geo_providers name with
  | None => throw ("unknown geoip provider " +:+ quoted name)
  | Some p =>
      let url := if decide (url = "") then defaultURLs name else url in
      (fun w => (NewRequest url, w)) ≫= fun _ =>
      resp ← Do (geo_request p url token);
      if (resp.1 =? 200)%Z then
        match pv_parse p (Str.to_string (take (Z.to_nat (2 ^ 20)) (Str.of_string resp.2))) with
        | inl e => throw ("geoip source " +:+ pv_source p +:+ ": " +:+ e)
        | inr loc => mret (mkLocation (l_City loc) (l_Country loc) (l_CountryCode loc) (l_IP loc) (l_Latitude loc) (l_Longitude loc) (pv_source p))
        end
      else throw ("geoip source " +:+ pv_source p +:+ " returned HTTP " +:+ geo_Itoa resp.1)
  end.

(** The city-level sources in turn, until one names a country. *)
Fixpoint walkChain (names : list string) : M W gerror (option GeoIPLocation) :=
  match names with
  | [] => mret None
  | name :: names =>
      res ← attempt (fetch name "" "");
      match res with
      | inr l => if decide (l_CountryCode l = "") then walkChain names else mret (Some l)
      | inl _ => walkChain names
      end
  end.
Definition lookupAuto (opts : GeoOptions) : M W gerror GeoIPLocation :=
  loc ← walkChain autoChain;
  cf ← attempt (fetch ProviderCloudflare "" "");
  match loc, cf with
  | Some l, _ => mret l
  | None, inr c => mret c
  | None, inl _ =>
      ipify ← attempt (fetch ProviderIPify "" "");
      match ipify with
      | inr l => mret l
      | inl _ =>
          if decide (go_IP opts = "") then throw "every geoip source failed and node.ipv4_address is not set"
          else mret (mkLocation "" "" "" (go_IP opts) (float64 0) (float64 0) ProviderNone)
      end
  end.

(** Comparison with zero, as [!=] on float64 does it. *)
Definition nonzero (f : spec_float) : bool := negb (SFeqb f (float64 0)).
Definition applyCountry (country : string) (loc : GeoIPLocation) : GeoIPLocation :=
  let same := EqualFold country (l_Country loc) || EqualFold country (l_CountryCode loc) in
  let code :=
    if (String.length country =? 2)%nat then ToUpper country
    else if negb same then "" else l_CountryCode loc in
  mkLocation (l_City loc) country code (l_IP loc) (l_Latitude loc) (l_Longitude loc) (l_Source loc).
Definition applyStatic (opts : GeoOptions) (loc : GeoIPLocation) : GeoIPLocation :=
  let static := negb (bool_decide (go_Country opts = "")) || negb (bool_decide (go_City opts = ""))
    || nonzero (go_Latitude opts) || nonzero (go_Longitude opts) in
  let loc := if decide (go_Country opts = "") then loc else applyCountry (go_Country opts) loc in
  let loc := if decide (go_City opts = "") then loc
    else mkLocation (go_City opts) (l_Country loc) (l_CountryCode loc) (l_IP loc) (l_Latitude loc) (l_Longitude loc) (l_Source loc) in
  let loc := if nonzero (go_Latitude opts) || nonzero (go_Longitude opts)
    then mkLocation (l_City loc) (l_Country loc) (l_CountryCode loc) (l_IP loc) (go_Latitude opts) (go_Longitude opts) (l_Source loc) else loc in
  if static then mkLocation (l_City loc) (l_Country loc) (l_CountryCode loc) (l_IP loc) (l_Latitude loc) (l_Longitude loc) SourceStatic else loc.

Definition Location (opts : GeoOptions) : M W gerror GeoIPLocation :=
  loc ← (if decide (go_Provider opts = ProviderNone) then mret (mkLocation "" "" "" (go_IP opts) (float64 0) (float64 0) ProviderNone)
         else if decide (go_Provider opts = ProviderAuto) then lookupAuto opts
         else match geo_providers (go_Provider opts) with
              | None => throw ("unknown geoip provider " +:+ quoted (go_Provider opts))
              | Some _ => fetch (go_Provider opts) (go_URL opts) (go_Token opts)
              end);
  mret (applyStatic opts loc).
End Lookup.

(** * What the lookup promises *)
Section Promise.
Context {W : Type} {GJ : GeoJSON} `{!HTTP W}.

(** A source answered, or failed, at some moment of the lookup. *)
Definition answered (name : string) (l : GeoIPLocation) : Prop := ∃ w w', fetch (W := W) name "" "" w = (inr l, w').
Definition failed (name : string) : Prop := ∃ e w w', fetch (W := W) name "" "" w = (inl e, w').
(** It gave no country. *)
Definition placeless (name : string) : Prop := failed name ∨ ∃ l, answered name l ∧ l_CountryCode l = "".

Lemma walkChain_inv names w r w' : walkChain names w = (r, w') ->
  ∃ o, r = inr o ∧ match o with
  | Some l => ∃ pre name post, names = (pre ++ name :: post)%list ∧ Forall placeless pre ∧ answered name l ∧ l_CountryCode l ≠ ""
  | None => Forall placeless names
  end.
Proof.
  revert w; induction names as [|name names IH]; intros w H; cbn in H.
  { apply ret_inv in H as [-> _]; by exists None. }
  apply bind_inv in H as [(? & (? & _ & ?)%attempt_inv & _)|(res & w1 & (x & Hf & [= ->])%attempt_inv & H)]; [done|].
  assert (placeless name -> walkChain names w1 = (r, w') -> ∃ o, r = inr o ∧ match o with
    | Some l => ∃ pre name0 post, (name :: names = pre ++ name0 :: post)%list ∧ Forall placeless pre ∧ answered name0 l ∧ l_CountryCode l ≠ ""
    | None => Forall placeless (name :: names)
    end) as Hnext.
  { intros Hp (o & -> & Ho)%IH; exists o; split; [done|]; destruct o as [l|]; [|by constructor].
    destruct Ho as (pre & n & post & -> & Hpre & Ha); exists (name :: pre), n, post; split_and!; try done; [by constructor|apply Ha..]. }
  destruct x as [e|l]; [apply Hnext; [left; by exists e, w, w1|done]|].
  case_decide; [apply Hnext; [right; exists l; split; [by exists w, w1|done]|done]|].
  apply ret_inv in H as [-> _]; exists (Some l); split; [done|].
  exists [], name, names; split_and!; [done|constructor|by exists w, w1|done].
Qed.

(** The automatic lookup degrades step by step and no further than it must: the
    first city-level source that names a country; else, when none does,
    Cloudflare; else, when that fails too, ipify; else the configured address.  It
    fails only when every source failed and no address is configured. *)
Theorem lookupAuto_degrades opts w r w' : lookupAuto opts w = (r, w') ->
  match r with
  | inr l =>
      (∃ pre name post, autoChain = (pre ++ name :: post)%list ∧ Forall placeless pre ∧ answered name l ∧ l_CountryCode l ≠ "")
      ∨ (Forall placeless autoChain ∧
         (answered ProviderCloudflare l
          ∨ failed ProviderCloudflare ∧ (answered ProviderIPify l
             ∨ failed ProviderIPify ∧ go_IP opts ≠ "" ∧ l = mkLocation "" "" "" (go_IP opts) (float64 0) (float64 0) ProviderNone)))
  | inl _ => Forall placeless autoChain ∧ failed ProviderCloudflare ∧ failed ProviderIPify ∧ go_IP opts = ""
  end.
Proof.
  unfold lookupAuto; intros H; apply bind_inv in H as [(e & (o & ? & _)%walkChain_inv & _)|(loc & w1 & (o & [= ->] & Hchain)%walkChain_inv & H)]; [done|].
  apply bind_inv in H as [(? & (? & _ & ?)%attempt_inv & _)|(cf & w2 & (x & Hcf & [= ->])%attempt_inv & H)]; [done|].
  destruct o as [l|]; [apply ret_inv in H as [-> _]; by left|].
  destruct x as [e|c]; [|apply ret_inv in H as [-> _]; right; split; [done|left; by exists w1, w2]].
  assert (failed ProviderCloudflare) as Hc by (by exists e, w1, w2).
  apply bind_inv in H as [(? & (? & _ & ?)%attempt_inv & _)|(ip & w3 & (x & Hip & [= ->])%attempt_inv & H)]; [done|].
  destruct x as [e'|l]; [|apply ret_inv in H as [-> _]; right; split; [done|right; split; [done|left; by exists w2, w3]]].
  assert (failed ProviderIPify) as Hi by (by exists e', w2, w3).
  case_decide; [by apply throw_inv in H as [-> _]|apply ret_inv in H as [-> _]].
  right; split; [done|]; right; split; [done|]; right; done.
Qed.

(** The token reaches only the providers that take one. *)
Theorem token_stays name p url token : geo_providers name = Some p ->
  rq_Authorization (geo_request p url token) ≠ None ∨ rq_key (geo_request p url token) ≠ None ->
  (name = ProviderIPInfo ∧ rq_Authorization (geo_request p url token) = Some ("Bearer " +:+ token) ∧ rq_key (geo_request p url token) = None)
  ∨ (name = ProviderIP2Location ∧ rq_key (geo_request p url token) = Some token ∧ rq_Authorization (geo_request p url token) = None).
Proof.
  unfold geo_providers, geo_request; repeat case_decide; intros [= <-]; cbn; subst; naive_solver.
Qed.

(** The operator's values win, and a country code never contradicts the name it
    stands next to: it is the static code itself, or the looked-up one only when
    the static country names the same country, or empty. *)
Theorem applyStatic_consistent opts loc : let l := applyStatic opts loc in
  l_IP l = l_IP loc
  ∧ (go_City opts ≠ "" -> l_City l = go_City opts) ∧ (go_City opts = "" -> l_City l = l_City loc)
  ∧ (go_Country opts = "" -> l_Country l = l_Country loc ∧ l_CountryCode l = l_CountryCode loc)
  ∧ (go_Country opts ≠ "" -> l_Country l = go_Country opts ∧
      (String.length (go_Country opts) = 2%nat ∧ l_CountryCode l = ToUpper (go_Country opts)
       ∨ l_CountryCode l = ""
       ∨ l_CountryCode l = l_CountryCode loc
         ∧ (EqualFold (go_Country opts) (l_Country loc) = true ∨ EqualFold (go_Country opts) (l_CountryCode loc) = true)))
  ∧ (l_Source l = l_Source loc ∨ l_Source l = SourceStatic).
Proof.
  unfold applyStatic, applyCountry; cbn zeta.
  destruct (Nat.eqb_spec (String.length (go_Country opts)) 2) as [E2|E2];
    destruct (EqualFold (go_Country opts) (l_Country loc)) eqn:E3, (EqualFold (go_Country opts) (l_CountryCode loc)) eqn:E4;
    destruct (decide (go_Country opts = "")), (decide (go_City opts = "")), (nonzero (go_Latitude opts) || nonzero (go_Longitude opts));
    destruct (_ || _ || _ || _); cbn; naive_solver.
Qed.
End Promise.
