(* ===== verification/Bandwidth.v ===== *)
(** The bandwidth the node advertises: src/libs/bandwidth/bandwidth.go and cache.go.

    The operator's figure, an earlier measurement, or a fresh one: servers are
    chosen by latency, those too close to be off the host's own network are
    left out, and the lowest of what independent servers achieve is reported.
    The network side is the source's own interface [prober]. *)
From S2P Require Import Prelude Floats.
Set Default Proof Using "Type*".

(** * Constants *)
Definition SourceSpeedtest : string := "speedtest".
Definition SourceConfig : string := "config".
Definition SourceNone : string := "none".
Definition millisecond : Z := 1000000.
Definition bytesPerMegabit : spec_float := float64 125000.
Definition sameFacilityFloor : Z := 2 * millisecond.
Definition sameBuildingFloor : Z := 1 * millisecond.
Definition refineBatch : nat := 10.
Definition refineLimit : nat := 30.
Definition wantQualifying : nat := 3.
Definition maxQualifying : nat := 5.
Definition maxSamples : nat := 3.
Definition agreementRatio : spec_float := S754_finite false 6305039478318694 (-53). (* 0.7 *)
Definition cacheFileName : string := "bandwidth.json".
Definition cacheTTL : Z := 7 * 24 * 3600 * 1000 * millisecond.

(** * Data *)
Record Candidate := mkCandidate {
  c_ID : string; c_Name : string; c_Sponsor : string; c_Country : string; c_Host : string;
  Latency : Z; MinLatency : Z }.
Record Sample := mkSample { s_Candidate : Candidate; s_Upload : spec_float; s_Download : spec_float }.
Record Result := mkResult { r_Upload : Z; r_Download : Z; r_Source : string }.
Record cacheEntry := mkCacheEntry { e_IP : string; e_Upload : Z; e_Download : Z; MeasuredAt : Z }.
Record Options := mkOptions {
  o_UploadMbps : spec_float; o_DownloadMbps : spec_float; o_Latitude : spec_float; o_Longitude : spec_float;
  o_IP : string; o_Home : string }.

(** [BytesPerSecond] *)
Definition BytesPerSecond (mbps : spec_float) : Z := int64_of (fmul mbps bytesPerMegabit).

(** The [prober] of the source with the constructor Measure calls, and the
    context's cancellation. *)
Class prober (W : Type) := {
  newProber : Options -> W -> W;
  Candidates : M W gerror (list Candidate);
  Refine : list Candidate -> W -> list Candidate * W;
  MeasureServer : Candidate -> M W gerror Sample;
  cancelled : W -> bool
}.
(** The disk, JSON and the clock.  A file that does not exist is [None]. *)
Class CacheFile (W : Type) := {
  ReadCacheFile : string -> M W gerror (option string);
  WriteCacheFile : string -> string -> M W gerror unit;
  UnmarshalEntry : string -> result cacheEntry;
  MarshalEntry : cacheEntry -> result string;
  FileJoin : string -> string -> string;
  Now : W -> Z
}.

(** * Selection *)

(** [sort.SliceStable] by mean latency: an element goes before those it does not exceed. *)
Fixpoint insertByLatency (c : Candidate) (l : list Candidate) : list Candidate :=
  match l with
  | [] => [c]
  | d :: l' => if Latency c <=? Latency d then c :: l else d :: insertByLatency c l'
  end.
Definition sortByLatency (l : list Candidate) : list Candidate := foldr insertByLatency [] l.

Definition countClearing (l : list Candidate) (floor : Z) : nat := length (filter (fun c => floor <= MinLatency c) l).

Section Select.
Context (ToLower : string -> string).
Definition shortKey (c : Candidate) : string := ToLower (c_Sponsor c +:+ "|" +:+ c_Name c)%string.

(** [n] counts the servers already taken. *)
Fixpoint shortlist_from (n : nat) (seen : gset string) (l : list Candidate) (floor : Z) : list Candidate * list Candidate :=
  match l with
  | [] => ([], [])
  | c :: l =>
      if MinLatency c <? floor then let '(taken, rejected) := shortlist_from n seen l floor in (taken, c :: rejected)
      else if decide (shortKey c ∈ seen) then shortlist_from n seen l floor
      else if (S n =? maxQualifying)%nat then ([c], [])
      else let '(taken, rejected) := shortlist_from (S n) ({[shortKey c]} ∪ seen) l floor in (c :: taken, rejected)
  end.
Definition shortlist (l : list Candidate) (floor : Z) : list Candidate * list Candidate := shortlist_from 0 ∅ l floor.

(** * Samples *)
Definition minF (a b : spec_float) : spec_float := if SFltb a b then a else b.
Definition maxF (a b : spec_float) : spec_float := if SFltb b a then a else b.
Definition agree (samples : list Sample) : bool :=
  match samples with
  | s :: ((_ :: _) as rest) =>
      let over f pick := foldl (fun m x => f m (pick x)) (pick s) rest in
      SFleb agreementRatio (fdiv (over minF s_Upload) (over maxF s_Upload))
      && SFleb agreementRatio (fdiv (over minF s_Download) (over maxF s_Download))
  | _ => false
  end.
(** The first element is read without a check; [measure] has at least one. *)
Definition minSample (s : Sample) (rest : list Sample) (pick : Sample -> spec_float) : spec_float :=
  foldl (fun m x => if SFltb (pick x) m then pick x else m) (pick s) rest.

(** * The measurement *)
Section Measure.
Context {W : Type} `{!prober W}.

(** Batches of the nearest servers; [fuel] turns of the loop. *)
Fixpoint refine_loop (fuel : nat) (rest refined : list Candidate) (w : W) : list Candidate * W :=
  match fuel, rest with
  | S fuel, _ :: _ =>
      let '(answers, w1) := Refine (take refineBatch rest) w in
      let refined := refined ++ filter (fun c => 0 < Latency c ∧ 0 < MinLatency c) answers in
      if (wantQualifying <=? countClearing refined sameFacilityFloor)%nat || cancelled w1
      then (refined, w1)
      else refine_loop fuel (drop refineBatch rest) refined w1
  | _, _ => (refined, w)
  end.

Fixpoint sample_loop (servers : list Candidate) (samples : list Sample) (w : W) : list Sample * W :=
  match servers with
  | [] => (samples, w)
  | c :: servers =>
      if cancelled w then (samples, w) else
      match MeasureServer c w with
      | (inl _, w1) => sample_loop servers samples w1
      | (inr s, w1) =>
          if SFleb (s_Upload s) (float64 0) || SFleb (s_Download s) (float64 0) then sample_loop servers samples w1 else
          let samples := samples ++ [s] in
          if (maxSamples <=? length samples)%nat || agree samples then (samples, w1) else sample_loop servers samples w1
      end
  end.

Definition none : Result := mkResult 0 0 SourceNone.
Definition measure (w : W) : Result * W :=
  match Candidates w with
  | (inl _, w1) => (none, w1)
  | (inr candidates, w1) =>
      let reachable := filter (fun c => 0 < Latency c) candidates in
      if decide (reachable = []) then (none, w1) else
      let nearest := take refineLimit (sortByLatency reachable) in
      let '(refined, w2) := refine_loop (refineLimit / refineBatch) nearest [] w1 in
      let refined := sortByLatency refined in
      let servers := (shortlist refined sameFacilityFloor).1 in
      let servers := if decide (servers = []) then (shortlist refined sameBuildingFloor).1 else servers in
      if decide (servers = []) then (none, w2) else
      let '(samples, w3) := sample_loop servers [] w2 in
      match samples with
      | [] => (none, w3)
      | s :: rest => (mkResult (int64_of (minSample s rest s_Upload)) (int64_of (minSample s rest s_Download)) SourceSpeedtest, w3)
      end
  end.

(** ** With the cache *)
Context `{!CacheFile W}.
Definition entry_result (e : cacheEntry) : Result := mkResult (e_Upload e) (e_Download e) SourceSpeedtest.

Definition readCache (home : string) (w : W) : option cacheEntry * W :=
  if decide (home = ""%string) then (None, w) else
  match ReadCacheFile (FileJoin home cacheFileName) w with
  | (inr (Some data), w1) =>
      match UnmarshalEntry data with
      | inl _ => (None, w1)
      | inr e => ((if (e_Upload e <=? 0) || (e_Download e <=? 0) || (MeasuredAt e =? 0) then None else Some e), w1)
      end
  | (_, w1) => (None, w1)
  end.
(** A failure is logged. *)
Definition writeCache (home ip : string) (res : Result) (now : Z) (w : W) : W :=
  if decide (home = ""%string) then w else
  match MarshalEntry (mkCacheEntry ip (r_Upload res) (r_Download res) (now - now mod (1000 * millisecond))) with
  | inl _ => w
  | inr data => (WriteCacheFile (FileJoin home cacheFileName) (data +:+ String "010"%char "")%string w).2
  end.

Definition Measure (opts : Options) (w : W) : Result * W :=
  if SFltb (float64 0) (o_UploadMbps opts) && SFltb (float64 0) (o_DownloadMbps opts)
  then (mkResult (BytesPerSecond (o_UploadMbps opts)) (BytesPerSecond (o_DownloadMbps opts)) SourceConfig, w)
  else
    let now := Now w in
    let '(cached, w1) := readCache (o_Home opts) w in
    (* [cached != nil && cached.IP == opts.IP] *)
    let mine := match cached with Some e => if decide (e_IP e = o_IP opts) then Some e else None | None => None end in
    if (if mine is Some e then time_Sub now (MeasuredAt e) <? cacheTTL else false)
    then (if mine is Some e then entry_result e else none, w1)
    else
      let '(res, w2) := measure (newProber opts w1) in
      if decide (r_Source res = SourceSpeedtest) then (res, writeCache (o_Home opts) (o_IP opts) res now w2)
      else (if mine is Some e then entry_result e else res, w2).
End Measure.
End Select.
