(* ===== verification/BandwidthProofs.v ===== *)
(** The measured bandwidth never overstates: which servers it rests on, how they
    were chosen, and which figure is reported. *)
From stdpp Require Import sorting.
From S2P Require Import Prelude Floats Bandwidth.
Set Default Proof Using "Type*".

(** * The sort is stable *)
Abbreviation nearer := (fun a b => Latency a <= Latency b).

Lemma insert_perm c l : insertByLatency c l ≡ₚ c :: l.
Proof. induction l as [|d l IH]; cbn; [done|]; destruct (_ <=? _); [done|]; rewrite IH; apply Permutation_swap. Qed.
Lemma sort_perm l : sortByLatency l ≡ₚ l.
Proof. induction l as [|c l IH]; cbn; [done|]; fold (sortByLatency l); by rewrite insert_perm, IH. Qed.

Lemma insert_sorted c l : StronglySorted nearer l -> StronglySorted nearer (insertByLatency c l).
Proof.
  induction 1 as [|d l Hs IH Hd]; cbn; [by repeat constructor|]; destruct (Z.leb_spec (Latency c) (Latency d)).
  - constructor; [by constructor|]; constructor; [done|]; eapply Forall_impl; [exact Hd|]; cbn; lia.
  - constructor; [done|]; rewrite insert_perm; constructor; [lia|done].
Qed.
Lemma sort_sorted l : StronglySorted nearer (sortByLatency l).
Proof. induction l; cbn; [constructor|by apply insert_sorted]. Qed.

Lemma insert_filter k c l : filter (fun x => Latency x = k) (insertByLatency c l) = filter (fun x => Latency x = k) (c :: l).
Proof.
  induction l as [|d l IH]; cbn [insertByLatency]; [done|]; destruct (Z.leb_spec (Latency c) (Latency d)); [done|].
  rewrite !filter_cons, IH, filter_cons; repeat case_decide; try done; lia.
Qed.
(** Servers of equal latency keep their order, which with [sort_perm] and
    [sort_sorted] says what [sort.SliceStable] promises. *)
Lemma sort_stable k l : filter (fun x => Latency x = k) (sortByLatency l) = filter (fun x => Latency x = k) l.
Proof.
  induction l as [|c l IH]; [done|]; cbn [sortByLatency foldr]; fold (sortByLatency l).
  by rewrite insert_filter, !filter_cons, IH.
Qed.

(** * The shortlist *)
Section Shortlist.
Context (ToLower : string -> string).
Abbreviation key := (shortKey ToLower).

(** The first of each key. *)
Fixpoint firsts (seen : gset string) (l : list Candidate) : list Candidate :=
  match l with
  | [] => []
  | c :: l => if decide (key c ∈ seen) then firsts seen l else c :: firsts ({[key c]} ∪ seen) l
  end.

Lemma shortlist_from_spec n seen l floor : (n < maxQualifying)%nat ->
  (shortlist_from ToLower n seen l floor).1 = take (maxQualifying - n) (firsts seen (filter (fun c => floor <= MinLatency c) l)).
Proof.
  revert n seen; induction l as [|c l IH]; intros n seen Hn; cbn [shortlist_from firsts].
  { cbn; by rewrite take_nil. }
  rewrite filter_cons; destruct (Z.ltb_spec (MinLatency c) floor);
    [rewrite (decide_False (P := floor <= MinLatency c)) by lia|rewrite (decide_True (P := floor <= MinLatency c)) by lia].
  - specialize (IH n seen Hn); by destruct (shortlist_from _ n seen l floor).
  - cbn [firsts]; case_decide; [by apply IH|].
    destruct (Nat.eqb_spec (S n) maxQualifying) as [E|E].
    + replace (maxQualifying - n)%nat with 1%nat by lia; cbn; by rewrite take_0.
    + specialize (IH (S n) ({[key c]} ∪ seen) ltac:(lia)); destruct (shortlist_from _ (S n) _ l floor); cbn [fst] in *.
      replace (maxQualifying - n)%nat with (S (maxQualifying - S n))%nat by lia; cbn [take]; by rewrite IH.
Qed.

(** The shortlist is the first five of the servers that clear the floor, one per
    sponsor and city. *)
Lemma shortlist_is l floor :
  (shortlist ToLower l floor).1 = take maxQualifying (firsts ∅ (filter (fun c => floor <= MinLatency c) l)).
Proof. unfold shortlist; rewrite shortlist_from_spec by (unfold maxQualifying; lia); done. Qed.

Lemma firsts_sub seen l : firsts seen l `sublist_of` l.
Proof. revert seen; induction l as [|c l IH]; intros seen; cbn; [done|]; case_decide; [by apply sublist_cons|by apply sublist_skip]. Qed.
Lemma firsts_keys seen l : NoDup (key <$> firsts seen l) ∧ forall k, k ∈ (key <$> firsts seen l) -> k ∉ seen.
Proof.
  revert seen; induction l as [|c l IH]; intros seen; cbn; [split; [constructor|by intros k ?%elem_of_nil]|].
  case_decide; [done|]; destruct (IH ({[key c]} ∪ seen)) as [Hn Hs]; cbn; split.
  - constructor; [|done]; intros Hk%Hs; set_solver.
  - intros k [->|Hk]%elem_of_cons; [done|]; apply Hs in Hk; set_solver.
Qed.

Lemma shortlist_sound l floor : let servers := (shortlist ToLower l floor).1 in
  (length servers <= 5)%nat ∧ NoDup (key <$> servers) ∧ Forall (fun c => c ∈ l ∧ floor <= MinLatency c) servers.
Proof.
  cbn; rewrite shortlist_is; split_and!.
  - rewrite length_take; unfold maxQualifying; lia.
  - rewrite fmap_take; eapply sublist_NoDup; [apply firsts_keys|apply sublist_take].
  - apply Forall_take; rewrite Forall_forall; intros c Hc.
    eapply elem_of_sublist in Hc; [|apply firsts_sub]; by apply list_elem_of_filter in Hc as [??].
Qed.
Lemma shortlist_nil l floor : (shortlist ToLower l floor).1 = [] -> countClearing l floor = 0%nat.
Proof.
  rewrite shortlist_is; unfold countClearing; destruct (filter _ l) as [|c k]; [done|]; cbn; case_decide; set_solver.
Qed.
End Shortlist.

(** * The samples *)
Lemma minSample_le s rest pick : (∃ x, x ∈ s :: rest ∧ minSample s rest pick = pick x)
  ∧ Forall (fun x => SFltb (pick x) (minSample s rest pick) = false) (s :: rest).
Proof.
  unfold minSample; induction rest as [|y rest IH] using rev_ind.
  { split; [exists s; split; [left|done]|]; constructor; [apply SFltb_irrefl|done]. }
  rewrite foldl_snoc; set (m := foldl _ _ rest) in *; destruct IH as [(x & Hx & Em) Hall].
  destruct (SFltb (pick y) m) eqn:E.
  - split; [exists y; split; [set_solver|done]|].
    rewrite app_comm_cons, Forall_app; split; [|by repeat constructor; apply SFltb_irrefl].
    eapply Forall_impl; [exact Hall|]; cbn; intros z Hz; by apply (SFltb_mono _ _ m).
  - split; [exists x; split; [set_solver|done]|]; rewrite app_comm_cons, Forall_app; split; [done|by repeat constructor].
Qed.

Lemma countClearing_perm l k : l ≡ₚ k -> forall floor, countClearing l floor = countClearing k floor.
Proof. intros E floor; unfold countClearing; by rewrite E. Qed.

(** ** A network that remembers

    The measurement runs on a prober that keeps a log of the servers tested and what
    each answered; it is parametric in the prober, so the log only observes. *)
Abbreviation outcome := (Candidate * (gerror + Sample))%type.
Definition probed (W : Type) : Type := W * list outcome.
#[export] Instance logged_prober {W} `{!prober W} : prober (probed W) := {
  newProber opts '(w, l) := (newProber opts w, l);
  Candidates '(w, l) := let '(r, w') := Candidates w in (r, (w', l));
  Refine cs '(w, l) := let '(r, w') := Refine cs w in (r, (w', l));
  MeasureServer c '(w, l) := let '(r, w') := MeasureServer c w in (r, (w', l ++ [(c, r)]));
  cancelled '(w, _) := cancelled w
}.

(** The results that count: positive in both directions (or not a number). *)
Definition usable (l : list outcome) : list Sample :=
  omap (fun '(_, r) => match r with
    | inr s => if SFleb (s_Upload s) (float64 0) || SFleb (s_Download s) (float64 0) then None else Some s
    | inl _ => None
    end) l.

(** [x] is the figure of one of the samples and none is lower. *)
Definition lowest (pick : Sample -> spec_float) (samples : list Sample) (x : spec_float) : Prop :=
  x ∈ (pick <$> samples) ∧ Forall (fun s => SFltb (pick s) x = false) samples.
Lemma minSample_lowest pick s rest : lowest pick (s :: rest) (minSample s rest pick).
Proof. destruct (minSample_le s rest pick) as [(x & Hx & ->) ?]; split; [by apply list_elem_of_fmap_2|done]. Qed.

Section Logged.
Context {W : Type} `{!prober W}.
Implicit Types (w : probed W).

(** Why no further server is tested. *)
Definition enough (servers : list Candidate) (new : list outcome) (samples : list Sample) w : Prop :=
  length new = length servers ∨ cancelled w = true ∨ length samples = maxSamples ∨ agree samples = true.

Lemma MeasureServer_log c w r w' : MeasureServer c w = (r, w') -> w'.2 = w.2 ++ [(c, r)].
Proof. destruct w as [w l]; cbn; destruct (MeasureServer c w) as [x w1]; by intros [= <- <-]. Qed.

Lemma sample_loop_log servers samples w samples' w' : sample_loop servers samples w = (samples', w') ->
  (length samples < maxSamples)%nat ->
  ∃ new, w'.2 = w.2 ++ new ∧ (fst <$> new) `prefix_of` servers ∧ samples' = samples ++ usable new
    ∧ (length samples' <= maxSamples)%nat ∧ enough servers new samples' w'.
Proof.
  revert samples w; induction servers as [|c servers IH]; intros samples w; cbn [sample_loop]; intros H Hl.
  { injection H as <- <-; exists []; cbn; rewrite !app_nil_r; split_and!; [done|done|done|lia|by left]. }
  destruct (cancelled w) eqn:Hc.
  { injection H as <- <-; exists []; cbn; rewrite !app_nil_r; split_and!; [done|apply prefix_nil|done|lia|by right; left]. }
  destruct (MeasureServer c w) as [r w1] eqn:E; apply MeasureServer_log in E.
  assert (forall more, usable [(c, r)] = more -> sample_loop servers (samples ++ more) w1 = (samples', w') ->
    (length (samples ++ more) < maxSamples)%nat ->
    ∃ new, w'.2 = w.2 ++ new ∧ (fst <$> new) `prefix_of` c :: servers ∧ samples' = samples ++ usable new
      ∧ (length samples' <= maxSamples)%nat ∧ enough (c :: servers) new samples' w') as Hgo.
  { intros more Hu H1 Hlt; apply IH in H1 as (new & Hlog & Hp & -> & Hlen & He); [|done]; exists ((c, r) :: new); split_and!.
    - by rewrite Hlog, E, <- app_assoc.
    - by apply prefix_cons.
    - change (usable ((c, r) :: new)) with (usable ([(c, r)] ++ new)); unfold usable at 2; rewrite omap_app; fold (usable [(c, r)]) (usable new).
      by rewrite Hu, app_assoc.
    - done.
    - destruct He as [He|He]; [left; cbn; by rewrite He|by right]. }
  destruct r as [e|s]; [apply (Hgo []); [done|by rewrite app_nil_r..]|].
  destruct (SFleb (s_Upload s) _ || SFleb (s_Download s) _) eqn:Epos.
  { apply (Hgo []); [cbn -[SFleb float64 orb]; by rewrite Epos|by rewrite app_nil_r..]. }
  assert (usable [(c, inr s)] = [s]) as Hu by (cbn -[SFleb float64 orb]; by rewrite Epos).
  destruct ((maxSamples <=? length (samples ++ [s]))%nat || agree (samples ++ [s])) eqn:Estop.
  - injection H as <- <-; exists [(c, inr s)]; rewrite Hu; split_and!;
      [done|apply prefix_cons, prefix_nil|done|rewrite length_app; cbn; lia|do 2 right].
    apply orb_true_iff in Estop as [Hle%Nat.leb_le|?]; [left|by right]; rewrite length_app in *; cbn in *; lia.
  - apply orb_false_iff in Estop as [Hlt%Nat.leb_gt _]; by apply (Hgo [s]).
Qed.

Lemma refine_loop_log fuel rest refined w refined' w' : refine_loop fuel rest refined w = (refined', w') -> w'.2 = w.2.
Proof.
  revert rest refined w; induction fuel as [|fuel IH]; intros [|c rest] refined w; cbn -[take drop];
    try (by intros [= <- <-]); destruct w as [w l]; destruct (Refine _ w) as [answers w1]; intros H.
  destruct (_ || _); [by injection H as <- <-|by apply IH in H].
Qed.
End Logged.

Section Measure.
Context (ToLower : string -> string) {W : Type} `{!prober W}.

Lemma refine_loop_pos fuel rest refined w refined' w' : refine_loop fuel rest refined w = (refined', w') ->
  Forall (fun c => 0 < Latency c ∧ 0 < MinLatency c) refined -> Forall (fun c => 0 < Latency c ∧ 0 < MinLatency c) refined'.
Proof.
  revert rest refined w; induction fuel as [|fuel IH]; intros [|c rest] refined w; cbn -[take drop];
    try (by intros [= <- <-]); destruct (Refine _ w) as [answers w1]; intros H Hr.
  assert (Forall (fun c => 0 < Latency c ∧ 0 < MinLatency c) (refined ++ filter (fun c => 0 < Latency c ∧ 0 < MinLatency c) answers)) as Hn.
  { apply Forall_app; split; [done|]; apply Forall_forall; by intros x [? _]%list_elem_of_filter. }
  destruct (_ || _); [by injection H as <- <-|by apply IH in H].
Qed.

(** Three batches are all there are. *)
Lemma refine_loop_fuel fuel more rest refined w : (length rest <= fuel * refineBatch)%nat ->
  refine_loop (fuel + more) rest refined w = refine_loop fuel rest refined w.
Proof.
  revert rest refined w; induction fuel as [|fuel IH]; intros [|c rest] refined w Hl; cbn -[take drop] in *; try lia; try (by destruct more).
  destruct (Refine _ w) as [answers w1]; destruct (_ || _); [done|]; apply IH; rewrite length_drop; cbn; lia.
Qed.

(** The servers that answered the accurate ping, in the order they were asked. *)
Definition pinged (w : W) : list Candidate :=
  match Candidates w with
  | (inl _, _) => []
  | (inr candidates, w1) =>
      (refine_loop (refineLimit / refineBatch) (take refineLimit (sortByLatency (filter (fun c => 0 < Latency c) candidates))) [] w1).1
  end.

(** The nearest five of them past [floor], one per sponsor and city. *)
Definition choice (floor : Z) (w : W) : list Candidate :=
  take maxQualifying (firsts ToLower ∅ (filter (fun c => floor <= MinLatency c) (sortByLatency (pinged w)))).
Lemma choice_sound floor w : (length (choice floor w) <= 5)%nat ∧ NoDup (shortKey ToLower <$> choice floor w)
  ∧ Forall (fun c => c ∈ pinged w ∧ floor <= MinLatency c) (choice floor w).
Proof.
  destruct (shortlist_sound ToLower (sortByLatency (pinged w)) floor) as (Hl & Hn & Hf).
  unfold choice; rewrite <- shortlist_is; split_and!; [done|done|].
  eapply Forall_impl; [exact Hf|]; cbn; intros c [Hc ?]; by rewrite sort_perm in Hc.
Qed.
Lemma pinged_pos w : Forall (fun c => 0 < Latency c ∧ 0 < MinLatency c) (pinged w).
Proof.
  unfold pinged; destruct (Candidates w) as [[e|candidates] w1]; [done|].
  destruct (refine_loop _ _ [] w1) as [refined w2] eqn:Er; by apply refine_loop_pos in Er.
Qed.

(** The floor of another facility, unless no server that answered was so far away. *)
Definition floor_for (w : W) (floor : Z) : Prop :=
  floor = sameFacilityFloor ∨ floor = sameBuildingFloor ∧ countClearing (pinged w) sameFacilityFloor = 0%nat.

(** The servers [measure] tests. *)
Lemma servers_chosen w : let refined := sortByLatency (pinged w) in
  let far := (shortlist ToLower refined sameFacilityFloor).1 in
  ∃ floor, floor_for w floor
    ∧ (if decide (far = []) then (shortlist ToLower refined sameBuildingFloor).1 else far) = choice floor w.
Proof.
  intros refined far; unfold choice, far; case_decide as Hd; [exists sameBuildingFloor|exists sameFacilityFloor];
    rewrite shortlist_is; (split; [|done]); [right; split; [done|]|by left].
  rewrite <- (countClearing_perm _ _ (sort_perm (pinged w))); by eapply shortlist_nil.
Qed.
End Measure.

Section Honest.
Context (ToLower : string -> string) {W : Type} `{!prober W}.
Implicit Types (w : probed W).

(** [measure] is the test of the servers chosen, if there are any. *)
Lemma measure_tests w res w' : measure ToLower w = (res, w') ->
  ∃ floor samples w2, floor_for w floor ∧ w2.2 = w.2 ∧ sample_loop (choice ToLower floor w) [] w2 = (samples, w')
    ∧ res = match samples with
            | [] => none
            | s :: rest => mkResult (int64_of (minSample s rest s_Upload)) (int64_of (minSample s rest s_Download)) SourceSpeedtest
            end.
Proof.
  intros H; destruct (servers_chosen ToLower w) as (floor & Hf & Ec); exists floor; revert H Ec.
  unfold measure, pinged; destruct (Candidates w) as [r w1] eqn:Ew.
  assert (w1.2 = w.2) as Hw1 by (destruct w as [w l]; cbn in Ew; destruct (Candidates w); by injection Ew as <- <-).
  destruct r as [e|candidates].
  { intros [= <- <-] Ec; exists [], w1; rewrite <- Ec; done. }
  case_decide as Hr.
  { rewrite Hr; intros [= <- <-] Ec; exists [], w1; rewrite <- Ec; done. }
  destruct (refine_loop _ _ [] w1) as [refined w2] eqn:Er; cbn [fst]; intros H Ec; rewrite Ec in H; clear Ec.
  apply refine_loop_log in Er; exists (sample_loop (choice ToLower floor w) [] w2).1, w2.
  case_decide as Hn; [injection H as <- <-; rewrite Hn; split_and!; [done|congruence|done|done]|].
  destruct (sample_loop _ [] w2) as [samples w3]; split_and!; [done|congruence| |];
    destruct samples; by injection H as <- <-.
Qed.

(** C29. The bandwidth a measurement reports is honest.  The log of the run says which
    servers were tested and what they answered.  They are, in order, the nearest of
    those that answered the accurate ping no faster than the floor, one per sponsor
    and city, five at most; the floor is that of another facility, unless no server
    that answered was so far away.  Testing ends with the last of them, or earlier
    when the start is cancelled, three results count, or those so far agree.  When
    none counts, nothing is reported; otherwise in each direction the figure is that
    of one of the results that count, and none of them, of that run, is lower. *)
Theorem measure_honest w res w' : measure ToLower w = (res, w') ->
  ∃ floor new, w'.2 = w.2 ++ new ∧ floor_for w floor
    ∧ (fst <$> new) `prefix_of` choice ToLower floor w
    ∧ (length new <= 5)%nat ∧ NoDup (shortKey ToLower <$> (fst <$> new))
    ∧ Forall (fun c => c ∈ pinged w ∧ 0 < Latency c ∧ floor <= MinLatency c) (fst <$> new)
    ∧ (length (usable new) <= 3)%nat ∧ enough (choice ToLower floor w) new (usable new) w'
    ∧ if decide (usable new = []) then res = none else
      ∃ up down, res = mkResult (int64_of up) (int64_of down) SourceSpeedtest
        ∧ lowest s_Upload (usable new) up ∧ lowest s_Download (usable new) down.
Proof.
  intros (floor & samples & w2 & Hf & Hw & E & ->)%measure_tests; exists floor.
  apply sample_loop_log in E as (new & Hl & Hp & Hu & Hlen & He); [|by unfold maxSamples; cbn; lia].
  cbn in Hu; subst samples; rewrite Hw in Hl; exists new; pose proof (choice_sound ToLower floor w) as (H5 & Hn & Hall).
  split_and!; [done|done|done| | | |done|done|].
  - apply prefix_length in Hp; rewrite length_fmap in Hp; lia.
  - destruct Hp as [k Ek]; rewrite Ek, fmap_app in Hn; by apply NoDup_app in Hn as [? _].
  - destruct Hp as [k Ek]; rewrite Ek in Hall; apply Forall_app in Hall as [Hall _].
    eapply Forall_impl; [exact Hall|]; cbn; intros c [Hc ?]; split_and!; [done| |done].
    exact (proj1 (proj1 (Forall_forall _ _) (pinged_pos w) c Hc)).
  - destruct (usable new) as [|s rest]; case_decide; [done..|]; eexists _, _; split_and!; [done|apply minSample_lowest..].
Qed.
End Honest.

(** * What is advertised *)

(** The disk keeps what was written, and JSON gives an entry back. *)
Class CacheLaws (W : Type) `{!CacheFile W} := {
  cache_kept p d w w1 : WriteCacheFile p d w = (inr tt, w1) -> ∃ w2, ReadCacheFile p w1 = (inr (Some d), w2);
  entry_json e d : MarshalEntry e = inr d -> UnmarshalEntry (d +:+ String "010"%char "")%string = inr e
}.

Section Advertise.
Context (ToLower : string -> string) {W : Type} `{!prober W, !CacheFile W} {CL : CacheLaws W}.

Definition declared (opts : Options) : bool := SFltb (float64 0) (o_UploadMbps opts) && SFltb (float64 0) (o_DownloadMbps opts).

Lemma readCache_inv home w e w1 : readCache home w = (Some e, w1) ->
  home ≠ ""%string ∧ 0 < e_Upload e ∧ 0 < e_Download e ∧ MeasuredAt e ≠ 0.
Proof using Type.
  unfold readCache; case_decide; [done|]; destruct (ReadCacheFile _ w) as [[|[d|]] w2]; [done| |done].
  destruct (UnmarshalEntry d) as [|e']; [done|]; destruct (_ || _) eqn:E; [done|]; intros [= -> ->].
  apply orb_false_iff in E as [[?%Z.leb_gt ?%Z.leb_gt]%orb_false_iff ?%Z.eqb_neq]; done.
Qed.

Lemma measure_source w : r_Source (measure ToLower w).1 = SourceSpeedtest ∨ (measure ToLower w).1 = none.
Proof using Type.
  unfold measure; destruct (Candidates w) as [[e|candidates] w1]; [by right|]; case_decide; [by right|].
  destruct (refine_loop _ _ [] w1) as [refined0 w2]; case_decide; [by right|].
  destruct (sample_loop _ [] w2) as [[|s rest] w3]; [by right|by left].
Qed.

(** What the node advertises is the operator's figure, or was measured for this
    address (now, or earlier and kept: within a week, or when a measurement made now
    fails), or is nothing.  The start never fails for want of one. *)
Theorem Measure_advertises opts w res w' : Measure ToLower opts w = (res, w') ->
  if declared opts then res = mkResult (BytesPerSecond (o_UploadMbps opts)) (BytesPerSecond (o_DownloadMbps opts)) SourceConfig
  else let '(cached, w1) := readCache (o_Home opts) w in
    (∃ w2, measure ToLower (newProber opts w1) = (res, w2) ∧ r_Source res = SourceSpeedtest ∧ w' = writeCache (o_Home opts) (o_IP opts) res (Now w) w2)
    ∨ (∃ e, cached = Some e ∧ e_IP e = o_IP opts ∧ res = entry_result e ∧ 0 < r_Upload res ∧ 0 < r_Download res
        ∧ (time_Sub (Now w) (MeasuredAt e) < cacheTTL ∨ (measure ToLower (newProber opts w1)).1 = none))
    ∨ (res = none ∧ (measure ToLower (newProber opts w1)).1 = none ∧ forall e, cached = Some e -> e_IP e ≠ o_IP opts).
Proof using Type.
  unfold Measure; fold (declared opts); destruct (declared opts); [by intros [= <- _]|].
  destruct (readCache (o_Home opts) w) as [cached w1] eqn:Ec; pose proof (measure_source (newProber opts w1)) as Hsrc.
  destruct (measure ToLower (newProber opts w1)) as [res0 w2] eqn:Em; cbn [fst] in Hsrc.
  set (mine := match cached with Some e => if decide (e_IP e = o_IP opts) then Some e else None | None => None end).
  assert (match mine with Some e => cached = Some e ∧ e_IP e = o_IP opts ∧ 0 < e_Upload e ∧ 0 < e_Download e
    | None => forall e, cached = Some e -> e_IP e ≠ o_IP opts end) as Hmine.
  { unfold mine; destruct cached as [e|]; [|done]; case_decide; [|by intros ? [= <-]].
    apply readCache_inv in Ec as (_ & ? & ? & _); done. }
  destruct mine as [e|].
  - destruct Hmine as (-> & Hip & Hu & Hd); destruct (Z.ltb_spec (time_Sub (Now w) (MeasuredAt e)) cacheTTL).
    + intros [= <- _]; right; left; exists e; split_and!; [done..|by left].
    + case_decide; intros [= <- <-]; [left; by exists w2|]; right; left; exists e; split_and!; [done..|right; by destruct Hsrc].
  - case_decide; intros [= <- <-]; [left; by exists w2|]; right; right; destruct Hsrc; split_and!; done.
Qed.

(** A measurement is kept: on the same address, within a week less the second the
    stored time lost, the next start advertises it again without measuring. *)
Theorem measurement_kept opts w res w2 w3 d v :
  let p := FileJoin (o_Home opts) cacheFileName in
  let entry := mkCacheEntry (o_IP opts) (r_Upload res) (r_Download res) (Now w - Now w mod (1000 * millisecond)) in
  declared opts = false -> o_Home opts ≠ ""%string ->
  0 < r_Upload res -> 0 < r_Download res -> r_Source res = SourceSpeedtest -> 1000 * millisecond <= Now w ->
  MarshalEntry entry = inr d -> WriteCacheFile p (d +:+ String "010"%char "")%string w2 = (inr tt, w3) ->
  w3 = writeCache (o_Home opts) (o_IP opts) res (Now w) w2
  ∧ (Now w <= Now v -> Now v - Now w < cacheTTL - 1000 * millisecond ->
     ReadCacheFile p v = ReadCacheFile p w3 -> (Measure ToLower opts v).1 = res).
Proof.
  intros p entry Hdec Hhome Hu Hd Hsrc Hnow Hm Hw; split.
  { unfold writeCache; rewrite decide_False by done; fold entry; rewrite Hm; fold p; by rewrite Hw. }
  intros Hle Hage Hread; unfold Measure; fold (declared opts); rewrite Hdec.
  destruct (cache_kept _ _ _ _ Hw) as [w4 Hr]; rewrite Hr in Hread.
  assert (MeasuredAt entry ≠ 0 ∧ Now w - 1000 * millisecond < MeasuredAt entry <= Now w) as [Hat Hrange].
  { cbn; pose proof (Z.mod_pos_bound (Now w) (1000 * millisecond)); unfold millisecond in *; lia. }
  unfold readCache; rewrite decide_False by done; fold p; rewrite Hread, (entry_json _ _ Hm).
  rewrite (proj2 (Z.leb_gt _ _)) by exact Hu; rewrite (proj2 (Z.leb_gt _ _)) by exact Hd; rewrite (proj2 (Z.eqb_neq _ _) Hat).
  cbn [orb]; rewrite decide_True by done.
  rewrite (proj2 (Z.ltb_lt _ _)); [unfold entry_result; cbn -[SourceSpeedtest]; rewrite <- Hsrc; by destruct res|].
  unfold time_Sub, cacheTTL, millisecond, min_int64, max_int64 in *; lia.
Qed.
End Advertise.

(** * Three servers, one of them in the same building *)
Definition ex_servers : list Candidate :=
  [mkCandidate "1" "Here" "A" "DE" "a" 300000 250000; mkCandidate "2" "Far" "B" "FR" "b" 9000000 8000000;
   mkCandidate "3" "There" "C" "AT" "c" 5000000 4000000].
#[export] Instance ex_prober : prober unit := {
  newProber _ w := w;
  Candidates w := (inr ex_servers, w);
  Refine l w := (l, w);
  MeasureServer c w := (inr (if decide (c_ID c = "2"%string) then mkSample c (float64 5000000) (float64 9000000)
                             else mkSample c (float64 4900000) (float64 9500000)), w);
  cancelled _ := false
}.
Definition ex_run : Result * probed unit := measure id (tt, []).
(** The two servers off the premises agree; each direction reports the lower of them. *)
Lemma measure_honest_witness : ex_run.1 = mkResult 4900000 9000000 SourceSpeedtest
  ∧ (c_ID <$> (fst <$> ex_run.2.2)) = ["3"; "2"]%string
  ∧ ∃ new, ex_run.2.2 = [] ++ new ∧ (length (usable new) <= 3)%nat
    ∧ if decide (usable new = []) then ex_run.1 = none else
      ∃ up down, ex_run.1 = mkResult (int64_of up) (int64_of down) SourceSpeedtest
        ∧ lowest s_Upload (usable new) up ∧ lowest s_Download (usable new) down.
Proof.
  split; [vm_compute; reflexivity|split; [vm_compute; reflexivity|]].
  destruct (measure_honest id (tt, []) ex_run.1 ex_run.2)
    as (floor & new & Hl & _ & _ & _ & _ & _ & H3 & _ & H); [apply surjective_pairing|].
  exists new; split; [exact Hl|split; [exact H3|exact H]].
Defined.
