(* ===== verification/Speedtest.v ===== *)
(** The speed-test client of the node: src/libs/bandwidth/ookla.go.

    It implements the interface [prober] of Bandwidth over the speedtest library,
    which is a parameter: servers are objects the library writes to, so they are
    pointers into the world, and the table of the client maps an identifier to one.
    The accurate pings run as goroutines, one per server; the model runs them in any
    interleaving of their steps and waits for the last, as the WaitGroup does. *)
From S2P Require Import Prelude Floats Bandwidth.
Set Default Proof Using "Type*".

Definition maxConnections : Z := 8.

(** [speedtest.Server], the fields the client reads. *)
Record Server := mkServer {
  sv_ID : string; sv_Name : string; sv_Sponsor : string; sv_Country : string; sv_Host : string;
  sv_Latency : Z; sv_MinLatency : Z; ULSpeed : spec_float; DLSpeed : spec_float }.
Inductive Proto := HTTPPing | ICMPPing.
(** [speedtest.UserConfig], the fields the client sets; no location is nil. *)
Record UserConfig := mkUserConfig {
  PingMode : Proto; MaxConnections : Z; uc_Location : option (spec_float * spec_float) }.
Abbreviation ptr := nat.

(** The library, and the order in which the Go scheduler lets goroutines step. *)
Class SpeedtestLib (W : Type) := {
  FetchServerListContext : UserConfig -> M W gerror (list ptr);
  deref : W -> ptr -> Server;
  PingTestContext : ptr -> M W gerror unit;
  DownloadTestContext : ptr -> M W gerror unit;
  UploadTestContext : ptr -> M W gerror unit;
  st_Reset : W -> W;
  st_Wait : W -> W;
  ctx_done : W -> bool;
  scheduled : W -> list nat
}.

Definition candidateOf (s : Server) : Candidate :=
  mkCandidate (sv_ID s) (sv_Name s) (sv_Sponsor s) (sv_Country s) (sv_Host s) (sv_Latency s) (sv_MinLatency s).
(** [c.Latency = -1] *)
Definition unreachable (c : Candidate) : Candidate :=
  mkCandidate (c_ID c) (c_Name c) (c_Sponsor c) (c_Country c) (c_Host c) (-1) (MinLatency c).
Definition zeroCandidate : Candidate := mkCandidate "" "" "" "" "" 0 0.

Record ooklaProber := mkOokla { ok_client : UserConfig; servers : gmap string ptr }.
Definition newOoklaProber (opts : Options) : ooklaProber :=
  let located := negb (SFeqb (o_Latitude opts) (float64 0)) || negb (SFeqb (o_Longitude opts) (float64 0)) in
  mkOokla (mkUserConfig HTTPPing maxConnections (if located then Some (o_Latitude opts, o_Longitude opts) else None)) ∅.

Section Ookla.
Context {W : Type} `{!SpeedtestLib W}.

(** * Listing *)
Definition listed (p : ooklaProber) (w : W) (list : list ptr) : ooklaProber :=
  foldl (fun p s => mkOokla (ok_client p) (<[sv_ID (deref w s) := s]> (servers p))) p list.
Definition ookla_Candidates : M (ooklaProber * W) gerror (list Candidate) := fun '(p, w) =>
  match FetchServerListContext (ok_client p) w with
  | (inl e, w1) => (inl e, (p, w1))
  | (inr list, w1) => (inr ((fun s => candidateOf (deref w1 s)) <$> list), (listed p w1 list, w1))
  end.

(** * The accurate pings

    A goroutine reads its server, pings it, and reads it again for its answer. *)
Inductive goroutine :=
  | Ready (s : ptr)
  | Asking (s : ptr) (c : Candidate)
  | Answered (s : ptr) (c : Candidate) (r : gerror + unit)
  | Done.
Record pinging := mkPinging { pg_world : W; pg_go : list goroutine; pg_out : list Candidate }.

Definition go_step (st : pinging) (i : nat) : pinging :=
  let '(mkPinging w gs out) := st in
  match gs !! i with
  | Some (Ready s) => mkPinging w (<[i := Asking s (candidateOf (deref w s))]> gs) out
  | Some (Asking s c) => let '(r, w1) := PingTestContext s w in mkPinging w1 (<[i := Answered s c r]> gs) out
  | Some (Answered s c r) =>
      mkPinging w (<[i := Done]> gs) (<[i := match r with inl _ => unreachable c | inr _ => candidateOf (deref w s) end]> out)
  | Some Done | None => st
  end.
(** [wg.Wait()]: whatever the goroutines did meanwhile, each runs to its end. *)
Definition waited (n : nat) : list nat := seq 0 n ++ seq 0 n ++ seq 0 n.

Definition spawn (p : ooklaProber) (c : Candidate) : goroutine :=
  match servers p !! c_ID c with Some s => Ready s | None => Done end.
Definition ookla_Refine (candidates : list Candidate) : ooklaProber * W -> list Candidate * (ooklaProber * W) := fun '(p, w) =>
  let out := (fun c => if servers p !! c_ID c is Some _ then zeroCandidate else unreachable c) <$> candidates in
  let st := foldl go_step (mkPinging w (spawn p <$> candidates) out) (scheduled w ++ waited (length candidates)) in
  (pg_out st, (p, pg_world st)).

(** * The transfers *)
Definition ookla_Measure (c : Candidate) : M (ooklaProber * W) gerror Sample := fun '(p, w) =>
  match servers p !! c_ID c with
  | None => (inl ("unknown server " +:+ quoted (c_ID c))%string, (p, w))
  | Some s =>
      match DownloadTestContext s (st_Reset w) with
      | (inl e, w1) => (inl e, (p, w1))
      | (inr _, w1) =>
          match UploadTestContext s (st_Wait w1) with
          | (inl e, w2) => (inl e, (p, w2))
          | (inr _, w2) =>
              let w3 := st_Wait w2 in
              (inr (mkSample c (ULSpeed (deref w3 s)) (DLSpeed (deref w3 s))), (p, w3))
          end
      end
  end.

#[export] Instance ookla_prober : prober (ooklaProber * W) := {
  newProber opts '(_, w) := (newOoklaProber opts, w);
  Candidates := ookla_Candidates;
  Refine := ookla_Refine;
  MeasureServer := ookla_Measure;
  cancelled '(_, w) := ctx_done w
}.
End Ookla.
Arguments pinging : clear implicits.
