(* ===== verification/SpeedtestProofs.v ===== *)
(** The speed-test client keeps the contract of [prober]: proofs about Speedtest,
    and a library that satisfies the laws. *)
From S2P Require Import Prelude Floats Bandwidth BandwidthProofs Speedtest.
Set Default Proof Using "Type*".

(** What the library documents of a ping: it writes the latencies of the server it
    is made to, and nothing else of any server. *)
Class SpeedtestLaws (W : Type) `{!SpeedtestLib W} := {
  ping_own s s' w : s' ≠ s -> deref (PingTestContext s w).2 s' = deref w s';
  ping_named s w : sv_ID (deref (PingTestContext s w).2 s) = sv_ID (deref w s)
}.

Section Refine.
Context {W : Type} `{!SpeedtestLib W} {SL : SpeedtestLaws W}.

(** The table finds a server under its identifier. *)
Definition known (p : ooklaProber) (w : W) : Prop := forall id s, servers p !! id = Some s -> sv_ID (deref w s) = id.

(** The answer of a server to a ping made to it some time after [w]. *)
Definition pingedAnswer (w : W) (s : ptr) (o : Candidate) : Prop :=
  ∃ r w1 w2, PingTestContext s w1 = (r, w2) ∧ deref w1 s = deref w s
    ∧ o = match r with inl _ => unreachable (candidateOf (deref w s)) | inr _ => candidateOf (deref w2 s) end.
Definition refinedTo (p : ooklaProber) (w : W) (c o : Candidate) : Prop :=
  match servers p !! c_ID c with Some s => pingedAnswer w s o | None => o = unreachable c end.

Lemma ping_ids s s' w : sv_ID (deref (PingTestContext s w).2 s') = sv_ID (deref w s').
Proof. destruct (decide (s' = s)) as [->|]; [apply ping_named|by rewrite ping_own]. Qed.

(** ** Every goroutine ends *)
Definition rank (g : goroutine) : nat := match g with Ready _ => 3 | Asking _ _ => 2 | Answered _ _ _ => 1 | Done => 0 end.
Definition rank_at (st : pinging W) (i : nat) : nat := from_option rank 0%nat (pg_go st !! i).

Lemma rank_step st i j : rank_at (go_step st i) j = if decide (i = j) then pred (rank_at st j) else rank_at st j.
Proof using Type.
  destruct st as [w gs out]; unfold rank_at, go_step; cbn; case_decide as E.
  - subst j; destruct (gs !! i) as [[s|s c|s c r|]|] eqn:Hg; cbn; try by rewrite Hg.
    2: destruct (PingTestContext s w).
    all: cbn; rewrite list_lookup_insert_eq; [done|by eapply lookup_lt_Some].
  - destruct (gs !! i) as [[s|s c|s c r|]|] eqn:Hg; cbn; try done.
    2: destruct (PingTestContext s w).
    all: cbn; by rewrite list_lookup_insert_ne.
Qed.
Lemma rank_run l st j : (rank_at (foldl go_step st l) j <= if decide (j ∈ l) then pred (rank_at st j) else rank_at st j)%nat.
Proof using Type.
  clear SL; revert st; induction l as [|i l IH]; intros st; cbn [foldl]; [by case_decide; [set_solver|]|].
  specialize (IH (go_step st i)); rewrite rank_step in IH; revert IH.
  repeat case_decide; subst; try lia; set_solver.
Qed.
Lemma waited_done st n i : (i < n)%nat -> rank_at (foldl go_step st (waited n)) i = 0%nat.
Proof using Type.
  intros Hi; unfold waited; rewrite !foldl_app.
  assert (i ∈ seq 0 n) as Hin by (apply elem_of_seq; lia).
  set (s1 := foldl go_step st (seq 0 n)); set (s2 := foldl go_step s1 (seq 0 n)).
  pose proof (rank_run (seq 0 n) st i) as H1; pose proof (rank_run (seq 0 n) s1 i) as H2; pose proof (rank_run (seq 0 n) s2 i) as H3.
  rewrite decide_True in H1, H2, H3 by done; fold s1 in H1; fold s2 in H2.
  assert (rank_at st i <= 3)%nat by (unfold rank_at; destruct (pg_go st !! i) as [[]|]; cbn; lia); lia.
Qed.

(** ** What a goroutine knows *)
Context (p : ooklaProber) (w0 : W) (candidates : list Candidate).
Context (Hknown : known p w0) (Hdup : NoDup (c_ID <$> candidates)).

Definition mid (w : W) (c : Candidate) (g : goroutine) (o : Candidate) : Prop :=
  match servers p !! c_ID c, g with
  | None, Done => o = unreachable c
  | Some s, Ready s' => s' = s ∧ deref w s = deref w0 s
  | Some s, Asking s' c' => s' = s ∧ deref w s = deref w0 s ∧ c' = candidateOf (deref w0 s)
  | Some s, Answered s' c' r => s' = s ∧ c' = candidateOf (deref w0 s)
      ∧ ∃ w1 w2, PingTestContext s w1 = (r, w2) ∧ deref w1 s = deref w0 s ∧ deref w s = deref w2 s
  | Some s, Done => pingedAnswer w0 s o
  | None, _ => False
  end.
Definition consistent (st : pinging W) : Prop :=
  (forall s, sv_ID (deref (pg_world st) s) = sv_ID (deref w0 s)) ∧
  length (pg_go st) = length candidates ∧ length (pg_out st) = length candidates ∧
  forall i c g o, candidates !! i = Some c -> pg_go st !! i = Some g -> pg_out st !! i = Some o -> mid (pg_world st) c g o.

(** A step of another goroutine takes nothing away. *)
Lemma mid_other i j ci cj g o w s : i ≠ j -> candidates !! i = Some ci -> candidates !! j = Some cj ->
  servers p !! c_ID ci = Some s -> mid w cj g o -> mid (PingTestContext s w).2 cj g o.
Proof.
  intros Hij Hi Hj Hs; unfold mid; destruct (servers p !! c_ID cj) as [s'|] eqn:Hs'; [|done].
  assert (s' ≠ s) as Hne.
  { intros ->; apply Hknown in Hs, Hs'; apply Hij; eapply (NoDup_lookup _ _ _ (c_ID cj) Hdup); rewrite list_lookup_fmap.
    - rewrite Hi; cbn; congruence.
    - by rewrite Hj. }
  destruct g; [..|done]; rewrite (ping_own s s') by done; done.
Qed.

Lemma consistent_step st i : consistent st -> consistent (go_step st i).
Proof.
  destruct st as [w gs out]; intros (Hid & Hg & Ho & Hall); unfold go_step; cbn in *.
  destruct (gs !! i) as [g|] eqn:Hgi; [|by split_and!].
  assert (i < length candidates)%nat as Hi by (rewrite <- Hg; by eapply lookup_lt_Some).
  destruct (lookup_lt_is_Some_2 candidates i Hi) as [c Hc]; destruct (lookup_lt_is_Some_2 out i) as [o Hoi]; [by rewrite Ho|].
  pose proof (Hall i c g o Hc Hgi Hoi) as Hm; unfold mid in Hm.
  destruct (servers p !! c_ID c) as [s|] eqn:Hs; [|destruct g; [done..|by split_and!]].
  (* only the goroutine's own entry changes *)
  assert (forall w' g' out', (forall s0, sv_ID (deref w' s0) = sv_ID (deref w0 s0)) -> length out' = length candidates ->
    (forall o', out' !! i = Some o' -> mid w' c g' o') ->
    (forall j cj gj oj, i ≠ j -> candidates !! j = Some cj -> gs !! j = Some gj -> out' !! j = Some oj -> mid w' cj gj oj) ->
    consistent (mkPinging w' (<[i := g']> gs) out')) as Hput.
  { intros w' g' out' Hi' Hl Hnew Hold; split_and!; cbn; [done|by rewrite length_insert|done|].
    intros j cj gj oj Hcj Hgj Hoj; destruct (decide (i = j)) as [<-|Hne].
    - rewrite list_lookup_insert_eq in Hgj by (by rewrite Hg); injection Hgj as <-; rewrite Hc in Hcj; injection Hcj as <-; by apply Hnew.
    - rewrite list_lookup_insert_ne in Hgj by done; by eapply Hold. }
  destruct g as [s'|s' c'|s' c' r|]; [..|by split_and!].
  - destruct Hm as [-> Hd]; apply Hput; [done|done| |intros; by eapply Hall].
    intros o' _; unfold mid; rewrite Hs, Hd; done.
  - destruct Hm as (-> & Hd & ->); destruct (PingTestContext s w) as [r w1] eqn:Hp.
    assert (w1 = (PingTestContext s w).2) as Ew by (by rewrite Hp).
    apply Hput; [intros; by rewrite Ew, ping_ids|done| |].
    + intros o' _; unfold mid; rewrite Hs; split_and!; [done|done|by exists w, w1].
    + intros j cj gj oj Hij Hcj Hgj Hoj; rewrite Ew; eapply mid_other; [exact Hij|done|done|done|by eapply Hall].
  - destruct Hm as (-> & -> & w1 & w2 & Hp & Hd1 & Hd2); apply Hput; [done|by rewrite length_insert| |].
    + intros o'; rewrite list_lookup_insert_eq by (by rewrite Ho); intros [= <-]; unfold mid; rewrite Hs.
      exists r, w1, w2; rewrite Hd2; by destruct r.
    + intros j cj gj oj Hij Hcj Hgj; rewrite list_lookup_insert_ne by done; intros Hoj; by eapply Hall.
Qed.
End Refine.

Section Contract.
Context {W : Type} `{!SpeedtestLib W} {SL : SpeedtestLaws W}.

Lemma consistent_run p w0 candidates l st : known p w0 -> NoDup (c_ID <$> candidates) ->
  consistent p w0 candidates st -> consistent p w0 candidates (foldl go_step st l).
Proof. intros Hk Hd; revert st; induction l as [|i l IH]; intros st H; cbn; [done|]; by apply IH, consistent_step. Qed.

Lemma consistent_start p w candidates :
  consistent p w candidates (mkPinging w (spawn p <$> candidates)
    ((fun c => if servers p !! c_ID c is Some _ then zeroCandidate else unreachable c) <$> candidates)).
Proof using Type.
  split_and!; cbn; [done|apply length_fmap|apply length_fmap|]; intros i c g o Hc; rewrite !list_lookup_fmap, Hc; cbn.
  intros [= <-] [= <-]; unfold mid, spawn; by destruct (servers p !! c_ID c).
Qed.

(** The accurate pings answer for every server asked, in the order asked, however the
    goroutines interleave: one the client does not know comes back unreachable, one
    whose ping failed comes back as it was before with latency -1, and any other with
    the latencies the library recorded for its own ping, not another's. *)
Theorem ookla_Refine_answers p w candidates answers p' w' :
  known p w -> NoDup (c_ID <$> candidates) -> Refine candidates (p, w) = (answers, (p', w')) ->
  Forall2 (refinedTo p w) candidates answers ∧ p' = p ∧ known p w'.
Proof.
  intros Hk Hd; cbn -[foldl]; set (st0 := mkPinging w _ _); rewrite foldl_app.
  set (st1 := foldl go_step st0 (scheduled w)); set (st2 := foldl go_step st1 _).
  intros [= <- <- <-]; split; [|split; [done|]].
  all: assert (consistent p w candidates st2) as (Hid & Hg & Ho & Hall)
    by (unfold st2, st1; apply consistent_run; [done|done|]; apply consistent_run; [done|done|]; apply consistent_start).
  2: { intros id s Hs; rewrite Hid; by apply Hk. }
  apply Forall2_same_length_lookup_2; [by rewrite Ho|]; intros i c o Hc Hoi.
  assert (i < length candidates)%nat as Hi by (by eapply lookup_lt_Some).
  destruct (lookup_lt_is_Some_2 (pg_go st2) i) as [g Hgi]; [by rewrite Hg|].
  pose proof (Hall i c g o Hc Hgi Hoi) as Hm; pose proof (waited_done st1 _ i Hi) as Hr; fold st2 in Hr.
  unfold rank_at in Hr; rewrite Hgi in Hr; destruct g; try discriminate Hr.
  unfold refinedTo, mid in *; by destruct (servers p !! c_ID c).
Qed.

(** ** Listing *)
Lemma listed_lookup p w list id s : servers (listed p w list) !! id = Some s ->
  (s ∈ list ∧ sv_ID (deref w s) = id) ∨ servers p !! id = Some s.
Proof using Type.
  clear SL; revert p; induction list as [|t list IH]; intros p; cbn [listed foldl]; [by right|]; intros [[H1 H2]|H]%IH.
  - left; split; [by right|done].
  - cbn in H; apply lookup_insert_Some in H as [[<- <-]|[_ H]]; [left; split; [by left|done]|by right].
Qed.
Lemma listed_mono p w list id : is_Some (servers p !! id) -> is_Some (servers (listed p w list) !! id).
Proof using Type.
  clear SL; revert p; induction list as [|t list IH]; intros p; cbn [listed foldl]; [done|]; intros H; apply IH; cbn.
  rewrite lookup_insert; by case_decide.
Qed.
Lemma listed_all p w list s : s ∈ list -> is_Some (servers (listed p w list) !! sv_ID (deref w s)).
Proof using Type.
  clear SL; revert p; induction list as [|t list IH]; intros p; [set_solver|].
  cbn [listed foldl]; intros [->|H]%elem_of_cons; [|by apply IH]; apply listed_mono; cbn; by rewrite lookup_insert_eq.
Qed.

(** A fresh client lists servers it then knows, under the identifiers it lists. *)
Theorem ookla_Candidates_known opts q w candidates p w1 :
  Candidates (newProber opts (q, w)) = (inr candidates, (p, w1)) ->
  known p w1 ∧ Forall (fun c => is_Some (servers p !! c_ID c)) candidates.
Proof using Type.
  cbn; unfold ookla_Candidates; destruct (FetchServerListContext _ w) as [[e|list] w2]; [done|]; intros [= <- <- <-]; split.
  - intros id s [[_ H]|H]%listed_lookup; [done|]; by destruct (lookup_empty_Some (M := gmap string) id s).
  - apply Forall_fmap, Forall_forall; intros s Hs; by apply listed_all.
Qed.

(** ** The transfers

    A sample is of a server the client knows: after a reset, the download test and
    then the upload test succeeded, and the figures are those the library has for that
    server when both are done. *)
Theorem ookla_Measure_sample p w c s p' w' : MeasureServer c (p, w) = (inr s, (p', w')) ->
  p' = p ∧ s_Candidate s = c ∧ ∃ sv w1 w2, servers p !! c_ID c = Some sv
    ∧ DownloadTestContext sv (st_Reset w) = (inr tt, w1) ∧ UploadTestContext sv (st_Wait w1) = (inr tt, w2) ∧ w' = st_Wait w2
    ∧ s_Download s = DLSpeed (deref w' sv) ∧ s_Upload s = ULSpeed (deref w' sv).
Proof using Type.
  cbn; unfold ookla_Measure; destruct (servers p !! c_ID c) as [sv|]; [|done].
  destruct (DownloadTestContext sv (st_Reset w)) as [[e|[]] w1] eqn:H1; [done|].
  destruct (UploadTestContext sv (st_Wait w1)) as [[e|[]] w2] eqn:H2; [done|]; intros [= <- <- <-].
  split_and!; [done|done|]; exists sv, w1, w2; done.
Qed.
End Contract.

(** * Two servers, the second of which does not answer *)
Record ex_net := mkNet { net_servers : list Server }.
Definition ex_server (id : string) (lat : Z) : Server := mkServer id "City" id "DE" id lat 0 (float64 0) (float64 0).
Definition ex_nowhere : Server := mkServer "" "" "" "" "" 0 0 (float64 0) (float64 0).
Definition ex_pinged (s : Server) : Server :=
  mkServer (sv_ID s) (sv_Name s) (sv_Sponsor s) (sv_Country s) (sv_Host s) 5000000 4000000 (ULSpeed s) (DLSpeed s).
Definition ex_measured (s : Server) : Server :=
  mkServer (sv_ID s) (sv_Name s) (sv_Sponsor s) (sv_Country s) (sv_Host s) (sv_Latency s) (sv_MinLatency s) (float64 1000000) (float64 2000000).
#[export] Instance ex_speedtest : SpeedtestLib ex_net := {
  FetchServerListContext _ w := (inr (seq 0 (length (net_servers w))), w);
  deref w s := default ex_nowhere (net_servers w !! s);
  PingTestContext s w := if decide (s = 0)%nat then (inr tt, mkNet (alter ex_pinged s (net_servers w))) else (inl "timeout"%string, w);
  DownloadTestContext s w := (inr tt, w);
  UploadTestContext s w := (inr tt, mkNet (alter ex_measured s (net_servers w)));
  st_Reset w := w; st_Wait w := w; ctx_done _ := false; scheduled _ := [1; 0; 0; 1; 1; 0]%nat
}.
#[export] Instance ex_speedtest_laws : SpeedtestLaws ex_net.
Proof.
  split; intros s.
  - intros s' w Hne; cbn; case_decide; [|done]; cbn; rewrite list_lookup_alter_ne; [done|by intros ->].
  - intros w; cbn; case_decide; [|done]; cbn; rewrite list_lookup_alter_eq; by destruct (net_servers w !! s).
Qed.
Definition ex_coordinates : Options := mkOptions (float64 0) (float64 0) (float64 52) (float64 13) "" "".
Definition ex_two : ex_net := mkNet [ex_server "a" 9; ex_server "b" 8].
Definition ex_ookla : ooklaProber := listed (newOoklaProber ex_coordinates) ex_two [0; 1]%nat.
Definition ex_listing : list Candidate := candidateOf <$> net_servers ex_two.

(** The first server has its own latency, the second is unreachable. *)
Lemma ookla_Refine_answers_witness :
  Candidates (newProber ex_coordinates (ex_ookla, ex_two)) = (inr ex_listing, (ex_ookla, ex_two))
  ∧ (Latency <$> (Refine ex_listing (ex_ookla, ex_two)).1) = [5000000; -1]
  ∧ Forall2 (refinedTo ex_ookla ex_two) ex_listing (Refine ex_listing (ex_ookla, ex_two)).1.
Proof.
  split; [reflexivity|]; split; [vm_compute; reflexivity|].
  destruct (Refine ex_listing (ex_ookla, ex_two)) as [answers [p' w']] eqn:E.
  refine (proj1 (ookla_Refine_answers ex_ookla ex_two ex_listing answers p' w' _ _ E)).
  - refine (proj1 (ookla_Candidates_known ex_coordinates ex_ookla ex_two ex_listing ex_ookla ex_two _)); reflexivity.
  - apply (bool_decide_unpack _); vm_compute; exact I.
Defined.
