(* ===== verification/ProxyConfig.v ===== *)
(** What the proxies are configured with: src/services/xray/types/config.go, the
    server configurations of src/services/xray/config.go,
    src/services/v2ray/config.go and src/services/hysteria/config.go, and the
    certificate pin of src/services/common/tlspin.go.

    A server configuration is the document its template denotes, for values that
    need no escaping.  X25519 and PEM are parameters. *)
From S2P Require Import Prelude Codec Types Guard StaticKey WireGuard Egress Amnezia AmneziaProofs Wire XRay V2Ray NodeConfig.
Set Default Proof Using "Type*".
Local Open Scope string_scope.

(** [base64.RawURLEncoding]: no padding, [-] and [_] for [+] and [/]. *)
Module RawURL.
Definition url_char (c : ascii) : ascii := if decide (c = "+"%char) then "-"%char else if decide (c = "/"%char) then "_"%char else c.
Definition std_char (c : ascii) : option ascii :=
  if decide (c = "-"%char) then Some "+"%char else if decide (c = "_"%char) then Some "/"%char
  else if decide (c ∈ ["+"; "/"; "="]%char) then None else Some c.
Definition strip (l : Str.chars) : Str.chars := filter (.≠ Base64.pad) l.
Definition encode (d : bytes) : string := Str.to_string (url_char <$> strip (Base64.encode_chars d)).
Definition repad (l : Str.chars) : Str.chars := (l ++ replicate ((4 - length l mod 4) mod 4) Base64.pad)%list.
Definition decode (s : string) : option bytes :=
  l ← mapM std_char (List.filter (fun c => negb (Base64.skipped c)) (Str.of_string s));
  if decide (length l mod 4 = 1)%nat then None else Base64.decode_chars (repad l).

Lemma enc_char_ne i : (0 <= i < 64)%Z -> Base64.enc_char i ≠ Base64.pad.
Proof. intros Hi E; pose proof (Base64.dec_enc_char i Hi) as H; by rewrite E in H. Qed.
Lemma repad_cons4 a b c d l : repad (a :: b :: c :: d :: l) = (a :: b :: c :: d :: repad l)%list.
Proof.
  unfold repad; cbn [length app]; do 4 f_equal; do 3 f_equal.
  replace (S (S (S (S (length l))))) with (length l + 1 * 4)%nat by lia; by rewrite Nat.Div0.mod_add.
Qed.
(** The characters of an encoding: sextets, then padding. *)
Lemma repad_strip d : repad (strip (Base64.encode_chars d)) = Base64.encode_chars d ∧ (length (strip (Base64.encode_chars d)) mod 4 ≠ 1)%nat
  ∧ Forall (fun c => is_Some (Base64.dec_char c)) (strip (Base64.encode_chars d)).
Proof.
  assert (forall i, (0 <= i < 64)%Z -> is_Some (Base64.dec_char (Base64.enc_char i))) as Hdec by (intros; rewrite Base64.dec_enc_char; eauto).
  unfold strip; induction d as [|a|a b|a b c d IH] using Base64.triple_ind; [split_and!; [done|done|constructor]|..]; cbn [Base64.encode_chars].
  - pose proof (Base64.group_sextets _ (Base64.group_range a x00 x00)) as (_ & H1 & H2 & _).
    rewrite !filter_cons_True, !filter_cons_False by (try apply enc_char_ne; auto); split_and!; [done|done|by repeat constructor; auto].
  - pose proof (Base64.group_sextets _ (Base64.group_range a b x00)) as (_ & H1 & H2 & H3 & _).
    rewrite !filter_cons_True, !filter_cons_False by (try apply enc_char_ne; auto); split_and!; [done|done|by repeat constructor; auto].
  - pose proof (Base64.group_sextets _ (Base64.group_range a b c)) as (_ & H1 & H2 & H3 & H4); destruct IH as (I1 & I2 & I3).
    rewrite !filter_cons_True by (by apply enc_char_ne); rewrite repad_cons4, I1; split_and!; [done| |repeat constructor; auto].
    cbn [length]; set (n := length _) in *; replace (S (S (S (S n)))) with (n + 1 * 4)%nat by lia; by rewrite Nat.Div0.mod_add.
Qed.
Lemma url_std c : is_Some (Base64.dec_char c) -> std_char (url_char c) = Some c ∧ Base64.skipped (url_char c) = false.
Proof.
  intros Hc; unfold url_char; destruct (decide (c = "+"%char)) as [->|N1]; [done|]; destruct (decide (c = "/"%char)) as [->|N2]; [done|].
  assert (forall x, Base64.dec_char x = None -> c ≠ x) as Hne by (intros x Hx ->; rewrite Hx in Hc; by destruct Hc).
  assert (std_char c = Some c) as ->.
  { unfold std_char; rewrite !decide_False; [done| |by apply Hne..].
    rewrite !elem_of_cons; intros [?|[?|[E|[]%not_elem_of_nil]]]; [done|done|refine (Hne _ _ E); reflexivity]. }
  split; [done|]; unfold Base64.skipped; apply orb_false_iff; split; apply N.eqb_neq; intros E;
    apply (f_equal Ascii.ascii_of_N) in E; rewrite Ascii.ascii_N_embedding in E; refine (Hne _ _ E); reflexivity.
Qed.

(** What was encoded is decoded. *)
Lemma raw_decode_encode d : decode (encode d) = Some d.
Proof.
  unfold decode, encode; rewrite Str.of_to_string; destruct (repad_strip d) as (Hr & Hl & Hc).
  assert (List.filter (fun c => negb (Base64.skipped c)) (url_char <$> strip (Base64.encode_chars d)) = url_char <$> strip (Base64.encode_chars d)
    ∧ mapM std_char (url_char <$> strip (Base64.encode_chars d)) = Some (strip (Base64.encode_chars d))) as [-> ->].
  { clear Hr Hl; induction Hc as [|c l H _ [IH1 IH2]]; [done|]; destruct (url_std c H) as [E1 E2]; cbn; rewrite E2; cbn.
    split; [by f_equal|]; by rewrite E1; cbn; rewrite IH2. }
  cbn [mbind option_bind]; rewrite decide_False by done; rewrite Hr; apply Base64.decode_encode_chars.
Qed.
End RawURL.

(** * XRAY's configuration file *)
Section XRay.
(** [X25519(private, Basepoint)]. *)
Context (X25519 : bytes -> result bytes).

Definition VLESS_Validate (c : VLESSConfig) : result unit :=
  check (vless_ListenPort c =? 0)%Z "listen_port cannot be zero" ;;
  check (negb (bool_decide (vless_Security c = SecurityTLS)) && negb (bool_decide (vless_Security c = SecurityReality)))
    ("security must be " +:+ quoted SecurityTLS +:+ " or " +:+ quoted SecurityReality).
Definition ScalarSize : nat := 32.
Definition Reality_Validate (c : RealityConfig) : result unit :=
  check (bool_decide (TrimSpace (Str.of_string (re_ServerName c)) = [])) "server_name cannot be empty" ;;
  check (bool_decide (":"%char ∈ Str.of_string (re_ServerName c)) || bool_decide ("/"%char ∈ Str.of_string (re_ServerName c)))
    "server_name must be a host name without port or path" ;;
  match RawURL.decode (re_PrivateKey c) with
  | None => inl "private_key must be a base64url x25519 key"
  | Some private =>
      check (negb (length private =? ScalarSize)%nat) "private_key must be a base64url x25519 key" ;;
      match Wrap "invalid private_key" (X25519 private) with
      | inl e => inl e
      | inr public => check (negb (bool_decide (RawURL.encode public = re_PublicKey c))) "public_key does not match private_key"
      end
  end ;;
  check ((16 <? String.length (re_ShortID c))%nat || negb (String.length (re_ShortID c) mod 2 =? 0)%nat) "short_id must be up to 16 hex characters" ;;
  check (bool_decide (Hex.decode (Str.of_string (re_ShortID c)) = None)) "short_id must be hex" ;;
  check (bool_decide (re_Fingerprint c = "")) "fingerprint cannot be empty".
Definition Reality_Dest (c : RealityConfig) : string := re_ServerName c +:+ ":443".
Definition XAPI_Validate (port : Z) : result unit := check (port =? 0)%Z "port cannot be zero".
Definition XConfig_Validate (c : XConfig) : result unit :=
  Wrap "invalid section vless" (VLESS_Validate (xc_VLESS c)) ;;
  (if bool_decide (vless_Security (xc_VLESS c) = SecurityReality) then Wrap "invalid section reality" (Reality_Validate (xc_Reality c)) else inr tt) ;;
  Wrap "invalid section api" (XAPI_Validate (xc_APIPort c)).

Definition NewXConfig : XConfig := mkXConfig (mkVLESS 0 "" false) (mkReality "" "" "" "" "") 0.
Context {R : Type} `{!Rand R}.
Definition withStaticDefaults (c : XConfig) (r : R) : XConfig * R :=
  let '(listen, r) := RandomPort r in
  let '(api, r) := RandomPort r in
  let re := xc_Reality c in
  (mkXConfig (mkVLESS listen SecurityTLS true) (mkReality "www.apple.com" (re_PrivateKey re) (re_PublicKey re) (re_ShortID re) "chrome") api, r).
(** [inl]: the panic. *)
Definition XWithDefaultValues (c : XConfig) (r : R) : result (XConfig * R) :=
  let '(c, r) := withStaticDefaults c r in
  let '(private, r) := rand_Read ScalarSize r in
  public ← X25519 private;
  let '(shortID, r) := rand_Read 8 r in
  let re := xc_Reality c in
  inr (mkXConfig (xc_VLESS c) (mkReality (re_ServerName re) (RawURL.encode private) (RawURL.encode public)
    (Str.to_string (Hex.encode shortID)) (re_Fingerprint re)) (xc_APIPort c), r).

Lemma string_length_to l : String.length (Str.to_string l) = length l.
Proof using Type. induction l; cbn; congruence. Qed.

(** What "xray config init" writes is accepted, also after the operator switches
    it to REALITY: the public key clients are told is the private key's. *)
Theorem xray_defaults_valid c r c' r' : RandLaws R -> XWithDefaultValues c r = inr (c', r') ->
  XConfig_Validate c' = inr tt ∧ Reality_Validate (xc_Reality c') = inr tt
  ∧ ∃ private public, RawURL.decode (re_PrivateKey (xc_Reality c')) = Some private ∧ X25519 private = inr public
      ∧ RawURL.decode (re_PublicKey (xc_Reality c')) = Some public.
Proof using Type.
  intros RL; unfold XWithDefaultValues, withStaticDefaults.
  pose proof (RandomPort_range r) as H1; destruct (RandomPort r) as [listen r1]; pose proof (RandomPort_range r1) as H2.
  destruct (RandomPort r1) as [api r2]; pose proof (rand_Read_length ScalarSize r2) as H3; destruct (rand_Read ScalarSize r2) as [private r3].
  destruct (X25519 private) as [e|public] eqn:Ex; [done|]; cbn [mbind result_bind].
  pose proof (rand_Read_length 8 r3) as H4; destruct (rand_Read 8 r3) as [short r4]; intros [= <- <-]; cbn [fst] in *.
  set (re := mkReality _ _ _ _ _).
  assert (Reality_Validate re = inr tt) as Hre.
  { unfold Reality_Validate, re; cbn [re_ServerName re_PrivateKey re_PublicKey re_ShortID re_Fingerprint].
    rewrite RawURL.raw_decode_encode, H3, Ex, string_length_to, Hex.encode_length, H4, Str.of_to_string, Hex.hex_decode_encode.
    cbn [Wrap]; rewrite (bool_decide_eq_true_2 (RawURL.encode public = RawURL.encode public)) by done; vm_compute; done. }
  split_and!; [|done|exists private, public; unfold re; cbn [xc_Reality re_PrivateKey re_PublicKey]; by rewrite !RawURL.raw_decode_encode].
  unfold XConfig_Validate, VLESS_Validate, XAPI_Validate; cbn [xc_VLESS xc_Reality xc_APIPort vless_ListenPort vless_Security].
  rewrite !then_inr, !Wrap_inr, then_inr, !check_inr; split_and!; [apply Z.eqb_neq; lia|done|done|apply Z.eqb_neq; lia].
Qed.
End XRay.

(** * The certificate's pin *)
Section Pin.
Context (pemDecode : string -> option (string * bytes)) (sha256 : bytes -> bytes).
(** Of the first certificate in the text of the file at [path]. *)
Definition certificatePin (path pem : string) : result string :=
  match pemDecode pem with
  | Some (type, der) =>
      if decide (type = "CERTIFICATE") then inr (Str.to_string (Hex.encode (sha256 der))) else inl ("no certificate found in " +:+ path)
  | None => inl ("no certificate found in " +:+ path)
  end.
Fixpoint pairs (s : Str.chars) : list string :=
  match s with
  | a :: b :: s => Str.to_string [a; b] :: pairs s
  | _ => []
  end.
Definition ColonPin (pin : string) : string := String.concat ":" (pairs (Str.of_string pin)).
End Pin.

(** * The server configurations *)
Inductive json := JStr (s : string) | JNum (n : Z) | JBool (b : bool) | JList (l : list json) | JObj (fields : list (string * json)).
Definition BlockedLocalDomain : string := "localhost".

(** The rules both cores route by, the fields in the order XRAY's template has
    them; V2Ray's template sorts them by name. *)
Definition ruleAPI : json := JObj [("type", JStr "field"); ("inboundTag", JList [JStr "api"]); ("outboundTag", JStr "api")].
Definition ruleDomain : json := JObj [("type", JStr "field"); ("domain", JList [JStr ("domain:" +:+ BlockedLocalDomain)]); ("outboundTag", JStr "blocked")].
Definition ruleSMTP : json := JObj [("type", JStr "field"); ("network", JStr "tcp"); ("port", JStr (Itoa SMTPPort)); ("outboundTag", JStr "blocked")].
Definition ruleNetworks : json := JObj [("type", JStr "field"); ("ip", JList (JStr <$> BlockedNetworks)); ("outboundTag", JStr "blocked")].
Definition routingRules (allowSMTP : bool) : list json :=
  ([ruleAPI; ruleDomain] ++ (if allowSMTP then [] else [ruleSMTP]) ++ [ruleNetworks])%list.
Definition routing (allowSMTP : bool) : json :=
  JObj [("domainStrategy", JStr "IPIfNonMatch"); ("rules", JList (routingRules allowSMTP))].
Definition outbounds : json :=
  JList [JObj [("tag", JStr "direct"); ("protocol", JStr "freedom")]; JObj [("tag", JStr "blocked"); ("protocol", JStr "blackhole")]].
Definition apiInbound (port : Z) : json :=
  JObj [("tag", JStr "api"); ("listen", JStr "127.0.0.1"); ("port", JNum port); ("protocol", JStr "dokodemo-door");
        ("settings", JObj [("address", JStr "127.0.0.1")])].
Definition userStats : json :=
  JObj [("levels", JObj [("0", JObj [("statsUserUplink", JBool true); ("statsUserDownlink", JBool true)])])].
Definition apiServices : json := JObj [("tag", JStr "api"); ("services", JList [JStr "HandlerService"; JStr "StatsService"])].

Definition logLevel (verbose : bool) : string := if verbose then "warning" else "error".
Definition xray_settings (c : XConfig) (certPath keyPath : string) : string * json :=
  if decide (vless_Security (xc_VLESS c) = "tls")
  then ("tlsSettings", JObj [("minVersion", JStr "1.2");
          ("certificates", JList [JObj [("certificateFile", JStr certPath); ("keyFile", JStr keyPath)]])])
  else ("realitySettings", JObj [("show", JBool false); ("dest", JStr (Reality_Dest (xc_Reality c))); ("xver", JNum 0);
          ("serverNames", JList [JStr (re_ServerName (xc_Reality c))]); ("privateKey", JStr (re_PrivateKey (xc_Reality c)));
          ("shortIds", JList [JStr (re_ShortID (xc_Reality c))])]).
Definition xray_config (c : XConfig) (certPath keyPath : string) (verbose allowSMTP : bool) : json :=
  JObj [("log", JObj [("access", JStr "none"); ("loglevel", JStr (logLevel verbose))]);
        ("api", apiServices); ("stats", JObj []); ("policy", userStats);
        ("inbounds", JList [apiInbound (xc_APIPort c);
          JObj [("tag", JStr "vless"); ("port", JNum (vless_ListenPort (xc_VLESS c))); ("protocol", JStr "vless");
                ("settings", JObj [("clients", JList []); ("decryption", JStr "none")]);
                ("streamSettings", JObj [("network", JStr "tcp"); ("security", JStr (vless_Security (xc_VLESS c)));
                                         xray_settings c certPath keyPath])]]);
        ("outbounds", outbounds); ("routing", routing allowSMTP)].

(** [Security] is "tls" with TLS, empty without. *)
Definition v2ray_config (c : V2Config) (certPath keyPath : string) (allowSMTP : bool) : json :=
  let vm := vc_VMess c in
  JObj [("api", apiServices);
        ("inbounds", JList [apiInbound (vc_APIPort c);
          JObj [("port", JStr (Itoa (vm_ListenPort vm))); ("protocol", JStr "vmess");
                ("streamSettings", JObj [("network", JStr (vm_Transport vm)); ("security", JStr (if vm_TLS vm then "tls" else ""));
                  ("tlsSettings", JObj [("allowInsecure", JBool true);
                     ("certificates", JList [JObj [("certificateFile", JStr certPath); ("keyFile", JStr keyPath)]])])]);
                ("tag", JStr "vmess")]]);
        ("log", JObj [("access", JStr "none"); ("error", JStr "none"); ("loglevel", JStr "none")]);
        ("outbounds", outbounds); ("policy", userStats); ("routing", routing allowSMTP); ("stats", JObj []);
        ("transport", JObj [("dsSettings", JObj []); ("grpcSettings", JObj []); ("gunSettings", JObj []); ("httpSettings", JObj []);
          ("kcpSettings", JObj []); ("quicSettings", JObj [("security", JStr "chacha20-poly1305")]); ("tcpSettings", JObj []); ("wsSettings", JObj [])])].

(** YAML, as the tree it denotes. *)
Definition aclRules (allowSMTP : bool) : list string :=
  (("reject(suffix:" +:+ BlockedLocalDomain +:+ ")") :: ((fun n => "reject(" +:+ n +:+ ")") <$> BlockedNetworks)
   ++ if allowSMTP then [] else ["reject(all, tcp/" +:+ Itoa SMTPPort +:+ ")"])%list.
Definition hysteria_config (c : HyConfig) (certPath keyPath secret : string) (allowSMTP : bool) : json :=
  let sv := hyc_Server c in let api := hyc_API c in
  JObj ([("listen", JStr (":" +:+ Itoa (hys_ListenPort sv))); ("tls", JObj [("cert", JStr certPath); ("key", JStr keyPath)])]
    ++ (if decide (hys_ObfsPassword sv = "") then [] else
          [("obfs", JObj [("type", JStr "salamander"); ("salamander", JObj [("password", JStr (hys_ObfsPassword sv))])])])
    ++ [("auth", JObj [("type", JStr "http");
          ("http", JObj [("url", JStr ("http://127.0.0.1:" +:+ Itoa (hya_AuthPort api) +:+ "/auth")); ("insecure", JBool false)])]);
        ("trafficStats", JObj [("listen", JStr ("127.0.0.1:" +:+ Itoa (hya_StatsPort api))); ("secret", JStr secret)])]
    ++ (if decide (hys_Up sv = "") then [] else [("bandwidth", JObj [("up", JStr (hys_Up sv)); ("down", JStr (hys_Down sv))])])
    ++ [("ignoreClientBandwidth", JBool false); ("disableUDP", JBool false); ("acl", JObj [("inline", JList (JStr <$> aclRules allowSMTP))])])%list.

(** * The policy the proxies carry out *)

(** A field of an object, and the tag a rule sends to. *)
Definition field (k : string) (j : json) : option json :=
  match j with JObj fs => snd <$> List.find (fun f => bool_decide (f.1 = k)) fs | _ => None end.
Definition tagOf (j : json) : string := match field "outboundTag" j with Some (JStr s) => s | _ => "" end.

Section Routing.
(** A connection as the core routes it.  A rule matches when every condition it has
    does, and the conditions are documented: the inbound's tag, the destination's
    domain or a parent of it, the network and port, an address (also one that the
    name resolves to, with IPIfNonMatch) inside a listed network. *)
Context {conn : Type} (inbound : conn -> string) (tcp : conn -> bool) (port : conn -> Z)
  (in_domain : string -> conn -> bool) (dst_in_net : string -> conn -> bool) (matches : json -> conn -> bool).
Context (m_inbound : forall t out c, matches (JObj [("type", JStr "field"); ("inboundTag", JList [JStr t]); ("outboundTag", JStr out)]) c = bool_decide (inbound c = t))
  (m_domain : forall d out c, matches (JObj [("type", JStr "field"); ("domain", JList [JStr ("domain:" +:+ d)]); ("outboundTag", JStr out)]) c = in_domain d c)
  (m_port : forall p out c, matches (JObj [("type", JStr "field"); ("network", JStr "tcp"); ("port", JStr (Itoa p)); ("outboundTag", JStr out)]) c = tcp c && (port c =? p)%Z)
  (m_ip : forall nets out c, matches (JObj [("type", JStr "field"); ("ip", JList (JStr <$> nets)); ("outboundTag", JStr out)]) c = existsb (fun n => dst_in_net n c) nets).

(** The first rule that matches decides; without one, the first outbound. *)
Definition routed (rules : list json) (first : string) (c : conn) : string :=
  match List.find (fun r => matches r c) rules with Some r => tagOf r | None => first end.

Definition refused (allowSMTP : bool) (c : conn) : bool :=
  in_domain BlockedLocalDomain c || negb allowSMTP && tcp c && (port c =? SMTPPort)%Z || existsb (fun n => dst_in_net n c) BlockedNetworks.

(** XRAY and V2Ray carry out the egress policy exactly: a client's connection goes to
    the blackhole if it is to localhost by name, to a blocked network, or to the
    mail port unless that is allowed, and out directly otherwise; only the control
    inbound, which listens on the loopback, reaches the control API. *)
Theorem core_routes_exact allowSMTP c :
  routed (routingRules allowSMTP) "direct" c =
    if bool_decide (inbound c = "api") then "api" else if refused allowSMTP c then "blocked" else "direct".
Proof.
  unfold routed, routingRules, refused, ruleAPI, ruleDomain, ruleSMTP, ruleNetworks.
  destruct allowSMTP; cbn [app List.find negb andb]; rewrite !m_inbound, !m_domain, ?m_port, !m_ip.
  all: destruct (bool_decide (inbound c = "api")); [done|]; destruct (in_domain BlockedLocalDomain c); [done|].
  2: destruct (tcp c && (port c =? SMTPPort)%Z); [done|].
  all: cbn [orb]; destruct (existsb _ BlockedNetworks); reflexivity.
Qed.
End Routing.
