(* ===== verification/ProxyInit.v ===== *)
(** Preparing a proxy: [Init] of src/services/xray/xray.go,
    src/services/v2ray/v2ray.go and src/services/hysteria/hysteria.go.

    A daemon is given a configuration file and, with TLS, copies of the node's
    certificate and key, in the runtime directory.  Reading the TOML files and
    executing the templates are parameters. *)
From S2P Require Import Prelude Codec Types Guard StaticKey Egress Runtime Wire XRay V2Ray Hysteria NodeConfig ProxyConfig.
Set Default Proof Using "Type*".
Local Open Scope string_scope.

Class ProxyHost (F : Type) := {
  exec_LookPath : string -> M F gerror unit;
  os_Stat : string -> M F gerror unit;
  rand_secret : nat -> M F gerror bytes;
  readXConfig : string -> M F gerror XConfig;
  readV2Config : string -> M F gerror V2Config;
  readHyConfig : string -> M F gerror HyConfig;
  execute : json -> string   (* the template's text for the document it denotes *)
}.
Class ProxyHostLaws (F : Type) `{!Disk F, !ProxyHost F} := {
  look_keeps n : keeps_disk (exec_LookPath n);
  stat_keeps p : keeps_disk (os_Stat p);
  secret_keeps n : keeps_disk (rand_secret n);
  readX_keeps p : keeps_disk (readXConfig p);
  readV2_keeps p : keeps_disk (readV2Config p);
  readHy_keeps p : keeps_disk (readHyConfig p)
}.

Section Init.
Context {F : Type} `{!Disk F, !ProxyHost F} (pemDecode : string -> option (string * bytes)) (sha256 : bytes -> bytes) (X25519 : bytes -> result bytes).
Context (rt : Runtime) (home : string) (verbose allowSMTP : bool).

Definition told_by {A} (r : result A) : M F gerror A := fun s => (r, s).
Definition missing (binary e : string) : gerror := "the " +:+ quoted binary +:+ " binary is not on PATH: install it on the host (docs/operator.md, section 6) or run the Docker image, which bundles it: "
  +:+ e.

Definition CertificatePin (path : string) : M F gerror string :=
  pem ← os_ReadFile path; told_by (certificatePin pemDecode sha256 path pem).
(** The pin of the node's certificate and the copies the daemon reads; [stat] looks whether there is a key first. *)
Definition tlsCopies (stat : bool) : M F gerror (string * (string * string)) :=
  pin ← CertificatePin (Join home "tls.crt");
  (if stat then or_throw (os_Stat (Join home "tls.key")) (fun e => "tls key: " +:+ e) else mret tt) ≫= fun _ =>
  files ← rt_TLSFiles rt home;
  mret (pin, files).

(** ** XRAY: the configuration in force, the pin, the file and [Info] *)
Definition xr_info (c : XConfig) : bytes :=
  let security := if bool_decide (vless_Security (xc_VLESS c) = SecurityTLS) then TransportSecurityTLS else TransportSecurityReality in
  (BE.uint16 (vless_ListenPort (xc_VLESS c)) ++ [proxyVLESS; byte_of_Z TransportProtocolTCP; byte_of_Z security])%list.
Definition xr_Init : M F gerror (XConfig * string * string * bytes) :=
  or_throw (exec_LookPath "xray") (missing "xray") ≫= fun _ =>
  c ← readXConfig (Join home "xray.toml");
  told_by (XConfig_Validate X25519 c) ≫= fun _ =>
  tls ← (if bool_decide (vless_Security (xc_VLESS c) = SecurityTLS) then tlsCopies true
         else mret ("", (Join home "tls.crt", Join home "tls.key")));
  path ← rt_WriteFile rt "xray_config.json" (execute (xray_config c tls.2.1 tls.2.2 verbose allowSMTP));
  mret (c, tls.1, path, xr_info c).

(** ** V2Ray *)
Definition v2_info (c : V2Config) : bytes :=
  (BE.uint16 (vm_ListenPort (vc_VMess c)) ++ [NewTransportFromString (vm_Transport (vc_VMess c)); if vm_TLS (vc_VMess c) then x01 else x00])%list.
Definition v2_Init : M F gerror (V2Config * string * string * bytes) :=
  or_throw (exec_LookPath "v2ray") (missing "v2ray") ≫= fun _ =>
  c ← readV2Config (Join home "v2ray.toml");
  told_by (V2Config_Validate c) ≫= fun _ =>
  tls ← (if vm_TLS (vc_VMess c) then tlsCopies false else mret ("", ("", "")));
  path ← rt_WriteFile rt "v2ray_config.json" (execute (v2ray_config c tls.2.1 tls.2.2 allowSMTP));
  mret (c, tls.1, path, v2_info c).

(** ** Hysteria2: also the statistics secret; the pin is written in pairs *)
Definition hy_info (c : HyConfig) : bytes :=
  (BE.uint16 (hys_ListenPort (hyc_Server c)) ++ [if decide (hys_ObfsPassword (hyc_Server c) = "") then x00 else x01])%list.
Definition hy_Init : M F gerror (HyConfig * string * string * string * bytes) :=
  or_throw (exec_LookPath "hysteria") (missing "hysteria") ≫= fun _ =>
  c ← readHyConfig (Join home "hysteria.toml");
  told_by (HyConfig_Validate c) ≫= fun _ =>
  tls ← tlsCopies true;
  secret ← rand_secret 16;
  let secret := Str.to_string (Hex.encode secret) in
  path ← rt_WriteFile rt "hysteria_config.yaml" (execute (hysteria_config c tls.2.1 tls.2.2 secret allowSMTP));
  mret (c, ColonPin tls.1, secret, path, hy_info c).
End Init.

(** * What a prepared proxy has *)
Section Prepared.
Context {F : Type} `{!Disk F, !ProxyHost F} {DL : DiskLaws F} {HL : ProxyHostLaws F}.
Context (pemDecode : string -> option (string * bytes)) (sha256 : bytes -> bytes) (X25519 : bytes -> result bytes).
Context (rt : Runtime) (home : string) (verbose allowSMTP : bool).
Implicit Types (s : F).

(** The daemon is given the very certificate clients are told to pin. *)
Definition pinned s s' (pin cert : string) : Prop :=
  ∃ e, inode s (Join home "tls.crt") = Some e ∧ certificatePin pemDecode sha256 (Join home "tls.crt") (en_data e) = inr pin
    ∧ confined rt (en_data e) (inode s' cert).

Lemma tlsCopies_pinned stat s pin cert key s' : tlsCopies pemDecode sha256 rt home stat s = (inr (pin, (cert, key)), s') ->
  pinned s s' pin cert ∧ cert = Join (rt_Dir rt) "tls.crt".
Proof.
  intros H; apply bind_inv in H as [(? & _ & ?)|(pin' & s1 & H1 & H)]; [done|].
  apply bind_inv in H1 as [(? & _ & ?)|(pem & s2 & Hr & [= Hp ->])]; [done|].
  apply bind_inv in H as [(? & _ & ?)|([] & s3 & H3 & H)]; [done|].
  apply bind_inv in H as [(? & _ & ?)|([cert' key'] & s4 & H4 & [[= -> -> ->] ->]%ret_inv)]; [done|].
  assert (forall p, inode s3 p = inode s1 p) as E3.
  { destruct stat; [|by apply ret_inv in H3 as [_ ->]]; unfold or_throw in H3; destruct (os_Stat _ s1) as [[e|[]] t] eqn:E; [done|].
    injection H3 as <-; intros p; by apply (kept_all _ _ _ _ _ (stat_keeps _) E). }
  destruct (read_gets _ _ _ _ Hr) as (e & Ee & <-).
  pose proof (TLSFiles_paths _ _ _ _ _ _ H4) as [-> _]; split; [|done].
  destruct (TLSFiles_confined _ _ _ _ _ _ H4) as (c & k & Ec & _ & Hc & _); exists e; split_and!; [done|by symmetry|].
  rewrite E3, (kept_all _ _ _ _ _ (read_keeps _) Hr), Ee in Ec; by injection Ec as <-.
Qed.

Lemma tlsCopies_paths stat s pin cert key s' : tlsCopies pemDecode sha256 rt home stat s = (inr (pin, (cert, key)), s') ->
  cert = Join (rt_Dir rt) "tls.crt" ∧ key = Join (rt_Dir rt) "tls.key".
Proof.
  intros H; apply bind_inv in H as [(? & _ & ?)|(pin' & s1 & H1 & H)]; [done|].
  apply bind_inv in H as [(? & _ & ?)|([] & s3 & H3 & H)]; [done|].
  apply bind_inv in H as [(? & _ & ?)|([cert' key'] & s4 & H4 & [[= -> -> ->] ->]%ret_inv)]; [done|].
  by apply TLSFiles_paths in H4.
Qed.

(** Whatever the disk held elsewhere when the daemon's file was written is still there. *)
Lemma pinned_write s s1 s2 s' pin name text r : name ≠ "tls.crt" -> plain name ->
  (forall p, inode s1 p = inode s p) -> pinned s1 s2 pin (Join (rt_Dir rt) "tls.crt") ->
  rt_WriteFile rt name text s2 = (r, s') -> pinned s s' pin (Join (rt_Dir rt) "tls.crt").
Proof.
  intros Hn Hp E (e & Ee & He & Hc) H; exists e; split_and!; [by rewrite <- E|done|].
  rewrite (kept _ _ _ _ _ _ (rt_WriteFile_keeps _ _ _) H); [done|]; intros X%join_base; [by apply Hn| |done].
  by split; [apply (bool_decide_unpack (_ ∉ _)); vm_compute|apply (bool_decide_unpack (_ ∉ _)); vm_compute].
Qed.

(** The steps before the certificate leave the disk alone. *)
Lemma begun {C B} (binary : string) (read : M F gerror C) (valid : C -> result unit) (k : C -> M F gerror B) s r s' :
  keeps_disk read ->
  (or_throw (exec_LookPath binary) (missing binary) ≫= fun _ => read ≫= fun c => told_by (valid c) ≫= fun _ => k c) s = (r, s') ->
  (∃ e, r = inl e) ∨ ∃ c s1, valid c = inr tt ∧ (forall p, inode s1 p = inode s p) ∧ k c s1 = (r, s').
Proof.
  intros Hread H; apply bind_inv in H as [(e & _ & ->)|([] & s1 & H1 & H)]; [by left; eexists|].
  apply bind_inv in H as [(e & _ & ->)|(c & s2 & H2 & H)]; [by left; eexists|].
  apply bind_inv in H as [(e & _ & ->)|([] & s3 & [= Hv ->] & H)]; [by left; eexists|].
  right; exists c, s3; split_and!; [done| |done]; intros p; rewrite (kept_all _ _ _ _ _ Hread H2).
  unfold or_throw in H1; destruct (exec_LookPath binary s) as [[e|[]] t] eqn:E; [done|]; injection H1 as <-.
  by apply (kept_all _ _ _ _ _ (look_keeps _) E).
Qed.
Abbreviation runtimeCert := (Join (rt_Dir rt) "tls.crt").
Abbreviation runtimeKey := (Join (rt_Dir rt) "tls.key").

Lemma plain_names : plain "xray_config.json" ∧ plain "v2ray_config.json" ∧ plain "hysteria_config.yaml".
Proof using Type. split_and!; (split; apply (bool_decide_unpack (_ ∉ _)); vm_compute; done). Qed.

(** A prepared Hysteria2: its configuration is valid, its file in the runtime
    directory is the one rendered from it, closed to everyone but the daemon, and
    the certificate the daemon will serve is the one whose pin clients are given. *)
Theorem hysteria_prepared s c pin secret path info s' :
  hy_Init pemDecode sha256 rt home allowSMTP s = (inr (c, pin, secret, path, info), s') ->
  HyConfig_Validate c = inr tt ∧ info = hy_info c
  ∧ confined rt (execute (hysteria_config c runtimeCert runtimeKey secret allowSMTP)) (inode s' path)
  ∧ ∃ hex, pin = ColonPin hex ∧ pinned s s' hex runtimeCert.
Proof.
  intros H; apply begun in H as [(e & ?)|(c' & s1 & Hv & E1 & H)]; [done| |apply readHy_keeps].
  apply bind_inv in H as [(? & _ & ?)|([hex [cert key]] & s2 & H2 & H)]; [done|].
  apply bind_inv in H as [(? & _ & ?)|(sec & s3 & H3 & H)]; [done|].
  apply bind_inv in H as [(? & _ & ?)|(path' & s4 & H4 & [[= -> -> -> -> ->] ->]%ret_inv)]; [done|]; cbn [fst snd] in *.
  pose proof (tlsCopies_paths _ _ _ _ _ _ H2) as [-> ->]; apply tlsCopies_pinned in H2 as [Hp _].
  destruct (rt_WriteFile_confined _ _ _ _ _ _ H4) as [_ Hc]; split_and!; [done..|]; exists hex; split; [done|].
  eapply (pinned_write s s1 s3); [| |exact E1| |exact H4]; [done|apply plain_names|].
  destruct Hp as (e & Ee & He & Hc'); exists e; split_and!; [done..|].
  by rewrite (kept_all _ _ _ _ _ (secret_keeps _) H3).
Qed.

(** A prepared XRAY: with TLS the same; with REALITY the private key in its file is
    the one whose public half clients are told. *)
Theorem xray_prepared s c pin path info s' :
  xr_Init pemDecode sha256 X25519 rt home verbose allowSMTP s = (inr (c, pin, path, info), s') ->
  XConfig_Validate X25519 c = inr tt ∧ info = xr_info c
  ∧ ∃ cert key, confined rt (execute (xray_config c cert key verbose allowSMTP)) (inode s' path)
  ∧ if decide (vless_Security (xc_VLESS c) = SecurityTLS) then cert = runtimeCert ∧ key = runtimeKey ∧ pinned s s' pin runtimeCert
    else pin = "" ∧ Reality_Validate X25519 (xc_Reality c) = inr tt.
Proof.
  intros H; apply begun in H as [(e & ?)|(c' & s1 & Hv & E1 & H)]; [done| |apply readX_keeps].
  apply bind_inv in H as [(? & _ & ?)|([hex [cert key]] & s2 & H2 & H)]; [done|].
  apply bind_inv in H as [(? & _ & ?)|(path' & s4 & H4 & [[= -> -> -> ->] ->]%ret_inv)]; [done|]; cbn [fst snd] in *.
  destruct (rt_WriteFile_confined _ _ _ _ _ _ H4) as [_ Hc]; split_and!; [done..|]; exists cert, key; split; [done|].
  destruct (decide (vless_Security (xc_VLESS c') = SecurityTLS)) as [Et|Et].
  - rewrite bool_decide_eq_true_2 in H2 by done; pose proof (tlsCopies_paths _ _ _ _ _ _ H2) as [-> ->].
    apply tlsCopies_pinned in H2 as [Hp _]; split_and!; [done..|].
    by eapply (pinned_write s s1 s2); [| |exact E1| |exact H4]; [|apply plain_names|].
  - rewrite bool_decide_eq_false_2 in H2 by done; apply ret_inv in H2 as [[= -> _ _] _]; split; [done|].
    unfold XConfig_Validate in Hv; rewrite !then_inr, !Wrap_inr in Hv; destruct Hv as (Hvl & Hre & _).
    unfold VLESS_Validate in Hvl; rewrite then_inr, !check_inr, andb_false_iff, !negb_false_iff, !bool_decide_eq_true in Hvl.
    destruct Hvl as [_ [?|Er]]; [done|]; by rewrite bool_decide_eq_true_2, Wrap_inr in Hre by done.
Qed.

(** A prepared V2Ray, with or without TLS. *)
Theorem v2ray_prepared s c pin path info s' :
  v2_Init pemDecode sha256 rt home allowSMTP s = (inr (c, pin, path, info), s') ->
  V2Config_Validate c = inr tt ∧ info = v2_info c
  ∧ ∃ cert key, confined rt (execute (v2ray_config c cert key allowSMTP)) (inode s' path)
  ∧ if vm_TLS (vc_VMess c) then cert = runtimeCert ∧ key = runtimeKey ∧ pinned s s' pin runtimeCert else pin = "" ∧ cert = "" ∧ key = "".
Proof.
  intros H; apply begun in H as [(e & ?)|(c' & s1 & Hv & E1 & H)]; [done| |apply readV2_keeps].
  apply bind_inv in H as [(? & _ & ?)|([hex [cert key]] & s2 & H2 & H)]; [done|].
  apply bind_inv in H as [(? & _ & ?)|(path' & s4 & H4 & [[= -> -> -> ->] ->]%ret_inv)]; [done|]; cbn [fst snd] in *.
  destruct (rt_WriteFile_confined _ _ _ _ _ _ H4) as [_ Hc]; split_and!; [done..|]; exists cert, key; split; [done|].
  destruct (vm_TLS (vc_VMess c')).
  - pose proof (tlsCopies_paths _ _ _ _ _ _ H2) as [-> ->]; apply tlsCopies_pinned in H2 as [Hp _]; split_and!; [done..|].
    by eapply (pinned_write s s1 s2); [| |exact E1| |exact H4]; [|apply plain_names|].
  - by apply ret_inv in H2 as [[= -> -> ->] _].
Qed.
End Prepared.
