(* ===== verification/OpenVPNInit.v ===== *)
(** Preparing OpenVPN: [Init] and [TunnelIPv4] of src/services/openvpn/openvpn.go, with
    the server configuration of src/services/openvpn/config.go.

    Reading openvpn.toml, the search path and the removal of an old socket are
    parameters; the authority, the uplink and the runtime directory are the ones
    modelled elsewhere. *)
From S2P Require Import Prelude Codec Types Guard StaticKey IPPool WireGuard Egress Runtime Amnezia WireGuardInit OpenVPN Pki NodeConfig ProxyInit.
Set Default Proof Using "Type*".
Local Open Scope string_scope.

Definition transportUDP : byte := x01.
Definition ipv4Network : string := "10.9.0.0".
Definition ipv4Netmask : string := "255.255.255.0".
Definition ipv6Network : string := "fd86:ea04:1116::/112".
(** [net.ParseIP(ipv4Network).To4()]. *)
Definition ipv4NetworkIP : bytes := [x0a; x09; x00; x00].
(** The first host of the network: the last byte plus one. *)
Definition ov_TunnelIPv4 : bytes :=
  match ipv4NetworkIP with
  | [a; b; c; d] => [a; b; c; byte_of_Z ((byte_to_Z d + 1) mod 256)]
  | _ => []
  end.

(** 3 logs every client's address, 0 nothing but fatal errors. *)
Definition verb (verbose : bool) : Z := if verbose then 3 else 0.

(** What the template is given beside the configuration. *)
Record templateData := mkData {
  td_CACert : string; td_ServerCert : string; td_ServerKey : string; td_TLSCrypt : string;
  td_ManagementSocket : string; td_Verb : Z; td_Account : option (string * string) }.
Definition serverConf (c : OvConfig) (d : templateData) : list string :=
  (["dev " +:+ ovc_Interface c;
    "dev-type tun";
    "proto " +:+ (if bool_decide (ovc_Proto c = "tcp") then "tcp-server" else "udp");
    "port " +:+ Itoa (ovc_ListenPort c);
    "server " +:+ ipv4Network +:+ " " +:+ ipv4Netmask]
   ++ (if ovc_EnableIPv6 c then ["server-ipv6 " +:+ ipv6Network] else [])
   ++ ["topology subnet";
       "ca " +:+ td_CACert d;
       "cert " +:+ td_ServerCert d;
       "key " +:+ td_ServerKey d;
       "dh none";
       "tls-crypt " +:+ td_TLSCrypt d;
       "tls-server";
       "tls-version-min 1.2";
       "auth SHA256";
       "data-ciphers AES-256-GCM:AES-128-GCM";
       "data-ciphers-fallback AES-256-GCM";
       "tls-cipher TLS-ECDHE-ECDSA-WITH-AES-256-GCM-SHA384";
       "remote-cert-tls client";
       "keepalive 10 60";
       "persist-key";
       "persist-tun"]
   ++ (if bool_decide (ovc_Proto c = "udp") then ["explicit-exit-notify 1"] else [])
   ++ ["management " +:+ td_ManagementSocket d +:+ " unix";
       "management-client-user root";
       "management-client-auth";
       "auth-user-pass-optional";
       "verb " +:+ Itoa (td_Verb d)]
   ++ match td_Account d with
      | Some (user, group) => if bool_decide (user = "") then [] else ["user " +:+ user; "group " +:+ group]
      | None => []
      end)%list.
Definition confText (ls : list string) : string := foldr (fun l acc => WireGuardInit.line l +:+ acc) "" ls.

Class OvHost (F : Type) := {
  ReadOvConfig : string -> M F gerror OvConfig;
  os_Remove : string -> M F gerror unit
}.

Section Init.
Context {F : Type} `{!Disk F, !X509 F, !InitHost F, !OvHost F} (rt : Runtime) (home : string) (verbose : bool).

Definition ov_missing (e : gerror) : gerror :=
  "the " +:+ quoted "openvpn" +:+ " binary is not on PATH: install the openvpn package on the host (docs/operator.md, section 6) or run the Docker image, which bundles it: " +:+ e.
Definition ov_with_uplink (c : OvConfig) (uplink : string) : OvConfig :=
  mkOvConfig (ovc_Interface c) (ovc_ListenPort c) (ovc_Proto c) uplink (ovc_EnableIPv6 c).
Definition socketPath : string := Join (rt_Dir rt) "openvpn.sock".
Definition pkiDir : string := Join home "openvpn".
Definition dataOf : templateData :=
  mkData (caCertPath pkiDir) (serverCertPath pkiDir) (serverKeyPath pkiDir) (tlsCryptPath pkiDir) socketPath (verb verbose)
    ((fun u => (pu_Name u, pu_Group u)) <$> rt_Proxy rt).
Definition ov_info (c : OvConfig) : bytes :=
  (BE.uint16 (ovc_ListenPort c)
   ++ [if bool_decide (ovc_Proto c = "tcp") then transportTCP else transportUDP; if ovc_EnableIPv6 c then x01 else x00])%list.

(** The configuration in force, the authority, the file and [Info]. *)
Definition ov_Init : M F gerror (OvConfig * pki F * string * bytes) :=
  or_throw (LookPath "openvpn") ov_missing ≫= fun _ =>
  c ← ReadOvConfig (Join home "openvpn.toml");
  told_by (OvConfig_Validate c) ≫= fun _ =>
  c ← (if decide (ovc_Uplink c = "") then uplink ← DetectUplink; mret (ov_with_uplink c uplink) else mret c);
  p ← loadOrCreatePKI pkiDir;
  attempt (os_Remove socketPath) ≫= fun _ =>
  path ← rt_WriteFile rt "openvpn_server.conf" (confText (serverConf c dataOf));
  mret (c, p, path, ov_info c).
End Init.

Section Prepared.
Context {F : Type} `{!Disk F, !X509 F, !InitHost F, !OvHost F} {DL : DiskLaws F} {XL : X509Laws F} (rt : Runtime) (home : string) (verbose : bool).
Implicit Types (s : F).

Lemma confText_lines ls l : l ∈ ls -> ∃ before after, confText ls = before +:+ WireGuardInit.line l +:+ after.
Proof using Type.
  assert (forall a b c, (a +:+ b) +:+ c = a +:+ (b +:+ c)) as E.
  { intros a b c; induction a as [|x a IH]; [done|]; by change (String x ((a +:+ b) +:+ c) = String x (a +:+ (b +:+ c))); rewrite IH. }
  induction 1 as [l ls|l x ls _ (b & a & IH)]; cbn; [by exists "", (confText ls)|].
  exists (WireGuardInit.line x +:+ b), a; fold (confText ls); by rewrite IH, !E.
Qed.

(** What [Info] tells: the port, the transport and whether there is IPv6. *)
Lemma ov_info_tells c : 0 <= ovc_ListenPort c < 65536 -> length (ov_info c) = 4%nat ∧ BE.get (take 2 (ov_info c)) = ovc_ListenPort c.
Proof using Type.
  intros Hp; unfold ov_info; split; [by rewrite length_app; unfold BE.uint16; rewrite BE.put_length|].
  rewrite take_app_length' by (unfold BE.uint16; by rewrite BE.put_length).
  unfold BE.uint16; rewrite BE.get_put; apply Z.mod_small; change (256 ^ Z.of_nat 2) with 65536; lia.
Qed.

(** A prepared OpenVPN: the configuration is a valid one with an uplink; the server's
    file, closed to everyone but the daemon, is the one rendered from it and admits
    clients over a socket of the runtime directory; and with a proxy account, the
    server gives up root for it. *)
Theorem openvpn_prepared s c p path info s' : ov_Init rt home verbose s = (inr (c, p, path, info), s') ->
  (∃ read, OvConfig_Validate read = inr tt ∧ c = ov_with_uplink read (ovc_Uplink c)) ∧ ovc_Uplink c ≠ "" ∧ info = ov_info c
  ∧ path = Join (rt_Dir rt) "openvpn_server.conf" ∧ confined rt (confText (serverConf c (dataOf rt home verbose))) (inode s' path)
  ∧ (forall u, rt_Proxy rt = Some u -> pu_Name u ≠ "" ->
     ∃ before after, confText (serverConf c (dataOf rt home verbose)) = before +:+ WireGuardInit.line ("user " +:+ pu_Name u) +:+ after).
Proof.
  unfold ov_Init; intros H; apply bind_inv in H as [(? & _ & ?)|(? & s1 & _ & H)]; [done|].
  apply bind_inv in H as [(? & _ & ?)|(c0 & s2 & _ & H)]; [done|].
  apply bind_inv in H as [(? & _ & ?)|([] & s3 & [= Hv <-] & H)]; [done|].
  apply bind_inv in H as [(? & _ & ?)|(c1 & s4 & Hu & H)]; [done|].
  apply bind_inv in H as [(? & _ & ?)|(p' & s5 & _ & H)]; [done|].
  apply bind_inv in H as [(? & _ & ?)|(removed & s6 & _ & H)]; [done|].
  apply bind_inv in H as [(? & _ & ?)|(path' & s7 & Hw & [[= -> -> -> ->] ->]%ret_inv)]; [done|].
  apply rt_WriteFile_confined in Hw as [-> Hc].
  assert (c1 = ov_with_uplink c0 (ovc_Uplink c1) ∧ ovc_Uplink c1 ≠ "") as [Ec Hne].
  { destruct (decide (ovc_Uplink c0 = "")) as [E|E].
    - apply bind_inv in Hu as [(? & _ & ?)|(u & t & Hd%DetectUplink_named & [[= ->] _]%ret_inv)]; [done|]; by split.
    - apply ret_inv in Hu as [[= ->] _]; split; [by destruct c0|done]. }
  split; [by exists c0|]; split; [exact Hne|split; [done|split; [done|split; [exact Hc|]]]].
  intros u Hproxy Hname; apply confText_lines; unfold serverConf, dataOf; rewrite Hproxy; cbn [td_Account fmap option_fmap option_map].
  rewrite (bool_decide_eq_false_2 (pu_Name u = "")) by done; rewrite !elem_of_app; do 5 right; by left.
Qed.
End Prepared.
