(* ===== verification/ConfigFiles.v ===== *)
(** The configuration files: the template of every types/config.go, and the commands
    that make, show and change a file (src/services/common/configcli.go and
    src/cmd/config.go, with [WritePrivateFile] of src/utils/file.go).

    A type of configuration says which lines its template renders ([ConfigType]); the
    commands are written once against it, as the code does with [ConfigSpec].  The
    comments of the templates are left out; viper, which reads a file and sets a key,
    is a parameter. *)
From stdpp Require Import pretty.
From S2P Require Import Prelude Floats Codec Toml Types Guard Wire XRay V2Ray StaticKey Egress Runtime Amnezia NodeConfig.
Set Default Proof Using "Type*".
Local Open Scope string_scope.

(** How package fmt prints what is not text: a float as it is and with six decimals,
    and a duration. *)
Class Printers := {
  SprintFloat : spec_float -> string;
  SprintFloat6 : spec_float -> string;
  DurationString : Z -> string;
  SprintFloat_plain f : value_ok (Plain (SprintFloat f));
  SprintFloat6_plain f : value_ok (Plain (SprintFloat6 f));
  DurationString_text d : text (DurationString d)
}.

Definition textKey (k v : string) : tline := KeyLine k (Quoted v).
Definition intKey (k : string) (n : Z) : tline := KeyLine k (Plain (Itoa n)).
Definition boolKey (k : string) (b : bool) : tline := KeyLine k (Plain (if b then "true" else "false")).

(** * The templates *)
Definition openvpn_toml (c : OvConfig) : doc :=
  [textKey "interface" (ovc_Interface c); intKey "listen_port" (ovc_ListenPort c); textKey "proto" (ovc_Proto c);
   textKey "uplink" (ovc_Uplink c); boolKey "enable_ipv6" (ovc_EnableIPv6 c)].
Definition wireguard_toml (c : WgConfig) : doc :=
  [textKey "interface" (w_Interface c); intKey "listen_port" (w_ListenPort c); textKey "private_key" (w_PrivateKey c);
   textKey "uplink" (w_Uplink c); boolKey "enable_ipv6" (w_EnableIPv6 c)].
Definition hysteria_toml (c : HyConfig) : doc :=
  [SectionLine "server"; intKey "listen_port" (hys_ListenPort (hyc_Server c)); textKey "obfs_password" (hys_ObfsPassword (hyc_Server c));
   textKey "up" (hys_Up (hyc_Server c)); textKey "down" (hys_Down (hyc_Server c));
   SectionLine "api"; intKey "auth_port" (hya_AuthPort (hyc_API c)); intKey "stats_port" (hya_StatsPort (hyc_API c))].
Definition v2ray_toml (c : V2Config) : doc :=
  [SectionLine "vmess"; intKey "listen_port" (vm_ListenPort (vc_VMess c)); boolKey "tls" (vm_TLS (vc_VMess c));
   textKey "transport" (vm_Transport (vc_VMess c)); SectionLine "api"; intKey "port" (vc_APIPort c)].
Definition xray_toml (c : XConfig) : doc :=
  let v := xc_VLESS c in let r := xc_Reality c in
  [SectionLine "vless"; intKey "listen_port" (vless_ListenPort v); textKey "security" (vless_Security v); boolKey "flow" (vless_Flow v);
   SectionLine "reality"; textKey "server_name" (re_ServerName r); textKey "private_key" (re_PrivateKey r);
   textKey "public_key" (re_PublicKey r); textKey "short_id" (re_ShortID r); textKey "fingerprint" (re_Fingerprint r);
   SectionLine "api"; intKey "port" (xc_APIPort c)].

Definition paddings_toml (s : Z * Z * Z * Z) : doc := let '(a, b, c, d) := s in [intKey "s1" a; intKey "s2" b; intKey "s3" c; intKey "s4" d].
Definition headers_toml (h : Z * Z * Z * Z) : doc := let '(a, b, c, d) := h in [intKey "h1" a; intKey "h2" b; intKey "h3" c; intKey "h4" d].
Definition v3_toml (v : V3) : doc :=
  ([SectionLine "v3"; boolKey "enabled" (v_Enabled v); textKey "interface" (v_Interface v); intKey "listen_port" (v_ListenPort v);
    textKey "private_key" (v_PrivateKey v); textKey "ipv4_subnet" (v_IPv4Subnet v); textKey "ipv6_subnet" (v_IPv6Subnet v);
    textKey "header_protection_key" (v_HeaderProtectionKey v)]
   ++ paddings_toml (v_S v) ++ headers_toml (v_H v)
   ++ [boolKey "random_trailers" (v_RandomTrailers v); textKey "content_padding_addition" (v_ContentPaddingAddition v)])%list.
Definition packets_toml (i : string * string * string * string * string) : doc :=
  let '(a, b, c, d, e) := i in [textKey "i1" a; textKey "i2" b; textKey "i3" c; textKey "i4" d; textKey "i5" e].
Definition obfuscation_toml (o : Obfuscation) : doc :=
  ([SectionLine "obfuscation"; intKey "jc" (o_Jc o); intKey "jmin" (o_Jmin o); intKey "jmax" (o_Jmax o)]
   ++ paddings_toml (o_S o) ++ headers_toml (o_H o) ++ packets_toml (o_I o))%list.
Definition amneziawg_toml (c : Amnezia.Config) : result doc :=
  match c_V3 c with
  | None => inl "template: amneziawg_toml: nil pointer evaluating *types.V3.Enabled"
  | Some v => inr ([textKey "interface" (c_Interface c); intKey "listen_port" (c_ListenPort c); textKey "private_key" (c_PrivateKey c);
      textKey "uplink" (c_Uplink c); boolKey "enable_ipv6" (c_EnableIPv6 c);
      textKey "ipv4_subnet" (c_IPv4Subnet c); textKey "ipv6_subnet" (c_IPv6Subnet c)]
      ++ obfuscation_toml (c_Obfuscation c) ++ v3_toml v)%list
  end.

Definition node_toml `{Printers} (c : AppConfig) : doc :=
  let b := NodeConfig.Bandwidth c in let h := Chain_ c in let g := NodeConfig.GeoIP c in let n := Node_ c in
  [SectionLine "bandwidth"; KeyLine "download_mbps" (Plain (SprintFloat (DownloadMbps b))); KeyLine "upload_mbps" (Plain (SprintFloat (UploadMbps b)));
   SectionLine "chain"; intKey "gas" (Gas h); KeyLine "gas_adjustment" (Plain (SprintFloat (GasAdjustment h))); textKey "gas_prices" (GasPrices h);
   textKey "id" (ch_ID h); textKey "rpc_addresses" (RPCAddresses h); intKey "rpc_query_timeout" (RPCQueryTimeout h);
   intKey "rpc_tx_timeout" (RPCTxTimeout h); boolKey "simulate_and_execute" (SimulateAndExecute h);
   SectionLine "egress"; boolKey "allow_smtp" (ec_AllowSMTP (Egress_ c));
   SectionLine "geoip"; textKey "provider" (Provider g); textKey "url" (g_URL g); textKey "token" (Token g); textKey "city" (City g);
   textKey "country" (Country g); KeyLine "latitude" (Plain (SprintFloat6 (Latitude g))); KeyLine "longitude" (Plain (SprintFloat6 (Longitude g)));
   SectionLine "handshake"; boolKey "enable" (Enable (Handshake_ c)); intKey "peers" (hs_Peers (Handshake_ c));
   SectionLine "keyring"; textKey "backend" (Backend (Keyring c)); textKey "from" (From (Keyring c)); textKey "granter" (Granter (Keyring c));
   SectionLine "node"; textKey "interval_set_sessions" (DurationString (IntervalSetSessions n));
   textKey "interval_update_sessions" (DurationString (IntervalUpdateSessions n));
   textKey "interval_update_status" (DurationString (IntervalUpdateStatus n)); textKey "ipv4_address" (IPv4Address n);
   textKey "listen_on" (ListenOn n); textKey "moniker" (Moniker n); textKey "gigabyte_prices" (n_GigabytePrices n);
   textKey "hourly_prices" (n_HourlyPrices n); textKey "remote_url" (RemoteURL n); textKey "type" (n_Type n);
   boolKey "legacy_handshake" (LegacyHandshake n);
   SectionLine "qos"; intKey "max_peers" (q_MaxPeers (QOS c))].

(** * A type of configuration *)

(** The values that are text; a hostile one is any other string, which the reader may
    refuse, but never mistake. *)
Class ConfigType (C : Type) := {
  docOf : C -> result doc;
  texts : C -> list string;
  doc_ok c d : docOf c = inr d -> Forall text (texts c) -> d ≠ [] ∧ Forall line_ok d
}.
(** A file that tells the configurations apart. *)
Class Faithful (C : Type) `{!ConfigType C} := doc_inj (c c' : C) d : docOf c = inr d -> docOf c' = inr d -> c = c'.

(** ** Digits *)
Definition digits (s : string) : Prop := Forall (fun c => 45 <= ord c <= 57) (Str.of_string s).
Lemma digits_go n s : digits s -> digits (pretty.pretty_N_go n s).
Proof.
  revert s; induction (N.lt_wf_0 n) as [n _ IH]; intros s Hs.
  destruct (decide (0 < n)%N) as [Hn|]; [|assert (n = 0%N) as -> by lia; done].
  rewrite pretty.pretty_N_go_step by done; apply IH; [by apply N.div_lt|].
  constructor; [|done]; unfold pretty.pretty_N_char; repeat case_match; vm_compute; done.
Qed.
Lemma Itoa_digits n : digits (Itoa n) ∧ Itoa n ≠ "".
Proof.
  assert (forall p, digits (pretty (N.pos p)) ∧ pretty (N.pos p) ≠ "") as Hp.
  { intros p; unfold pretty, pretty.pretty_N; rewrite decide_False by done; split; [apply digits_go; constructor|].
    assert (forall n s, s ≠ "" -> pretty.pretty_N_go n s ≠ "") as Hgo; [|rewrite pretty.pretty_N_go_step by done; by apply Hgo].
    clear; intros m; induction (N.lt_wf_0 m) as [m _ IH]; intros s Hs; destruct (decide (0 < m)%N) as [Hm|].
    - rewrite pretty.pretty_N_go_step by done; apply IH; [by apply N.div_lt|done].
    - by assert (m = 0%N) as -> by lia. }
  unfold Itoa; destruct n as [|p|p]; [split; [by repeat constructor|done]|apply Hp|].
  destruct (Hp p) as [H _]; split; [|done]; cbn; constructor; [done|exact H].
Qed.
Lemma digits_plain s : digits s -> s ≠ "" -> value_ok (Plain s).
Proof.
  intros Hd Hne; assert (forall c, ord c < 45 -> c ∉ Str.of_string s) as Hnot.
  { intros c Hc Hin; unfold digits in Hd; rewrite Forall_forall in Hd; apply Hd in Hin; lia. }
  split_and!; [done|by apply Hnot..].
Qed.
Lemma intKey_ok k n : bare k -> line_ok (intKey k n).
Proof. intros; split; [done|]; destruct (Itoa_digits n); by apply digits_plain. Qed.
Lemma boolKey_ok k b : bare k -> line_ok (boolKey k b).
Proof.
  intros; split; [done|]; destruct b; cbn; (split_and!; [done|..]); by apply (bool_decide_unpack (_ ∉ _)).
Qed.
Lemma textKey_ok k v : bare k -> text v -> line_ok (textKey k v).
Proof. done. Qed.
Lemma intKey_inj k n n' : intKey k n = intKey k n' -> n = n'.
Proof. intros [= H]; by apply pretty.pretty_Z_inj in H. Qed.
Lemma boolKey_inj k b b' : boolKey k b = boolKey k b' -> b = b'.
Proof. intros [= H]; by destruct b, b'. Qed.
Lemma plainKey_ok k v : bare k -> value_ok (Plain v) -> line_ok (KeyLine k (Plain v)).
Proof. done. Qed.

Lemma cons_inv {A} (x y : A) l k : x :: l = y :: k -> x = y ∧ l = k.
Proof. by intros [= -> ->]. Qed.
(** Every line of a template, one after the other. *)
Ltac lines_ok := repeat match goal with
  | |- Forall line_ok [] => constructor
  | |- Forall line_ok (_ ++ _) => apply Forall_app_2
  | |- Forall line_ok (_ :: _) => constructor
  | |- line_ok (SectionLine _) => by apply (bool_decide_unpack (bare _)); vm_compute
  | |- line_ok (intKey _ _) => apply intKey_ok
  | |- line_ok (boolKey _ _) => apply boolKey_ok
  | |- line_ok (textKey _ _) => apply textKey_ok
  | |- line_ok (KeyLine _ (Plain _)) => apply plainKey_ok
  | |- bare _ => by apply (bool_decide_unpack (bare _)); vm_compute
  | |- value_ok _ => apply SprintFloat_plain || apply SprintFloat6_plain
  | |- text (DurationString _) => apply DurationString_text
  | |- text _ => assumption
  end.
Ltac config_type :=
  intros c d [= <-] Htexts; cbn in Htexts; rewrite ?Forall_cons in Htexts; destruct_and? Htexts;
  split; [done|unfold openvpn_toml, wireguard_toml, hysteria_toml, v2ray_toml, xray_toml, node_toml; cbv zeta; lines_ok].
(** Equal lines have equal values. *)
Ltac same_lines := repeat match goal with
  | H : _ :: _ = _ :: _ |- _ => apply (cons_inv) in H as [? H]
  | H : intKey _ _ = intKey _ _ |- _ => apply intKey_inj in H
  | H : boolKey _ _ = boolKey _ _ |- _ => apply boolKey_inj in H
  | H : textKey _ _ = textKey _ _ |- _ => injection H as H
  end.

#[export, refine] Instance openvpn_config : ConfigType OvConfig := {
  docOf c := inr (openvpn_toml c); texts c := [ovc_Interface c; ovc_Proto c; ovc_Uplink c] }.
Proof. config_type. Defined.
#[export, refine] Instance wireguard_config : ConfigType WgConfig := {
  docOf c := inr (wireguard_toml c); texts c := [w_Interface c; w_PrivateKey c; w_Uplink c] }.
Proof. config_type. Defined.
#[export, refine] Instance hysteria_config_file : ConfigType HyConfig := {
  docOf c := inr (hysteria_toml c); texts c := [hys_ObfsPassword (hyc_Server c); hys_Up (hyc_Server c); hys_Down (hyc_Server c)] }.
Proof. config_type. Defined.
#[export, refine] Instance v2ray_config_file : ConfigType V2Config := {
  docOf c := inr (v2ray_toml c); texts c := [vm_Transport (vc_VMess c)] }.
Proof. config_type. Defined.
#[export, refine] Instance xray_config_file : ConfigType XConfig := {
  docOf c := inr (xray_toml c); texts c := [vless_Security (xc_VLESS c); re_ServerName (xc_Reality c); re_PrivateKey (xc_Reality c);
    re_PublicKey (xc_Reality c); re_ShortID (xc_Reality c); re_Fingerprint (xc_Reality c)] }.
Proof. config_type. Defined.
#[export, refine] Instance node_config `{Printers} : ConfigType AppConfig := {
  docOf c := inr (node_toml c);
  texts c := [GasPrices (Chain_ c); ch_ID (Chain_ c); RPCAddresses (Chain_ c); Provider (NodeConfig.GeoIP c); g_URL (NodeConfig.GeoIP c);
    Token (NodeConfig.GeoIP c); City (NodeConfig.GeoIP c); Country (NodeConfig.GeoIP c); Backend (Keyring c); From (Keyring c);
    Granter (Keyring c); IPv4Address (Node_ c); ListenOn (Node_ c); Moniker (Node_ c); n_GigabytePrices (Node_ c);
    n_HourlyPrices (Node_ c); RemoteURL (Node_ c); n_Type (Node_ c)] }.
Proof. config_type. Defined.

Definition packet_texts (i : string * string * string * string * string) : list string := let '(a, b, c, d, e) := i in [a; b; c; d; e].
Definition v3_texts (v : V3) : list string :=
  [v_Interface v; v_PrivateKey v; v_IPv4Subnet v; v_IPv6Subnet v; v_HeaderProtectionKey v; v_ContentPaddingAddition v].
Lemma paddings_lines s : Forall line_ok (paddings_toml s).
Proof. destruct s as [[[? ?] ?] ?]; unfold paddings_toml; lines_ok. Qed.
Lemma headers_lines h : Forall line_ok (headers_toml h).
Proof. destruct h as [[[? ?] ?] ?]; unfold headers_toml; lines_ok. Qed.
Lemma packets_ok i : Forall text (packet_texts i) -> Forall line_ok (packets_toml i).
Proof.
  destruct i as [[[[? ?] ?] ?] ?]; cbn [packet_texts]; rewrite !Forall_cons; intros H; destruct_and? H; unfold packets_toml; lines_ok.
Qed.
Lemma obfuscation_ok o : Forall text (packet_texts (o_I o)) -> Forall line_ok (obfuscation_toml o).
Proof. intros H; unfold obfuscation_toml; lines_ok; [apply paddings_lines|apply headers_lines|by apply packets_ok]. Qed.
Lemma v3_ok v : Forall text (v3_texts v) -> Forall line_ok (v3_toml v).
Proof.
  unfold v3_texts; rewrite !Forall_cons; intros H; destruct_and? H; unfold v3_toml; lines_ok; [apply paddings_lines|apply headers_lines].
Qed.
#[export, refine] Instance amneziawg_config : ConfigType Amnezia.Config := {
  docOf := amneziawg_toml;
  texts c := ([c_Interface c; c_PrivateKey c; c_Uplink c; c_IPv4Subnet c; c_IPv6Subnet c] ++ packet_texts (o_I (c_Obfuscation c))
    ++ from_option v3_texts [] (c_V3 c))%list }.
Proof.
  intros c d; unfold amneziawg_toml; destruct (c_V3 c) as [v|]; [|done]; intros <-%(inj inr).
  intros Ht; rewrite !Forall_app, !Forall_cons in Ht; destruct Ht as [H [Ho Hv]]; destruct_and? H.
  split; [done|]; apply Forall_app_2; [lines_ok|apply Forall_app_2; [by apply obfuscation_ok|by apply v3_ok]].
Defined.

(** ** No two configurations have one file *)
Ltac faithful :=
  intros c c' d <-%(inj inr) H%(inj inr);
  unfold openvpn_toml, wireguard_toml, hysteria_toml, v2ray_toml, xray_toml in H; cbv zeta in H; same_lines.
#[export] Instance openvpn_faithful : Faithful OvConfig.
Proof. faithful; destruct c, c'; cbn in *; by subst. Qed.
#[export] Instance wireguard_faithful : Faithful WgConfig.
Proof. faithful; destruct c, c'; cbn in *; by subst. Qed.
#[export] Instance hysteria_faithful : Faithful HyConfig.
Proof. faithful; destruct c as [[] []], c' as [[] []]; cbn in *; by subst. Qed.
#[export] Instance v2ray_faithful : Faithful V2Config.
Proof. faithful; destruct c as [[] ?], c' as [[] ?]; cbn in *; by subst. Qed.
#[export] Instance xray_faithful : Faithful XConfig.
Proof. faithful; destruct c as [[] [] ?], c' as [[] [] ?]; cbn in *; by subst. Qed.

Lemma app_inv_lines (d1 d1' d2 d2' : doc) : length d1 = length d1' -> (d1 ++ d2)%list = (d1' ++ d2')%list -> d1 = d1' ∧ d2 = d2'.
Proof. intros Hl H; by apply app_inj_1. Qed.
Lemma paddings_inj s s' : paddings_toml s = paddings_toml s' -> s = s'.
Proof. destruct s as [[[? ?] ?] ?], s' as [[[? ?] ?] ?]; unfold paddings_toml; intros H; same_lines; by subst. Qed.
Lemma headers_inj s s' : headers_toml s = headers_toml s' -> s = s'.
Proof. destruct s as [[[? ?] ?] ?], s' as [[[? ?] ?] ?]; unfold headers_toml; intros H; same_lines; by subst. Qed.
Lemma packets_inj s s' : packets_toml s = packets_toml s' -> s = s'.
Proof. destruct s as [[[[? ?] ?] ?] ?], s' as [[[[? ?] ?] ?] ?]; unfold packets_toml; intros H; same_lines; by subst. Qed.
Lemma paddings_length s : length (paddings_toml s) = 4%nat.
Proof. by destruct s as [[[? ?] ?] ?]. Qed.
Lemma headers_length s : length (headers_toml s) = 4%nat.
Proof. by destruct s as [[[? ?] ?] ?]. Qed.
Lemma packets_length s : length (packets_toml s) = 5%nat.
Proof. by destruct s as [[[[? ?] ?] ?] ?]. Qed.
Lemma obfuscation_inj o o' : obfuscation_toml o = obfuscation_toml o' -> o = o'.
Proof.
  unfold obfuscation_toml; intros [H0 H]%app_inv_lines; [|done].
  apply app_inv_lines in H as [Hs [Hh Hi]%app_inv_lines]; [|by rewrite ?paddings_length, ?headers_length..].
  apply paddings_inj in Hs; apply headers_inj in Hh; apply packets_inj in Hi; same_lines; destruct o, o'; cbn in *; by subst.
Qed.
Lemma v3_inj v v' : v3_toml v = v3_toml v' -> v = v'.
Proof.
  unfold v3_toml; intros [H0 H]%app_inv_lines; [|done].
  apply app_inv_lines in H as [Hs [Hh Hr]%app_inv_lines]; [|by rewrite ?paddings_length, ?headers_length..].
  apply paddings_inj in Hs; apply headers_inj in Hh; same_lines; destruct v, v'; cbn in *; by subst.
Qed.
#[export] Instance amneziawg_faithful : Faithful Amnezia.Config.
Proof.
  intros c c' d; unfold docOf, amneziawg_config, amneziawg_toml.
  destruct (c_V3 c) as [v|] eqn:Ev, (c_V3 c') as [v'|] eqn:Ev'; try done; intros <-%(inj inr) H%(inj inr).
  apply app_inv_lines in H as [H0 [Ho Hv]%app_inv_lines]; [| |done].
  - apply obfuscation_inj in Ho; apply v3_inj in Hv; same_lines; destruct c, c'; cbn in *; by subst.
  - unfold obfuscation_toml; by rewrite !length_app, !paddings_length, !headers_length, !packets_length.
Qed.

(** * The commands *)
Class ConfigHost (F : Type) := {
  cfg_Stat : string -> M F gerror unit;
  cfg_Println : string -> M F gerror unit
}.
(** [ConfigSpec], with what viper does to a configuration it read when a key is set. *)
Record ConfigSpec (F C : Type) := mkSpec {
  sp_FileName : string;
  sp_Default : M F gerror C;
  sp_Read : string -> M F gerror C;
  sp_Set : C -> string -> string -> result C }.
Arguments mkSpec {F C} _ _ _ _.
Arguments sp_FileName {F C} _.
Arguments sp_Default {F C} _.
Arguments sp_Read {F C} _ _.
Arguments sp_Set {F C} _ _ _ _.

Section Commands.
Context {F C : Type} `{!Disk F, !ConfigHost F} {CT : ConfigType C}.

Definition WritePrivateFile (path data : string) : M F gerror unit :=
  os_WriteFile path data 384 ≫= fun _ => os_Chmod path 384.        (* 0o600 *)
Definition executed {A} (r : result A) : M F gerror A := fun s => (r, s).
Definition SaveToPath (c : C) (path : string) : M F gerror unit :=
  d ← executed (docOf c); WritePrivateFile path (render d).
Definition configPath (spec : ConfigSpec F C) (home : string) : string := Join home (sp_FileName spec).

Definition configInit (spec : ConfigSpec F C) (home : string) (force : bool) : M F gerror unit :=
  let path := configPath spec home in
  (if force then mret tt else
     st ← attempt (cfg_Stat path);
     throw_if (if st is inr _ then true else false) ("config file already exists at path " +:+ path)) ≫= fun _ =>
  os_MkdirAll home 448 ≫= fun _ =>                                 (* 0700 *)
  c ← sp_Default spec;
  SaveToPath c path.
Definition configShow (spec : ConfigSpec F C) (home : string) : M F gerror unit :=
  c ← sp_Read spec (configPath spec home);
  d ← executed (docOf c);
  cfg_Println (render d).
Definition configSet (spec : ConfigSpec F C) (home key val : string) : M F gerror unit :=
  let path := configPath spec home in
  c ← sp_Read spec path;
  c ← executed (sp_Set spec c key val);
  SaveToPath c path.
End Commands.

(** src/cmd/config.go has the three commands over again for config.toml. *)
Section NodeCommands.
Context {F : Type} `{!Disk F, !ConfigHost F} {P : Printers} (defaults : M F gerror AppConfig) (ReadInConfig : string -> M F gerror AppConfig)
  (set : AppConfig -> string -> string -> result AppConfig) (home : string).
Definition nodeSpec : ConfigSpec F AppConfig := mkSpec "config.toml" defaults ReadInConfig set.
Definition node_configInit (force : bool) : M F gerror unit := configInit nodeSpec home force.
Definition node_configShow : M F gerror unit := configShow nodeSpec home.
Definition node_configSet (key val : string) : M F gerror unit := configSet nodeSpec home key val.
End NodeCommands.

(** * What they leave behind *)
Class ConfigHostLaws (F : Type) `{!Disk F, !ConfigHost F} := {
  cfg_stat_keeps p : keeps_disk (cfg_Stat p);
  cfg_stat_finds p s : is_Some (inode s p) -> (cfg_Stat p s).1 = inr tt
}.

Section Saved.
Context {F C : Type} `{!Disk F, !ConfigHost F} {DL : DiskLaws F} {HL : ConfigHostLaws F} {CT : ConfigType C} {FC : Faithful C}.
Context (spec : ConfigSpec F C) (home : string).
Context (Hread : forall p, keeps_disk (sp_Read spec p)).
Implicit Types (s : F) (c : C).

(** A file that holds a configuration: its lines, for its owner alone; and, when the
    values are text, lines a reader takes back, which no other configuration has. *)
Definition holds (c : C) (e : option entry) : Prop :=
  ∃ d g, docOf c = inr d ∧ e = Some (mkEntry (render d) 384 g)
    ∧ (Forall text (texts c) -> readDoc (render d) = Some d
       ∧ forall c' d', docOf c' = inr d' -> Forall text (texts c') -> render d' = render d -> c' = c).

Lemma saved_holds c path s s' : SaveToPath c path s = (inr tt, s') ->
  holds c (inode s' path) ∧ forall p, p ≠ path -> inode s' p = inode s p.
Proof.
  intros H; apply bind_inv in H as [(? & _ & ?)|(d & s1 & [= Hd <-] & H)]; [done|].
  pose proof H as Hk; apply bind_inv in H as [(? & _ & ?)|([] & s2 & Hw & Hc)]; [done|].
  apply write_sets in Hw as (e & E1 & Ed); apply chmod_sets in Hc as (e' & E2 & E3); rewrite E1 in E2; injection E2 as <-; rewrite Ed in E3.
  split.
  - exists d, (en_gid e); split_and!; [done|done|]; intros Ht; destruct (doc_ok _ _ Hd Ht) as [Hne Hok].
    split; [by apply read_render|]; intros c' d' Hd' Ht' E; destruct (doc_ok _ _ Hd' Ht') as [Hne' Hok'].
    pose proof (read_render d' Hne' Hok') as R'; rewrite E, (read_render d Hne Hok) in R'; injection R' as <-; by eapply doc_inj.
  - intros p Hp; eapply kept; [|exact Hk|exact Hp]; apply keeps_bind; [apply write_keeps|intros; apply chmod_keeps].
Qed.

(** C30. [config set] writes the changed configuration and nothing else.  When it
    succeeds the file, and no other, has changed; it is its owner's alone; it holds
    the lines of the configuration that was read with the key set; and as long as its
    values are text, whatever quotes, line ends or keys they contain, a reader of the
    file gets exactly those lines back, and no other configuration has that file. *)
Theorem configSet_saves key val s s' : configSet spec home key val s = (inr tt, s') ->
  ∃ c c' s1, sp_Read spec (configPath spec home) s = (inr c, s1) ∧ sp_Set spec c key val = inr c'
    ∧ holds c' (inode s' (configPath spec home))
    ∧ forall p, p ≠ configPath spec home -> inode s' p = inode s p.
Proof.
  intros H; apply bind_inv in H as [(? & _ & ?)|(c & s1 & Hr & H)]; [done|].
  apply bind_inv in H as [(? & _ & ?)|(c' & s2 & [= Hset <-] & H)]; [done|].
  apply saved_holds in H as [Hh Hk]; exists c, c', s1; split_and!; [done..|]; intros p Hp; rewrite Hk by done.
  pose proof (Hread (configPath spec home) s p) as K; by rewrite Hr in K.
Qed.

(** [config init] leaves a file that is there alone unless forced, and what it makes
    holds the defaults. *)
Theorem configInit_safe force s r s' : configInit spec home force s = (r, s') ->
  (force = false -> is_Some (inode s (configPath spec home)) -> (∃ e, r = inl e) ∧ forall p, inode s' p = inode s p)
  ∧ (r = inr tt -> ∃ c s1 s2, sp_Default spec s1 = (inr c, s2) ∧ holds c (inode s' (configPath spec home))).
Proof.
  intros H; split.
  - intros -> Hthere; pose proof (cfg_stat_finds _ _ Hthere) as Hs; pose proof (cfg_stat_keeps (configPath spec home) s) as Hk.
    unfold configInit, mbind, M_bind, attempt in H; destruct (cfg_Stat (configPath spec home) s) as [x s1]; cbn in Hs, Hk; subst x.
    injection H as <- <-; eauto.
  - intros ->; apply bind_inv in H as [(? & _ & ?)|(_ & s1 & _ & H)]; [done|].
    apply bind_inv in H as [(? & _ & ?)|(_ & s2 & _ & H)]; [done|].
    apply bind_inv in H as [(? & _ & ?)|(c & s3 & Hd & H)]; [done|].
    apply saved_holds in H as [Hh _]; eauto.
Qed.
End Saved.
