(* ===== verification/ConfigExample.v ===== *)
(** A configuration changed on a concrete disk, with a value made to look like two
    lines of the file. *)
From S2P Require Import Prelude Codec Toml Types Guard Egress Runtime NodeConfig ConfigFiles.
Local Open Scope string_scope.

(** Files by path; a file is the group's it was. *)
Abbreviation files := (gmap string entry).
Definition set_mode (m : Z) (e : entry) : entry := mkEntry (en_data e) m (en_gid e).
Definition set_gid (g : Z) (e : entry) : entry := mkEntry (en_data e) (en_mode e) g.
Definition altered (p : string) (f : entry -> entry) : M files gerror unit := fun s =>
  match s !! p with Some e => (inr tt, <[p := f e]> s) | None => (inl "no such file or directory", s) end.
#[export] Instance files_Disk : Disk files := {
  user_Lookup _ := throw "unknown user"; user_LookupGroupId _ := throw "unknown group"; Getenv _ _ := "";
  os_MkdirAll p m s := (inr tt, <[p := default (mkEntry "" m 0) (s !! p)]> s);
  os_Chmod p m := altered p (set_mode m);
  os_Chown p _ g := altered p (set_gid g);
  os_WriteFile p d m s := (inr tt, <[p := mkEntry d (from_option en_mode m (s !! p)) (from_option en_gid 0%Z (s !! p))]> s);
  os_ReadFile p s := (match s !! p with Some e => inr (en_data e) | None => inl "no such file or directory" end, s);
  Join a b := a +:+ "/" +:+ b;
  inode s p := s !! p
}.

Lemma last_component (x y a b : Str.chars) c : c ∉ a -> c ∉ b -> (x ++ c :: a)%list = (y ++ c :: b)%list -> a = b.
Proof.
  intros Ha Hb H%(f_equal reverse); rewrite !reverse_app, !reverse_cons, <- !(assoc_L app) in H; cbn in H.
  apply (f_equal (Str.cut c)) in H; rewrite !Str.cut_app in H by (by rewrite elem_of_reverse).
  injection H as H _; by apply (inj reverse).
Qed.
Lemma altered_spec p f s s' : altered p f s = (inr tt, s') -> ∃ e, s !! p = Some e ∧ s' !! p = Some (f e).
Proof. unfold altered; destruct (s !! p) as [e|]; intros [= <-]; exists e; by rewrite lookup_insert_eq. Qed.
Lemma altered_keeps p f : keeps_but p (altered p f).
Proof. intros s q Hq; unfold altered; destruct (s !! p); cbn; [by rewrite lookup_insert_ne|done]. Qed.
#[export] Instance files_laws : DiskLaws files.
Proof.
  split; try (by intros); cbn.
  - intros p s d s' [= H <-]; destruct (s !! p) as [e|]; [|done]; injection H as <-; by exists e.
  - intros p m s s' [= <-]; rewrite lookup_insert_eq; eauto.
  - intros; apply altered_keeps.
  - intros p m s s' (e & E & E')%altered_spec; by exists e.
  - intros; apply altered_keeps.
  - intros p u g s s' (e & E & E')%altered_spec; by exists e.
  - intros p d m s q Hq; cbn; by rewrite lookup_insert_ne.
  - intros p d m s s' [= <-]; rewrite lookup_insert_eq; eauto.
  - intros d d' a b [Ha _] [Hb _] H%(f_equal Str.of_string); rewrite !Str.of_string_app in H; cbn in H.
    apply last_component in H; [|done..]; by apply Str.of_string_inj.
Qed.
#[export] Instance files_host : ConfigHost files := {
  cfg_Stat p s := (if s !! p is Some _ then inr tt else inl "no such file or directory", s);
  cfg_Println _ := mret tt }.
#[export] Instance files_host_laws : ConfigHostLaws files.
Proof. split; [done|]; intros p s [e E]; cbn in *; by rewrite E. Qed.

(** The file on disk is read as it was configured; setting the uplink takes any value. *)
Definition ex_ovc : OvConfig := mkOvConfig "ovpn0" 1194 "udp" "" true.
Definition hostile : string := "eth0" +:+ String quote (String newLine ("proto = " +:+ String quote "tcp")).
Definition ex_spec : ConfigSpec files OvConfig := mkSpec "openvpn.toml" (mret ex_ovc) (fun _ => mret ex_ovc)
  (fun c key val => if bool_decide (key = "uplink") then inr (mkOvConfig (ovc_Interface c) (ovc_ListenPort c) (ovc_Proto c) val (ovc_EnableIPv6 c))
    else inl "unknown key").
Definition ex_set : result unit * files := configSet ex_spec "/home/node" "uplink" hostile ∅.
Definition ex_changed : OvConfig := mkOvConfig "ovpn0" 1194 "udp" hostile true.

(** The changed file still has five lines, and the value is read back whole. *)
Lemma configSet_saves_witness : ex_set.1 = inr tt ∧ Forall text (texts ex_changed)
  ∧ holds ex_changed (inode ex_set.2 "/home/node/openvpn.toml") ∧ readDoc (render (openvpn_toml ex_changed)) = Some (openvpn_toml ex_changed).
Proof.
  split; [reflexivity|]; split; [repeat constructor; apply ascii_text; reflexivity|].
  destruct (configSet_saves ex_spec "/home/node" (fun _ _ _ => eq_refl) "uplink" hostile ∅ ex_set.2) as (c & c' & s1 & Hr & Hset & Hh & _).
  - vm_compute; reflexivity.
  - injection Hr as <- _; injection Hset as <-; split; [exact Hh|vm_compute; reflexivity].
Defined.
