(* ===== verification/Commands.v ===== *)
(** The command line: src/main.go, the trees of src/cmd and
    src/services/common/configcli.go, and what each protocol's Command hands to it: the
    file, the defaults and ReadInConfig of every types/config.go.

    cobra, which picks a command by its name or an alias, and viper are parameters;
    viper is given to the extent the code relies on it: reading gives the lines of the
    file, unmarshalling sets the fields the file has a key for. *)
From S2P Require Import Prelude Floats Codec Toml Types Guard Wire XRay V2Ray WireGuardAPI StaticKey Egress Runtime Amnezia AmneziaProofs NodeConfig ProxyConfig ConfigFiles.
Set Default Proof Using "Type*".
Local Open Scope string_scope.

(** * The tree *)
Inductive command := Cmd (use : string) (aliases : list string) (subs : list command).
Definition cmd_use (c : command) : string := let 'Cmd use _ _ := c in use.
Definition cmd_aliases (c : command) : list string := let 'Cmd _ aliases _ := c in aliases.
Definition cmd_subs (c : command) : list command := let 'Cmd _ _ subs := c in subs.
(** A command's name is the first word of its usage. *)
Definition cmd_Name (c : command) : string := Str.to_string (Str.cut " "%char (Str.of_string (cmd_use c))).1.1.
Definition cmd_words (c : command) : list string := cmd_Name c :: cmd_aliases c.

Definition ConfigCommand (use : string) (aliases : list string) : command :=
  Cmd use aliases [Cmd "config" [] [Cmd "init" [] []; Cmd "show" [] []; Cmd "set [key] [value]" [] []]].
Definition ConfigCmd : command := Cmd "config" [] [Cmd "init" [] []; Cmd "show" [] []; Cmd "set [key] [value]" [] []].
Definition KeysCmd : command :=
  Cmd "keys" [] [Cmd "add (name)" [] []; Cmd "show (name)" [] []; Cmd "list" [] []; Cmd "delete (name)" [] []; Cmd "authz-commands" [] []].
Definition StartCmd : command := Cmd "start" [] [].
Definition wireguard_Command : command := ConfigCommand "wireguard" ["wg"].
Definition v2ray_Command : command := ConfigCommand "v2ray" [].
Definition xray_Command : command := ConfigCommand "xray" [].
Definition hysteria_Command : command := ConfigCommand "hysteria2" ["hysteria"; "hy2"].
Definition amneziawg_Command : command := ConfigCommand "amneziawg" ["awg"].
Definition openvpn_Command : command := ConfigCommand "openvpn" ["ovpn"].
(** [Command] of the registered protocols, in the registry's order. *)
Definition protocolCommands : list command :=
  [wireguard_Command; v2ray_Command; xray_Command; hysteria_Command; amneziawg_Command; openvpn_Command].
(** [versionCmd] is the SDK's. *)
Definition rootCmd (versionCmd : command) : command :=
  Cmd "dvpnd" [] ([ConfigCmd; KeysCmd; StartCmd; versionCmd] ++ protocolCommands)%list.

(** At no place does a word name two commands. *)
Inductive unambiguous : command -> Prop :=
  | unambiguous_at c : NoDup (cmd_subs c ≫= cmd_words) -> Forall unambiguous (cmd_subs c) -> unambiguous c.

(** Every command can be reached by its name and its aliases, whatever the order in
    which cobra looks; and every registered protocol has its commands under the name
    that [node] type gives it. *)
Theorem commands_unambiguous versionCmd : cmd_words versionCmd = ["version"] -> unambiguous versionCmd ->
  unambiguous (rootCmd versionCmd) ∧ cmd_Name <$> protocolCommands = p_Name <$> registry.
Proof.
  intros Hw Hv; split; [|vm_compute; reflexivity].
  assert (forall l, (forall c, c ∈ l -> cmd_subs c = []) -> Forall unambiguous l) as Hleaf.
  { intros l Hl; apply Forall_forall; intros c Hc; constructor; rewrite (Hl c Hc); constructor. }
  assert (forall c, NoDup (cmd_subs c ≫= cmd_words) -> (forall d, d ∈ cmd_subs c -> cmd_subs d = []) -> unambiguous c) as Hlevel.
  { intros c Hn Hl; constructor; [done|by apply Hleaf]. }
  assert (forall use aliases, unambiguous (ConfigCommand use aliases)) as Hcc.
  { intros use aliases; constructor; [by apply (bool_decide_unpack _)|]; constructor; [|constructor]; apply Hlevel.
    - apply (bool_decide_unpack _); vm_compute; exact I.
    - cbn; intros d Hd; repeat (apply elem_of_cons in Hd as [->|Hd]; [done|]); by apply elem_of_nil in Hd. }
  constructor.
  - change (cmd_subs (rootCmd versionCmd)) with (([ConfigCmd; KeysCmd; StartCmd] ++ [versionCmd] ++ protocolCommands)%list).
    rewrite !bind_app, (bind_cons _ versionCmd), Hw; apply (bool_decide_unpack _); vm_compute; exact I.
  - cbn [cmd_subs rootCmd]; apply Forall_app; split.
    + assert (forall c, c ∈ [ConfigCmd; KeysCmd; StartCmd] -> unambiguous c) as Hown.
      { intros c Hc; apply Hlevel; repeat (apply elem_of_cons in Hc as [->|Hc]); try by apply elem_of_nil in Hc.
        all: try (apply (bool_decide_unpack _); vm_compute; exact I).
        all: cbn; intros d Hd; repeat (apply elem_of_cons in Hd as [->|Hd]; [done|]); by apply elem_of_nil in Hd. }
      rewrite !Forall_cons; split_and!; [apply Hown; set_solver..|exact Hv|constructor].
    + unfold protocolCommands; rewrite !Forall_cons; split_and!; [apply Hcc..|constructor].
Qed.

(** * What each command works on *)

(** viper: the lines of a file, and setting the fields of a configuration from them. *)
Class Viper (F : Type) := { v_ReadInConfig : string -> M F gerror doc }.
Class Mapstructure (C : Type) := {
  Unmarshal : doc -> C -> result C;
  v_Set : C -> string -> string -> result C           (* v.Set, then Unmarshal *)
}.

Section Specs.
Context {F : Type} `{!Rand F, !Viper F}.

Definition drawn {A} (f : F -> A * F) : M F gerror A := fun s => let '(a, s') := f s in (inr a, s').
(** A draw that did not end within its fuel. *)
Definition drawn_opt {A} (f : F -> option (A * F)) : M F gerror A := fun s =>
  match f s with Some (a, s') => (inr a, s') | None => (inl "out of fuel", s) end.
Definition drawn_or_panic {A} (f : F -> result (A * F)) : M F gerror A := fun s =>
  match f s with inr (a, s') => (inr a, s') | inl e => (inl e, s) end.

(** [ReadInConfig]: the file over what a configuration starts from. *)
Definition readOver {C} `{!Mapstructure C} (start : M F gerror C) (path : string) : M F gerror C :=
  config ← start;
  d ← v_ReadInConfig path;
  executed (Unmarshal d config).

(** ** wireguard.toml *)
Definition NewWgConfig : WgConfig := mkWgConfig "" 0 "" "" false.
Definition WgDefaults (c : WgConfig) : M F gerror WgConfig :=
  key ← drawn NewPrivateKey;
  port ← drawn RandomPort;
  mret (mkWgConfig "wg0" port (KeyString key) (w_Uplink c) true).
Definition wg_ReadInConfig `{!Mapstructure WgConfig} : string -> M F gerror WgConfig := readOver (WgDefaults NewWgConfig).
Definition wireguard_spec `{!Mapstructure WgConfig} : ConfigSpec F WgConfig :=
  mkSpec "wireguard.toml" (WgDefaults NewWgConfig) wg_ReadInConfig v_Set.

(** ** v2ray.toml *)
Definition NewV2Config : V2Config := mkV2Config (mkVMess 0 false "") 0.
Definition VMessDefaults (c : VMessConfig) : M F gerror VMessConfig := port ← drawn RandomPort; mret (mkVMess port false "tcp").
Definition V2APIDefaults (port : Z) : M F gerror Z := drawn RandomPort.
Definition V2Defaults (c : V2Config) : M F gerror V2Config :=
  vmess ← VMessDefaults (vc_VMess c);
  api ← V2APIDefaults (vc_APIPort c);
  mret (mkV2Config vmess api).
Definition v2_ReadInConfig `{!Mapstructure V2Config} : string -> M F gerror V2Config := readOver (V2Defaults NewV2Config).
Definition v2ray_spec `{!Mapstructure V2Config} : ConfigSpec F V2Config :=
  mkSpec "v2ray.toml" (V2Defaults NewV2Config) v2_ReadInConfig v_Set.

(** ** openvpn.toml *)
Definition NewOvConfig : OvConfig := mkOvConfig "" 0 "" "" false.
Definition ov_start : M F gerror OvConfig := port ← drawn RandomPort; mret (OvDefaults port NewOvConfig).
Definition ov_ReadInConfig `{!Mapstructure OvConfig} : string -> M F gerror OvConfig := readOver ov_start.
Definition openvpn_spec `{!Mapstructure OvConfig} : ConfigSpec F OvConfig := mkSpec "openvpn.toml" ov_start ov_ReadInConfig v_Set.

(** ** hysteria.toml *)
Context (fuel : nat).
Definition NewHyConfig : HyConfig := mkHyConfig (mkHyServer 0 "" "" "") (mkHyAPI 0 0).
Definition hy_start : M F gerror HyConfig := drawn_opt (HyDefaults fuel NewHyConfig).
Definition hy_ReadInConfig `{!Mapstructure HyConfig} : string -> M F gerror HyConfig := readOver hy_start.
Definition hysteria_spec `{!Mapstructure HyConfig} : ConfigSpec F HyConfig := mkSpec "hysteria.toml" hy_start hy_ReadInConfig v_Set.

(** ** xray.toml: a file is read over defaults without keys of their own. *)
Context (X25519 : bytes -> result bytes).
Definition xr_ReadInConfig `{!Mapstructure XConfig} : string -> M F gerror XConfig := readOver (drawn (withStaticDefaults NewXConfig)).
Definition xray_spec `{!Mapstructure XConfig} : ConfigSpec F XConfig :=
  mkSpec "xray.toml" (drawn_or_panic (XWithDefaultValues X25519 NewXConfig)) xr_ReadInConfig v_Set.

(** ** amneziawg.toml: a file is read over the interfaces' names alone. *)
Definition awg_blank : Amnezia.Config :=
  let c := NewConfig in
  mkConfig "awg0" (c_ListenPort c) (c_PrivateKey c) (c_Uplink c) true (c_IPv4Subnet c) (c_IPv6Subnet c) (c_Obfuscation c)
    ((fun v => mkV3 (v_Enabled v) V3Interface (v_ListenPort v) (v_PrivateKey v) (v_IPv4Subnet v) (v_IPv6Subnet v) (v_HeaderProtectionKey v)
       (v_S v) (v_H v) (v_RandomTrailers v) (v_ContentPaddingAddition v)) <$> c_V3 c).
Definition awg_ReadInConfig `{!Mapstructure Amnezia.Config} : string -> M F gerror Amnezia.Config := readOver (mret awg_blank).
Definition amneziawg_spec `{!Mapstructure Amnezia.Config} : ConfigSpec F Amnezia.Config :=
  mkSpec "amneziawg.toml" (drawn_opt (WithDefaultValues fuel)) awg_ReadInConfig v_Set.

(** ** config.toml *)
Definition node_start : M F gerror AppConfig := port ← drawn RandomPort; mret (AppDefaults port Itoa NewAppConfig).
Definition node_ReadInConfig `{!Mapstructure AppConfig} : string -> M F gerror AppConfig := readOver node_start.
End Specs.

(** The files the commands work on, the node's first, then the protocols' in the
    registry's order. *)
Definition configFiles : list string :=
  ["config.toml"; "wireguard.toml"; "v2ray.toml"; "xray.toml"; "hysteria.toml"; "amneziawg.toml"; "openvpn.toml"].

(** No command can touch the file of another. *)
Lemma config_files_apart {F} `{!Disk F} {DL : DiskLaws F} home a b : a ∈ configFiles -> b ∈ configFiles -> a ≠ b -> Join home a ≠ Join home b.
Proof.
  assert (forall x, x ∈ configFiles -> plain x) as Hp.
  { intros x Hx; repeat (apply elem_of_cons in Hx as [->|Hx]; [by apply (bool_decide_unpack (_ ∧ _)); vm_compute|]); by apply elem_of_nil in Hx. }
  intros Ha Hb Hne E; apply Hne, (join_base home home); [by apply Hp..|done].
Qed.

(** * What is read is what was saved *)

(** What viper and mapstructure document: reading a file gives its lines; a file that
    has a key for every field decides every field, if its values fit them; neither
    changes a file. *)
Class ViperLaws (F : Type) `{!Disk F, !Viper F} := {
  v_read_keeps p : keeps_disk (v_ReadInConfig p);
  v_reads p s e d : inode s p = Some e -> readDoc (en_data e) = Some d -> (v_ReadInConfig p s).1 = inr d
}.
Class MapstructureLaws (C : Type) `{!ConfigType C, !Mapstructure C} := {
  fits : C -> Prop;
  unmarshal_all c c0 d : fits c -> docOf c = inr d -> Unmarshal d c0 = inr c
}.

Section ReadBack.
Context {F C : Type} `{!Disk F, !ConfigHost F, !Viper F} {DL : DiskLaws F} {HL : ConfigHostLaws F} {VL : ViperLaws F}
  {CT : ConfigType C} {FC : Faithful C} `{!Mapstructure C} {ML : MapstructureLaws C}.
Context (file : string) (start : M F gerror C) (default : M F gerror C) (home : string).
Context (Hstart : forall s, ∃ c, (start s).1 = inr c ∧ forall p, inode (start s).2 p = inode s p).
Let spec : ConfigSpec F C := mkSpec file default (readOver start) v_Set.

Lemma readOver_keeps p : keeps_disk (readOver start p).
Proof.
  intros s q; unfold readOver, mbind, M_bind; destruct (Hstart s) as (c & E & K); destruct (start s) as [r s1]; cbn in E, K; subst r.
  pose proof (v_read_keeps p s1 q) as Kv; destruct (v_ReadInConfig p s1) as [[e|d] s2]; cbn in *; by rewrite Kv.
Qed.

Lemma readOver_reads c path s : holds c (inode s path) -> Forall text (texts c) -> fits c -> (readOver start path s).1 = inr c.
Proof.
  intros (d & g & Hd & He & Hback) Ht Hf; destruct (Hback Ht) as [Hr _]; unfold readOver.
  destruct (Hstart s) as (c0 & H0 & Hk); destruct (start s) as [r s1] eqn:Es; cbn in H0, Hk; subst r.
  unfold mbind, M_bind; rewrite Es; destruct (v_ReadInConfig path s1) as [r s2] eqn:Er.
  assert (r = inr d) as ->.
  { pose proof (v_reads path s1 (mkEntry (render d) 384 g) d) as H; rewrite Er in H; apply H; [by rewrite Hk|done]. }
  unfold executed; cbn; by apply unmarshal_all.
Qed.

(** What [config set] saved is what the next start reads: the file, read again over
    whatever defaults were drawn, gives the configuration that was set. *)
Theorem set_is_read key val s s' : configSet spec home key val s = (inr tt, s') ->
  ∃ c c' s1, readOver start (configPath spec home) s = (inr c, s1) ∧ v_Set c key val = inr c'
    ∧ (Forall text (texts c') -> fits c' -> (readOver start (configPath spec home) s').1 = inr c').
Proof.
  intros H; apply bind_inv in H as [(? & _ & ?)|(c & s1 & Hr & H)]; [done|].
  apply bind_inv in H as [(? & _ & ?)|(c' & s2 & [= Hset <-] & H)]; [done|].
  apply (saved_holds spec) in H as [Hh _]; [|exact readOver_keeps]; exists c, c', s1; split_and!; [done..|]; intros; by apply readOver_reads.
Qed.
End ReadBack.

(** * The defaults *)
Section Defaults.
Context {F : Type} `{!Rand F} {RL : RandLaws F}.

Lemma drawn_port s p s' : drawn RandomPort s = (inr p, s') -> (1024 <= p < 65536)%Z.
Proof. unfold drawn; pose proof (RandomPort_range s) as H; destruct (RandomPort s) as [q t]; cbn in *; by intros [= -> ->]. Qed.

(** A V2Ray configuration made by [config init] is accepted, unless the same port was
    drawn for the clients and for the control API, in which case it is refused. *)
Theorem v2_defaults_valid s c s' : V2Defaults NewV2Config s = (inr c, s') ->
  V2Config_Validate c = if (vc_APIPort c =? vm_ListenPort (vc_VMess c))%Z then inl "api port must differ from the vmess listen_port" else inr tt.
Proof.
  intros H; unfold V2Defaults, VMessDefaults, V2APIDefaults in H.
  apply bind_inv in H as [(? & _ & ?)|(vm & s1 & H1 & H)]; [done|].
  apply bind_inv in H1 as [(? & _ & ?)|(p & s2 & Hp & [[= ->] ->]%ret_inv)]; [done|].
  apply bind_inv in H as [(? & _ & ?)|(q & s3 & Hq & [[= ->] ->]%ret_inv)]; [done|].
  apply drawn_port in Hp, Hq; unfold V2Config_Validate, VMess_Validate, V2API_Validate; cbn [vc_VMess vc_APIPort vm_ListenPort vm_Transport].
  rewrite (proj2 (Z.eqb_neq p 0)), (proj2 (Z.eqb_neq q 0)) by lia; done.
Qed.

(** A WireGuard configuration made by [config init] is always accepted. *)
Theorem wg_defaults_valid s c s' : WgDefaults NewWgConfig s = (inr c, s') -> WgConfig_Validate c = inr tt.
Proof.
  intros H; unfold WgDefaults in H; apply bind_inv in H as [(? & _ & ?)|(key & s1 & Hk & H)]; [done|].
  apply bind_inv in H as [(? & _ & ?)|(p & s2 & Hp & [[= ->] ->]%ret_inv)]; [done|]; apply drawn_port in Hp.
  assert (length key = KeyLength) as Hl.
  { unfold drawn in Hk; pose proof (NewPrivateKey_length s) as HL; destruct (NewPrivateKey s) as [k t]; by injection Hk as <- _. }
  unfold WgConfig_Validate; cbn [w_Interface w_ListenPort w_PrivateKey].
  rewrite KeyString_read by done; cbn [Wrap]; rewrite !then_inr, !check_inr; split_and!; try done; [lia|].
  apply bool_decide_eq_false; intros E; pose proof (KeyString_read key Hl) as Hb; by rewrite E in Hb.
Qed.
End Defaults.
