(* ===== verification/Keys.v ===== *)
(** The key commands: src/cmd/keys.go and src/cmd/authz.go, with [WriteKeys] of
    src/utils/keys.go and [LegacyHomeHint] of src/types/keys.go.

    The keyring, the terminal and bip39 are a parameter ([KeyHost]); the rows of a
    table are handed to text/tabwriter, whose alignment is the terminal's.  The grants
    the operator is told to make are a list of commands, rendered as text. *)
From S2P Require Import Prelude Codec Guard NodeConfig Grants.
Set Default Proof Using "Type*".
Local Open Scope string_scope.

Record keyRecord := mkKey { key_Name : string; key_Address : result bytes }.

Class KeyHost (W : Type) := {
  k_config : string -> M W gerror AppConfig;                 (* types.ReadInConfig *)
  k_open : string -> string -> M W gerror unit;              (* keyring.New(backend, home) *)
  k_Key : string -> M W gerror keyRecord;
  k_NewAccount : string -> string -> string -> M W gerror keyRecord;   (* name, mnemonic, path *)
  k_List : M W gerror (list keyRecord);
  k_Delete : string -> M W gerror unit;
  k_entropy : M W gerror bytes;                              (* bip39.NewEntropy(256) *)
  k_typed : M W gerror string;                               (* the mnemonic the operator enters *)
  k_there : string -> W -> bool;                             (* os.Stat succeeds *)
  k_stderr : string -> W -> W;
  k_table : list (list string) -> M W gerror unit;           (* the rows of a tabwriter, at its Flush *)
  k_stdout : string -> M W gerror unit;
  stored : W -> gmap string keyRecord;
  shown : W -> list string                                   (* the lines of stderr, oldest first *)
}.

Definition LegacyKeyringName : string := "sentinel".
(** The two home directories hang off the user's. *)
Record homes := mkHomes { DefaultHomeDirectory : string; LegacyHomeDirectory : string }.
Definition homesOf (Join : string -> string -> string) (userHome : string) : homes :=
  mkHomes (Join userHome ".dvpnd") (Join userHome ".sentinelnode").
Definition LegacyHomeHint (d : homes) (there : string -> bool) (home : string) : string :=
  if bool_decide (home ≠ DefaultHomeDirectory d) then "" else if there home then "" else
  if negb (there (LegacyHomeDirectory d)) then "" else
  "home directory " +:+ home +:+ " does not exist but " +:+ LegacyHomeDirectory d
  +:+ " (upstream node) does; copy it to " +:+ home +:+ " to reuse its config.toml, data.db and "
  +:+ "file keyring, or pass --home " +:+ LegacyHomeDirectory d +:+ ". Keys kept in the OS keyring "
  +:+ "were stored under the service name " +:+ quoted LegacyKeyringName +:+ " and must be re-imported.".

Section Commands.
Context {W : Type} `{!KeyHost W} (Validate : AppConfig -> result unit) (NewMnemonic : bytes -> result string)
  (IsMnemonicValid : string -> bool) (CreateHDPath : Z -> Z -> string) (NodeString AccString : bytes -> string)
  (dirs : homes) (configPath home : string).

Definition answered_with {A} (r : result A) : M W gerror A := fun w => (r, w).
Definition on_stderr (line : string) : M W gerror unit := fun w => (inr tt, k_stderr line w).

Definition warnLegacyHome : M W gerror unit := fun w =>
  let hint := LegacyHomeHint dirs (fun p => k_there p w) home in
  (if decide (hint = "") then mret tt else on_stderr ("Note: " +:+ hint)) w.

(** The steps the four commands begin with: the configuration and the keyring. *)
Definition withKeyring (skip : bool) : M W gerror AppConfig :=
  warnLegacyHome ≫= fun _ =>
  config ← k_config configPath;
  answered_with (if skip then inr tt else Validate config) ≫= fun _ =>
  mret config.
Definition keyName (config : AppConfig) (arg : option string) : string := default (From (Keyring config)) arg.

Definition keyRow (k : keyRecord) : result (list string) :=
  addr ← key_Address k;
  inr [key_Name k; NodeString addr; AccString addr].
Fixpoint keyRows (keys : list keyRecord) : result (list (list string)) :=
  match keys with
  | [] => inr []
  | k :: keys => row ← keyRow k; rows ← keyRows keys; inr (row :: rows)
  end.
(** The writer holds the rows back until it is flushed, so an address that cannot be
    read leaves nothing on the terminal. *)
Definition WriteKeys (keys : list keyRecord) : M W gerror unit :=
  rows ← answered_with (keyRows keys);
  k_table (["Name"; "Address"; "Operator"] :: rows).

Definition keysAdd (skip recover : bool) (account index : Z) (arg : option string) : M W gerror unit :=
  config ← withKeyring skip;
  let name := keyName config arg in
  k_open (Backend (Keyring config)) home ≫= fun _ =>
  found ← attempt (k_Key name);
  throw_if (if found is inr _ then true else false) ("key already exists with name " +:+ name) ≫= fun _ =>
  entropy ← k_entropy;
  mnemonic ← answered_with (NewMnemonic entropy);
  mnemonic ← (if recover then
      typed ← k_typed;
      throw_if (negb (IsMnemonicValid typed)) "invalid bip39 mnemonic" ≫= fun _ => mret typed
    else mret mnemonic);
  key ← k_NewAccount name mnemonic (CreateHDPath account index);
  (if recover then mret tt else
     on_stderr "**Important** write this mnemonic phrase in a safe place" ≫= fun _ =>
     on_stderr mnemonic ≫= fun _ => on_stderr "") ≫= fun _ =>
  WriteKeys [key].
Definition keysShow (skip : bool) (arg : option string) : M W gerror unit :=
  config ← withKeyring skip;
  k_open (Backend (Keyring config)) home ≫= fun _ =>
  key ← k_Key (keyName config arg);
  WriteKeys [key].
Definition keysList (skip : bool) : M W gerror unit :=
  config ← withKeyring skip;
  k_open (Backend (Keyring config)) home ≫= fun _ =>
  keys ← k_List;
  WriteKeys keys.
Definition keysDelete (skip : bool) (arg : option string) : M W gerror unit :=
  config ← withKeyring skip;
  k_open (Backend (Keyring config)) home ≫= fun _ =>
  k_Delete (keyName config arg).

(** * The grants of a hot key (authz.go) *)
Record authzGrants := mkAuthz {
  az_Granter : string; az_Grantee : string; az_ChainID : string; az_Node : string; az_GasPrices : string;
  az_Expiry : Z; az_SpendLimit : Coins }.
(** A line of the output that is run: the expiry is in whole seconds. *)
Inductive chainCommand :=
  | GrantAuthz (grantee msgType : string) (expiration : Z) (common : string)
  | GrantFees (granter grantee : string) (limit : Coins) (expiration : Z) (allowed : string) (common : string).
Context (MsgTypeURL : MsgType -> string) (CoinsString : Coins -> string) (RFC3339 : Z -> string).
Definition authz_common (g : authzGrants) : string :=
  "--from " +:+ az_Granter g +:+ " --chain-id " +:+ az_ChainID g +:+ " --node " +:+ az_Node g
  +:+ " --gas auto --gas-adjustment 1.3 --gas-prices " +:+ az_GasPrices g.
Definition unixSeconds (t : Z) : Z := (t / second)%Z.
Definition authz_commands (g : authzGrants) : list chainCommand :=
  (((fun url => GrantAuthz (az_Grantee g) url (unixSeconds (az_Expiry g)) (authz_common g)) <$> NodeMsgTypeURLs MsgTypeURL)
   ++ [GrantFees (az_Granter g) (az_Grantee g) (az_SpendLimit g) (unixSeconds (az_Expiry g)) (ExecMsgTypeURL MsgTypeURL) (authz_common g)])%list.
Context (Itoa : Z -> string).
Definition commandLine (c : chainCommand) : string :=
  match c with
  | GrantAuthz grantee url exp common =>
      "sentinelhub tx authz grant " +:+ grantee +:+ " generic --msg-type " +:+ url +:+ " --expiration " +:+ Itoa exp +:+ " " +:+ common
  | GrantFees granter grantee limit exp allowed common =>
      "sentinelhub tx feegrant grant " +:+ granter +:+ " " +:+ grantee +:+ " --spend-limit " +:+ CoinsString limit
      +:+ " --expiration " +:+ RFC3339 (exp * second)%Z +:+ " --allowed-messages " +:+ allowed +:+ " " +:+ common
  end.

Definition line (l : string) : string := l +:+ String "010"%char "".
Definition authz_write (AccAddressFromBech32 : string -> result bytes) (g : authzGrants) : string :=
  String.concat "" (line <$> [
    "# Run these with the sentinelhub CLI from the wallet that holds the node account";
    "# " +:+ az_Granter g +:+ ", not on this server. They let the hot key " +:+ az_Grantee g +:+ " send the";
    "# node's messages and spend up to " +:+ CoinsString (az_SpendLimit g) +:+ " of the node account's funds on their";
    "# fees, for MsgExec only, until " +:+ RFC3339 (az_Expiry g) +:+ ". Make them again before then."]
    ++ (if AccAddressFromBech32 (az_Granter g) is inr addr then ["# Node address: " +:+ NodeString addr] else [])
    ++ [""] ++ (commandLine <$> authz_commands g))%list.

Definition keysAuthzCommands (AccAddressFromBech32 : string -> result bytes) (ParseCoins : string -> result Coins) (now validFor : Z)
    (flagGranter limit : string) : M W gerror unit :=
  config ← k_config configPath;
  let granter := if decide (flagGranter = "") then Granter (Keyring config) else flagGranter in
  answered_with (Wrap "the node account: set [keyring] granter or pass --granter sent1..." (AccAddressFromBech32 granter)) ≫= fun _ =>
  spend ← answered_with (match ParseCoins limit with
    | inr ((_ :: _) as coins) => inr coins
    | _ => inl ("invalid --spend-limit " +:+ quoted limit)
    end);
  k_open (Backend (Keyring config)) home ≫= fun _ =>
  key ← k_Key (From (Keyring config));
  addr ← answered_with (key_Address key);
  throw_if (bool_decide (AccString addr = granter)) ("the key " +:+ quoted (From (Keyring config)) +:+ " is the node account itself; create a separate hot key") ≫= fun _ =>
  k_stdout (authz_write AccAddressFromBech32 (mkAuthz granter (AccString addr) (ch_ID (Chain_ config)) (Str.to_string (Str.cut "," (Str.of_string (RPCAddresses (Chain_ config)))).1.1)
    (GasPrices (Chain_ config)) (now + validFor) spend)).
End Commands.

(** * What the commands keep safe

    [quiet m]: the keys and the lines of stderr are as before, whatever comes of it. *)
Definition quiet {W A} `{!KeyHost W} (m : M W gerror A) : Prop :=
  forall w r w', m w = (r, w') -> stored w' = stored w ∧ shown w' = shown w.
(** What is relied on: only [NewAccount] and [Delete] change the keys, a key that is
    there is found, and what is written to stderr is what the operator sees. *)
Class KeyLaws (W : Type) `{!KeyHost W} := {
  kl_config p : quiet (k_config p);
  kl_open b h : quiet (k_open b h);
  kl_Key n : quiet (k_Key n);
  kl_List : quiet k_List;
  kl_entropy : quiet k_entropy;
  kl_typed : quiet k_typed;
  kl_table l : quiet (k_table l);
  kl_stdout l : quiet (k_stdout l);
  kl_found n w k : stored w !! n = Some k -> (k_Key n w).1 = inr k;
  kl_new n m p w r w' : k_NewAccount n m p w = (r, w') ->
    shown w' = shown w ∧ stored w' = if r is inr k then <[n := k]> (stored w) else stored w;
  kl_Delete n w r w' : k_Delete n w = (r, w') ->
    shown w' = shown w ∧ stored w' = if r is inr _ then delete n (stored w) else stored w;
  kl_stderr l w : stored (k_stderr l w) = stored w ∧ shown (k_stderr l w) = (shown w ++ [l])%list
}.

Section Safe.
Context {W : Type} `{!KeyHost W} `{!KeyLaws W} (Validate : AppConfig -> result unit) (NewMnemonic : bytes -> result string)
  (IsMnemonicValid : string -> bool) (CreateHDPath : Z -> Z -> string) (NodeString AccString : bytes -> string)
  (dirs : homes) (configPath home : string).

Lemma quiet_bind {A B} (m : M W gerror A) (f : A -> M W gerror B) : quiet m -> (forall a, quiet (f a)) -> quiet (m ≫= f).
Proof using Type.
  intros Hm Hf w r w' H; apply bind_inv in H as [(e & H%Hm & _)|(a & w1 & [H1 H2]%Hm & [H3 H4]%Hf)]; [done|].
  by rewrite H3, H4.
Qed.
Lemma quiet_answered {A} (r : result A) : quiet (answered_with r).
Proof using Type. by intros w r' w' [= <- <-]. Qed.
Lemma quiet_throw_if b e : quiet (throw_if b e : M W gerror unit).
Proof using Type. by intros w r w' [-> _]%throw_if_inv. Qed.
Lemma quiet_ret {A} (a : A) : quiet (mret a : M W gerror A).
Proof using Type. by intros w r w' [_ ->]%ret_inv. Qed.
Lemma quiet_attempt {A} (m : M W gerror A) : quiet m -> quiet (attempt m : M W gerror (gerror + A)).
Proof using Type. by intros Hm w r w' (x & H%Hm & _)%attempt_inv. Qed.
Lemma quiet_WriteKeys keys : quiet (WriteKeys NodeString AccString keys).
Proof. apply quiet_bind; [apply quiet_answered|intros; apply kl_table]. Qed.

(** The hint about an old home directory, and nothing else, is told before the
    configuration is read. *)
Definition hinted (w : W) : list string :=
  let hint := LegacyHomeHint dirs (fun p => k_there p w) home in if decide (hint = "") then [] else ["Note: " +:+ hint].
Lemma withKeyring_tells skip w r w' : withKeyring Validate dirs configPath home skip w = (r, w') ->
  stored w' = stored w ∧ shown w' = (shown w ++ hinted w)%list.
Proof.
  unfold withKeyring; intros H.
  assert (∃ w1, stored w1 = stored w ∧ shown w1 = (shown w ++ hinted w)%list
    ∧ (config ← k_config configPath; answered_with (if skip then inr tt else Validate config) ≫= fun _ => mret config) w1 = (r, w')) as (w1 & <- & <- & H').
  { unfold mbind at 1, M_bind at 1, warnLegacyHome in H; unfold hinted; destruct (decide (LegacyHomeHint _ _ _ = "")); cbn in H; eexists; (split_and!; [| |exact H]); rewrite ?app_nil_r; by try apply kl_stderr. }
  clear H; revert w1 r w' H'; change (quiet (config ← k_config configPath; answered_with (if skip then inr tt else Validate config) ≫= fun _ => mret config)).
  repeat first [apply quiet_bind; [|intros] | apply kl_config | apply quiet_answered | apply quiet_ret].
Qed.

(** One step back: a failure there ends the run with the keys as they were. *)
Local Ltac step H := apply bind_inv in H as [(?e & H & ->)|(?a & ?w & ?Hm & H)].
Local Ltac quietly H := lazymatch type of H with
  | k_config _ _ = _ => apply kl_config in H as [<- <-]
  | k_open _ _ _ = _ => apply kl_open in H as [<- <-]
  | k_entropy _ = _ => apply kl_entropy in H as [<- <-]
  | k_typed _ = _ => apply kl_typed in H as [<- <-]
  | answered_with _ _ = _ => apply quiet_answered in H as [<- <-]
  | WriteKeys _ _ _ _ = _ => apply quiet_WriteKeys in H as [<- <-]
  end.

Definition chosen (recover : bool) (mnemonic : string) : M W gerror string :=
  if recover then typed ← k_typed; throw_if (negb (IsMnemonicValid typed)) "invalid bip39 mnemonic" ≫= fun _ => mret typed else mret mnemonic.
Lemma chosen_quiet recover mnemonic w r w' : chosen recover mnemonic w = (r, w') ->
  (stored w' = stored w ∧ shown w' = shown w) ∧ forall m, r = inr m -> recover = true -> IsMnemonicValid m = true.
Proof.
  destruct recover; cbn; intros H; [|by apply ret_inv in H as [-> ->]].
  step H; [quietly H; naive_solver|]; quietly Hm.
  step H; [apply throw_if_inv in H as [-> _]; naive_solver|].
  apply throw_if_inv in Hm as [-> [[_ ?]|[Hv _]]]; [done|]; apply ret_inv in H as [-> ->]; split; [done|].
  intros m [= <-] _; by destruct (IsMnemonicValid a).
Qed.

(** [keys add] never overwrites a key, shows the mnemonic of a key it made exactly
    once, and never the one the operator typed to recover a key: what it stores, if
    anything, is one new name. *)
Definition mnemonicShown (m : string) : list string := ["**Important** write this mnemonic phrase in a safe place"; m; ""].
Theorem keysAdd_safe skip recover account index arg w r w' :
  keysAdd Validate NewMnemonic IsMnemonicValid CreateHDPath NodeString AccString dirs configPath home skip recover account index arg w = (r, w') ->
  (stored w' = stored w ∧ shown w' = (shown w ++ hinted w)%list) ∨
  ∃ name m key w1 w2, stored w !! name = None
    ∧ k_NewAccount name m (CreateHDPath account index) w1 = (inr key, w2)
    ∧ stored w' = <[name := key]> (stored w)
    ∧ if recover then IsMnemonicValid m = true ∧ shown w' = (shown w ++ hinted w)%list
      else shown w' = ((shown w ++ hinted w) ++ mnemonicShown m)%list.
Proof.
  unfold keysAdd; intros H; step H; [left; by apply withKeyring_tells in H|].
  apply withKeyring_tells in Hm as [<- Hsh]; rewrite <- Hsh; clear Hsh w.
  step H; [quietly H; by left|]; quietly Hm.
  apply bind_inv in H as [(e & (x & _ & [=])%attempt_inv & _)|(found & w1 & (x & Hk & [= ->])%attempt_inv & H)].
  pose proof (kl_Key _ _ _ _ Hk) as [E1 E2].
  step H; [apply quiet_throw_if in H as [-> ->]; rewrite E1, E2; by left|].
  apply throw_if_inv in Hm as [-> [[_ ?]|[Hfound _]]]; [done|].
  match type of Hk with k_Key _ ?v = _ => assert (stored v !! keyName a arg = None) as Hnone end.
  { destruct (_ !! keyName a arg) as [k|] eqn:Hs; [|done]; apply kl_found in Hs; rewrite Hk in Hs; cbn in Hs; by subst. }
  revert Hnone; rewrite <- E1, <- E2; clear E1 E2 Hk.
  do 2 (step H; [quietly H; by left|]; quietly Hm).
  step H; [by apply chosen_quiet in H as [[-> ->] _]; left|].
  apply chosen_quiet in Hm as [[<- <-] Hvalid].
  step H; [apply kl_new in H as [-> ->]; by left|]; rename Hm into Hnew; intros Hnone.
  pose proof (kl_new _ _ _ _ _ _ Hnew) as [E1 E2]; right.
  eexists _, _, _, _, _; split; [exact Hnone|split; [exact Hnew|]]; rewrite <- E2, <- E1.
  destruct recover; (apply bind_inv in H as [(e & [=] & _)|([] & w6 & Hw & [-> ->]%quiet_WriteKeys)]).
  - apply ret_inv in Hw as [_ ->]; by eauto.
  - injection Hw as <-; cbn; destruct (kl_stderr "" (k_stderr a4 (k_stderr "**Important** write this mnemonic phrase in a safe place" w5))) as [-> ->],
      (kl_stderr a4 (k_stderr "**Important** write this mnemonic phrase in a safe place" w5)) as [-> ->],
      (kl_stderr "**Important** write this mnemonic phrase in a safe place" w5) as [-> ->].
    by rewrite <- !(assoc_L app).
Qed.
End Safe.

(** * What the printed commands give the hot key *)
Section Suffice.
(** What the chain holds of a granter's grants to the hot key once a command is in: a
    grant that expires, and an allowance limited to one message. *)
Definition chainGrants : Type := gmap string GrantState * option FeeAllowance.
Definition chain_runs (g : chainGrants) (c : chainCommand) : chainGrants :=
  match c with
  | GrantAuthz _ url exp _ => (<[url := mkGrant true (Some (exp * second)%Z)]> g.1, g.2)
  | GrantFees _ _ limit _ allowed _ => (g.1, Some (AllowedMsgAllowance [allowed] (BasicAllowance (Some limit))))
  end.

Lemma runs_grants (grantee : string) exp common urls g :
  let g' := foldl chain_runs g ((fun url => GrantAuthz grantee url exp common) <$> urls) in
  g'.2 = g.2 ∧ forall url, url ∈ urls -> g'.1 !! url = Some (mkGrant true (Some (exp * second)%Z)).
Proof using Type.
  induction urls as [|url urls IH] using rev_ind; cbn; [set_solver|].
  rewrite fmap_app, foldl_app; cbn; destruct IH as [-> IH]; split; [done|]; intros u Hu.
  destruct (decide (u = url)) as [->|]; [by rewrite lookup_insert_eq|]; rewrite lookup_insert_ne by done; set_solver.
Qed.

Context (MsgTypeURL : MsgType -> string) (ExpiresAt : FeeAllowance -> result (option Z)) (AmountOf : Coins -> string -> Z)
  (RFC3339 Itoa : Z -> string).

(** The commands of [keys authz-commands], run before the expiry they name, are all
    the node asks for: it starts, whatever was granted before, as long as the expiry
    (in whole seconds) is ahead and the limit holds some of each coin it needs; and
    it has nothing to warn of while the expiry is two weeks ahead and the limit covers
    the fees it expects. *)
Theorem authz_commands_suffice g before now minSpend :
  let after := foldl chain_runs before (authz_commands MsgTypeURL g) in
  let expiry := (unixSeconds (az_Expiry g) * second)%Z in
  let verdict := EvaluateGrants MsgTypeURL ExpiresAt AmountOf RFC3339 Itoa now after.1 after.2 minSpend in
  ExpiresAt (BasicAllowance (Some (az_SpendLimit g))) = inr (Some expiry) ->
  ((now < expiry)%Z -> (forall coin, coin ∈ minSpend -> AmountOf (az_SpendLimit g) coin.1 ≠ 0%Z) -> verdict.1 = [])
  ∧ ((now + GrantWarningWindow <= expiry)%Z -> (forall coin, coin ∈ minSpend -> (coin.2 <= AmountOf (az_SpendLimit g) coin.1)%Z) ->
     verdict.1 = [] ∧ verdict.2 = []).
Proof using All.
  intros after expiry verdict Hexp.
  destruct (runs_grants (az_Grantee g) (unixSeconds (az_Expiry g)) (authz_common g) (NodeMsgTypeURLs MsgTypeURL) before) as [_ Hg].
  assert (forall url, url ∈ NodeMsgTypeURLs MsgTypeURL -> after.1 !! url = Some (mkGrant true (Some expiry))) as H1
    by (unfold after, authz_commands; rewrite foldl_app; exact Hg).
  set (inner := BasicAllowance (Some (az_SpendLimit g))) in *.
  assert (after.2 = Some (AllowedMsgAllowance [ExecMsgTypeURL MsgTypeURL] inner)) as H2
    by (unfold after, authz_commands; by rewrite foldl_app).
  assert (pays MsgTypeURL (AllowedMsgAllowance [ExecMsgTypeURL MsgTypeURL] inner) inner) as Hp by (apply pays_wrapped; set_solver).
  clear Hg; clearbody after; split; intros Ht Hc; [apply evaluate_problems|apply evaluate_silent]; (split;
    [ intros url Hu; eexists; split; [by apply H1|done]
    | eexists _, _; split; [exact H2|split; [exact Hp|split; [rewrite Hexp; by intros ? [= <-]|]]] ]);
    intros limit coin [= <-] Hcoin; specialize (Hc coin Hcoin); naive_solver.
Qed.
End Suffice.
