(* ===== verification/Api.v ===== *)
(** The node API around its handlers: the middlewares of src/api (api.go, limits.go,
    logging.go, recover.go), the routes of src/api/session/routes.go and
    src/api/status/routes.go, and the documents of src/api/status.

    A handler is a function of the request and the response writer, with the lines
    it logs; a middleware wraps one.  A panic is a value ([wr_panic]).  Rendering of
    JSON is a parameter. *)
From S2P Require Import Prelude Floats Codec Types Guard StaticKey Egress NodeConfig GeoIP Bandwidth.
Set Default Proof Using "Type*".
Local Open Scope string_scope.

(** * Requests, responses and the log *)
Record httpRequest := mkHttpRequest {
  hq_method : string; hq_path : string; hq_agent : string; hq_remoteIP : string; hq_body : bytes;
  hq_limit : option nat  (* http.MaxBytesReader *) }.
Definition ReadBody (r : httpRequest) : result bytes :=
  match hq_limit r with
  | Some n => if (n <? length (hq_body r))%nat then inl "http: request body too large" else inr (hq_body r)
  | None => inr (hq_body r)
  end.

Record writer := mkWriter { wr_status : option Z; wr_headers : gmap string string; wr_writes : list Str.chars; wr_panic : option string }.
Definition writer0 : writer := mkWriter None ∅ [] None.
Definition Status (w : writer) : Z := default 200%Z (wr_status w).
Definition setHeader (k v : string) (w : writer) : writer := mkWriter (wr_status w) (<[k := v]> (wr_headers w)) (wr_writes w) (wr_panic w).

Inductive level := LDebug | LInfo | LError.
Record logline := mkLog { lg_level : level; lg_message : string; lg_fields : list (string * string) }.
Definition handler := httpRequest -> writer -> writer * list logline.

(** * Middlewares *)
Section Middlewares.
Context (version replySigningScheme : string) (Itoa : Z -> string) (internalBody stack : Str.chars).

Definition AppName : string := "dvpnd".
Definition serverHeader (next : handler) : handler := fun r w => next r (setHeader "Server" (AppName +:+ "/" +:+ version) w).
Definition replySigningHeader (next : handler) : handler := fun r w => next r (setHeader "X-Dvpnd-Reply-Signing" replySigningScheme w).

(** [bodyCapture.Write] *)
Definition captureLimit : nat := 512.
Definition capture (body b : Str.chars) : Str.chars :=
  if (length body <? captureLimit)%nat then (body ++ take (captureLimit - length body) b)%list else body.
Definition captured (writes : list Str.chars) : Str.chars := foldl capture [] writes.

Definition logRefusals (next : handler) : handler := fun r w =>
  let '(w', logs) := next r w in
  let debug := mkLog LDebug "Request answered"
    [("method", hq_method r); ("path", hq_path r); ("status", Itoa (Status w')); ("client", hq_remoteIP r); ("agent", hq_agent r)] in
  let refusal := mkLog LError "Request refused"
    [("method", hq_method r); ("path", hq_path r); ("status", Itoa (Status w')); ("agent", hq_agent r);
     ("reply", Str.to_string (captured (drop (length (wr_writes w)) (wr_writes w'))))] in
  (w', logs ++ debug :: if ((Status w' <? 400) || (Status w' =? 429))%Z then [] else [refusal])%list.

(** The status cannot change once something was written. *)
Definition AbortWithStatusJSON (code : Z) (body : Str.chars) (w : writer) : writer :=
  mkWriter (if decide (wr_writes w = []) then Some code else wr_status w) (wr_headers w) (wr_writes w ++ [body])%list None.
Definition recoverPanics (next : handler) : handler := fun r w =>
  let '(w', logs) := next r w in
  match wr_panic w' with
  | None => (w', logs)
  | Some err =>
      (AbortWithStatusJSON 500 internalBody w',
       logs ++ [mkLog LError "Request handler panicked"
         [("method", hq_method r); ("path", hq_path r); ("error", err); ("stack", Str.to_string stack)]])%list
  end.

Definition maxBodyBytes : nat := Z.to_nat (Z.shiftl 64 10).
Definition limitBody (next : handler) : handler := fun r w =>
  next (mkHttpRequest (hq_method r) (hq_path r) (hq_agent r) (hq_remoteIP r) (hq_body r) (Some maxBodyBytes)) w.

(** The order [RegisterRoutes] puts them in, around a route's handler. *)
Definition api_serve (h : handler) : handler :=
  serverHeader (replySigningHeader (logRefusals (recoverPanics (limitBody h)))).
End Middlewares.

(** ** The routes *)
Inductive endpoint := EHandshake | EAddSession | EGetRoot | EGetStatus.
Definition session_routes (legacy : bool) : list (string * string * endpoint) :=
  (("POST", "/", EHandshake) :: if legacy then [("POST", "/accounts/:acc_address/sessions/:id", EAddSession)] else [])%list.
Definition status_routes : list (string * string * endpoint) := [("GET", "/", EGetRoot); ("GET", "/status", EGetStatus)].
Definition api_routes (legacy : bool) : list (string * string * endpoint) := (session_routes legacy ++ status_routes)%list.

(** * What every answer has *)
Section Proofs.
Context (version scheme : string) (Itoa : Z -> string) (internalBody stack : Str.chars).
Abbreviation run_api := (api_serve version scheme Itoa internalBody stack).

(** The reason logged with a refusal is the first 512 bytes of the reply, however it was written. *)
Lemma captured_prefix writes : captured writes = take captureLimit (mjoin writes).
Proof.
  unfold captured; induction writes as [|b l IH] using rev_ind; [done|].
  rewrite foldl_snoc, IH, join_app; cbn [mjoin list_join]; rewrite app_nil_r; unfold capture.
  rewrite length_take, take_app; destruct (Nat.ltb_spec (captureLimit `min` length (mjoin l)) captureLimit) as [H|H].
  - rewrite (take_ge (mjoin l)) by lia; f_equal; f_equal; lia.
  - replace (captureLimit - length (mjoin l))%nat with 0%nat by lia; by rewrite take_0, app_nil_r.
Qed.

(** A handler that leaves headers that are set alone. *)
Definition keeps_headers (h : handler) : Prop := forall r w k v, wr_headers w !! k = Some v -> wr_headers (h r w).1 !! k = Some v.
(** A handler that does not look at the address the connection came from. *)
Definition address_blind (h : handler) : Prop := forall r r' w,
  hq_method r = hq_method r' -> hq_path r = hq_path r' -> hq_agent r = hq_agent r' -> hq_body r = hq_body r' -> hq_limit r = hq_limit r' ->
  h r w = h r' w.

(** Every request is answered, whatever its handler does: the answer names the
    software and says that replies are signed; a handler that panicked before it
    wrote anything is answered with the internal error and status 500; and no
    panic reaches the server. *)
Theorem api_answers h r : keeps_headers h ->
  let w := (run_api h r writer0).1 in
  wr_headers w !! "Server" = Some (AppName +:+ "/" +:+ version) ∧ wr_headers w !! "X-Dvpnd-Reply-Signing" = Some scheme
  ∧ wr_panic w = None
  ∧ forall w0 err, w0 = (limitBody h r (setHeader "X-Dvpnd-Reply-Signing" scheme (setHeader "Server" (AppName +:+ "/" +:+ version) writer0))).1 ->
      wr_panic w0 = Some err -> wr_writes w0 = [] -> Status w = 500%Z ∧ wr_writes w = [internalBody].
Proof.
  intros Hh; unfold api_serve, serverHeader, replySigningHeader, logRefusals, recoverPanics; cbn zeta.
  set (w1 := setHeader "X-Dvpnd-Reply-Signing" _ _).
  pose proof (Hh (mkHttpRequest (hq_method r) (hq_path r) (hq_agent r) (hq_remoteIP r) (hq_body r) (Some maxBodyBytes)) w1) as Hk.
  change (h _ w1) with (limitBody h r w1) in Hk; destruct (limitBody h r w1) as [w2 logs]; cbn [fst] in *.
  assert (wr_headers w2 !! "Server" = Some (AppName +:+ "/" +:+ version) ∧ wr_headers w2 !! "X-Dvpnd-Reply-Signing" = Some scheme) as [H1 H2].
  { split; apply Hk; [|by unfold w1; cbn; rewrite lookup_insert_eq]; unfold w1; cbn.
    by rewrite lookup_insert_ne, lookup_insert_eq. }
  destruct (wr_panic w2) as [err|] eqn:Ep; cbn [fst]; split_and!; try done.
  - intros w0 err' -> _ Hw; unfold Status, AbortWithStatusJSON; cbn; by rewrite decide_True, Hw.
  - intros w0 err' -> ? _; congruence.
Qed.

(** No client address is kept at the default log level: for requests that differ
    in nothing but the address they came from, a handler that does not
    look at it gives the same answer and the same lines above debug. *)
Theorem api_private h r r' :
  address_blind h -> hq_method r = hq_method r' -> hq_path r = hq_path r' -> hq_agent r = hq_agent r' -> hq_body r = hq_body r' ->
  let kept := List.filter (fun l => if lg_level l is LDebug then false else true) in
  (run_api h r writer0).1 = (run_api h r' writer0).1
  ∧ kept (run_api h r writer0).2 = kept (run_api h r' writer0).2.
Proof.
  intros Hb Em Ep Ea Ed kept; unfold api_serve, serverHeader, replySigningHeader, logRefusals, recoverPanics, limitBody.
  set (w1 := setHeader "X-Dvpnd-Reply-Signing" _ _).
  rewrite (Hb _ (mkHttpRequest (hq_method r') (hq_path r') (hq_agent r') (hq_remoteIP r') (hq_body r') (Some maxBodyBytes)) w1) by (cbn; done).
  destruct (h _ w1) as [w2 logs]; destruct (wr_panic w2); cbn [fst snd]; rewrite Em, Ep, Ea; (split; [done|]); unfold kept;
    rewrite !List.filter_app; cbn; done.
Qed.

(** A handler never reads more than 64 KiB of a request. *)
Theorem api_body_bounded h r w : ∃ r', api_serve version scheme Itoa internalBody stack h r w =
    api_serve version scheme Itoa internalBody stack (fun _ => h r') r w
  ∧ hq_body r' = hq_body r ∧ forall b, ReadBody r' = inr b -> (length b <= maxBodyBytes)%nat.
Proof.
  exists (mkHttpRequest (hq_method r) (hq_path r) (hq_agent r) (hq_remoteIP r) (hq_body r) (Some maxBodyBytes)).
  split_and!; [done|done|]; intros b; unfold ReadBody; cbn [hq_limit hq_body].
  destruct (Nat.ltb_spec maxBodyBytes (length (hq_body r))); [done|]; by intros [= <-].
Qed.
End Proofs.

(** * The documents (src/api/status) and the context they read (src/context/context.go) *)
Record nodeContext (Meta : Type) := mkContext {
  cx_config : AppConfig; cx_location : GeoIPLocation; cx_bandwidth : Result;
  cx_from : bytes; cx_granter : option bytes;                       (* the client's addresses *)
  cx_name : string; cx_type : Z; cx_peers : Z; cx_metadata : Meta    (* the service *)
}.
Arguments cx_config {Meta}. Arguments cx_location {Meta}. Arguments cx_bandwidth {Meta}. Arguments cx_from {Meta}.
Arguments cx_granter {Meta}. Arguments cx_name {Meta}. Arguments cx_type {Meta}. Arguments cx_peers {Meta}. Arguments cx_metadata {Meta}.

Record StatusBandwidth := mkStatusBandwidth { sb_Download : Z; sb_Upload : Z; sb_Source : string }.
Record StatusHandshake := mkStatusHandshake { sh_Enable : bool; sh_Peers : Z }.
Record StatusLocation := mkStatusLocation {
  sl_City : string; sl_Country : string; sl_CountryCode : string; sl_Latitude : spec_float; sl_Longitude : spec_float; sl_Source : string }.
Record ResponseGetStatus := mkGetStatus {
  gs_Address : string; gs_Bandwidth : StatusBandwidth; gs_Handshake : StatusHandshake;
  gs_IntervalSetSessions : Z; gs_IntervalUpdateSessions : Z; gs_IntervalUpdateStatus : Z;
  gs_Location : StatusLocation; gs_Moniker : string; gs_Operator : string; gs_Peers : Z;
  gs_GigabytePrices : string; gs_HourlyPrices : string; gs_MaxPeers : Z; gs_Type : Z; gs_Version : string }.
Record RootLocation := mkRootLocation {
  rl_City : string; rl_Country : string; rl_CountryCode : string; rl_Latitude : spec_float; rl_Longitude : spec_float }.
Record RootVersion := mkRootVersion { rv_Name : string; rv_Tag : string; rv_Commit : string }.
Record ResponseGetRoot (Meta : Type) := mkGetRoot {
  gr_Addr : string; gr_Downlink : string; gr_HandshakeDNS : bool; gr_Location : RootLocation; gr_Moniker : string; gr_Peers : Z;
  gr_ServiceType : string; gr_ServiceMetadata : Meta; gr_Uplink : string; gr_Version : RootVersion }.
Arguments mkGetRoot {Meta}. Arguments gr_Addr {Meta}. Arguments gr_Downlink {Meta}. Arguments gr_HandshakeDNS {Meta}. Arguments gr_Location {Meta}.
Arguments gr_Moniker {Meta}. Arguments gr_Peers {Meta}. Arguments gr_Uplink {Meta}. Arguments gr_Version {Meta}.

Section Documents.
Context {Meta Coins Prices : Type} (ParseCoinsNormalized : string -> result Coins) (NewPricesFromString : string -> result Prices)
  (NewPricesFromCoins : Coins -> result Prices) (noPrices : Prices) (PricesString : Prices -> string)
  (ParseIP : string -> option bytes) (AccString NodeString : bytes -> string) (IntString : Z -> string) (version commit : string).
Abbreviation parsePrices := (ParsePrices ParseCoinsNormalized NewPricesFromString NewPricesFromCoins noPrices).
Implicit Types (ctx : nodeContext Meta).

(** The node account: the granter's when the node signs with a hot key. *)
Definition ctx_Operator ctx : bytes := default (cx_from ctx) (cx_granter ctx).
Definition ctx_Address ctx : string := NodeString (ctx_Operator ctx).
Definition ctx_IPv4Address ctx : option bytes :=
  let addr := IPv4Address (Node_ (cx_config ctx)) in
  ParseIP (if decide (addr = "") then l_IP (cx_location ctx) else addr) ≫= To4.
(** [inl]: the panic. *)
Definition ctx_GigabytePrices ctx : result Prices := parsePrices (n_GigabytePrices (Node_ (cx_config ctx))).
Definition ctx_HourlyPrices ctx : result Prices := parsePrices (n_HourlyPrices (Node_ (cx_config ctx))).

Definition statusResponse ctx : result ResponseGetStatus :=
  let c := cx_config ctx in let l := cx_location ctx in let b := cx_bandwidth ctx in
  gigabyte ← ctx_GigabytePrices ctx;
  hourly ← ctx_HourlyPrices ctx;
  inr (mkGetStatus (ctx_Address ctx) (mkStatusBandwidth (r_Download b) (r_Upload b) (r_Source b))
    (mkStatusHandshake (Enable (Handshake_ c)) (hs_Peers (Handshake_ c)))
    (IntervalSetSessions (Node_ c)) (IntervalUpdateSessions (Node_ c)) (IntervalUpdateStatus (Node_ c))
    (mkStatusLocation (l_City l) (l_Country l) (l_CountryCode l) (l_Latitude l) (l_Longitude l) (l_Source l))
    (Moniker (Node_ c)) (AccString (ctx_Operator ctx)) (cx_peers ctx) (PricesString gigabyte) (PricesString hourly)
    (q_MaxPeers (QOS c)) (cx_type ctx) version).

Definition HandlerGetRoot ctx : ResponseGetRoot Meta :=
  let l := cx_location ctx in
  mkGetRoot (ctx_Address ctx) (IntString (r_Download (cx_bandwidth ctx))) (Enable (Handshake_ (cx_config ctx)))
    (mkRootLocation (l_City l) (l_Country l) (l_CountryCode l) (l_Latitude l) (l_Longitude l))
    (Moniker (Node_ (cx_config ctx))) (cx_peers ctx) (cx_name ctx) (cx_metadata ctx) (IntString (r_Upload (cx_bandwidth ctx)))
    (mkRootVersion AppName version commit).

(** The two documents say the same of the node; and the status can be served, no
    price failing to parse, for every configuration that passed validation. *)
Theorem documents_agree ctx ParseRequestURI AccAddressFromBech32 types :
  AppConfig_Validate ParseRequestURI ParseIP ParseCoinsNormalized NewPricesFromString NewPricesFromCoins noPrices
    AccAddressFromBech32 types (cx_config ctx) = inr tt ->
  ∃ s, statusResponse ctx = inr s ∧
  let root := HandlerGetRoot ctx in
  gr_Addr root = gs_Address s ∧ gr_Downlink root = IntString (sb_Download (gs_Bandwidth s)) ∧ gr_Uplink root = IntString (sb_Upload (gs_Bandwidth s))
  ∧ gr_HandshakeDNS root = sh_Enable (gs_Handshake s) ∧ gr_Moniker root = gs_Moniker s ∧ gr_Peers root = gs_Peers s
  ∧ gr_Location root = (let l := gs_Location s in mkRootLocation (sl_City l) (sl_Country l) (sl_CountryCode l) (sl_Latitude l) (sl_Longitude l))
  ∧ (MinIntervalUpdateStatus <= gs_IntervalUpdateStatus s <= MaxIntervalUpdateStatus)%Z ∧ (MinPeers <= gs_MaxPeers s <= NodeConfig.MaxPeers)%Z.
Proof.
  unfold AppConfig_Validate; rewrite !then_inr, !Wrap_inr, !check_inr; intros (_ & _ & _ & _ & _ & _ & Hnode & Hq & _).
  pose proof (node_sound _ _ _ _ _ _ _ _ Hnode) as (_ & _ & Hi & _); apply node_prices in Hnode as (g & h & Hg & Hh).
  unfold QOSConfig_Validate in Hq; rewrite then_inr, !check_inr, !Z.ltb_ge in Hq.
  unfold statusResponse, ctx_GigabytePrices, ctx_HourlyPrices; rewrite Hg; cbn [mbind]; rewrite Hh; eexists; split; [reflexivity|]; cbn; done.
Qed.
End Documents.
