(* ===== verification/WebServer.v ===== *)
(** The logger and the web server under the handlers: src/utils/logger.go and
    http.go, the root flags of src/main.go, and the verbosity switch of
    src/services/common/process.go, set up by src/cmd/start.go.

    zerolog, the HTTP server and cmux are parameters.  What the
    file shows is one promise of the node across them: below the debug level, no
    client address is kept, by the handlers, by the server under them, or by the
    daemons. *)
From S2P Require Import Prelude Floats Codec Types Guard StaticKey NodeConfig Api.
Set Default Proof Using "Type*".
Local Open Scope string_scope.

(** * The logger (logger.go) *)

(** A value handed to the logger: the interfaces it implements, what [fmt.Sprint]
    gives, and the value itself as zerolog serialises it. *)
Record any := mkAny { an_String : option string; an_Error : option string; an_Sprint : string; an_raw : string }.
Definition any_text (s : string) : any := mkAny None None s s.

(** Stringer before error, in the order of the type switch. *)
Definition fieldValue (v : any) : string :=
  match an_String v, an_Error v with
  | Some s, _ => s
  | None, Some e => e
  | None, None => an_raw v
  end.
Fixpoint fieldPairs (keyVals : list any) : list (string * string) :=
  match keyVals with
  | k :: v :: rest => (an_Sprint k, fieldValue v) :: fieldPairs rest
  | _ => []
  end.
(** A key that comes again replaces the earlier. *)
Definition fields (keyVals : list any) : gmap string string :=
  let keyVals := if decide (length keyVals mod 2 = 0)%nat then keyVals else (keyVals ++ [any_text "(missing)"])%list in
  foldl (fun m kv => <[kv.1 := kv.2]> m) ∅ (fieldPairs keyVals).

(** zerolog's levels are ordered numbers; [ParseLevel] reads one from its name. *)
Definition DebugLevel : Z := 0.
Definition InfoLevel : Z := 1.
Definition ErrorLevel : Z := 3.
Definition levelOf (l : level) : Z := match l with LDebug => DebugLevel | LInfo => InfoLevel | LError => ErrorLevel end.

Inductive logWriter := ConsoleWriter | JSONWriter.
Record zeroLogger := mkZero { zl_writer : logWriter; zl_level : Z; zl_with : list (gmap string string) }.
(** A line at or above the logger's level is written, the fields of each [With]
    before its own. *)
Record written := mkWritten { wn_level : level; wn_message : string; wn_fields : list (gmap string string) }.
Definition emit (log : zeroLogger) (lvl : level) (msg : string) (keyVals : list any) : list written :=
  if (zl_level log <=? levelOf lvl)%Z then [mkWritten lvl msg (zl_with log ++ [fields keyVals])%list] else [].
Definition zl_Debug log := emit log LDebug.
Definition zl_Info log := emit log LInfo.
Definition zl_Error log := emit log LError.
Definition zl_With (log : zeroLogger) (keyVals : list any) : zeroLogger :=
  mkZero (zl_writer log) (zl_level log) (zl_with log ++ [fields keyVals])%list.

Section Logger.
Context (ParseLevel : string -> result Z).
Definition LogFormatPlain : string := "plain".
(** [--log_format] and [--log_level] *)
Record logFlags := mkFlags { lf_format : string; lf_level : string }.
Definition rootFlags : logFlags := mkFlags "plain" "info".
Definition PrepareLogger (f : logFlags) : result zeroLogger :=
  let writer := if decide (lf_format f = LogFormatPlain) then ConsoleWriter else JSONWriter in
  match ParseLevel (lf_level f) with
  | inl e => inl e
  | inr l => inr (mkZero writer l [])
  end.
Definition DebugLogging (f : logFlags) : bool :=
  match ParseLevel (lf_level f) with inr l => (l <=? DebugLevel)%Z | inl _ => false end.

(** The head of the start command: the logger, and the daemons' verbosity
    ([common.SetVerbose]) from the same flag. *)
Definition startLogging (f : logFlags) : result (zeroLogger * bool) :=
  match PrepareLogger f with
  | inl e => inl e
  | inr log => inr (log, DebugLogging f)
  end.
End Logger.

(** * The web server (http.go) *)
Definition http_second : Z := 10 ^ 9.
Definition firstBytesTimeout : Z := 10 * http_second.
Definition readHeaderTimeout : Z := 10 * http_second.
Definition readTimeout : Z := 30 * http_second.
Definition idleTimeout : Z := 60 * http_second.
Definition maxHeaderBytes : Z := Z.shiftl 16 10.

(** [debugWriter.Write]: one line of the server's own log. *)
Definition debugWrite (log : zeroLogger) (p : Str.chars) : list written * nat :=
  (zl_Debug log "HTTP server" [any_text "message"; any_text (Str.to_string (TrimSpace p))], length p).

Record httpServer := mkHttpServer {
  hs_Handler : handler; hs_ReadHeaderTimeout : Z; hs_ReadTimeout : Z; hs_IdleTimeout : Z; hs_MaxHeaderBytes : Z; hs_ErrorLog : zeroLogger }.
Definition newServer (h : handler) (log : zeroLogger) : httpServer :=
  mkHttpServer h readHeaderTimeout readTimeout idleTimeout maxHeaderBytes log.

(** The two sides of the port, told apart by the first bytes of a connection. *)
Inductive side := TLSSide | PlainSide.
Class WebHost (W : Type) := {
  net_Listen : string -> M W gerror unit;
  LoadX509KeyPair : string -> string -> M W gerror string;
  cmux_TLS : bytes -> bool                    (* the first bytes are those of a TLS handshake *)
}.
Record port := mkPort { pt_cert : string; pt_firstBytes : Z; pt_tls : httpServer; pt_any : httpServer }.
Section Serve.
Context {W : Type} `{!WebHost W}.
(** What is set up before the port is served. *)
Definition ListenAndServeTLS (address certFile keyFile : string) (h : handler) (log : zeroLogger) : M W gerror port :=
  net_Listen address ≫= fun _ =>
  cert ← LoadX509KeyPair certFile keyFile;
  mret (mkPort cert firstBytesTimeout (newServer h log) (newServer h log)).
(** [mux.Match(cmux.TLS())] before [mux.Match(cmux.Any())]. *)
Definition sideOf (first : bytes) : side := if cmux_TLS first then TLSSide else PlainSide.
Definition serverFor (p : port) (first : bytes) : httpServer := match sideOf first with TLSSide => pt_tls p | PlainSide => pt_any p end.
End Serve.

(** The end of serving.  [mux.Serve] returns to the caller; a server whose [Serve]
    returns, which it does with an error only, panics, and the process is gone. *)
Inductive webEvent := MuxEnded (e : gerror) | ServerEnded (s : side) (e : gerror).
Inductive webState := Serving | Returning (e : gerror) | Crashed (e : gerror).
Definition webStep (st : webState) (ev : webEvent) : webState :=
  match st, ev with
  | Crashed e, _ => Crashed e
  | _, ServerEnded _ e => Crashed e
  | Serving, MuxEnded e => Returning e
  | Returning e, MuxEnded _ => Returning e
  end.
Definition webRun (evs : list webEvent) : webState := foldl webStep Serving evs.

(** * What the logger writes *)

(** The last value given for a key is the one logged; a key without a value is logged
    as missing. *)
Theorem fields_lookup keyVals k :
  fields keyVals !! k = snd <$> last (filter (fun kv => kv.1 = k)
    (fieldPairs (if decide (length keyVals mod 2 = 0)%nat then keyVals else (keyVals ++ [any_text "(missing)"])%list))).
Proof.
  unfold fields; set (l := fieldPairs _); clearbody l; induction l as [|[k' v] l IH] using rev_ind; [done|].
  rewrite foldl_snoc, filter_app, lookup_insert; cbn [fst snd]; destruct (decide (k' = k)) as [->|Hne].
  - rewrite filter_cons_True by done; cbn; by rewrite last_snoc.
  - rewrite filter_cons_False by done; cbn; by rewrite app_nil_r, IH.
Qed.

Section Privacy.
Context (ParseLevel : string -> result Z).

(** The daemons are verbose exactly when the node's own debug lines are written. *)
Theorem logging_agrees f log verbose : startLogging ParseLevel f = inr (log, verbose) ->
  forall msg keyVals, verbose = true <-> zl_Debug log msg keyVals ≠ [].
Proof.
  unfold startLogging, PrepareLogger, DebugLogging, zl_Debug, emit; destruct (ParseLevel (lf_level f)) as [e|l]; [done|].
  intros [= <- <-] msg keyVals; cbn [zl_level levelOf]; by destruct (l <=? DebugLevel)%Z.
Qed.

(** The arguments of a log call, from the fields of a line. *)
Definition keyValsOf (fs : list (string * string)) : list any := fs ≫= fun kv => [any_text kv.1; any_text kv.2].
Definition logged (log : zeroLogger) (ls : list logline) : list written :=
  ls ≫= fun l => emit log (lg_level l) (lg_message l) (keyValsOf (lg_fields l)).
(** A node started without flags logs in plain text, from info up. *)
Lemma default_quiet : ParseLevel "info" = inr InfoLevel ->
  startLogging ParseLevel rootFlags = inr (mkZero ConsoleWriter InfoLevel [], false).
Proof. intros H; unfold startLogging, PrepareLogger, DebugLogging; cbn [lf_level lf_format rootFlags]; by rewrite H. Qed.

Context (version scheme : string) (Itoa : Z -> string) (internalBody stack : Str.chars).
(** A connection: what the server says of it, and one request on it. *)
Definition connectionLog (log : zeroLogger) (serverLines : list Str.chars) (h : handler) (r : httpRequest) : list written :=
  ((serverLines ≫= fun p => (debugWrite log p).1) ++ logged log (api_serve version scheme Itoa internalBody stack h r writer0).2)%list.

Lemma logged_app log l k : logged log (l ++ k)%list = (logged log l ++ logged log k)%list.
Proof. apply bind_app. Qed.
Lemma logged_debug log m fs l : (zl_level log <=? DebugLevel)%Z = false -> logged log (mkLog LDebug m fs :: l) = logged log l.
Proof. intros H; unfold logged; rewrite bind_cons; unfold emit at 1; cbn [lg_level levelOf]; by rewrite H. Qed.
Lemma quiet_server log ls : (zl_level log <=? DebugLevel)%Z = false -> (ls ≫= fun p => (debugWrite log p).1) = [].
Proof. intros H; induction ls as [|p ls IH]; [done|]; rewrite bind_cons, IH; cbn; unfold zl_Debug, emit; cbn [levelOf]; by rewrite H. Qed.

(** A node that does not log at debug level keeps no client address: whatever the
    server reports about two connections, when their requests differ in nothing but
    the address they come from, the lines written are the same, for every
    handler that does not look at the address; and the daemons were told to be
    silent about their connections, too. *)
Theorem web_private f log verbose h r r' lines lines' :
  startLogging ParseLevel f = inr (log, verbose) -> DebugLogging ParseLevel f = false -> address_blind h ->
  hq_method r = hq_method r' -> hq_path r = hq_path r' -> hq_agent r = hq_agent r' -> hq_body r = hq_body r' ->
  connectionLog log lines h r = connectionLog log lines' h r' ∧ verbose = false.
Proof.
  intros Hs Hd Hb Em Ep Ea Ed; revert Hs; unfold startLogging; destruct (PrepareLogger ParseLevel f) as [|log0] eqn:Hl; [done|].
  intros [= -> <-]; split; [|exact Hd].
  assert ((zl_level log <=? DebugLevel)%Z = false) as Hq.
  { unfold PrepareLogger in Hl; unfold DebugLogging in Hd; destruct (ParseLevel (lf_level f)); [done|]; by injection Hl as <-. }
  unfold connectionLog; rewrite !quiet_server by done; cbn [app].
  unfold api_serve, serverHeader, replySigningHeader, logRefusals, recoverPanics, limitBody.
  set (w1 := setHeader "X-Dvpnd-Reply-Signing" _ _).
  rewrite (Hb _ (mkHttpRequest (hq_method r') (hq_path r') (hq_agent r') (hq_remoteIP r') (hq_body r') (Some maxBodyBytes)) w1) by (cbn; done).
  destruct (h _ w1) as [w2 logs]; destruct (wr_panic w2); cbn [fst snd]; rewrite Em, Ep, Ea, !logged_app, !logged_debug; done.
Qed.
End Privacy.

(** * Serving *)

(** Both sides of the port run the node's handler within the same limits. *)
Theorem port_limited {W} `{!WebHost W} address cert key h log p w w' first :
  ListenAndServeTLS address cert key h log w = (inr p, w') ->
  let s := serverFor p first in hs_Handler s = h
  ∧ Forall (fun t => 0 < t <= 60 * http_second)%Z [pt_firstBytes p; hs_ReadHeaderTimeout s; hs_ReadTimeout s; hs_IdleTimeout s]
  ∧ hs_MaxHeaderBytes s = 16384.
Proof.
  unfold ListenAndServeTLS; intros H; minv H; cbn zeta.
  unfold serverFor; destruct (sideOf first); split_and!; try done; by repeat constructor.
Qed.

(** Once a server's loop has ended the process is gone, whatever [mux.Serve] returned
    before or after: the caller gets to stop the VPN service only if no server ends. *)
Theorem server_end_crashes evs s e : ServerEnded s e ∈ evs -> ∃ e', webRun evs = Crashed e'.
Proof.
  unfold webRun; generalize Serving; induction evs as [|ev evs IH]; intros st H; [set_solver|]; cbn.
  assert (forall e0, foldl webStep (Crashed e0) evs = Crashed e0) as Hc by (intros e0; clear; induction evs; by cbn).
  apply elem_of_cons in H as [<-|H]; [|by apply IH].
  destruct st; cbn; rewrite Hc; eauto.
Qed.
