(* ===== verification/Start.v ===== *)
(** The start command: [StartCmd] of src/cmd/start.go, from the configuration file
    to the stop of the service, and [Start] and [runJob] of src/node/node.go.

    Each step is the component's own definition where this library has one
    (validation, registry, location, bandwidth, runtime, egress); the keyring, the
    chain queries, the service's Init, Start and Stop, the database and the API
    server are a parameter ([StartHost]). *)
From S2P Require Import Prelude Floats Codec Guard Types Lite Egress Grants NodeConfig GeoIP Bandwidth Runtime.
Set Default Proof Using "Type*".
Local Open Scope string_scope.

Class StartHost (W : Type) := {
  ReadInConfig : string -> M W gerror AppConfig;
  protocol_New : Protocol -> AppConfig -> M W gerror unit;
  keyringAddress : string -> KeyringConfig -> M W gerror bytes;      (* keyring.New, Key and GetAddress *)
  accountExists : bytes -> M W gerror bool;                          (* client.QueryAccount, not nil *)
  showAddress : bytes -> string;                                     (* AccAddress.String *)
  grantsAllow : bytes -> AppConfig -> M W gerror unit;               (* checkGrants *)
  nodeStatusTimeout : M W gerror Z;                                  (* client.QueryNodeParams *)
  sessionStatusTimeout : M W gerror Z;                               (* client.QuerySessionParams *)
  SetEgress : Egress -> W -> W;
  SetRuntime : Runtime -> W -> W;
  svc_Init : string -> M W gerror unit;
  svc_TunnelIPv4 : W -> option bytes;                                (* None: the service has no tunnel *)
  hnsdInstalled : M W gerror unit;                                   (* exec.LookPath("hnsd") *)
  svc_Start : M W gerror unit;
  svc_Stop : M W gerror unit;
  goHandshake : list string -> W -> W;                               (* go runHandshake *)
  openDatabase : string -> M W gerror unit;
  migrateDatabase : M W gerror unit;
  registerRoutes : AppConfig -> GeoIPLocation -> Result -> W -> W;   (* the context and its routes *)
  node_Initialize : M W gerror unit;
  node_ReconcileSessions : M W gerror unit;
  serve : string -> W -> option gerror * W;                          (* n.Start until an error or a signal *)
  (* what is in force *)
  policyInForce : W -> Egress;
  runtimeInForce : W -> option Runtime;
  running : W -> bool
}.

(** * What the node expects to spend

    The decimals of the SDK are a parameter. *)
Class DecMath := {
  Dec : Type;
  ParseDecCoins : string -> result (list (string * Dec));
  LegacyNewDec : Z -> Dec;
  LegacyMustNewDecFromStr : string -> Dec;
  FormatFloat : spec_float -> string;                   (* 'f', -1, 64 *)
  Dec_Mul : Dec -> Dec -> Dec;
  Dec_MulInt64 : Dec -> Z -> Dec;
  Dec_Ceil : Dec -> Dec;
  Dec_TruncateInt : Dec -> Z;
  Coins_Add : Coins -> string * Z -> Coins
}.
(** A status update and a session report per interval. *)
Definition expectedTxs (c : AppConfig) (d : Z) : Z :=
  foldl (fun txs interval => if (0 <? interval)%Z then (txs + Z.quot d interval)%Z else txs) 0%Z
    [IntervalUpdateStatus (Node_ c); IntervalUpdateSessions (Node_ c)].
Definition expectedFees `{DecMath} (c : AppConfig) (d : Z) : Coins :=
  match ParseDecCoins (GasPrices (Chain_ c)) with
  | inl _ => []
  | inr prices =>
      let txs := expectedTxs c d in
      let gas := Dec_Mul (LegacyNewDec (wrap64 (Gas (Chain_ c)))) (LegacyMustNewDecFromStr (FormatFloat (GasAdjustment (Chain_ c)))) in
      foldl (fun fees price => Coins_Add fees (price.1, Dec_TruncateInt (Dec_Ceil (Dec_MulInt64 (Dec_Mul price.2 gas) txs)))) [] prices
  end.

(** * Serving: [Start] and [runJob] of the node

    Three jobs and the API server run at once; each tells the channel at most once,
    and the first told ends the node.  A job that returns tells nothing. *)
Inductive activity := Job (name : string) | ApiServer.
Inductive ending := Returned | Panicked (value stack : string) | Failed (e : gerror).
Definition activities : list activity := [Job "set_sessions"; Job "update_sessions"; Job "update_status"; ApiServer].
Definition errCh_capacity : nat := 4.
Definition newline : string := String "010"%char "".
Definition runJob (name : string) (e : ending) : option gerror :=
  if e is Panicked value stack then Some ("job " +:+ name +:+ " panicked: " +:+ value +:+ newline +:+ stack) else None.
Definition told_end (x : activity * ending) : option gerror :=
  match x with
  | (Job name, e) => runJob name e
  | (ApiServer, Failed e) => Some e
  | (ApiServer, _) => None
  end.
(** What is on the channel once these have ended, in this order; [None] while the
    node still waits. *)
Definition errCh (ended : list (activity * ending)) : list gerror := omap told_end ended.
Definition node_Start (ended : list (activity * ending)) : option gerror := head (errCh ended).

(** * The chain client

    The account's number and sequence are filled in per transaction; the gas price and
    adjustment, the keyring and the encoding stay with the SDK. *)
Definition clientOf (AccString : bytes -> string) (config : AppConfig) (from : bytes) (granter : option bytes) : Client :=
  mkClient (AccString <$> granter) (AccString from) (From (Keyring config)) (RPCQueryTimeout (Chain_ config)) (rpcRemotes (Chain_ config))
    (mkFactory 0 0 (Gas (Chain_ config)) None (SimulateAndExecute (Chain_ config))) (RPCTxTimeout (Chain_ config)).

Section Start.
Context {W : Type} {GJ : GeoJSON} `{!StartHost W, !HTTP W, !prober W, !CacheFile W, !Disk W}.
Context (Validate : AppConfig -> result unit) (AccAddressFromBech32 : string -> result bytes)
  (SplitHostPort : string -> result (string * string)) (ParseUint16 : string -> result Z)
  (ToLower : string -> string) (Itoa : Z -> string) (JoinHostPort : bytes -> string -> string).

Definition held_to {A} (r : result A) : M W gerror A := fun w => (r, w).
Definition effect_of (f : W -> W) : M W gerror unit := fun w => (inr tt, f w).

(** ** What the configuration selects *)

(** The node account, when the node signs with a hot key. *)
Definition granterOf (config : AppConfig) (from : bytes) : result (option bytes) :=
  if bool_decide (Granter (Keyring config) = "") then inr None else
  match AccAddressFromBech32 (Granter (Keyring config)) with
  | inl e => inl e
  | inr granter =>
      if bool_decide (granter = from) then inl "[keyring] granter is the signing key's own address; leave it empty"
      else inr (Some granter)
  end.
Definition with_intervals (status sessions : Z) (c : AppConfig) : AppConfig :=
  let n := Node_ c in
  mkApp (NodeConfig.Bandwidth c) (Chain_ c) (Egress_ c) (NodeConfig.GeoIP c) (Handshake_ c) (Keyring c)
    (mkNode (IntervalSetSessions n) sessions status (IPv4Address n) (ListenOn n) (Moniker n)
       (n_GigabytePrices n) (n_HourlyPrices n) (RemoteURL n) (n_Type n) (LegacyHandshake n)) (QOS c).
Definition without_handshake (c : AppConfig) : AppConfig :=
  mkApp (NodeConfig.Bandwidth c) (Chain_ c) (Egress_ c) (NodeConfig.GeoIP c) (mkHandshake false (hs_Peers (Handshake_ c)))
    (Keyring c) (Node_ c) (QOS c).
Definition geoOptions (c : AppConfig) : GeoOptions :=
  let g := NodeConfig.GeoIP c in
  mkGeoOptions (Provider g) (g_URL g) (Token g) (IPv4Address (Node_ c)) (City g) (Country g) (Latitude g) (Longitude g).
Definition linkOptions (c : AppConfig) (location : GeoIPLocation) (home : string) : Options :=
  mkOptions (UploadMbps (NodeConfig.Bandwidth c)) (DownloadMbps (NodeConfig.Bandwidth c))
    (l_Latitude location) (l_Longitude location) (l_IP location) home.
Definition egressOf (c : AppConfig) (resolver : option bytes) : Egress :=
  mkEgress (ec_AllowSMTP (Egress_ c)) (apiPort SplitHostPort ParseUint16 (ListenOn (Node_ c))) resolver.

(** ** Before the service starts *)

(** The account and the grants it acts under. *)
Definition checkAccount (home : string) (config : AppConfig) : M W gerror bytes :=
  from ← keyringAddress home (Keyring config);
  granter ← held_to (granterOf config from);
  there ← accountExists from;
  throw_if (negb there) (if granter is Some _
    then "account " +:+ showAddress from +:+ " does not exist yet; the granter's fee grant creates it (dvpnd keys authz-commands)"
    else "account does not exist with address " +:+ showAddress from) ≫= fun _ =>
  (match granter with Some g => grantsAllow g config | None => mret tt end) ≫= fun _ =>
  mret from.

(** The intervals are lowered to fit the chain's timeouts. *)
Definition fitIntervals (config : AppConfig) : M W gerror AppConfig :=
  t1 ← nodeStatusTimeout;
  let config := with_intervals (fitInterval t1 (IntervalUpdateStatus (Node_ config))) (IntervalUpdateSessions (Node_ config)) config in
  t2 ← sessionStatusTimeout;
  mret (with_intervals (IntervalUpdateStatus (Node_ config)) (fitInterval t2 (IntervalUpdateSessions (Node_ config))) config).

(** The resolver the tunnel will serve, if it can run. *)
Definition chooseResolver (config : AppConfig) : M W gerror (AppConfig * option bytes) :=
  if negb (Enable (Handshake_ config)) then mret (config, None) else
  found ← attempt hnsdInstalled;
  host ← gets svc_TunnelIPv4;
  match found, host with
  | inr _, Some ip => effect_of (SetEgress (egressOf config (Some ip))) ≫= fun _ => mret (config, Some ip)
  | _, _ => mret (without_handshake config, None)
  end.

Definition prepare (skip : bool) (home : string) (euid : Z) : M W gerror (AppConfig * GeoIPLocation * Result * option bytes) :=
  config ← ReadInConfig (Join home "config.toml");
  held_to (if skip then inr tt else Validate config) ≫= fun _ =>
  protocol ← held_to (Lookup (n_Type (Node_ config)));
  protocol_New protocol config ≫= fun _ =>
  checkAccount home config ≫= fun _ =>
  config ← fitIntervals config;
  location ← Location (geoOptions config);
  measured ← (fun w => let '(res, w') := Measure ToLower (linkOptions config location home) w in (inr res, w'));
  effect_of (SetEgress (egressOf config None)) ≫= fun _ =>
  rt ← PrepareRuntime home euid (p_Daemon protocol);
  effect_of (SetRuntime rt) ≫= fun _ =>
  svc_Init home ≫= fun _ =>
  chosen ← chooseResolver config;
  mret (chosen.1, location, measured, chosen.2).

(** ** While it runs *)
Definition setUp (home : string) (config : AppConfig) (location : GeoIPLocation) (measured : Result) : M W gerror unit :=
  openDatabase (Join home "data.db" +:+ "?_secure_delete=on") ≫= fun _ =>
  migrateDatabase ≫= fun _ =>
  effect_of (registerRoutes config location measured) ≫= fun _ =>
  node_Initialize ≫= fun _ =>
  node_ReconcileSessions.

(** A failed stop is reported when nothing else is. *)
Definition runUntilStopped (home : string) : M W gerror unit := fun w =>
  let '(err, w1) := serve home w in
  let '(stopped, w2) := svc_Stop w1 in
  (match err, stopped with
   | Some e, _ => inl e
   | None, inl e => inl e
   | None, inr _ => inr tt
   end, w2).

Definition StartCmd (skip : bool) (home : string) (euid : Z) : M W gerror unit :=
  '(config, location, measured, resolver) ← prepare skip home euid;
  svc_Start ≫= fun _ =>
  (match resolver with
   | Some ip => effect_of (goHandshake (hnsdArgs Itoa (hs_Peers (Handshake_ config)) (JoinHostPort ip "53")))
   | None => mret tt
   end) ≫= fun _ =>
  setUp home config location measured ≫= fun _ =>
  runUntilStopped home.
End Start.
