(* ===== verification/LiteClient.v ===== *)
(** The settings of the chain client: src/lite/client.go and [WithGranter] of
    src/lite/authz.go, and the chain of calls with which src/cmd/start.go makes the
    client.

    The client keeps two records of the SDK side by side, the context that queries and
    broadcasts use and the factory that builds and signs, and every setter has to
    write to both what both have.  The SDK's setters each return a copy with one field
    changed.  Codecs, keyrings and the like are types of the SDK, left abstract; what
    starts as nil is an option. *)
From S2P Require Import Prelude Floats Lite NodeConfig Start.
Set Default Proof Using "Type*".

Inductive SignMode := SIGN_MODE_UNSPECIFIED | SIGN_MODE_DIRECT | SIGN_MODE_LEGACY_AMINO_JSON.
Definition SignModeDirect : string := "direct".
Definition SignModeLegacyAminoJSON : string := "amino-json".
Definition BroadcastSync : string := "sync".

(** Types of the SDK. *)
Class SdkTypes := {
  sdkCodec : Type; sdkRegistry : Type; sdkAmino : Type; sdkTxConfig : Type; sdkKeyring : Type; sdkRetriever : Type;
  cmtLogger : Type; PubKey : Type;
  authRetriever : sdkRetriever;                                          (* authtypes.AccountRetriever{} *)
  keyring_Sign : sdkKeyring -> string -> bytes -> result (bytes * PubKey)
}.
(** [EncodingConfig] of src/lite/encoding.go. *)
Record EncodingConfig `{SdkTypes} := mkEncoding {
  enc_Amino : sdkAmino; enc_Codec : sdkCodec; enc_Registry : sdkRegistry; enc_TxConfig : sdkTxConfig }.

Section Client.
Context {ST : SdkTypes}.

(** [client.Context], the fields the client sets. *)
Record SdkContext := mkCtx {
  cx_BroadcastMode : string; cx_Codec : option sdkCodec; cx_Registry : option sdkRegistry; cx_Amino : option sdkAmino;
  cx_OutputFormat : string; cx_Discard : bool; cx_SkipConfirm : bool;
  cx_Retriever : option sdkRetriever; cx_ChainID : string; cx_FeeGranter : bytes; cx_From : bytes; cx_FromName : string;
  cx_Keyring : option sdkKeyring; cx_SignModeStr : string; cx_TxConfig : option sdkTxConfig }.
(** [tx.Factory], the fields the client sets; the gas prices as the text it is given. *)
Record SdkFactory := mkSdkFactory {
  tf_Retriever : option sdkRetriever; tf_ChainID : string; tf_FromName : string; tf_Gas : Z; tf_GasAdjustment : spec_float;
  tf_GasPrices : string; tf_Keybase : option sdkKeyring; tf_SignMode : SignMode; tf_Simulate : bool; tf_TxConfig : option sdkTxConfig }.
Definition zeroContext : SdkContext := mkCtx "" None None None "" false false None "" [] [] "" None "" None.
Definition zeroFactory : SdkFactory := mkSdkFactory None "" "" 0 (float64 0) "" None SIGN_MODE_UNSPECIFIED false None.

Record LiteClient := mkLite {
  lc_ctx : SdkContext; lc_granter : option bytes; lc_log : option cmtLogger;
  lc_queryTimeout : Z; lc_remotes : list string; lc_txf : SdkFactory; lc_txTimeout : Z }.
Definition NewClient : LiteClient := mkLite zeroContext None None 0 [] zeroFactory 0.

(** * The setters *)
Definition on_ctx (f : SdkContext -> SdkContext) (c : LiteClient) : LiteClient :=
  mkLite (f (lc_ctx c)) (lc_granter c) (lc_log c) (lc_queryTimeout c) (lc_remotes c) (lc_txf c) (lc_txTimeout c).
Definition on_txf (f : SdkFactory -> SdkFactory) (c : LiteClient) : LiteClient :=
  mkLite (lc_ctx c) (lc_granter c) (lc_log c) (lc_queryTimeout c) (lc_remotes c) (f (lc_txf c)) (lc_txTimeout c).

Definition WithContext (v : SdkContext) : LiteClient -> LiteClient := on_ctx (fun _ => v).
Definition client_WithLogger (v : cmtLogger) (c : LiteClient) : LiteClient :=
  mkLite (lc_ctx c) (lc_granter c) (Some v) (lc_queryTimeout c) (lc_remotes c) (lc_txf c) (lc_txTimeout c).
Definition WithQueryTimeout (v : Z) (c : LiteClient) : LiteClient :=
  mkLite (lc_ctx c) (lc_granter c) (lc_log c) v (lc_remotes c) (lc_txf c) (lc_txTimeout c).
Definition WithRemotes (v : list string) (c : LiteClient) : LiteClient :=
  mkLite (lc_ctx c) (lc_granter c) (lc_log c) (lc_queryTimeout c) v (lc_txf c) (lc_txTimeout c).
Definition WithTxTimeout (v : Z) (c : LiteClient) : LiteClient :=
  mkLite (lc_ctx c) (lc_granter c) (lc_log c) (lc_queryTimeout c) (lc_remotes c) (lc_txf c) v.
Definition WithGranter (v : bytes) (c : LiteClient) : LiteClient :=
  mkLite (lc_ctx c) (Some v) (lc_log c) (lc_queryTimeout c) (lc_remotes c) (lc_txf c) (lc_txTimeout c).

Definition WithAccountRetriever (v : sdkRetriever) (c : LiteClient) : LiteClient :=
  on_txf (fun t => mkSdkFactory (Some v) (tf_ChainID t) (tf_FromName t) (tf_Gas t) (tf_GasAdjustment t) (tf_GasPrices t) (tf_Keybase t) (tf_SignMode t) (tf_Simulate t) (tf_TxConfig t))
    (on_ctx (fun x => mkCtx (cx_BroadcastMode x) (cx_Codec x) (cx_Registry x) (cx_Amino x) (cx_OutputFormat x) (cx_Discard x) (cx_SkipConfirm x)
       (Some v) (cx_ChainID x) (cx_FeeGranter x) (cx_From x) (cx_FromName x) (cx_Keyring x) (cx_SignModeStr x) (cx_TxConfig x)) c).
Definition WithChainID (v : string) (c : LiteClient) : LiteClient :=
  on_txf (fun t => mkSdkFactory (tf_Retriever t) v (tf_FromName t) (tf_Gas t) (tf_GasAdjustment t) (tf_GasPrices t) (tf_Keybase t) (tf_SignMode t) (tf_Simulate t) (tf_TxConfig t))
    (on_ctx (fun x => mkCtx (cx_BroadcastMode x) (cx_Codec x) (cx_Registry x) (cx_Amino x) (cx_OutputFormat x) (cx_Discard x) (cx_SkipConfirm x)
       (cx_Retriever x) v (cx_FeeGranter x) (cx_From x) (cx_FromName x) (cx_Keyring x) (cx_SignModeStr x) (cx_TxConfig x)) c).
Definition WithFeeGranterAddress (v : bytes) : LiteClient -> LiteClient :=
  on_ctx (fun x => mkCtx (cx_BroadcastMode x) (cx_Codec x) (cx_Registry x) (cx_Amino x) (cx_OutputFormat x) (cx_Discard x) (cx_SkipConfirm x)
    (cx_Retriever x) (cx_ChainID x) v (cx_From x) (cx_FromName x) (cx_Keyring x) (cx_SignModeStr x) (cx_TxConfig x)).
Definition WithFromAddress (v : bytes) : LiteClient -> LiteClient :=
  on_ctx (fun x => mkCtx (cx_BroadcastMode x) (cx_Codec x) (cx_Registry x) (cx_Amino x) (cx_OutputFormat x) (cx_Discard x) (cx_SkipConfirm x)
    (cx_Retriever x) (cx_ChainID x) (cx_FeeGranter x) v (cx_FromName x) (cx_Keyring x) (cx_SignModeStr x) (cx_TxConfig x)).
Definition WithFromName (v : string) (c : LiteClient) : LiteClient :=
  on_txf (fun t => mkSdkFactory (tf_Retriever t) (tf_ChainID t) v (tf_Gas t) (tf_GasAdjustment t) (tf_GasPrices t) (tf_Keybase t) (tf_SignMode t) (tf_Simulate t) (tf_TxConfig t))
    (on_ctx (fun x => mkCtx (cx_BroadcastMode x) (cx_Codec x) (cx_Registry x) (cx_Amino x) (cx_OutputFormat x) (cx_Discard x) (cx_SkipConfirm x)
       (cx_Retriever x) (cx_ChainID x) (cx_FeeGranter x) (cx_From x) v (cx_Keyring x) (cx_SignModeStr x) (cx_TxConfig x)) c).
Definition client_WithGas (v : Z) : LiteClient -> LiteClient :=
  on_txf (fun t => mkSdkFactory (tf_Retriever t) (tf_ChainID t) (tf_FromName t) v (tf_GasAdjustment t) (tf_GasPrices t) (tf_Keybase t) (tf_SignMode t) (tf_Simulate t) (tf_TxConfig t)).
Definition WithGasAdjustment (v : spec_float) : LiteClient -> LiteClient :=
  on_txf (fun t => mkSdkFactory (tf_Retriever t) (tf_ChainID t) (tf_FromName t) (tf_Gas t) v (tf_GasPrices t) (tf_Keybase t) (tf_SignMode t) (tf_Simulate t) (tf_TxConfig t)).
Definition WithGasPrices (v : string) : LiteClient -> LiteClient :=
  on_txf (fun t => mkSdkFactory (tf_Retriever t) (tf_ChainID t) (tf_FromName t) (tf_Gas t) (tf_GasAdjustment t) v (tf_Keybase t) (tf_SignMode t) (tf_Simulate t) (tf_TxConfig t)).
Definition WithKeyring (v : sdkKeyring) (c : LiteClient) : LiteClient :=
  on_txf (fun t => mkSdkFactory (tf_Retriever t) (tf_ChainID t) (tf_FromName t) (tf_Gas t) (tf_GasAdjustment t) (tf_GasPrices t) (Some v) (tf_SignMode t) (tf_Simulate t) (tf_TxConfig t))
    (on_ctx (fun x => mkCtx (cx_BroadcastMode x) (cx_Codec x) (cx_Registry x) (cx_Amino x) (cx_OutputFormat x) (cx_Discard x) (cx_SkipConfirm x)
       (cx_Retriever x) (cx_ChainID x) (cx_FeeGranter x) (cx_From x) (cx_FromName x) (Some v) (cx_SignModeStr x) (cx_TxConfig x)) c).
Definition signModeOf (v : string) : SignMode :=
  if decide (v = SignModeDirect) then SIGN_MODE_DIRECT
  else if decide (v = SignModeLegacyAminoJSON) then SIGN_MODE_LEGACY_AMINO_JSON else SIGN_MODE_UNSPECIFIED.
Definition WithSignModeStr (v : string) (c : LiteClient) : LiteClient :=
  on_txf (fun t => mkSdkFactory (tf_Retriever t) (tf_ChainID t) (tf_FromName t) (tf_Gas t) (tf_GasAdjustment t) (tf_GasPrices t) (tf_Keybase t) (signModeOf v) (tf_Simulate t) (tf_TxConfig t))
    (on_ctx (fun x => mkCtx (cx_BroadcastMode x) (cx_Codec x) (cx_Registry x) (cx_Amino x) (cx_OutputFormat x) (cx_Discard x) (cx_SkipConfirm x)
       (cx_Retriever x) (cx_ChainID x) (cx_FeeGranter x) (cx_From x) (cx_FromName x) (cx_Keyring x) v (cx_TxConfig x)) c).
Definition WithSimulateAndExecute (v : bool) : LiteClient -> LiteClient :=
  on_txf (fun t => mkSdkFactory (tf_Retriever t) (tf_ChainID t) (tf_FromName t) (tf_Gas t) (tf_GasAdjustment t) (tf_GasPrices t) (tf_Keybase t) (tf_SignMode t) v (tf_TxConfig t)).
Definition WithTxConfig (v : sdkTxConfig) (c : LiteClient) : LiteClient :=
  on_txf (fun t => mkSdkFactory (tf_Retriever t) (tf_ChainID t) (tf_FromName t) (tf_Gas t) (tf_GasAdjustment t) (tf_GasPrices t) (tf_Keybase t) (tf_SignMode t) (tf_Simulate t) (Some v))
    (on_ctx (fun x => mkCtx (cx_BroadcastMode x) (cx_Codec x) (cx_Registry x) (cx_Amino x) (cx_OutputFormat x) (cx_Discard x) (cx_SkipConfirm x)
       (cx_Retriever x) (cx_ChainID x) (cx_FeeGranter x) (cx_From x) (cx_FromName x) (cx_Keyring x) (cx_SignModeStr x) (Some v)) c).

Definition NewDefaultClient (cfg : EncodingConfig) : LiteClient :=
  let ctx := mkCtx BroadcastSync (Some (enc_Codec cfg)) (Some (enc_Registry cfg)) (Some (enc_Amino cfg)) "text" true true
               None "" [] [] "" None "" None in
  WithTxConfig (enc_TxConfig cfg) (WithAccountRetriever authRetriever (WithContext ctx NewClient)).

(** Signing outside a transaction; [None] is the panic on a client without a keyring. *)
Definition lc_FromName (c : LiteClient) : string := cx_FromName (lc_ctx c).
Definition lc_FromAddress (c : LiteClient) : bytes := cx_From (lc_ctx c).
Definition client_SignBytes (c : LiteClient) (msg : bytes) : option (result (bytes * PubKey)) :=
  (fun kr => keyring_Sign kr (lc_FromName c) msg) <$> cx_Keyring (lc_ctx c).

(** * The client of the start command *)
Definition startClient (cfg : EncodingConfig) (config : AppConfig) (from : bytes) (kr : sdkKeyring) (log : cmtLogger) : LiteClient :=
  foldl (fun c f => f c) (NewDefaultClient cfg)
    [WithChainID (ch_ID (Chain_ config)); WithFromAddress from; WithFromName (From (Keyring config)); client_WithGas (Gas (Chain_ config));
     WithGasAdjustment (GasAdjustment (Chain_ config)); WithGasPrices (GasPrices (Chain_ config)); WithKeyring kr; client_WithLogger log;
     WithQueryTimeout (RPCQueryTimeout (Chain_ config)); WithRemotes (rpcRemotes (Chain_ config)); WithSignModeStr "";
     WithSimulateAndExecute (SimulateAndExecute (Chain_ config)); WithTxTimeout (RPCTxTimeout (Chain_ config))].
Definition actingFor (granter : option bytes) (c : LiteClient) : LiteClient := if granter is Some g then WithGranter g c else c.

(** What the operations of Lite read of a client. *)
Definition lite_view (AccString : bytes -> string) (c : LiteClient) : Client :=
  mkClient (AccString <$> lc_granter c) (AccString (lc_FromAddress c)) (lc_FromName c) (lc_queryTimeout c) (lc_remotes c)
    (mkFactory 0 0 (tf_Gas (lc_txf c)) None (tf_Simulate (lc_txf c))) (lc_txTimeout c).

(** * The context and the factory agree *)
Definition coherent (c : LiteClient) : Prop :=
  let x := lc_ctx c in let t := lc_txf c in
  cx_Retriever x = tf_Retriever t ∧ cx_ChainID x = tf_ChainID t ∧ cx_FromName x = tf_FromName t ∧ cx_Keyring x = tf_Keybase t
  ∧ tf_SignMode t = signModeOf (cx_SignModeStr x) ∧ cx_TxConfig x = tf_TxConfig t.

(** A call of a setter, [WithContext] apart. *)
Inductive setting : (LiteClient -> LiteClient) -> Prop :=
  | set_logger v : setting (client_WithLogger v)
  | set_queryTimeout v : setting (WithQueryTimeout v)
  | set_remotes v : setting (WithRemotes v)
  | set_txTimeout v : setting (WithTxTimeout v)
  | set_granter v : setting (WithGranter v)
  | set_retriever v : setting (WithAccountRetriever v)
  | set_chainID v : setting (WithChainID v)
  | set_feeGranter v : setting (WithFeeGranterAddress v)
  | set_from v : setting (WithFromAddress v)
  | set_fromName v : setting (WithFromName v)
  | set_gas v : setting (client_WithGas v)
  | set_gasAdjustment v : setting (WithGasAdjustment v)
  | set_gasPrices v : setting (WithGasPrices v)
  | set_keyring v : setting (WithKeyring v)
  | set_signMode v : setting (WithSignModeStr v)
  | set_simulate v : setting (WithSimulateAndExecute v)
  | set_txConfig v : setting (WithTxConfig v).
#[local] Hint Constructors setting : core.

Lemma setting_coherent f c : setting f -> coherent c -> coherent (f c).
Proof. destruct c as [x g l q r t o]; intros []; unfold coherent; cbn; intuition. Qed.
Lemma default_coherent cfg : coherent (NewDefaultClient cfg).
Proof. unfold coherent; cbn; by split_and!. Qed.
Lemma settings_coherent fs c : Forall setting fs -> coherent c -> coherent (foldl (fun c f => f c) c fs).
Proof. intros H; revert c; induction H as [|f fs Hf _ IH]; intros c Hc; cbn; [done|]; by apply IH, setting_coherent. Qed.

(** C21. However a client is configured, in whatever order and however often its setters are
    called, the context it queries with and the factory it signs with agree on the
    chain, the key's name, the keyring, the account retriever, the sign mode and the
    encoding; so gas is simulated with the key that signs, for the chain that is asked. *)
Theorem client_coherent cfg fs : Forall setting fs -> coherent (foldl (fun c f => f c) (NewDefaultClient cfg) fs).
Proof. intros H; by apply settings_coherent, default_coherent. Qed.

(** The client the start command makes is the one the operations of Lite are
    proved for, is coherent, and signs replies with the configured key. *)
Theorem startClient_refines AccString cfg config from kr log granter :
  let c := actingFor granter (startClient cfg config from kr log) in
  lite_view AccString c = clientOf AccString config from granter
  ∧ coherent c ∧ lc_log c = Some log
  ∧ (tf_ChainID (lc_txf c), tf_GasPrices (lc_txf c), tf_GasAdjustment (lc_txf c))
    = (ch_ID (Chain_ config), GasPrices (Chain_ config), GasAdjustment (Chain_ config))
  ∧ forall msg, client_SignBytes c msg = Some (keyring_Sign kr (From (Keyring config)) msg).
Proof.
  intros c; split; [by destruct granter|]; split; [|by destruct granter].
  assert (coherent (startClient cfg config from kr log)) as H by (apply settings_coherent; [by repeat constructor|apply default_coherent]).
  unfold c, actingFor; destruct granter; [|exact H]; by apply setting_coherent.
Qed.
End Client.

(** A client whose chain is set twice and whose key is named last. *)
#[local] Instance ex_sdkTypes : SdkTypes := {|
  sdkCodec := unit; sdkRegistry := unit; sdkAmino := unit; sdkTxConfig := bool; sdkKeyring := nat; sdkRetriever := nat;
  cmtLogger := unit; PubKey := unit; authRetriever := 7%nat; keyring_Sign := fun _ name msg => inr (msg, tt) |}.
Definition ex_encoding : EncodingConfig := mkEncoding ex_sdkTypes tt tt tt true.
Definition ex_settings : list (LiteClient -> LiteClient) :=
  [WithChainID "sentinelhub-1"; WithKeyring 3%nat; WithSignModeStr SignModeLegacyAminoJSON; WithTxConfig false; WithChainID "sentinelhub-2";
   WithFromName "hot"; WithGranter [x01]].
Lemma client_coherent_witness : Forall setting ex_settings
  ∧ coherent (foldl (fun c f => f c) (NewDefaultClient ex_encoding) ex_settings).
Proof.
  assert (Forall setting ex_settings) as H by (by repeat constructor). split; [exact H|]. by apply (client_coherent ex_encoding ex_settings).
Defined.
