(* ===== verification/Context.v ===== *)
(** What the handlers and jobs share: src/context/context.go, filled by
    src/cmd/start.go, and what it puts into the node's registration
    (src/context/tx.go).

    The fields are set one by one before the node runs; an unset one is nil.  The
    database and the service are types of their own. *)
From S2P Require Import Prelude Floats Codec Types Guard Lite Jobs Egress NodeConfig GeoIP Bandwidth Start Api WebServer LiteClient.
Set Default Proof Using "Type*".
Local Open Scope string_scope.

Section Context.
Context {ST : SdkTypes} {Database Svc Meta : Type}.

Record Context := mkNodeCtx {
  nc_bandwidth : option (Z * Z);          (* v1base.Bandwidth: upload, download *)
  nc_bandwidthSource : string;
  nc_client : option LiteClient;
  nc_config : option AppConfig;
  nc_database : option Database;
  nc_handler : option handler;
  nc_location : option GeoIPLocation;
  nc_logger : option zeroLogger;
  nc_service : option Svc }.
Definition NewContext : Context := mkNodeCtx None "" None None None None None None None.

Definition WithBandwidth (v : Z * Z) (c : Context) : Context :=
  mkNodeCtx (Some v) (nc_bandwidthSource c) (nc_client c) (nc_config c) (nc_database c) (nc_handler c) (nc_location c) (nc_logger c) (nc_service c).
Definition WithBandwidthSource (v : string) (c : Context) : Context :=
  mkNodeCtx (nc_bandwidth c) v (nc_client c) (nc_config c) (nc_database c) (nc_handler c) (nc_location c) (nc_logger c) (nc_service c).
Definition WithClient (v : LiteClient) (c : Context) : Context :=
  mkNodeCtx (nc_bandwidth c) (nc_bandwidthSource c) (Some v) (nc_config c) (nc_database c) (nc_handler c) (nc_location c) (nc_logger c) (nc_service c).
Definition WithConfig (v : AppConfig) (c : Context) : Context :=
  mkNodeCtx (nc_bandwidth c) (nc_bandwidthSource c) (nc_client c) (Some v) (nc_database c) (nc_handler c) (nc_location c) (nc_logger c) (nc_service c).
Definition WithDatabase (v : Database) (c : Context) : Context :=
  mkNodeCtx (nc_bandwidth c) (nc_bandwidthSource c) (nc_client c) (nc_config c) (Some v) (nc_handler c) (nc_location c) (nc_logger c) (nc_service c).
Definition WithHandler (v : handler) (c : Context) : Context :=
  mkNodeCtx (nc_bandwidth c) (nc_bandwidthSource c) (nc_client c) (nc_config c) (nc_database c) (Some v) (nc_location c) (nc_logger c) (nc_service c).
Definition WithLocation (v : GeoIPLocation) (c : Context) : Context :=
  mkNodeCtx (nc_bandwidth c) (nc_bandwidthSource c) (nc_client c) (nc_config c) (nc_database c) (nc_handler c) (Some v) (nc_logger c) (nc_service c).
Definition WithLogger (v : zeroLogger) (c : Context) : Context :=
  mkNodeCtx (nc_bandwidth c) (nc_bandwidthSource c) (nc_client c) (nc_config c) (nc_database c) (nc_handler c) (nc_location c) (Some v) (nc_service c).
Definition WithService (v : Svc) (c : Context) : Context :=
  mkNodeCtx (nc_bandwidth c) (nc_bandwidthSource c) (nc_client c) (nc_config c) (nc_database c) (nc_handler c) (nc_location c) (nc_logger c) (Some v).

(** The accessors read the configuration each time; [None] is the nil they would
    trip over. *)
Definition nc_Node (c : Context) : option NodeConfig := Node_ <$> nc_config c.
Definition nc_RemoteURL (c : Context) : option string := RemoteURL <$> nc_Node c.
Definition nc_intervals (c : Context) : option (Z * Z * Z) :=
  (fun n => (IntervalSetSessions n, IntervalUpdateSessions n, IntervalUpdateStatus n)) <$> nc_Node c.

(** ** The context of the start command *)
Definition startContext (client : LiteClient) (config : AppConfig) (database : Database) (router : handler) (location : GeoIPLocation)
    (log : zeroLogger) (service : Svc) (measured : Result) : Context :=
  foldl (fun c f => f c) NewContext
    [WithBandwidth (r_Upload measured, r_Download measured); WithBandwidthSource (r_Source measured); WithClient client; WithConfig config;
     WithDatabase database; WithHandler router; WithLocation location; WithLogger log; WithService service].

(** What the documents of the API read: the fields, and what the service says of itself. *)
Definition apiView (name : Svc -> string) (type peers : Svc -> Z) (metadata : Svc -> Meta) (c : Context) : option (nodeContext Meta) :=
  config ← nc_config c; location ← nc_location c; bw ← nc_bandwidth c; client ← nc_client c; service ← nc_service c;
  Some (mkContext Meta config location (mkResult bw.1 bw.2 (nc_bandwidthSource c)) (lc_FromAddress client) (lc_granter client)
    (name service) (type service) (peers service) (metadata service)).

(** ** Registration *)
Context {Coins Prices : Type} (ParseCoinsNormalized : string -> result Coins) (NewPricesFromString : string -> result Prices)
  (NewPricesFromCoins : Coins -> result Prices) (noPrices : Prices) (PricesString : Prices -> string) (AccString NodeString : bytes -> string).
Abbreviation parsePrices := (ParsePrices ParseCoinsNormalized NewPricesFromString NewPricesFromCoins noPrices).
(** [url.Parse], as far as the host and port of a URL go. *)
Context (url_Parse_Host : string -> result string).

(** [inl]: the panic. *)
Definition RemoteAddrs (config : AppConfig) : result (list string) :=
  match url_Parse_Host (RemoteURL (Node_ config)) with inl e => inl e | inr host => inr [host] end.
Definition operatorOf (client : LiteClient) : bytes := default (lc_FromAddress client) (lc_granter client).
(** The message of [RegisterNode] and that of [UpdateNodeInfo]. *)
Definition announcements (client : LiteClient) (config : AppConfig) : result (Msg * Msg) :=
  gigabyte ← parsePrices (n_GigabytePrices (Node_ config));
  hourly ← parsePrices (n_HourlyPrices (Node_ config));
  addrs ← RemoteAddrs config;
  inr (MsgRegisterNode (AccString (operatorOf client)) (PricesString gigabyte) (PricesString hourly) addrs,
       MsgUpdateNodeDetails (NodeString (operatorOf client)) (PricesString gigabyte) (PricesString hourly) addrs).

(** ** What it holds *)

(** What a request or a job finds in the context is what the start command settled:
    nothing is unset, the documents describe this configuration, location, bandwidth
    and account, and the account is the granter's when there is one. *)
Theorem startContext_serves name type peers metadata client config database router location log service measured :
  let c := startContext client config database router location log service measured in
  apiView name type peers metadata c = Some (mkContext Meta config location measured (lc_FromAddress client) (lc_granter client)
    (name service) (type service) (peers service) (metadata service))
  ∧ nc_handler c = Some router ∧ nc_logger c = Some log ∧ nc_database c = Some database ∧ nc_RemoteURL c = Some (RemoteURL (Node_ config)).
Proof. destruct measured; by split_and!. Qed.

(** A node whose configuration was accepted can always be announced: neither message
    meets a panic, both carry the configured prices and the one host of the advertised
    URL, and both are in the node account's name. *)
Theorem announcements_total ParseRequestURI ParseIP AccAddressFromBech32 types client config :
  (forall s u, ParseRequestURI s = inr u -> ∃ host, url_Parse_Host s = inr host) ->
  AppConfig_Validate ParseRequestURI ParseIP ParseCoinsNormalized NewPricesFromString NewPricesFromCoins noPrices
    AccAddressFromBech32 types config = inr tt ->
  ∃ g h host, parsePrices (n_GigabytePrices (Node_ config)) = inr g ∧ parsePrices (n_HourlyPrices (Node_ config)) = inr h
    ∧ url_Parse_Host (RemoteURL (Node_ config)) = inr host
    ∧ announcements client config = inr (MsgRegisterNode (AccString (operatorOf client)) (PricesString g) (PricesString h) [host],
        MsgUpdateNodeDetails (NodeString (operatorOf client)) (PricesString g) (PricesString h) [host]).
Proof.
  intros Hurl; unfold AppConfig_Validate; rewrite !then_inr, !Wrap_inr; intros (_ & _ & _ & _ & _ & _ & Hnode & _).
  pose proof (node_sound _ _ _ _ _ _ _ _ Hnode) as (_ & _ & _ & _ & (u & Hu & _) & _).
  apply node_prices in Hnode as (g & h & Hg & Hh); destruct (Hurl _ _ Hu) as [host Hhost].
  exists g, h, host; split_and!; [done..|]; unfold announcements, RemoteAddrs; by rewrite Hg, Hh, Hhost.
Qed.
End Context.
