(* ===== verification/StartProofs.v ===== *)
(** What the start command promises: a service that is started was checked, is
    confined and is stopped again; and the one way it is left running. *)
From S2P Require Import Prelude Floats Codec Guard Types Lite WireGuard Egress NodeConfig GeoIP Bandwidth Runtime Start.
Set Default Proof Using "Type*".
Local Open Scope string_scope.

(** The channel holds what all of them can say, so nobody who has ended waits to be
    heard, and the node keeps the first it was told. *)
Theorem node_Start_first ended : (ended.*1) ⊆+ activities ->
  (length (errCh ended) <= errCh_capacity)%nat
  ∧ forall more e, node_Start ended = Some e -> node_Start (ended ++ more) = Some e.
Proof.
  intros Hsub; split.
  - apply submseteq_length in Hsub; rewrite length_fmap in Hsub; cbn in Hsub; unfold errCh, errCh_capacity.
    etrans; [|exact Hsub]; clear; induction ended as [|x l IH]; cbn; [done|]; destruct (told_end x); cbn; lia.
  - intros more e; unfold node_Start, errCh; rewrite omap_app; by destruct (omap told_end ended).
Qed.

(** Over the warning window the count of transactions fits the width it is kept in,
    whatever the intervals: each is at least a nanosecond. *)
Theorem expectedTxs_bounds c : (0 <= expectedTxs c Grants.GrantWarningWindow <= 2 * Grants.GrantWarningWindow)%Z
  ∧ (2 * Grants.GrantWarningWindow < 2 ^ 63)%Z.
Proof.
  split; [|done]; unfold expectedTxs; cbn [foldl].
  assert (forall i, (0 < i -> 0 <= Z.quot Grants.GrantWarningWindow i <= Grants.GrantWarningWindow)%Z) as Hq.
  { intros i Hi; rewrite Z.quot_div_nonneg by (done || lia); split; [by apply Z.div_pos|].
    apply Z.div_le_upper_bound; [done|]; assert (0 <= Grants.GrantWarningWindow)%Z by done; nia. }
  pose proof (Hq (IntervalUpdateStatus (Node_ c))); pose proof (Hq (IntervalUpdateSessions (Node_ c))).
  assert (0 < Grants.GrantWarningWindow)%Z by done.
  destruct (Z.ltb_spec 0 (IntervalUpdateStatus (Node_ c))), (Z.ltb_spec 0 (IntervalUpdateSessions (Node_ c))); lia.
Qed.

(** The client of an accepted configuration has somewhere to ask, and every remote it
    can ask is reached over TLS or on the loopback; it never waits without a limit. *)
Theorem client_trusts ParseRequestURI ParseIP {Coins : Type} (ParseCoins : string -> result Coins) AccString config from granter :
  ChainConfig_Validate ParseRequestURI ParseIP ParseCoins (Chain_ config) = inr tt ->
  let c := clientOf AccString config from granter in
  Lite.remotes c ≠ [] ∧ Forall (trusted_remote ParseRequestURI ParseIP) (Lite.remotes c)
  ∧ Lite.queryTimeout c ≠ 0 ∧ Lite.txTimeout c ≠ 0.
Proof.
  intros H c; destruct (chain_remotes _ _ _ _ H) as [H1 H2]; split; [exact H1|split; [exact H2|]].
  unfold ChainConfig_Validate in H; rewrite !then_inr in H; destruct H as (_ & _ & H); apply bind_inr in H as [_ H].
  rewrite !then_inr, !check_inr in H; destruct H as (_ & _ & _ & Hq & Ht); by apply Z.eqb_neq in Hq, Ht.
Qed.

(** What the steps share: the policy, the runtime, and whether the service runs. *)
Definition view {W} `{!StartHost W} (w : W) : Egress * option Runtime * bool := (policyInForce w, runtimeInForce w, running w).
Definition untouched {W A} `{!StartHost W} (m : M W gerror A) : Prop := forall w, view (m w).2 = view w.

Class StartLaws (W : Type) {GJ : GeoJSON} `{!StartHost W, !HTTP W, !prober W, !CacheFile W, !Disk W} := {
  st_read p : untouched (ReadInConfig p);
  st_new p c : untouched (protocol_New p c);
  st_keyring h k : untouched (keyringAddress h k);
  st_account a : untouched (accountExists a);
  st_grants g c : untouched (grantsAllow g c);
  st_node : untouched nodeStatusTimeout;
  st_session : untouched sessionStatusTimeout;
  st_init h : untouched (svc_Init h);
  st_hnsd : untouched hnsdInstalled;
  st_open p : untouched (openDatabase p);
  st_migrate : untouched migrateDatabase;
  st_initialize : untouched node_Initialize;
  st_reconcile : untouched node_ReconcileSessions;
  st_handshake a w : view (goHandshake a w) = view w;
  st_routes c l r w : view (registerRoutes c l r w) = view w;
  st_do r : untouched (Do r);
  st_prober opts w : view (newProber opts w) = view w;
  st_candidates : untouched (W := W) Candidates;
  st_refine l w : view (Refine l w).2 = view w;
  st_measure c : untouched (MeasureServer c);
  st_cacheread p : untouched (ReadCacheFile p);
  st_cachewrite p d : untouched (WriteCacheFile p d);
  st_user n : untouched (user_Lookup n);
  st_group g : untouched (user_LookupGroupId g);
  st_mkdir p m : untouched (os_MkdirAll p m);
  st_chmod p m : untouched (os_Chmod p m);
  st_chown p u g : untouched (os_Chown p u g);
  st_serve h w : view (serve h w).2 = view w;
  st_egress e w : view (SetEgress e w) = (e, runtimeInForce w, running w);
  st_runtime rt w : view (SetRuntime rt w) = (policyInForce w, Some rt, running w);
  st_start w r w' : svc_Start w = (r, w') -> view w' = (policyInForce w, runtimeInForce w, if r is inr _ then true else running w);
  st_stop w w' : svc_Stop w = (inr tt, w') -> running w' = false
}.

Create HintDb untouched discriminated.

Section Untouched.
Context {W : Type} {GJ : GeoJSON} `{!StartHost W, !HTTP W, !prober W, !CacheFile W, !Disk W} {SL : StartLaws W}.

Lemma un_bind {A B} (m : M W gerror A) (f : A -> M W gerror B) : untouched m -> (forall a, untouched (f a)) -> untouched (m ≫= f).
Proof using Type.
  intros Hm Hf w; unfold mbind, M_bind; pose proof (Hm w); destruct (m w) as [[e|a] w1]; cbn in *; [done|by rewrite Hf].
Qed.
Lemma un_attempt {A} (m : M W gerror A) : untouched m -> untouched (attempt m : M W gerror (gerror + A)).
Proof using Type. intros Hm w; unfold attempt; pose proof (Hm w); by destruct (m w). Qed.
Lemma un_or_throw {A} (m : M W gerror A) g : untouched m -> untouched (or_throw m g : M W gerror A).
Proof using Type. intros Hm w; unfold or_throw; pose proof (Hm w); by destruct (m w) as [[]]. Qed.
Lemma un_ret {A} (a : A) : untouched (mret a : M W gerror A).
Proof using Type. done. Qed.
Lemma un_held {A} (r : result A) : untouched (held_to r).
Proof using Type. done. Qed.
Lemma un_gets {A} (f : W -> A) : untouched (gets f : M W gerror A).
Proof using Type. done. Qed.
Lemma un_throw {A} (e : gerror) : untouched (throw e : M W gerror A).
Proof using Type. done. Qed.
Lemma un_throw_if b (e : gerror) : untouched (throw_if b e : M W gerror unit).
Proof using Type. by destruct b. Qed.
Lemma un_at {A} (m : M W gerror A) w r w' : untouched m -> m w = (r, w') -> view w' = view w.
Proof using Type. intros Hm E; pose proof (Hm w) as H; by rewrite E in H. Qed.
#[local] Hint Resolve un_bind un_attempt un_or_throw un_ret un_held un_gets un_throw un_throw_if st_do st_user st_group st_mkdir st_chmod st_chown : untouched.

(** The location lookup. *)
Lemma un_fetch name url token : untouched (W := W) (fetch name url token).
Proof.
  unfold fetch; destruct (geo_providers name) as [p|]; [|auto with untouched].
  apply un_bind; [done|intros _]; apply un_bind; [apply st_do|]; intros [code body]; cbn.
  destruct (code =? 200)%Z; [|auto with untouched]; destruct (pv_parse p _); auto with untouched.
Qed.
Lemma un_walkChain names : untouched (W := W) (walkChain names).
Proof.
  induction names as [|name names IH]; cbn; [auto with untouched|].
  apply un_bind; [apply un_attempt, un_fetch|]; intros [e|l]; [done|]; case_decide; auto with untouched.
Qed.
Lemma un_Location opts : untouched (W := W) (Location opts).
Proof.
  apply un_bind; [|intros; apply un_ret]; case_decide; [auto with untouched|]; case_decide.
  - apply un_bind; [apply un_walkChain|]; intros loc; apply un_bind; [apply un_attempt, un_fetch|]; intros cf.
    destruct loc; [auto with untouched|]; destruct cf; [|auto with untouched].
    apply un_bind; [apply un_attempt, un_fetch|]; intros []; [|auto with untouched]; case_decide; auto with untouched.
  - destruct (geo_providers _); [apply un_fetch|auto with untouched].
Qed.

(** The measurement. *)
Lemma un_refine fuel rest refined w : view (refine_loop fuel rest refined w).2 = view w.
Proof.
  revert rest refined w; induction fuel as [|fuel IH]; intros [|c rest] refined w; cbn -[take drop]; try done.
  pose proof (st_refine (take refineBatch (c :: rest)) w) as E; destruct (Refine _ w) as [answers w1]; cbn in E.
  destruct (_ || _); cbn; [done|by rewrite IH].
Qed.
Lemma un_sample servers samples w : view (sample_loop servers samples w).2 = view w.
Proof.
  revert samples w; induction servers as [|c servers IH]; intros samples w; cbn; [done|]; destruct (cancelled w); [done|].
  pose proof (st_measure c w) as E; destruct (MeasureServer c w) as [[e|s] w1]; cbn in E; [by rewrite IH|].
  destruct (_ || _); [by rewrite IH|]; destruct (_ || _); [done|by rewrite IH].
Qed.
Context (ToLower : string -> string).
Lemma un_measure w : view (measure ToLower w).2 = view w.
Proof.
  unfold measure; pose proof (st_candidates w) as E; destruct (Candidates w) as [[e|l] w1]; cbn in E; [done|].
  case_decide; [done|].
  pose proof (un_refine (refineLimit / refineBatch) (take refineLimit (sortByLatency (filter (fun c => 0 < Latency c)%Z l))) [] w1) as E1.
  destruct (refine_loop _ _ [] w1) as [refined w2]; cbn in E1; case_decide; [cbn; congruence|].
  match goal with |- context [sample_loop ?a [] w2] => pose proof (un_sample a [] w2) as E2; destruct (sample_loop a [] w2) as [[|s r] w3] end;
    cbn in *; congruence.
Qed.
Lemma un_Measure opts w : view (Measure ToLower opts w).2 = view w.
Proof.
  unfold Measure; destruct (_ && _); [done|].
  assert (view (readCache (o_Home opts) w).2 = view w) as E.
  { unfold readCache; case_decide; [done|]; pose proof (st_cacheread (FileJoin (o_Home opts) cacheFileName) w) as E.
    destruct (ReadCacheFile _ w) as [[e|[d|]] w1]; cbn in *; [done| |done]; by destruct (UnmarshalEntry d). }
  destruct (readCache (o_Home opts) w) as [cached w1]; cbn in E.
  pose proof (un_measure (newProber opts w1)) as E1; rewrite st_prober in E1.
  destruct (measure ToLower (newProber opts w1)) as [res w2]; cbn in E1.
  set (mine := match cached with Some e => if decide (e_IP e = o_IP opts) then Some e else None | None => None end).
  destruct (match mine with Some e => _ | None => false end); [done|]; case_decide; [|cbn; congruence]; cbn.
  rewrite <- E, <- E1; unfold writeCache; case_decide; [done|]; destruct (MarshalEntry _) as [|d]; [done|].
  match goal with |- view (WriteCacheFile ?p ?t w2).2 = _ => exact (st_cachewrite p t w2) end.
Qed.

(** The runtime directory. *)
Lemma un_runtime home euid daemon : untouched (W := W) (PrepareRuntime home euid daemon).
Proof.
  apply un_bind; [destruct (_ && _); [|auto with untouched]; apply un_bind; [apply un_attempt|intros; apply un_ret]|].
  - apply un_bind; [apply st_user|]; intros u; destruct (Num.ParseUint32 (Str.of_string (ou_Uid u))), (Num.ParseUint32 (Str.of_string (ou_Gid u))); try done.
    apply un_bind; [apply st_group|done].
  - intros proxy; apply un_bind; [done|]; intros dir; apply un_bind; [apply st_mkdir|intros _].
    destruct proxy; [apply un_bind; [apply un_or_throw, st_chown|intros _]|]; (apply un_bind; [apply st_chmod|done]).
Qed.
End Untouched.

#[export] Hint Resolve un_bind un_attempt un_or_throw un_ret un_held un_gets un_throw un_throw_if un_Location un_runtime
  st_read st_new st_keyring st_account st_grants st_node st_session st_init st_hnsd st_open st_migrate st_initialize st_reconcile : untouched.

(** * The order of a start *)
Section Order.
Context {W : Type} {GJ : GeoJSON} `{!StartHost W, !HTTP W, !prober W, !CacheFile W, !Disk W} {SL : StartLaws W}.
Context (Validate : AppConfig -> result unit) (AccAddressFromBech32 : string -> result bytes)
  (SplitHostPort : string -> result (string * string)) (ParseUint16 : string -> result Z)
  (ToLower : string -> string) (Itoa : Z -> string) (JoinHostPort : bytes -> string -> string).
Context (skip : bool) (home : string) (euid : Z).
Abbreviation command := (StartCmd Validate AccAddressFromBech32 SplitHostPort ParseUint16 ToLower Itoa JoinHostPort skip home euid).
Abbreviation policyOf := (egressOf SplitHostPort ParseUint16).
Implicit Types (w : W) (config : AppConfig).

(** The checks a configuration went through before its service was started. *)
Record checked config protocol : Prop := {
  ck_valid : skip = false -> Validate config = inr tt;
  ck_type : Lookup (n_Type (Node_ config)) = inr protocol;
  ck_account : ∃ from granter w1 w1', granterOf AccAddressFromBech32 config from = inr granter
    ∧ accountExists from w1 = (inr true, w1')
    ∧ forall g, granter = Some g -> ∃ w2 w2', grantsAllow g config w2 = (inr tt, w2')
}.
(** The configuration in force: the same but for intervals, which fit the chain's. *)
Record fitted config config' : Prop := {
  ft_timeouts : ∃ t1 t2 w1 w1' w2 w2', nodeStatusTimeout w1 = (inr t1, w1') ∧ sessionStatusTimeout w2 = (inr t2, w2')
    ∧ config' = with_intervals (fitInterval t1 (IntervalUpdateStatus (Node_ config)))
        (fitInterval t2 (IntervalUpdateSessions (Node_ config))) config
}.

Lemma un_checkAccount config : untouched (checkAccount AccAddressFromBech32 home config : M W gerror bytes).
Proof using SL.
  apply un_bind; [apply st_keyring|intros from]; apply un_bind; [done|intros granter].
  apply un_bind; [apply st_account|intros there]; apply un_bind; [apply un_throw_if|intros _].
  apply un_bind; [destruct granter; [apply st_grants|done]|done].
Qed.
Lemma checkAccount_inv config w from w' : checkAccount AccAddressFromBech32 home config w = (inr from, w') ->
  ∃ granter w1 w1', granterOf AccAddressFromBech32 config from = inr granter ∧ accountExists from w1 = (inr true, w1')
    ∧ forall g, granter = Some g -> ∃ w2 w2', grantsAllow g config w2 = (inr tt, w2').
Proof using Type.
  intros H; apply bind_inv in H as [(? & _ & ?)|(from' & w0 & _ & H)]; [done|].
  apply bind_inv in H as [(? & _ & ?)|(granter & w1 & [= Hg ->] & H)]; [done|].
  apply bind_inv in H as [(? & _ & ?)|(there & w2 & Ha & H)]; [done|].
  apply bind_inv in H as [(? & _ & ?)|(u & w3 & Ht & H)]; [done|]; apply throw_if_inv in Ht as [-> [[_ ?]|[Hthere _]]]; [done|].
  apply bind_inv in H as [(? & _ & ?)|([] & w4 & Hgr & [[= ->] _]%ret_inv)]; [done|].
  apply negb_false_iff in Hthere; subst there.
  exists granter, w1, w2; split_and!; [done|done|]; intros g ->; by exists w2, w4.
Qed.
Lemma un_fitIntervals config : untouched (fitIntervals config : M W gerror AppConfig).
Proof using SL. apply un_bind; [apply st_node|intros]; apply un_bind; [apply st_session|done]. Qed.
Lemma fitIntervals_inv config w config' w' : fitIntervals config w = (inr config', w') -> fitted config config'.
Proof using Type.
  intros H; apply bind_inv in H as [(? & _ & ?)|(t1 & w1 & H1 & H)]; [done|].
  apply bind_inv in H as [(? & _ & ?)|(t2 & w2 & H2 & [[= ->] _]%ret_inv)]; [done|].
  split; by exists t1, t2, w, w1, w1, w2.
Qed.

(** The resolver is served only by a tunnel, and then the policy lets it be reached. *)
Lemma chooseResolver_inv config w r w' : chooseResolver SplitHostPort ParseUint16 config w = (r, w') ->
  policyInForce w = policyOf config None ->
  ∃ config' resolver, r = inr (config', resolver) ∧ view w' = (policyOf config resolver, runtimeInForce w, running w)
  ∧ (config' = config ∨ resolver = None ∧ config' = without_handshake config)
  ∧ forall ip, resolver = Some ip -> config' = config ∧ Enable (Handshake_ config) = true.
Proof using SL.
  unfold chooseResolver; intros H Hp; destruct (Enable (Handshake_ config)) eqn:Een; cbn in H.
  2: { apply ret_inv in H as [-> ->]; exists config, None; split_and!; [done|by unfold view; rewrite Hp|by left|done]. }
  apply bind_inv in H as [(? & (? & _ & ?)%attempt_inv & _)|(found & w1 & (x & Hx & [= ->])%attempt_inv & H)]; [done|].
  apply bind_inv in H as [(? & [? _]%gets_inv & _)|(host & w2 & [[= ->] ->]%gets_inv & H)]; [done|].
  apply (un_at _ _ _ _ st_hnsd) in Hx; unfold view in Hx; injection Hx as Hx1 Hx2 Hx3.
  destruct x as [e|[]]; [|destruct (svc_TunnelIPv4 w1) as [ip|]].
  2: { apply bind_inv in H as [(? & [=] & _)|([] & w3 & [= <-] & [-> ->]%ret_inv)]; exists config, (Some ip).
    rewrite st_egress, Hx2, Hx3; split_and!; [done|done|by left|by intros ? [= <-]]. }
  all: apply ret_inv in H as [-> ->]; exists (without_handshake config), None; unfold view; rewrite Hx1, Hx2, Hx3, Hp.
  all: split_and!; [done|done|by right|done].
Qed.

(** The state in which the service is started. *)
Record ready (w : W) : Prop := {
  rd_found : ∃ config0 protocol config resolver rt, checked config0 protocol ∧ fitted config0 config
    ∧ policyInForce w = policyOf config resolver
    ∧ runtimeInForce w = Some rt ∧ (∃ u u', PrepareRuntime home euid (p_Daemon protocol) u = (inr rt, u'))
    ∧ (∃ u u', svc_Init home u = (inr tt, u') ∧ policyInForce u = policyOf config None ∧ runtimeInForce u = Some rt)
}.

#[local] Hint Resolve un_checkAccount un_fitIntervals : untouched.

(** A step that changes nothing of what is in force. *)
Lemma un_then {A B} (m : M W gerror A) (f : A -> M W gerror B) w r w' : (m ≫= f) w = (r, w') -> untouched m ->
  (∃ e, r = inl e ∧ view w' = view w) ∨ (∃ a w1, m w = (inr a, w1) ∧ view w1 = view w ∧ f a w1 = (r, w')).
Proof using Type.
  intros H Hm; apply bind_inv in H as [(e & H & ->)|(a & w1 & H1 & H)]; [left; exists e; split; [done|by eapply un_at]|].
  right; exists a, w1; split_and!; [done|by eapply un_at|done].
Qed.

Ltac view_eq := unfold view in *; congruence.
Ltac step H a w E :=
  let e := fresh in let Ev := fresh "Ev" in
  apply un_then in H as [(e & -> & Ev)|(a & w & E & Ev & H)]; [split; [view_eq|done]| |solve [eauto 2 with untouched]].

Lemma start_prepare_inv w r w' : prepare Validate AccAddressFromBech32 SplitHostPort ParseUint16 ToLower skip home euid w = (r, w') ->
  running w' = running w ∧ forall x, r = inr x -> ready w'.
Proof using SL.
  intros H; unfold prepare in H.
  step H config w1 H1; step H u w2 Hv; step H protocol w3 Hl.
  injection Hv as Hv _; injection Hl as Hl _; destruct u.
  step H u w4 H4; step H from w5 Hacc; step H config' w6 Hfit.
  step H loc w7 H7.
  assert (untouched (fun w => let '(res, w') := Measure ToLower (linkOptions config' loc home) w in (inr res : gerror + Result, w'))) as Hm.
  { intros t; pose proof (un_Measure ToLower (linkOptions config' loc home) t) as E; by destruct (Measure _ _ t). }
  step H meas w8 H8; clear Hm.
  apply bind_inv in H as [(? & [=] & _)|([] & w9 & [= H9] & H)]; pose proof (st_egress (policyOf config' None) w8) as E9; rewrite H9 in E9.
  step H rt w10 Hrt.
  apply bind_inv in H as [(? & [=] & _)|([] & w11 & [= H11] & H)]; pose proof (st_runtime rt w10) as E11; rewrite H11 in E11.
  step H u' w12 Hinit; destruct u'.
  apply bind_inv in H as [(? & H & ->)|([config2 resolver] & w13 & H13 & [-> ->]%ret_inv)].
  { apply chooseResolver_inv in H as (? & ? & ? & _); [done|view_eq]. }
  apply chooseResolver_inv in H13 as (config3 & resolver' & [= <- <-] & E13 & _); [|view_eq].
  split; [view_eq|]; intros x _; split; exists config, protocol, config', resolver, rt.
  apply checkAccount_inv in Hacc; apply fitIntervals_inv in Hfit.
  split_and!; [split; [by intros -> |done|]|done|view_eq|view_eq|by exists w9, w10|].
  - destruct Hacc as (granter & a & a' & Hacc); by exists from, granter, a, a'.
  - exists w11, w12; split_and!; [done|view_eq|view_eq].
Qed.

(** C31. A service is started only when it may be, and is stopped again.  When the
    start command ends, either the service was never started, or the state it was
    started in was [ready]: the configuration valid unless the operator skipped
    the check, its type registered, the signing account on the chain and, for a hot
    key, its grants sufficient; the intervals fit the chain's; the egress policy
    and the runtime of the daemons were in force, already when the service wrote its
    files.  After that the command returns without the service running, or with the error
    of a stop that failed, or with an error of the set-up between the
    start and the run (database, registration, reconciliation), and only then
    the service is left running. *)
Theorem start_in_order w r w' : running w = false -> command w = (r, w') ->
  (∃ e, r = inl e ∧ running w' = false)
  ∨ ∃ ws ws', ready ws ∧ svc_Start ws = (inr tt, ws')
      ∧ ((∃ e, r = inl e ∧ running w' = true
            ∧ ∃ config location measured u, setUp home config location measured u = (inl e, w'))
         ∨ ∃ u r', svc_Stop u = (r', w') ∧ (r = inr tt -> r' = inr tt) ∧ (r' = inr tt -> running w' = false)).
Proof using SL.
  intros Hrun H; unfold StartCmd in H.
  apply bind_inv in H as [(e & H & ->)|([[[config location] measured] resolver] & w1 & H1 & H)].
  { left; exists e; split; [done|]; apply start_prepare_inv in H as [-> _]; done. }
  apply start_prepare_inv in H1 as [R1 Hready]; specialize (Hready _ eq_refl).
  apply bind_inv in H as [(e & H & ->)|([] & w2 & H2 & H)].
  { left; exists e; split; [done|]; apply st_start in H; view_eq. }
  right; exists w1, w2; split_and!; [done|done|]; apply st_start in H2.
  assert (∃ w3, view w3 = view w2 ∧ (setUp home config location measured ≫= fun _ => runUntilStopped home) w3 = (r, w')) as (w3 & E3 & H3).
  { destruct resolver; apply bind_inv in H as [(? & [=] & _)|([] & w3 & [= <-] & H)]; eexists; (split; [|exact H]); [apply st_handshake|done]. }
  assert (untouched (setUp home config location measured : M W gerror unit)) as Hset.
  { apply un_bind; [apply st_open|intros]; apply un_bind; [apply st_migrate|intros]; apply un_bind; [intros t; apply st_routes|intros].
    apply un_bind; [apply st_initialize|intros; apply st_reconcile]. }
  apply bind_inv in H3 as [(e & H3 & ->)|([] & w4 & H4 & H3)].
  - left; exists e; pose proof (un_at _ _ _ _ Hset H3); split_and!; [done|view_eq|by exists config, location, measured, w3].
  - right; unfold runUntilStopped in H3; destruct (serve home w4) as [err w5]; destruct (svc_Stop w5) as [r' w6] eqn:E6.
    injection H3 as <- <-; exists w5, r'; split_and!; [done| |intros ->; by eapply st_stop].
    by destruct err, r' as [|[]].
Qed.
End Order.
