(* ===== verification/Tickers.v ===== *)
(** The loops that run for the life of the node: the three jobs of src/node/jobs.go
    around their tickers, and [runHandshake] of src/cmd/start.go.

    A ticker of package time fires at multiples of its interval and keeps at most one
    tick for a receiver that is late; the others are dropped.  A loop does not end, so
    the model runs it for any number of turns. *)
From S2P Require Import Prelude Types Admission Jobs NodeConfig.
Set Default Proof Using "Type*".

(** * When a job runs

    [t0] is when the ticker was made, [d] its interval, [r] how many ticks had fired
    when the last one was received. *)
Definition fired (t0 d t : Z) : Z := (t - t0) / d.
(** A receive that begins at [t]: when it returns, and the ticks fired by then. *)
Definition receive (t0 d r t : Z) : Z * Z := if r <? fired t0 d t then (t, fired t0 d t) else (t0 + (r + 1) * d, r + 1).
(** The begin and end of the passes that take these times, the first of them at [t]. *)
Fixpoint passes (t0 d r t : Z) (took : list Z) : list (Z * Z) :=
  match took with
  | [] => []
  | e :: took => (t, t + e) :: (let '(t', r') := receive t0 d r (t + e) in passes t0 d r' t' took)
  end.
(** [for ; ; <-t.C]: the first pass at once. *)
Definition ticked (t0 d : Z) (took : list Z) : list (Z * Z) := passes t0 d 0 t0 took.

(** * What a job does *)
Section Jobs.
Context {S D C : Type} `{!Service S} `{!SessionStore D} `{!Chain C} (NodeAddress : string).
Abbreviation node := (node S D C).

(** [n] turns; what a pass complains of is logged, a panic ends the job. *)
Fixpoint turns (n : nat) (pass : M node panic (list gerror)) : M node panic (list gerror) :=
  match n with
  | O => mret []
  | Datatypes.S n => errs ← pass; more ← turns n pass; mret (errs ++ more)
  end.
Definition jobSetSessions (n : nat) : M node panic (list gerror) := turns n setSessions.
Definition jobUpdateSessions (n : nat) : M node panic (list gerror) := turns n (updateSessions NodeAddress).
Definition statusPass : M node panic (list gerror) := sent ← attempt (UpdateNodeStatus NodeAddress); mret (errs_of sent).
Definition jobUpdateStatus (n : nat) : M node panic (list gerror) := turns n statusPass.

(** The status job never ends: whatever the chain answers, every turn sends its update. *)
Lemma status_turns n s : ∃ errs s', jobUpdateStatus n s = (inr errs, s') ∧ (length errs <= n)%nat.
Proof.
  unfold jobUpdateStatus; revert s; induction n as [|n IH]; intros s; cbn [turns]; [by exists [], s|].
  assert (∃ e s1, statusPass s = (inr e, s1) ∧ (length e <= 1)%nat) as (e & s1 & E & Hl).
  { unfold statusPass, attempt, mbind, M_bind; destruct (UpdateNodeStatus NodeAddress s) as [[x|x] s1]; cbn; eauto. }
  destruct (IH s1) as (errs & s2 & E2 & Hl2); exists (e ++ errs), s2; unfold mbind, M_bind; rewrite E, E2, length_app.
  split; [done|lia].
Qed.
End Jobs.

(** * The resolver *)
Definition handshakeRestartDelay : Z := 15 * second.
Class ResolverHost (W : Type) := {
  hnsd_Run : list string -> M W gerror unit;
  rs_clock : W -> Z;
  rs_Sleep : Z -> W -> W
}.
Section Resolver.
Context {W : Type} `{!ResolverHost W}.
(** When it was started, in [n] turns. *)
Fixpoint runHandshake (n : nat) (args : list string) (w : W) : list Z * W :=
  match n with
  | O => ([], w)
  | S n =>
      let '(_, w1) := hnsd_Run args w in                            (* an error is logged *)
      let '(ts, w2) := runHandshake n args (rs_Sleep handshakeRestartDelay w1) in
      (rs_clock w :: ts, w2)
  end.
End Resolver.

(** * The passes come in time *)
Section Times.
Context (t0 d : Z) (Hd : 0 < d).

Lemma receive_spec r t t' r' : t0 + r * d <= t -> receive t0 d r t = (t', r') -> t <= t' <= t + d ∧ t0 + r' * d <= t'.
Proof.
  unfold receive, fired; intros Hr; pose proof (Z.div_mod (t - t0) d) as Hdm; pose proof (Z.mod_pos_bound (t - t0) d Hd) as Hm.
  destruct (Z.ltb_spec r ((t - t0) / d)); intros [= <- <-]; [split; nia|]; assert (t - t0 < (r + 1) * d) by nia; nia.
Qed.

Lemma passes_gap took r t k a b : t0 + r * d <= t -> Forall (Z.le 0) took ->
  passes t0 d r t took !! k = Some a -> passes t0 d r t took !! S k = Some b -> a.2 <= b.1 <= a.2 + d.
Proof.
  revert r t k; induction took as [|e took IH]; intros r t k Hr Ht; [done|]; inversion Ht as [|? ? He Ht']; subst; cbn [passes].
  destruct (receive t0 d r (t + e)) as [t' r'] eqn:E; apply receive_spec in E as [Hle Hr']; [|lia]; destruct k as [|k]; cbn.
  - intros [= <-]; destruct took as [|e' took]; cbn [passes]; [done|]; destruct (receive t0 d r' (t' + e')); cbn; intros [= <-]; cbn; lia.
  - by apply IH.
Qed.
Lemma passes_took took r t k a : passes t0 d r t took !! k = Some a -> ∃ e, took !! k = Some e ∧ a.2 = a.1 + e.
Proof using Type.
  clear Hd; revert r t k; induction took as [|e took IH]; intros r t k; [done|]; cbn [passes].
  destruct (receive t0 d r (t + e)) as [t' r']; destruct k as [|k]; cbn; [intros [= <-]; by exists e|apply IH].
Qed.
Lemma receive_punctual r e : 0 <= e <= d -> receive t0 d r (t0 + r * d + e) = (t0 + (r + 1) * d, r + 1).
Proof.
  intros He; unfold receive, fired; replace (t0 + r * d + e - t0) with (r * d + e) by lia.
  rewrite Z.div_add_l by lia; destruct (decide (e = d)) as [->|].
  - rewrite Z.div_same by lia; rewrite (proj2 (Z.ltb_lt r (r + 1))) by lia; f_equal; lia.
  - rewrite Z.div_small, Z.add_0_r, Z.ltb_irrefl by lia; done.
Qed.
Lemma passes_punctual took r k a : Forall (fun e => 0 <= e <= d) took ->
  passes t0 d r (t0 + r * d) took !! k = Some a -> a.1 = t0 + (r + Z.of_nat k) * d.
Proof.
  revert r k; induction took as [|e took IH]; intros r k Ht; [done|]; inversion Ht as [|? ? He Ht']; subst; cbn [passes].
  rewrite receive_punctual by done; destruct k as [|k]; cbn [lookup list_lookup]; [intros [= <-]; cbn; lia|].
  intros H%IH; [|done]; rewrite H; lia.
Qed.

(** A pass that takes no longer than the interval does not put off the next: the k-th
    begins k intervals after the first. *)
Theorem job_punctual took k a : Forall (fun e => 0 <= e <= d) took -> ticked t0 d took !! k = Some a -> a.1 = t0 + Z.of_nat k * d.
Proof.
  intros Ht H; unfold ticked in H; replace t0 with (t0 + 0 * d) in H at 2 by lia; apply passes_punctual in H; [|done]; lia.
Qed.
(** However long a pass takes, the next begins at most one interval after it ended. *)
Lemma job_gap took k a b : Forall (Z.le 0) took -> ticked t0 d took !! k = Some a -> ticked t0 d took !! S k = Some b -> a.2 <= b.1 <= a.2 + d.
Proof. intros Ht; apply passes_gap; [lia|done]. Qed.
End Times.

(** C13. The chain hears from the node in time.  With the interval the node uses, fitted to
    the timeout the chain has for a status (or a session), and passes that take no
    longer than a fifth of that timeout, the ends of two passes that follow each other
    are never further apart than the timeout. *)
Theorem reports_in_time timeout interval t0 took k a b :
  2 <= timeout -> timeout * 4 <= max_int64 -> 0 < interval -> Forall (fun e => 0 <= e <= timeout / 5) took ->
  let d := fitInterval timeout interval in
  ticked t0 d took !! k = Some a -> ticked t0 d took !! S k = Some b -> a.2 <= b.2 <= a.2 + timeout.
Proof.
  intros HT Hm HI Ht d Ha Hb.
  assert (0 < d ∧ d <= timeout * 4 / 5) as [Hd0 Hd].
  { unfold d, fitInterval; rewrite wrap64_id by (unfold is_int64, min_int64, max_int64 in *; lia).
    rewrite Z.quot_div_nonneg by lia; pose proof (Z.div_le_lower_bound (timeout * 4) 5 1 ltac:(lia) ltac:(lia)).
    destruct (Z.ltb_spec 0 (timeout * 4 / 5)), (Z.ltb_spec (timeout * 4 / 5) interval); cbn [andb]; lia. }
  assert (Forall (Z.le 0) took) as Hn by (eapply Forall_impl; [exact Ht|]; cbn; lia).
  pose proof (job_gap t0 d Hd0 took k a b Hn Ha Hb) as Hg.
  destruct (passes_took t0 d took 0 t0 (S k) b Hb) as (e & He & Eb); rewrite Forall_lookup in Ht; apply Ht in He.
  pose proof (Z.div_mod (timeout * 4) 5); pose proof (Z.div_mod timeout 5); pose proof (Z.mod_pos_bound (timeout * 4) 5); pose proof (Z.mod_pos_bound timeout 5); lia.
Qed.

(** A status timeout of an hour, an interval of two hours in the configuration and a
    second pass that takes ten minutes: the interval becomes 48 minutes, and the second
    pass ends 58 minutes after the first. *)
Lemma reports_in_time_witness : let d := fitInterval 3600 7200 in
  d = 2880 ∧ ticked 100 d [0; 600; 5] !! 0%nat = Some (100, 100) ∧ ticked 100 d [0; 600; 5] !! 1%nat = Some (2980, 3580)
  ∧ 100 <= 3580 <= 100 + 3600.
Proof.
  intros d; split; [done|]; split; [done|]; split; [done|].
  apply (reports_in_time 3600 7200 100 [0; 600; 5] 0%nat (100, 100) (2980, 3580)); try done; repeat constructor; done.
Defined.

(** The resolver is restarted no more than once in fifteen seconds. *)
Class ResolverLaws (W : Type) `{!ResolverHost W} := {
  rs_forward args w : rs_clock w <= rs_clock (hnsd_Run args w).2;
  rs_sleeps t w : rs_clock w + t <= rs_clock (rs_Sleep t w)
}.
Theorem resolver_spaced {W} `{!ResolverHost W} {RL : ResolverLaws W} n args w : let ts := (runHandshake n args w).1 in
  length ts = n ∧ forall k a b, ts !! k = Some a -> ts !! S k = Some b -> a + handshakeRestartDelay <= b.
Proof.
  revert w; induction n as [|n IH]; intros w; cbn [runHandshake]; [by split|].
  pose proof (rs_forward args w) as Hf; destruct (hnsd_Run args w) as [r w1]; cbn in Hf.
  pose proof (rs_sleeps handshakeRestartDelay w1) as Hs; specialize (IH (rs_Sleep handshakeRestartDelay w1)).
  assert (forall b, (runHandshake n args (rs_Sleep handshakeRestartDelay w1)).1 !! 0%nat = Some b -> rs_clock w1 + handshakeRestartDelay <= b) as Hb.
  { intros b; destruct n as [|n]; cbn [runHandshake]; [done|]; destruct (hnsd_Run args (rs_Sleep _ w1)) as [r' w2]; destruct (runHandshake n _ _); cbn.
    by intros [= <-]. }
  destruct (runHandshake n args (rs_Sleep handshakeRestartDelay w1)) as [ts w2]; cbn [fst] in *; destruct IH as [Hl Hk].
  split; [cbn; by rewrite Hl|]; intros [|k] a b; cbn [lookup list_lookup]; [intros [= <-] H%Hb; lia|apply Hk].
Qed.
