(* ===== verification/StartExample.v ===== *)
(** A start on a concrete host: a run that ends cleanly, and a full disk between the
    start of the service and the run. *)
From S2P Require Import Prelude Floats Codec Guard Egress NodeConfig GeoIP Bandwidth Runtime Start StartProofs.
Local Open Scope string_scope.

Record machine := mkMachine { m_policy : Egress; m_runtime : option Runtime; m_running : bool; m_full : bool }.
Definition m_idle (full : bool) : machine := mkMachine Egress0 None false full.

(** The operator declares the location and the link, so nothing is looked up. *)
Definition ex_start_config : AppConfig :=
  let d := AppDefaults 8585 (fun _ => "8585") NewAppConfig in
  mkApp (mkBandwidth (float64 100) (float64 50)) (Chain_ d) (Egress_ d)
    (mkGeoIP "none" "" "" "" "" (float64 0) (float64 0)) (mkHandshake true 8) (Keyring d)
    (NodeDefaults 8585 (fun _ => "8585") (mkNode 0 0 0 "203.0.113.9" "" "my-node" "1000udvpn" "20udvpn" "https://node.example:8585" "" false)) (QOS d).

#[export] Instance ex_StartHost : StartHost machine := {
  ReadInConfig _ := mret ex_start_config;
  protocol_New _ _ := mret tt;
  keyringAddress _ _ := mret [x2a];
  accountExists _ := mret true;
  showAddress _ := "sent1";
  grantsAllow _ _ := mret tt;
  nodeStatusTimeout := mret (5 * 1000000000)%Z;
  sessionStatusTimeout := mret 0%Z;
  SetEgress e m := mkMachine e (m_runtime m) (m_running m) (m_full m);
  SetRuntime rt m := mkMachine (m_policy m) (Some rt) (m_running m) (m_full m);
  svc_Init _ := mret tt;
  svc_TunnelIPv4 _ := Some [x0a; x08; x00; x01];
  hnsdInstalled := mret tt;
  svc_Start m := (inr tt, mkMachine (m_policy m) (m_runtime m) true (m_full m));
  svc_Stop m := (inr tt, mkMachine (m_policy m) (m_runtime m) false (m_full m));
  goHandshake _ m := m;
  openDatabase _ m := (if m_full m then inl "no space left on device" else inr tt, m);
  migrateDatabase := mret tt;
  registerRoutes _ _ _ m := m;
  node_Initialize := mret tt;
  node_ReconcileSessions := mret tt;
  serve _ m := (None, m);
  policyInForce := m_policy;
  runtimeInForce := m_runtime;
  running := m_running
}.
#[export] Instance ex_GeoJSON : GeoJSON := {
  decodeIPWhois _ := inl "EOF"; decodeIP2Location _ := inl "EOF"; decodeIPify _ := inl "EOF"; decodeIPAPI _ := inl "EOF";
  decodeIPInfo _ := inl "EOF"; ParseFloat _ := float64 0; geo_Itoa _ := "" }.
#[export] Instance ex_start_http : HTTP machine := { NewRequest _ := inr tt; Do _ := throw "no route to host" }.
#[export] Instance ex_start_prober : prober machine := { newProber _ m := m;
  Candidates := throw "no route to host"; Refine l m := (l, m); MeasureServer _ := throw "no route to host"; cancelled _ := false }.
#[export] Instance ex_start_cache : CacheFile machine := {
  ReadCacheFile _ := mret None; WriteCacheFile _ _ := mret tt; UnmarshalEntry _ := inl "EOF"; MarshalEntry _ := inr "";
  FileJoin a b := a +:+ "/" +:+ b; Now _ := 0%Z }.
#[export] Instance ex_start_disk : Disk machine := {
  user_Lookup _ := throw "unknown user"; user_LookupGroupId _ := throw "unknown group"; Getenv _ _ := "";
  os_MkdirAll _ _ := mret tt; os_Chmod _ _ := mret tt; os_Chown _ _ _ := mret tt; os_WriteFile _ _ _ := mret tt;
  os_ReadFile _ := throw "no such file"; Join a b := a +:+ "/" +:+ b; inode _ _ := None }.
#[export] Instance ex_StartLaws : StartLaws machine.
Proof.
  split; try done.
  - intros w r w' [= <- <-]; done.
  - intros w w' [= <-]; done.
Qed.

Definition ex_start (full : bool) : result unit * machine :=
  StartCmd (fun _ => inr tt) (fun _ => inl "no address") (fun _ => inr ("0.0.0.0", "8585")) (fun _ => inr 8585%Z)
    id (fun _ => "8") (fun _ port => "10.8.0.1:" +:+ port) false "/home/node" 0 (m_idle full).

(** With room on the disk the node runs and the service is stopped; on a full
    disk the command ends while the service still runs. *)
Lemma start_in_order_witness :
  (ex_start false).1 = inr tt ∧ running (ex_start false).2 = false
  ∧ (∃ ws ws', ready (fun _ => inr tt) (fun _ => inl "no address") (fun _ => inr ("0.0.0.0", "8585")) (fun _ => inr 8585%Z)
        false "/home/node" 0 ws ∧ svc_Start ws = (inr tt, ws'))
  ∧ (ex_start true).1 = inl "no space left on device" ∧ running (ex_start true).2 = true.
Proof.
  assert ((ex_start true).1 = inl "no space left on device" ∧ running (ex_start true).2 = true) as [E1 E2] by (vm_compute; done).
  split; [vm_compute; reflexivity|]; split; [vm_compute; reflexivity|]; split; [|by split].
  destruct (start_in_order (fun _ => inr tt) (fun _ => inl "no address") (fun _ => inr ("0.0.0.0", "8585")) (fun _ => inr 8585%Z)
    id (fun _ => "8") (fun _ port => "10.8.0.1:" +:+ port) false "/home/node" 0 (m_idle true) (ex_start true).1 (ex_start true).2)
    as [(e & _ & Hr)|(ws & ws' & Hready & Hs & _)]; [reflexivity|vm_compute; reflexivity| |].
  - rewrite E2 in Hr; discriminate Hr.
  - by exists ws, ws'.
Defined.
