(* ===== verification/Services.v ===== *)
(** The VPN protocols behind the node's interface: each of them discharges
    [ServiceLaws] and [ServiceAPILaws], so every theorem about admissions, jobs
    and handshakes holds of a node that runs it. *)
From S2P Require Import Prelude Codec Uuid Types Admission AdmissionProofs Guard Handshake HandshakeProofs IPPool Keyed WireGuard WireGuardAPI UuidTables Wire XRay V2Ray Management OpenVPN Hysteria.
Set Default Proof Using "Type*".

Section Services.
Context {A : Type} {HS : StatsAPI A} {HG : GRPC A} {PW : Protowire} {HV : V2API A} {HM : Management A} {HP : PKI A} {HT : Tool A}.
Context (unmarshal : bytes -> option uuid_request) (uuid_String : bytes -> string).

(** A service whose peers are the decoded keys of a table, whose requests and payloads
    leave them alone, and which starts out with none. *)
Definition implements {S : Type} (svc : Service S) (api : ServiceAPI S) (keys : S -> gset string)
    (J : S -> Prop) (new : A -> S) : Prop :=
  ∃ L : ServiceLaws S, ServiceAPILaws S
    ∧ (forall s, svc_inv (ServiceLaws := L) s <-> wf_keys (keys s) ∧ J s)
    ∧ (forall s, peer_set (ServiceLaws := L) s = decoded (keys s))
    ∧ (forall a, svc_inv (ServiceLaws := L) (new a) ∧ peer_set (ServiceLaws := L) (new a) = ∅).

(** C36. The services implement the contract the node relies on, WireGuard over the
    networks a node uses and the four proxies: whatever the tool or the proxy answers,
    their peer tables are finite sets of peers on which adding, removing, looking up,
    counting and metering act as promised, reading a request or rendering a reply does
    not touch them, and a service that was just made is in order and has no peers. *)
Theorem services_implement Interface EnableIPv6 IPString Unmarshal info tlsPin obfs proto caDER tlsCrypt :
  implements (wg_service (T := A) Interface EnableIPv6 IPString) (wg_api IPString Unmarshal info)
    (fun s => dom (wg_peers s)) (wg_inv (BE.get IPv4CIDR.1) (BE.get IPv6CIDR.1)) wg_new
  ∧ implements (hy_service (A := A)) (hy_api_of unmarshal info tlsPin obfs) hy_peers hy_inv hy_New
  ∧ implements (xr_service (A := A)) (xr_api unmarshal) x_peers xr_J xr_New
  ∧ implements (v2_service (A := A) uuid_String) (v2_api unmarshal) v2_keys v2_inv v2_New
  ∧ implements (ov_service (A := A)) (ov_api_of unmarshal info proto caDER tlsCrypt) o_peers ov_inv ov_New.
Proof.
  assert (wf_keys ∅) as Hwf by (intros k Hk; set_solver).
  split_and!.
  - exists (wg_laws Interface EnableIPv6 IPString (BE.get IPv4CIDR.1) _ (f6_pos Interface EnableIPv6 IPString)); split_and!; [apply wg_api_laws| |done|].
    + intros s; split; [|by intros [_ H]]; intros H; split; [apply H|exact H].
    + intros a; pose proof (wg_new_tight Interface EnableIPv6 IPString a) as H; split; [apply H|]; etrans; [|apply decoded_empty]; by rewrite <- (dom_empty_L (D := gset string) (M := gmap string) (A := wgPeer)).
  - exists hy_laws; split_and!; [apply hy_api_laws|done..|].
    intros a; split; [split; [exact Hwf|]|apply decoded_empty]; apply tables_empty.
  - exists xr_laws; split_and!; [apply xr_api_laws|done..|].
    intros a; split; [by split|apply decoded_empty].
  - exists (v2_laws uuid_String); split_and!; [apply v2_api_laws|done..|].
    intros a; assert (v2_keys (v2_New a) = ∅) as E by apply dom_empty_L.
    split; [split; [by rewrite E|]|etrans; [|apply decoded_empty]; by rewrite <- E].
    intros k v Hk; by destruct (lookup_empty_Some (M := gmap string) k v).
  - exists ov_laws; split_and!; [apply ov_api_laws|done..|].
    intros a; split; [split; [exact Hwf|]|apply decoded_empty]; apply tables_empty.
Qed.
End Services.
