(* ===== verification/Instances.v ===== *)
(** Concrete collaborators: an in-memory session table, a VPN service that is
    just its set of peers, and a chain client that answers from a fixed ledger.

    They show that the laws the node's theorems assume can hold together, and
    the witnesses run the node's operations on them. *)
From S2P Require Import Prelude Codec Types Admission AdmissionProofs Jobs JobsProofs ReportProofs NodeSystem.

(** * An in-memory session table

    [store_up] lets a write fail, as a full disk would. *)
Record memstore := mkStore { store_rows : list Session; store_up : bool; store_now : Z }.

Definition store_write (db : memstore) (l : list Session) : (gerror + unit) * memstore :=
  if store_up db then (inr tt, mkStore l true (store_now db)) else (inl "disk full"%string, db).

#[export] Instance memstore_store : SessionStore memstore := {
  rows := store_rows;
  Count w db := (inr (Z.of_nat (length (List.filter (matches w) (store_rows db)))), db);
  Find w db := (inr (List.filter (matches w) (store_rows db)), db);
  FindFirst w db := (inr (take 1 (List.filter (matches w) (store_rows db))), db);
  Create row db :=
    if bool_decide (ID row ∈ ID <$> store_rows db) || bool_decide (Key row ∈ Key <$> store_rows db)
    then (inl "UNIQUE constraint failed"%string, db)
    else store_write db (store_rows db ++ [stamped row (store_now db)]);
  UpdateUsage w up down db := store_write db
    ((fun x => if matches w x then with_usage x up down (store_now db) else x) <$> store_rows db);
  Delete w db := store_write db (List.filter (fun x => negb (matches w x)) (store_rows db));
  DeleteAll db := store_write db [];
  Vacuum db := store_write db (store_rows db)
}.

#[export] Instance memstore_laws : SessionStoreLaws memstore.
Proof.
  split; simpl; unfold store_write.
  - intros w db r db' H; by simplify_eq.
  - intros w db r db' H; by simplify_eq.
  - intros w db r db' H; by simplify_eq.
  - intros row db r db' H.
    destruct (bool_decide (ID row ∈ _)) eqn:Hi; [by simplify_eq/=|].
    destruct (bool_decide (Key row ∈ _)) eqn:Hk; [by simplify_eq/=|]; simpl in H.
    apply bool_decide_eq_false in Hi, Hk.
    destruct (store_up db); simplify_eq/=; eauto.
  - intros w up down db r db' H; destruct (store_up db); simplify_eq/=; eauto.
  - intros w db r db' H; by destruct (store_up db); simplify_eq/=.
  - intros db r db' H; by destruct (store_up db); simplify_eq/=.
  - intros db r db' H; by destruct (store_up db); simplify_eq/=.
Qed.

(** * A service that is its set of peers

    [stuck] peers cannot be taken out. *)
Record setservice := mkSvc { members : gset bytes; stuck : gset bytes }.

#[export] Instance setservice_service : Service setservice := {
  AddPeer d s := if decide (d ∈ members s) then (inl "duplicate peer"%string, s)
    else (inr [], mkSvc ({[d]} ∪ members s) (stuck s));
  HasPeer d s := bool_decide (d ∈ members s);
  RemovePeer d s := if decide (d ∈ stuck s) then (inl "stuck"%string, s)
    else (inr tt, mkSvc (members s ∖ {[d]}) (stuck s));
  Peers s := (inr ((fun d => mkPeer (Base64.EncodeToString d) 100 200) <$> elements (members s)), s);
  PeerCount s := Z.of_nat (size (members s))
}.

#[export] Instance setservice_laws : ServiceLaws setservice.
Proof.
  refine {| svc_inv _ := True; peer_set := members |}; simpl.
  - done.
  - done.
  - intros s d r s' _ _ H; destruct (decide _); by simplify_eq.
  - intros s d e s' _ H; destruct (decide _); by simplify_eq.
  - intros s d s' _ _ H; destruct (decide _); simplify_eq/=; set_solver.
  - intros s d r s' _ H; destruct (decide _); simplify_eq/=; set_solver.
  - intros s r s' _ H; by simplify_eq.
  - intros s d r s' H; destruct (decide _); simplify_eq/=; [lia|].
    rewrite size_union by set_solver; rewrite size_singleton; lia.
  - intros s d r s' H; destruct (decide _); simplify_eq/=; [lia|].
    pose proof (subseteq_size (members s ∖ {[d]}) (members s) ltac:(set_solver)); lia.
Defined.

(** * A chain that answers from a fixed ledger *)
Record ledger := mkLedger {
  l_session : Z -> option ChainSession;
  l_sub : Z -> option ChainSubscription;
  l_alloc : Z -> string -> option Allocation;
  l_txs : list (list Msg);           (* accepted transactions *)
  l_refuse : Z -> bool               (* sessions the chain refuses to hear about *)
}.

#[export] Instance ledger_chain : Chain ledger := {
  QuerySession id c := (inr (l_session c id), c);
  QuerySubscription id c := (inr (l_sub c id), c);
  QueryAllocation id acc c := (inr (l_alloc c id acc), c);
  QueryNode _ c := (inr (Some StatusActive), c);
  Tx msgs c :=
    if existsb (fun m => if m is MsgUpdateSession _ id _ _ _ then l_refuse c id else false) msgs
    then (inl "session not found"%string, c)
    else (inr tt, mkLedger (l_session c) (l_sub c) (l_alloc c) (l_txs c ++ [msgs]) (l_refuse c))
}.

(** * A node with one client already connected *)
Definition ex_key (b : byte) : bytes := replicate 2 b.
Definition ex_session (id : Z) (kind : SessionKind) : ChainSession :=
  mkChainSession id "sent1alice" "sentnode1" StatusActive 0 10 20 30 1000 7 kind.
Definition ex_ledger : ledger := mkLedger
  (fun id => if id =? 5 then Some (ex_session 5 (SubscriptionSession 3))
             else if id =? 4 then Some (ex_session 4 NodeSession) else None)
  (fun id => if id =? 3 then Some (mkSub 3 StatusActive) else None)
  (fun id acc => if id =? 3 then Some (mkAlloc 900 100) else None) [] (fun _ => false).
(** Alice's earlier session on the same subscription, 60 bytes of it unreported. *)
Definition ex_row : Session :=
  mkSession 1 3 (Base64.EncodeToString (ex_key x01)) "sent1alice" 500 40 50 10 20 0 0 0.
Definition ex_node : node setservice memstore ledger :=
  mkNode (mkSvc {[ex_key x01]} ∅) (mkStore [ex_row] true 9) ex_ledger.
Definition ex_sha (_ : bytes) : bytes := [].
Definition ex_req : admitRequest := mkReq "sent1alice" 5 (ex_key x02).

Lemma ex_node_inv : node_inv ex_node.
Proof.
  split; simpl.
  - done.
  - apply NoDup_singleton.
  - set_solver.
  - apply NoDup_singleton.
  - by repeat constructor; exists (ex_key x01).
  - intros d ->%elem_of_singleton; set_solver.
Defined.

Definition ex_run := sessionAdmit ex_sha 250 "sentnode1" ex_req ex_node.

Lemma admit_success_witness : ∃ res, ex_run.1 = inr res
  ∧ ∃ a, granted "sentnode1" (chain ex_node) ex_req a ∧ admitted 250 ex_req a res ex_node ex_run.2.
Proof.
  eexists; split; [vm_compute; reflexivity|].
  apply (admit_success "sentnode1" 250 ex_sha ex_req ex_node _ _ ex_node_inv); [done|done|].
  apply run_outcome; vm_compute; reflexivity.
Defined.

(** The disk is full and the new peer cannot be taken out again. *)
Definition ex_broken : node setservice memstore ledger :=
  mkNode (mkSvc {[ex_key x01]} {[ex_key x02]}) (mkStore [ex_row] false 9) ex_ledger.

Lemma ex_broken_inv : node_inv ex_broken.
Proof. destruct ex_node_inv; by split. Defined.

Definition ex_broken_run := sessionAdmit ex_sha 250 "sentnode1" ex_req ex_broken.

Lemma admit_failure_witness : ∃ e, ex_broken_run.1 = inl e ∧ e_Code e = 10
  ∧ bool_decide (ex_key x02 ∈ members (svc ex_broken_run.2)) = true
  ∧ refused 250 ex_req e ex_broken ex_broken_run.2.
Proof.
  eexists; split_and!; [vm_compute; reflexivity|done|vm_compute; reflexivity|].
  apply (admit_failure "sentnode1" 250 ex_sha ex_req ex_broken _ _ ex_broken_inv); [done|done|].
  apply run_outcome; vm_compute; reflexivity.
Defined.

(** 900 granted, 100 used, 60 served here and not reported, 970 left on the
    session itself: the budget is 740. *)
Lemma admit_budget_witness : ∃ res, ex_run.1 = inr res
  ∧ (Available <$> rows (db ex_run.2)) = [500; 740]
  ∧ ∃ row a, rows (db ex_run.2) = rows (db ex_node) ++ [row] ∧ granted "sentnode1" (chain ex_node) ex_req a
    ∧ 0 <= Available row <= max_int64.
Proof.
  destruct ex_run.1 as [e|res] eqn:E; [vm_compute in E; discriminate E|].
  exists res; split; [done|]; split; [vm_compute; reflexivity|].
  destruct (admit_budget "sentnode1" 250 ex_sha ex_req ex_node res ex_run.2 ex_node_inv) as (row & a & Hrow & _ & Hg & _ & Hr & _);
    [done|done|by apply run_outcome|].
  exists row, a; split_and!; [exact Hrow|exact Hg|apply Hr|apply Hr].
Defined.

Lemma admit_5xx_witness : ∃ e, (sessionAdmit ex_sha 1 "sentnode1" ex_req ex_node).1 = inl e
  ∧ e_Err e = max_peers_reached 1
  ∧ (e_Status e = StatusInternalServerError <-> ∃ g, e_Err e = cause g) ∧ 400 <= e_Status e <= 500.
Proof.
  eexists; split; [vm_compute; reflexivity|]; split; [done|].
  eapply (admit_5xx_iff_internal "sentnode1" 1 ex_sha ex_req ex_node).
  apply run_outcome; vm_compute; reflexivity.
Defined.

(** * The jobs *)
Definition ex_peers : list Peer := [mkPeer (Base64.EncodeToString (ex_key x01)) 100 200].

Lemma setSessions_correct_witness :
  (Upload <$> rows (db (setSessions ex_node).2)) = [120]
  ∧ ∃ errs, (setSessions ex_node).1 = inr errs ∧ pass_spec ex_peers ex_node errs (setSessions ex_node).2.
Proof.
  split; [vm_compute; reflexivity|].
  eapply (setSessions_correct ex_node ex_peers (svc ex_node)).
  - apply node_inv_split, ex_node_inv.
  - done.
  - vm_compute; reflexivity.
  - by repeat constructor; exists (ex_key x01).
  - apply NoDup_singleton.
  - apply run_outcome; reflexivity.
Defined.

(** A node that serves a peer without a row, as after a failed undo. *)
Definition ex_orphan : node setservice memstore ledger :=
  mkNode (mkSvc {[ex_key x01; ex_key x02]} ∅) (mkStore [ex_row] true 9) ex_ledger.
Definition ex_orphan_peers : list Peer :=
  (fun d => mkPeer (Base64.EncodeToString d) 100 200) <$> elements ({[ex_key x01; ex_key x02]} : gset bytes).

Lemma setSessions_repairs_witness :
  bool_decide (ex_key x02 ∈ members (svc ex_orphan)) = true
  ∧ bool_decide (ex_key x02 ∈ members (svc (setSessions ex_orphan).2)) = false
  ∧ node_inv (setSessions ex_orphan).2.
Proof.
  split; [vm_compute; reflexivity|]; split; [vm_compute; reflexivity|].
  apply (setSessions_repairs ex_orphan ex_orphan_peers (svc ex_orphan)).
  - by destruct (proj1 (node_inv_split ex_node) ex_node_inv) as (_ & Ht & _).
  - done.
  - done.
  - unfold ex_orphan_peers; rewrite <- list_fmap_compose; apply Forall_fmap, Forall_forall.
    intros d Hd; exists d; split; [|done].
    apply elem_of_elements in Hd; set_solver.
  - unfold ex_orphan_peers; rewrite <- list_fmap_compose.
    apply NoDup_fmap_2; [apply _|apply NoDup_elements].
  - intros d Hd; unfold ex_orphan_peers; rewrite <- list_fmap_compose.
    apply list_elem_of_fmap; exists d; split; [done|by apply elem_of_elements].
  - apply run_outcome; vm_compute; reflexivity.
Defined.

(** The chain dropped session 1: its row and its peer go. *)
Lemma updateSessions_safe_witness : rows (db (updateSessions "sentnode1" ex_node).2) = []
  ∧ trims ex_node (updateSessions "sentnode1" ex_node).2.
Proof.
  split; [vm_compute; reflexivity|].
  eapply (updateSessions_safe "sentnode1" ex_node); [apply ex_node_inv|apply run_outcome; reflexivity].
Defined.

(** Sessions 4 (alive) and 6 (dropped); the chain refuses any report about 6. *)
Definition ex_row_of (id : Z) (b : byte) : Session :=
  mkSession id 0 (Base64.EncodeToString (ex_key b)) "sent1alice" 0 40 50 10 20 0 0 0.
Definition ex_logged : node setservice memstore (logged ledger) :=
  mkNode (mkSvc ∅ ∅) (mkStore [ex_row_of 4 x04; ex_row_of 6 x06] true 9)
    (mkLedger (l_session ex_ledger) (l_sub ex_ledger) (l_alloc ex_ledger) [] (fun id => id =? 6), []).
Definition ex_items : list Session := [ex_row_of 4 x04; ex_row_of 6 x06].
Definition ex_report := reportSessions "sentnode1" ex_items ex_logged.

Lemma reportSessions_accounts_witness : ex_report.1 = inr []
  ∧ accepted (log ex_report.2) = [sessionMsg "sentnode1" (ex_row_of 4 x04)]
  ∧ ∃ errs new, ex_report.1 = inr errs ∧ log ex_report.2 = log ex_logged ++ new
    ∧ report_trace "sentnode1" ex_items errs new ∧ report_spec "sentnode1" ex_items errs new
    ∧ forall x, x ∈ ex_items ->
        sessionMsg "sentnode1" x ∈ accepted new ∨ (∃ ans, Asked (ID x) (inr ans) ∈ new ∧ gone ans)
        ∨ Sent [sessionMsg "sentnode1" x] false ∈ new
        ∨ (∃ e, errs = [e]) ∧ forall id ans, Asked id (inr ans) ∉ new.
Proof.
  split_and!; [vm_compute; reflexivity|vm_compute; reflexivity|].
  apply (reportSessions_accounts "sentnode1" ex_items ex_logged).
  apply surjective_pairing.
Defined.

Definition ex_reconcile := ReconcileSessions "sentnode1" ex_logged.

Lemma ReconcileSessions_clears_witness : rows (db ex_reconcile.2) = [] ∧ node_inv ex_reconcile.2
  ∧ ∃ answers sent, length answers = length (rows (db ex_logged))
    ∧ log ex_reconcile.2 =
      log ex_logged ++ zip_with (fun x a => Asked (ID x) a) (rows (db ex_logged)) answers ++ sent
    ∧ final_sent "sentnode1" (select (rows (db ex_logged)) answers) sent.
Proof.
  apply (ReconcileSessions_clears "sentnode1" ex_logged ex_items (db ex_logged)); [done|done|done|].
  apply run_outcome; vm_compute; reflexivity.
Defined.

(** * A run: one client connects *)
Definition ex_n0 : node setservice memstore ledger := mkNode (mkSvc ∅ ∅) (mkStore [] true 9) ex_ledger.
Definition ex_s0 : system := mkSys ex_n0 [] None UIdle.
Definition ex_s1 : system :=
  mkSys (checkCapacity ex_sha 250 ex_req ex_n0).2 [Checked ex_req] None UIdle.
Definition ex_adm : admission :=
  mkAdm (ex_session 5 (SubscriptionSession 3)) 3 970 (Some (mkAlloc 900 100)).
Definition ex_s2 : system :=
  mkSys (queryAdmission "sentnode1" ex_req (nd ex_s1)).2 [Queried ex_req ex_adm] None UIdle.
Definition ex_s3 : system := mkSys (admit_locked ex_sha 250 ex_req ex_adm (nd ex_s2)).2 [] None UIdle.

Lemma ex_run_ok (clean : bool) : run ex_sha 250 "sentnode1" clean ex_s0 ex_s3.
Proof.
  eapply (run_step _ _ _ _ _ ex_s2 _ true); [|
    apply (hs_lock ex_sha 250 "sentnode1" _ _ [] [] None UIdle ex_req ex_adm
      (inr (mkRes (ex_session 5 (SubscriptionSession 3)) []))); apply run_outcome; vm_compute; reflexivity|done].
  eapply (run_step _ _ _ _ _ ex_s1 _ true); [|
    apply (hs_query ex_sha 250 "sentnode1" _ _ [] [] None UIdle ex_req (inr ex_adm));
      apply run_outcome; vm_compute; reflexivity|done].
  eapply (run_step _ _ _ _ _ ex_s0 _ true); [constructor|
    apply (hs_begin ex_sha 250 "sentnode1" _ _ [] None UIdle ex_req (inr tt)); [done|];
      apply run_outcome; vm_compute; reflexivity|done].
Defined.

Lemma reachable_safe_witness : PeerCount (svc (nd ex_s3)) = 1 ∧ PeerCount (svc (nd ex_s3)) <= 250
  ∧ table_inv (rows (db (nd ex_s3))) ∧ pend_ok (pending (updating ex_s3)) (nd ex_s3).
Proof.
  split; [vm_compute; reflexivity|].
  by apply (reachable_safe ex_sha 250 "sentnode1" ex_s0 ex_s3); [lia| |apply ex_run_ok].
Defined.

Lemma clean_metered_witness : metered (nd ex_s3).
Proof. by apply (clean_metered ex_sha 250 "sentnode1" ex_s0 ex_s3); [lia| |apply ex_run_ok]. Defined.
