(* ===== verification/Examples.v ===== *)
(** Concrete collaborators of the protocol services (a protowire encoder, a
    proxy that answers, a certificate authority) and the witnesses of the
    handshake, the pools and the services. *)
From S2P Require Import Prelude Codec Uuid Types Admission AdmissionProofs Guard Handshake HandshakeProofs IPPool Keyed WireGuard WireGuardAPI UuidTables Hysteria Wire XRay V2Ray Management OpenVPN StaticKey Services Instances.

(** * Protocol buffers: base-128 numbers and length-prefixed bytes *)
Fixpoint varint (n : nat) (v : Z) : bytes :=
  match n with
  | O => [byte_of_Z v]
  | S n => if v <? 128 then [byte_of_Z v] else byte_of_Z (v mod 128 + 128) :: varint n (v / 128)
  end.
Fixpoint unvarint (n : nat) (b : bytes) : option (Z * nat) :=
  match b with
  | [] => None
  | c :: b =>
      if byte_to_Z c <? 128 then Some (byte_to_Z c, 1%nat) else
      match n with
      | O => None
      | S n => '(v, k) ← unvarint n b; Some (byte_to_Z c - 128 + 128 * v, S k)
      end
  end.

Lemma unvarint_varint n v r : 0 <= v < 128 ^ Z.of_nat (S n) ->
  unvarint n (varint n v ++ r) = Some (v, length (varint n v)).
Proof.
  revert v; induction n as [|n IH]; intros v Hv.
  - change (128 ^ Z.of_nat 1) with 128 in Hv; cbn; rewrite byte_to_of_Z, Z.mod_small by lia.
    by destruct (Z.ltb_spec v 128); [|lia].
  - rewrite Nat2Z.inj_succ, Z.pow_succ_r in Hv by lia; cbn [varint].
    destruct (Z.ltb_spec v 128) as [H|H]; cbn [app unvarint length]; rewrite byte_to_of_Z.
    + rewrite Z.mod_small by lia; by destruct (Z.ltb_spec v 128); [|lia].
    + pose proof (Z.mod_pos_bound v 128 ltac:(lia)); rewrite (Z.mod_small (v mod 128 + 128)) by lia.
      destruct (Z.ltb_spec (v mod 128 + 128) 128); [lia|].
      rewrite IH; [cbn; do 2 f_equal; pose proof (Z.div_mod v 128 ltac:(lia)); lia|].
      split; [apply Z.div_pos; lia|apply Z.div_lt_upper_bound; lia].
Qed.

Lemma unvarint_size n b v k : unvarint n b = Some (v, k) -> (1 <= k <= length b)%nat.
Proof.
  revert n v k; induction b as [|c b IH]; intros n v k; [by destruct n|]; cbn [unvarint].
  destruct n as [|n]; cbn; destruct (byte_to_Z c <? 128); [intros [= <- <-]; lia|done|intros [= <- <-]; lia|].
  destruct (unvarint n b) as [[v' k']|] eqn:E; [|done]; cbn; intros [= <- <-]; apply IH in E; lia.
Qed.

Definition pw_varint (v : Z) : bytes := varint 9 v.
Definition pw_unvarint (b : bytes) : Z * Z :=
  match unvarint 9 b with Some (v, k) => (v, Z.of_nat k) | None => (0, -1) end.
Definition pw_unbytes (b : bytes) : bytes * Z :=
  match unvarint 9 b with
  | Some (v, k) => if v <=? len b - Z.of_nat k
                   then (take (Z.to_nat v) (drop k b), Z.of_nat k + v) else ([], -1)
  | None => ([], -1)
  end.

#[export] Instance proto : Protowire := {
  AppendTag b num typ := b ++ pw_varint (num * 8 + typ);
  AppendVarint b v := b ++ pw_varint v;
  AppendBytes b m := b ++ pw_varint (len m) ++ m;
  AppendString b s := b ++ pw_varint (len (str s)) ++ str s;
  ConsumeTag b := let '(v, n) := pw_unvarint b in (v / 8, v mod 8, n);
  ConsumeVarint := pw_unvarint;
  ConsumeBytes := pw_unbytes;
  ConsumeString b := (String.string_of_list_byte (pw_unbytes b).1, (pw_unbytes b).2);
  ConsumeFieldValue num typ b :=
    if typ =? VarintType then (pw_unvarint b).2 else if typ =? BytesType then (pw_unbytes b).2
    else if (typ =? 1) && (8 <=? len b) then 8 else if (typ =? 5) && (4 <=? len b) then 4 else -1;
  ParseError n := if n =? -1 then "unexpected EOF"%string else "proto: parse error"%string
}.

Lemma pw_round v r : is_uint64 v -> pw_unvarint (pw_varint v ++ r) = (v, len (pw_varint v)).
Proof.
  intros Hv; unfold pw_unvarint, pw_varint; rewrite unvarint_varint; [done|].
  unfold is_uint64 in Hv; change (128 ^ Z.of_nat 10) with (2 ^ 70); lia.
Qed.
Lemma pw_size b : (pw_unvarint b).2 < 0 ∨ 0 < (pw_unvarint b).2 <= len b.
Proof.
  unfold pw_unvarint; destruct (unvarint 9 b) as [[v k]|] eqn:E; [|by left]; apply unvarint_size in E.
  unfold len; right; cbn; lia.
Qed.
Lemma unvarint_nonneg n b v k : unvarint n b = Some (v, k) -> 0 <= v.
Proof.
  revert n v k; induction b as [|c b IH]; intros n v k; [by destruct n|]; cbn [unvarint].
  pose proof (byte_to_Z_range c).
  destruct n as [|n]; cbn; destruct (Z.ltb_spec (byte_to_Z c) 128); try done; [intros [= <- <-]; lia..|].
  destruct (unvarint n b) as [[v' k']|] eqn:E; [|done]; cbn; intros [= <- <-]; apply IH in E; lia.
Qed.
Lemma pw_bytes_size b : (pw_unbytes b).2 < 0 ∨ 0 <= (pw_unbytes b).2 <= len b.
Proof.
  unfold pw_unbytes; destruct (unvarint 9 b) as [[v k]|] eqn:E; [|by left].
  pose proof (unvarint_nonneg _ _ _ _ E); apply unvarint_size in E.
  destruct (Z.leb_spec v (len b - Z.of_nat k)); [right; cbn; lia|by left].
Qed.

#[export] Instance proto_laws : ProtowireLaws.
Proof.
  split; cbn [AppendTag AppendVarint AppendBytes AppendString ConsumeTag ConsumeVarint ConsumeBytes
    ConsumeString ConsumeFieldValue proto app].
  - done.
  - done.
  - done.
  - done.
  - intros num typ r Hn Ht; unfold valid_number in Hn.
    assert (0 <= typ < 8) by (destruct Ht as [-> | ->]; unfold VarintType, BytesType; lia).
    rewrite pw_round by (unfold is_uint64; lia).
    replace (num * 8 + typ) with (typ + num * 8) by lia.
    rewrite Z.div_add, Z.div_small, Z.mod_add, Z.mod_small by lia; done.
  - intros v r Hv; by rewrite pw_round.
  - intros m r Hm; rewrite <- app_assoc; unfold pw_unbytes, pw_varint; rewrite unvarint_varint.
    2: { unfold len, max_int64 in *; change (128 ^ Z.of_nat 10) with (2 ^ 70); lia. }
    destruct (Z.leb_spec (len m) (len (varint 9 (len m) ++ m ++ r) - Z.of_nat (length (varint 9 (len m))))) as [_|H].
    + f_equal; [|unfold len; rewrite length_app; lia].
      rewrite drop_app_length; unfold len; by rewrite Nat2Z.id, take_app_length.
    + unfold len in H; rewrite !length_app in H; lia.
  - done.
  - done.
  - done.
  - intros b; pose proof (pw_size b) as H; by destruct (pw_unvarint b).
  - intros b; pose proof (pw_size b); lia.
  - apply pw_bytes_size.
  - intros num typ b; destruct (typ =? VarintType); [pose proof (pw_size b); lia|].
    destruct (typ =? BytesType); [apply pw_bytes_size|].
    destruct ((typ =? 1) && (8 <=? len b)) eqn:E1; [apply andb_prop in E1 as [_ ?%Z.leb_le]; lia|].
    destruct ((typ =? 5) && (4 <=? len b)) eqn:E2; [apply andb_prop in E2 as [_ ?%Z.leb_le]; lia|lia].
  - intros m; unfold len; rewrite length_app; lia.
Qed.

(** * The guard *)
Definition ex_limiter : rateLimiter := newRateLimiter 2 (60 * second).
Definition ex_events : list (Z * string) :=
  [(0, "10.0.0.1"%string); (1, "10.0.0.1"%string); (2, "10.0.0.1"%string); (3, "10.0.0.2"%string)].

Lemma ex_limiter_inv : limiter_inv ex_limiter.
Proof. split; [done|done|intros k; done]. Qed.

Lemma allowed_bound_witness : allowed "10.0.0.1" ex_events ex_limiter = 2
  ∧ allowed "10.0.0.1" ex_events ex_limiter <= 2 * limit ex_limiter.
Proof.
  split; [vm_compute; reflexivity|].
  apply (allowed_bound "10.0.0.1" ex_events ex_limiter 0).
  - apply ex_limiter_inv.
  - repeat constructor; vm_compute; done.
Defined.

Definition ex_full : rateLimiter := (allow 1 "10.0.0.1" (allow 0 "10.0.0.1" ex_limiter).2).2.
Lemma ex_full_inv : limiter_inv ex_full.
Proof.
  split; [done|done|]; intros k; unfold count.
  change (counts ex_full) with ({["10.0.0.1"%string := 2]} : gmap string Z); destruct (decide (k = "10.0.0.1"%string)) as [->|Hk];
    [by rewrite lookup_singleton_eq|by rewrite lookup_singleton_ne].
Qed.

(** The third request of the minute waits for its end. *)
Lemma refused_retry_witness : ∃ wait first l', allow (30 * second) "10.0.0.1" ex_full = (false, wait, first, l')
  ∧ wait = 30 * second ∧ 0 < wait <= window ex_full ∧ counts l' = counts (roll (30 * second) ex_full)
  ∧ (30 * second + retryAfter wait * second <= 60 * second -> (allow (60 * second) "10.0.0.1" l').1.1.1 = true).
Proof.
  eexists _, _, _; split; [vm_compute; reflexivity|]; split; [vm_compute; reflexivity|].
  apply (refused_retry (30 * second) (60 * second) "10.0.0.1" ex_full _ true _ ex_full_inv); [done|done|vm_compute; reflexivity].
Defined.

(** * The handshake *)
Definition ex_verify (pub msg sig : bytes) : bool := bool_decide (sig = pub ++ msg).
Definition ex_account (pub : bytes) : string := "sent1alice".
Definition ex_pub : bytes := replicate 33 x07.
Definition ex_request : bytes := ex_key x02.
Definition ex_body : HandshakeBody :=
  mkBody (Base64.EncodeToString ex_request) 5 ("secp256k1:" +:+ Base64.EncodeToString ex_pub)
    (Base64.EncodeToString (ex_pub ++ signed_message 5 ex_request)).

Lemma verifyHandshake_binds_witness :
  verifyHandshake ex_verify ex_account ex_body = inr ("sent1alice"%string, ex_request)
  ∧ ∃ raw signature, length raw = PubKeySize ∧ "sent1alice"%string = ex_account raw ∧ body_ID ex_body ≠ 0
    ∧ ex_verify raw (signed_message (body_ID ex_body) ex_request) signature = true
    ∧ forall id' data', is_uint64 id' ->
        signed_message id' data' = signed_message (body_ID ex_body) ex_request ->
        id' = body_ID ex_body ∧ data' = ex_request.
Proof.
  assert (H : verifyHandshake ex_verify ex_account ex_body = inr ("sent1alice"%string, ex_request))
    by (vm_compute; reflexivity).
  split; [exact H|]; apply (verifyHandshake_binds ex_verify ex_account ex_body _ _ H); done.
Defined.

(** A digest of the right size: the first 32 bytes. *)
Definition ex_digest (x : bytes) : bytes := take 32 (x ++ replicate 32 x00).
Lemma ex_digest_length x : length (ex_digest x) = 32%nat.
Proof. unfold ex_digest; rewrite length_take, length_app, length_replicate; lia. Qed.

(** The toy digest looks at the start of its input only, so two replies that
    differ in the session id have different digests, and equal ones agree. *)
Lemma replyDigest_binds_witness :
  ([x01] = [x01] ∧ [x02] = [x02] ∧ ["a"%string] = ["a"%string])
  ∧ ((5 = 5 ∧ [x01] = [x01] ∧ [x02] = [x02] ∧ ["a"%string] = ["a"%string])
     ∨ collision ex_digest (reply_preimage ex_digest 5 [x01] [x02] ["a"%string]) (reply_preimage ex_digest 5 [x01] [x02] ["a"%string])
     ∨ collision ex_digest [x01] [x01] ∨ collision ex_digest [x02] [x02]).
Proof.
  split; [done|].
  apply (replyDigest_binds ex_digest 5 5 [x01] [x01] [x02] [x02] ["a"%string] ["a"%string] ex_digest_length); try done.
  - constructor; [apply (bool_decide_unpack (newline ∉ _)); vm_compute; exact I|constructor].
  - constructor; [apply (bool_decide_unpack (newline ∉ _)); vm_compute; exact I|constructor].
Defined.

(** A service whose peer requests are the peer data. *)
#[export] Instance setservice_api : ServiceAPI setservice := {
  Payload := bytes;
  ParsePeerRequest raw s := (if bool_decide (raw = []) then inl "empty request"%string else inr raw, s);
  HandshakePayload res s := (inr res, s);
  Info _ := []
}.
#[export] Instance setservice_api_laws : ServiceAPILaws setservice.
Proof.
  split; cbn.
  - intros s raw r s' _ [= <- <-]; split_and!; try done; by case_bool_decide.
  - by intros s peer r s' _ [= <- <-].
Qed.

Definition ex_sign (d : bytes) : result (bytes * bytes) := inr (d, ex_pub).
Definition ex_text (c : api_cause) : string := "refused".
Definition ex_marshal (p : Payload (S := setservice)) : result bytes := inr p.
Definition ex_handshake (body : result HandshakeBody) :=
  HandlerHandshake ex_digest 250 "sentnode1" ex_verify ex_account ex_sign ex_text ex_marshal "1.2.3.4" (Some "node.example"%string)
    body ex_node.

Lemma handshake_ok_witness : ∃ rep, (ex_handshake (inr ex_body)).1 = inr rep ∧ r_status rep = StatusOK
  ∧ ∃ acc id data peerData result,
      asked ex_verify ex_account (inr ex_body) ex_node acc id data peerData
      ∧ served 250 "sentnode1" acc id peerData ex_node (ex_handshake (inr ex_body)).2
      ∧ r_body rep = NewResponseResult result ∧ hr_Addrs result = nodeAddrs "1.2.3.4" (Some "node.example"%string)
      ∧ (∃ s peer s1 payload text, AddPeer peerData s = (inr peer, s1) ∧ peer_set s ⊆ peer_set (svc ex_node)
           ∧ HandshakePayload peer s1 = (inr payload, svc (ex_handshake (inr ex_body)).2) ∧ ex_marshal payload = inr text
           ∧ hr_Data result = Base64.EncodeToString text)
      ∧ forall sig, signReply ex_digest ex_sign id data result = inr sig -> r_headers rep = [(ReplySignatureHeader, sig)].
Proof.
  eexists; split; [vm_compute; reflexivity|].
  apply (handshake_ok ex_digest 250 "sentnode1" ex_verify ex_account ex_sign ex_text ex_marshal "1.2.3.4"
    (Some "node.example"%string) (inr ex_body) ex_node _ _ ex_node_inv).
  apply run_outcome; vm_compute; reflexivity.
Defined.


(** * The pools *)
Lemma skipEdges_terminates_witness : advance4 [x0a; x08; x00; xff] = [x0a; x08; x01; x01]
  ∧ edge (advance4 [x0a; x08; x00; xff]) = false.
Proof. split; [vm_compute; reflexivity|]; by apply (skipEdges_terminates [x0a; x08; x00; xff]). Defined.

(** * WireGuard: a tool that obeys *)
#[export] Instance obedient : Tool unit := fun _ t => (inr ""%string, t).
Definition ex_ip (b : bytes) : string := Base64.EncodeToString b.
Definition ex_wg : wireguard unit := wg_new tt.

Definition ex_wg_key : bytes := replicate 32 x09.
Definition ex_wg_add := wg_AddPeer "wg0" true ex_ip ex_wg_key ex_wg.

Lemma wg_peer_addresses_witness : ∃ res, ex_wg_add.1 = inr res
  ∧ ∃ v4 v6, res = v4 ++ v6 ∧ length v4 = 4%nat ∧ length v6 = 16%nat
    ∧ (forall k v, wg_peers ex_wg !! k = Some v -> pIPv4 v ≠ v4 ∧ (true = true -> pIPv6 v ≠ v6))
    ∧ wg_HandshakePayload ex_ip [] res = inr (mkPayload
        ((ex_ip v4 +:+ "/32")%string :: [(ex_ip v6 +:+ "/128")%string]) [(ListenPort [], PublicKey [])]).
Proof.
  eexists; split; [vm_compute; reflexivity|].
  eapply (wg_peer_addresses "wg0" true ex_ip [] (BE.get IPv4CIDR.1) (BE.get IPv6CIDR.1) (f6_pos "wg0" true ex_ip) ex_wg ex_wg_key).
  - eapply wt_inv, (wg_new_tight "wg0" true ex_ip tt).
  - apply run_outcome; vm_compute; reflexivity.
Defined.

Lemma wg_pools_suffice_witness : wg_PeerCount ex_wg = 0
  ∧ ∃ v4 v6 p, IPPool_Get (wg_pool ex_wg) = (inr (v4, v6), p).
Proof.
  split; [done|]; apply (wg_pools_suffice "wg0" true ex_ip ex_wg); [constructor|done].
Defined.

(** * Hysteria: a server that kicks and counts nothing *)
#[export] Instance quiet_stats : StatsAPI unit := {
  kick _ a := (inr 200, a); traffic_clear a := (inr (200, Some ∅), a) }.
Definition ex_uuid : bytes := replicate 16 x0b.
Definition ex_hy : hysteria unit := (hy_AddPeer ex_uuid (hy_New tt)).2.

Lemma handleAuth_exact_witness :
  handleAuth true (Some (FormatUUID ex_uuid)) ex_hy = mkAuth 200 true (Base64.EncodeToString ex_uuid)
  ∧ true = true ∧ ∃ d, length d = UUIDLen ∧ Some (FormatUUID ex_uuid) = Some (FormatUUID d)
    ∧ Base64.EncodeToString ex_uuid = Base64.EncodeToString d ∧ hy_HasPeer d ex_hy = true.
Proof.
  assert (H : handleAuth true (Some (FormatUUID ex_uuid)) ex_hy = mkAuth 200 true (Base64.EncodeToString ex_uuid))
    by (vm_compute; reflexivity).
  split; [exact H|]; apply (handleAuth_exact ex_hy true (Some (FormatUUID ex_uuid))); [|by rewrite H].
  eapply hy_adds; [apply (hy_start tt)|apply run_outcome; reflexivity].
Defined.

(** * Xray *)
Lemma requests_decode_witness :
  decodeRequest (addUserRequest "vless" "key" "uuid" "")
    = Some (AddUser (str "vless") (str "key") (str "uuid") (str "") (str "none"))
  ∧ decodeRequest (removeUserRequest "vless" "key") = Some (RemoveUser (str "vless") (str "key"))
  ∧ decodeQuery (queryStatsRequest "user>>>" false) = Some (str "user>>>", false).
Proof. by apply (requests_decode "vless" "key" "uuid" "" "user>>>" false). Defined.

Definition ex_users : list (string * (Z * Z)) := [("k1"%string, (10, 20)); ("k2"%string, (0, -3))].

Lemma parseQueryStats_witness :
  parseQueryStatsResponse [x08] = Some (inl "unexpected EOF"%string)
  ∧ parseQueryStatsResponse (wire (item_field <$> report ex_users)) = Some (inr (foldl item_step ∅ (report ex_users))).
Proof.
  split; [vm_compute; reflexivity|].
  apply (proj2 parseQueryStatsResponse_correct); [apply report_valid|vm_compute; done].
Defined.

(** The proxy lists its counters as they come. *)
Definition ex_reply : list item := rev (report ex_users).
#[export] Instance ex_grpc : GRPC unit := {
  NewClient _ a := (inr tt, a);
  CloseConn a := a;
  Invoke method _ a := (inr (if bool_decide (method = methodQueryStats)
    then wire (item_field <$> ex_reply) else []), a)
}.
Definition ex_xconfig : XConfig := mkXConfig (mkVLESS 443 "tls" true) (mkReality "" "" "" "" "") 9000.
Definition ex_xray : xray unit :=
  mkXRay [] ex_xconfig {["k2"%string; "k3"%string]} "" true tt.

Lemma xr_peers_metered_witness : ∃ items s', xr_Peers ex_xray = (inr items, s') ∧ x_peers s' = x_peers ex_xray
  ∧ NoDup (p_Key <$> items)
  ∧ (forall p, p ∈ items <-> p_Key p ∈ x_peers ex_xray ∧ (p_Upload p, p_Download p) = counted ex_users (p_Key p)).
Proof.
  apply (xr_peers_metered ex_xray ex_users ex_reply tt); [done|..|vm_compute; done|done].
  - apply (bool_decide_unpack (NoDup _)); vm_compute; exact I.
  - repeat constructor; done.
  - unfold ex_reply; symmetry; apply Permutation_rev.
Defined.

(** * OpenVPN: the management interface *)
Definition ex_ok : line := lit "SUCCESS: killed".
Definition ex_note : line := lit ">INFO:hello".
Definition ex_m0 : msys := mkSys newManagement [] [] [].
Definition ex_m1 : msys := mkSys (enqueue 0 true (client ex_m0)) [(0%nat, [lit "TITLE"; lit "END"])] [(0%nat, [lit "TITLE"; lit "END"])] [].
Definition ex_m2 : msys := mkSys (enqueue 1 false (client ex_m1)) (unsent ex_m1 ++ [(1%nat, [ex_ok])]) (replies ex_m1 ++ [(1%nat, [ex_ok])]) [].
Definition ex_m3 : msys := mkSys (read_line (fun _ => true) (lit "TITLE") (client ex_m2)).1 [(0%nat, [lit "END"]); (1%nat, [ex_ok])] (replies ex_m2) [].
Definition ex_m4 : msys := mkSys (read_line (fun _ => true) ex_note (client ex_m3)).1 (unsent ex_m3) (replies ex_m2) [].
Definition ex_m5 : msys := mkSys (read_line (fun _ => true) (lit "END") (client ex_m4)).1 [(1%nat, [ex_ok])] (replies ex_m2) [].
Definition ex_m6 : msys := mkSys (enqueue 2 true (client ex_m5)) (unsent ex_m5) (replies ex_m5) [2%nat].

Lemma ex_m6_reach : mreach ex_m6.
Proof.
  apply (mreach_step ex_m5); [|by apply (step_failed ex_m5 2 true)].
  apply (mreach_step ex_m4); [|by apply (step_reply ex_m4 (fun _ => true) 0 (lit "END") [] [(1%nat, [ex_ok])])].
  apply (mreach_step ex_m3); [|by apply (step_event ex_m3 (fun _ => true) ex_note)].
  apply (mreach_step ex_m2); [|by apply (step_reply ex_m2 (fun _ => true) 0 (lit "TITLE") [lit "END"] [(1%nat, [ex_ok])])].
  apply (mreach_step ex_m1); [|apply (step_run ex_m1 1 false [ex_ok]); [done|split; [done|by apply finished_closes]]].
  apply (mreach_step ex_m0); [constructor|apply (step_run ex_m0 0 true [lit "TITLE"; lit "END"]); [done|]].
  split; [done|split; [by rewrite <- finished_closes|split; [done|by apply finished_closes]]].
Qed.

Lemma replies_routed_witness : answered (client ex_m6) = [(0%nat, [lit "TITLE"; lit "END"])]
  ∧ (answered (client ex_m6)) `prefix_of` (replies ex_m6)
  ∧ (length (replies ex_m6) + length (failed ex_m6) = length (answered (client ex_m6)) + length (pending (client ex_m6)))%nat
  ∧ (unsent ex_m6 = [] -> answered (client ex_m6) = replies ex_m6 ∧ pc_id <$> pending (client ex_m6) = failed ex_m6).
Proof. split; [vm_compute; reflexivity|]; apply (replies_routed ex_m6), ex_m6_reach. Defined.

(** A connection whose block is cut by a reply line and a notification. *)
Definition ex_env : list (line * line) := [(lit "n_clients", lit "0"); (lit "common_name", lit "alice")].
Definition ex_lines : list line :=
  [header_line "CONNECT" (lit "3") (lit "1"); lit "TITLE"; env_line (lit "n_clients", lit "0"); ex_note;
   env_line (lit "common_name", lit "alice"); end_line].
Definition ex_admits (cn : line) : bool := bool_decide (cn = lit "alice").

Lemma event_decided_witness :
  event (read_lines ex_admits ex_lines (client ex_m1)).1 = None
  ∧ (read_lines ex_admits ex_lines (client ex_m1)).2 = [ClientAuth (lit "3") (lit "1")].
Proof.
  apply (event_decided ex_admits "CONNECT" (lit "3") (lit "1") ex_env ex_lines (client ex_m1)).
  - constructor.
  - apply (bool_decide_unpack (comma ∉ _)); vm_compute; exact I.
  - repeat constructor; apply (bool_decide_unpack (equals ∉ _)); vm_compute; exact I.
  - vm_compute; reflexivity.
Defined.

(** ** The service *)
#[export] Instance ex_mgmt : Management unit := fun _ _ a => (inr [], a).
#[export] Instance ex_pki : PKI unit := fun cn a => (inr (str cn, [x01; x02]), a).
Definition ex_ov0 : openvpn unit := mkOVPN ∅ ∅ PeerSet_New true true tt.
Definition ex_ov : openvpn unit := (ov_AddPeer ex_uuid ex_ov0).2.

Lemma ex_ov_reach : ov_reach ex_ov.
Proof.
  eapply ov_adds; [apply (ov_host (ov_New tt) true true tt (ov_start tt))|apply run_outcome; reflexivity].
Qed.

Lemma ov_admit_exact_witness : ov_admit (FormatUUID ex_uuid) ex_ov = true
  ∧ ∃ d, length d = UUIDLen ∧ FormatUUID ex_uuid = FormatUUID d ∧ ov_HasPeer d ex_ov = true.
Proof.
  assert (H : ov_admit (FormatUUID ex_uuid) ex_ov = true) by (vm_compute; reflexivity).
  split; [exact H|]; by apply (ov_admit_exact ex_ov (FormatUUID ex_uuid) ex_ov_reach).
Defined.

Definition ex_status : clientStatus := mkStatus (lit (FormatUUID ex_uuid)) 70 80 (lit "3").
Definition ex_live : gmap string clientStatus := {[FormatUUID ex_uuid := ex_status]}.
Definition ex_ov_after : openvpn unit := disconnected (FormatUUID ex_uuid) 70 80 ex_ov.

Lemma ov_usage_kept_witness :
  usage (byCN ex_ov_after) (closed ex_ov_after) (delete (FormatUUID ex_uuid) ex_live) (Base64.EncodeToString ex_uuid)
  = usage (byCN ex_ov) (closed ex_ov) ex_live (Base64.EncodeToString ex_uuid).
Proof.
  apply (ov_usage_kept ex_ov ex_uuid ex_live ex_status ex_ov_reach); try done.
Defined.

Lemma ov_payload_witness : ∃ res, (ov_AddPeer ex_uuid ex_ov0).1 = inr res
  ∧ ∃ cert key a, issueClient (FormatUUID ex_uuid) (o_ext ex_ov0) = (inr (cert, key), a)
    ∧ ((0 < length cert)%nat -> Z.of_nat (length cert) < 2 ^ 32 ->
       ov_HandshakePayload 1194 "udp" [] [] res ex_ov = inr (mkOvPayload 1194 "udp" [] [] cert key)).
Proof.
  eexists; split; [vm_compute; reflexivity|].
  apply (ov_payload_roundtrip ex_uuid ex_ov0 _ ex_ov); apply run_outcome; vm_compute; reflexivity.
Defined.

Lemma static_key_witness :
  ∃ file, staticKeyFile (replicate 256 x5a) = Some file ∧ parseStaticKeyFile file = inr (replicate 256 x5a).
Proof. by apply (static_key_roundtrip (replicate 256 x5a)). Defined.

Lemma uuid_request_witness :
  ParseUUID (FormatUUID ex_uuid) = inr ex_uuid
  ∧ UUIDPeerRequest (Some {| ur_uuid := Some (JStr (FormatUUID ex_uuid)); ur_public_key := None |}) = inr ex_uuid
  ∧ UUIDPeerRequest (Some {| ur_uuid := Some (JArr ((fun b => EInt (byte_to_Z b)) <$> ex_uuid)); ur_public_key := None |}) = inr ex_uuid
  ∧ forall raw id, UUIDPeerRequest raw = inr id -> length id = UUIDLen.
Proof. by apply (uuid_request_roundtrip ex_uuid None). Defined.
